(** * TIES20 topology superimposer: a shallow embedding of
      [ties/topology_superimposer.py] and the properties of its
      superimposed-topology bookkeeping, overlay kernel and orchestrator.

    Conventions of the embedding.
    - A Python exception is a value of [exn]; a call that may raise returns
      [res A].  Python's [None] result of [_overlay] is [option].
    - A Python [set] is a duplicate-free list (the list order stands for the
      iteration order, which Python leaves unspecified); a Python [dict] is an
      insertion-ordered association list.
    - Atom charges are Python floats in the source; they are exact rationals
      here, so rounding of the float operations is not part of the model.
    - An [AtomNode] is identified by its [unique_counter], which the
      constructor draws from a class-wide counter; equality of the record is
      therefore object identity.  The [bonds] attribute of an atom is a
      function from atoms to their bond sets.
    - Code of numpy, networkx and MDAnalysis (cycle bases, connected
      components, alignment and RMSD) is taken as a parameter. *)

From stdpp Require Import base gmap.
From Stdlib Require Import String Ascii List ZArith QArith Qabs Qround Bool Lia Lqa.
From Stdlib Require Import Sorted Permutation OrderedTypeEx DecimalString DecimalZ DecimalPos.
Import ListNotations.
Open Scope string_scope.
Open Scope list_scope.

(** ** Python primitives *)

Inductive exn : Type :=
| ValueError
| KeyError
| IndexError
| TypeError
| AttributeError
| AssertionError
| NotImplementedError
| ZeroDivisionError
| Exception_ (msg : string)
| OutOfFuel (** not a Python exception: the recursion bound of the model ran out *).

Inductive res (A : Type) : Type :=
| Ok (a : A)
| Raise (e : exn).
Arguments Ok {A} a.
Arguments Raise {A} e.

#[global] Instance res_bind : MBind res := fun A B k m =>
  match m with
  | Ok a => k a
  | Raise e => Raise e
  end.

#[global] Instance res_ret : MRet res := fun A a => Ok a.

Definition py_assert (b : bool) : res unit :=
  if b then Ok tt else Raise AssertionError.

(** [for x in l: acc = f acc x], stopping at the first exception. *)
Fixpoint foldM {A B : Type} (f : B -> A -> res B) (l : list A) (acc : B) : res B :=
  match l with
  | [] => Ok acc
  | x :: l' => acc' ← f acc x; foldM f l' acc'
  end.

Section PyContainers.
Context {A : Type} (eqb : A -> A -> bool).

(** [x in l] *)
Definition py_in (x : A) (l : list A) : bool := existsb (eqb x) l.

(** [list.remove(x)]: drops the first element equal to [x]. *)
Fixpoint list_remove (x : A) (l : list A) : res (list A) :=
  match l with
  | [] => Raise ValueError
  | y :: l' => if eqb y x then Ok l'
               else l'' ← list_remove x l'; Ok (y :: l'')
  end.

(** [set.add(x)] *)
Definition set_add (x : A) (s : list A) : list A :=
  if py_in x s then s else s ++ [x].

(** [set.remove(x)] *)
Definition set_remove (x : A) (s : list A) : res (list A) :=
  if py_in x s then Ok (List.filter (fun y => negb (eqb y x)) s)
  else Raise KeyError.

(** [set(l)] *)
Definition set_of_list (l : list A) : list A :=
  fold_left (fun s x => set_add x s) l [].

(** [s1.intersection(s2)] *)
Definition set_inter (s1 s2 : list A) : list A :=
  List.filter (fun x => py_in x s2) s1.

(** [s1 == s2] on sets *)
Definition set_eqb (s1 s2 : list A) : bool :=
  forallb (fun x => py_in x s2) s1 && forallb (fun x => py_in x s1) s2.
End PyContainers.

Section PyDict.
Context {K V : Type} (eqb : K -> K -> bool).

(** [k in d] and [d[k]] *)
Fixpoint dict_get (k : K) (d : list (K * V)) : option V :=
  match d with
  | [] => None
  | (k', v) :: d' => if eqb k' k then Some v else dict_get k d'
  end.

Definition dict_has (k : K) (d : list (K * V)) : bool :=
  match dict_get k d with
  | Some _ => true
  | None => false
  end.

Definition dict_lookup (k : K) (d : list (K * V)) : res V :=
  match dict_get k d with
  | Some v => Ok v
  | None => Raise KeyError
  end.

(** [d[k] = v]: an existing key keeps its position, a new one goes last. *)
Fixpoint dict_set (k : K) (v : V) (d : list (K * V)) : list (K * V) :=
  match d with
  | [] => [(k, v)]
  | (k', v') :: d' => if eqb k' k then (k', v) :: d'
                      else (k', v') :: dict_set k v d'
  end.

(** [del d[k]] (the caller has read [d[k]] first) *)
Definition dict_del (k : K) (d : list (K * V)) : list (K * V) :=
  List.filter (fun kv => negb (eqb (fst kv) k)) d.
End PyDict.

(** [list.sort(key=...)]: Python's sort is stable, and a stable sort is
    determined by its input; insertion from the right is one. *)
Section PySort.
Context {A : Type} (le : A -> A -> bool).

Fixpoint sort_insert (x : A) (l : list A) : list A :=
  match l with
  | [] => [x]
  | y :: l' => if le x y then x :: y :: l' else y :: sort_insert x l'
  end.

Definition py_sort (l : list A) : list A := fold_right sort_insert [] l.
End PySort.

(** ** Atoms *)

(** [element_from_type]: the GAFF atom types and their elements. *)
Definition element_from_type : list (string * string) :=
  map (fun t => (t, "C"))
      ["C"; "CA"; "CB"; "C3"; "CX"; "C1"; "C2"; "CC";
       "CD"; "CE"; "CF"; "CP"; "CQ"; "CU"; "CV"; "CY";
       "CZ"; "CG"; "CS"; "CH"; "C1"] ++
  map (fun t => (t, "H"))
      ["H"; "HA"; "HN"; "H4"; "HC"; "H1"; "HX";
       "HO"; "HS"; "HP"; "H2"; "H3"; "H5"] ++
  map (fun t => (t, "P"))
      ["P2"; "P3"; "P4"; "P5"; "PB"; "PC";
       "PD"; "PE"; "PF"; "PX"; "PY"] ++
  map (fun t => (t, "O")) ["O"; "OH"; "OS"; "OP"; "OQ"] ++
  map (fun t => (t, "N"))
      ["N"; "NB"; "NS"; "N1"; "N2"; "N3";
       "N4"; "NA"; "NH"; "NO"; "NC"; "ND"; "NU";
       "NE"; "NF"; "NT"; "NX"; "NY"; "NZ"; "N+";
       "NV"; "N7"; "N8"; "N9"; "NI"; "NJ"; "NK";
       "NL"; "NM"; "NN"; "NP"; "NQ"; "N5"; "N6"] ++
  [("CL", "CL"); ("F", "F"); ("BR", "BR"); ("B", "BR"); ("I", "I")] ++
  map (fun t => (t, "S"))
      ["S"; "S2"; "SH"; "SS"; "S4";
       "S6"; "SX"; "SY"; "SP"; "SQ"].

(** [str.upper()] on ASCII letters *)
Definition upper_ascii (c : ascii) : ascii :=
  let n := nat_of_ascii c in
  if (97 <=? n)%nat && (n <=? 122)%nat then ascii_of_nat (n - 32) else c.

Fixpoint upper (s : string) : string :=
  match s with
  | EmptyString => EmptyString
  | String c s' => String (upper_ascii c) (upper s')
  end.

(** A bond order tag; the seed call of the kernel passes [None]. *)
Definition bond : Type := option string.

Record AtomNode : Type := {
  name : string;
  type : string;
  element : string;
  charge : Q;
  use_general_type : bool;
  unique_counter : nat
}.

#[global] Instance Q_eq_dec : EqDecision Q.
Proof. solve_decision. Defined.

#[global] Instance string_eq_dec : EqDecision string := String.string_dec.

#[global] Instance AtomNode_eq_dec : EqDecision AtomNode.
Proof. solve_decision. Defined.

(** [AtomNode.__init__]; [counter] is the value of [AtomNode.counter]. *)
Definition new_AtomNode (counter : nat) (name_ atom_type : string) (charge_ : Q)
    (use_general_type_ : bool) : res AtomNode :=
  element_ ← dict_lookup String.eqb (upper atom_type) element_from_type;
  Ok {| name := upper name_;
        type := upper atom_type;
        element := element_;
        charge := charge_;
        use_general_type := use_general_type_;
        unique_counter := counter |}.

(** [np.isclose(a, b, atol=atol)] with numpy's default [rtol = 1e-05]:
    [|a - b| <= atol + rtol * |b|].  Both sides are exact here; numpy
    rounds each of them to a float64, so the two can differ where |a - b|
    is within a rounding of the bound. *)
Definition np_isclose (a b atol : Q) : bool :=
  Qle_bool (Qabs (a - b)) (atol + (1 # 100000) * Qabs b).

(** [AtomNode.eq] *)
Definition AtomNode_eq (self atom : AtomNode) (atol : Q) : bool :=
  String.eqb (type self) (type atom) && np_isclose (charge self) (charge atom) atol.

(** [AtomNode.same_element] *)
Definition same_element (self atom : AtomNode) : bool :=
  if use_general_type self then String.eqb (element self) (element atom)
  else String.eqb (type self) (upper (type atom)).

(** [AtomNode.same_type] *)
Definition same_type (self atom : AtomNode) : bool :=
  String.eqb (type self) (upper (type atom)).

(** [a is b] on atoms, and [==] on tuples of atoms *)
Definition atom_eqb (a b : AtomNode) : bool := bool_decide (a = b).

Definition pair : Type := AtomNode * AtomNode.

Definition pair_eqb (p q : pair) : bool := bool_decide (p = q).

(** [a is b] where either may be [None] *)
Definition opt_atom_is (a : option AtomNode) (b : AtomNode) : bool :=
  match a with
  | Some a' => atom_eqb a' b
  | None => false
  end.

(** An entry of a bond set in [matched_pairs_bonds]: the bonded pair and the
    bond orders on the left and on the right. *)
Definition bond_types : Type := bond * bond.
Definition bonded : Type := pair * bond_types.

Definition bonded_eqb (x y : bonded) : bool := bool_decide (x = y).

(** Entries of [nodes_added_log] *)
Inductive log_entry : Type :=
| Added (p : pair)
| Removed (p : pair)
| MergedWith (ps : list pair).

(** ** SuperimposedTopology *)

(** The attributes of a [SuperimposedTopology] that the superimposition
    reads and writes.  [mirrors] and [alternative_mappings] hold references
    to other [SuperimposedTopology] objects.  The two cycle lists are absent
    ([None]) when the object was built without topologies. *)
Record SuperimposedTopology : Type := {
  matched_pairs : list pair;
  top1 : option (list AtomNode);
  top2 : option (list AtomNode);
  mirrors : list nat;
  alternative_mappings : list nat;
  nodes : list AtomNode;
  nodes_added_log : list log_entry;
  matched_pairs_bonds : list (pair * list bonded);
  ignore_bond_types : bool;
  left_coords_are_ref : bool;
  _removed_pairs_with_charge_difference : list (pair * Q);
  _removed_because_disjointed_cc : list pair;
  _removed_due_to_net_charge : list (pair * Q);
  _removed_because_unmatched_rings : list pair;
  _removed_because_diff_bonds : list (pair * pair);
  _nonoverlapping_l_cycles : option (list (list AtomNode));
  _nonoverlapping_r_cycles : option (list (list AtomNode))
}.

Definition set_matched_pairs (st : SuperimposedTopology) v :=
  {| matched_pairs := v; top1 := top1 st; top2 := top2 st;
     mirrors := mirrors st; alternative_mappings := alternative_mappings st;
     nodes := nodes st; nodes_added_log := nodes_added_log st;
     matched_pairs_bonds := matched_pairs_bonds st;
     ignore_bond_types := ignore_bond_types st;
     left_coords_are_ref := left_coords_are_ref st;
     _removed_pairs_with_charge_difference := _removed_pairs_with_charge_difference st;
     _removed_because_disjointed_cc := _removed_because_disjointed_cc st;
     _removed_due_to_net_charge := _removed_due_to_net_charge st;
     _removed_because_unmatched_rings := _removed_because_unmatched_rings st;
     _removed_because_diff_bonds := _removed_because_diff_bonds st;
     _nonoverlapping_l_cycles := _nonoverlapping_l_cycles st;
     _nonoverlapping_r_cycles := _nonoverlapping_r_cycles st |}.

Definition set_nodes (st : SuperimposedTopology) v :=
  {| matched_pairs := matched_pairs st; top1 := top1 st; top2 := top2 st;
     mirrors := mirrors st; alternative_mappings := alternative_mappings st;
     nodes := v; nodes_added_log := nodes_added_log st;
     matched_pairs_bonds := matched_pairs_bonds st;
     ignore_bond_types := ignore_bond_types st;
     left_coords_are_ref := left_coords_are_ref st;
     _removed_pairs_with_charge_difference := _removed_pairs_with_charge_difference st;
     _removed_because_disjointed_cc := _removed_because_disjointed_cc st;
     _removed_due_to_net_charge := _removed_due_to_net_charge st;
     _removed_because_unmatched_rings := _removed_because_unmatched_rings st;
     _removed_because_diff_bonds := _removed_because_diff_bonds st;
     _nonoverlapping_l_cycles := _nonoverlapping_l_cycles st;
     _nonoverlapping_r_cycles := _nonoverlapping_r_cycles st |}.

Definition set_nodes_added_log (st : SuperimposedTopology) v :=
  {| matched_pairs := matched_pairs st; top1 := top1 st; top2 := top2 st;
     mirrors := mirrors st; alternative_mappings := alternative_mappings st;
     nodes := nodes st; nodes_added_log := v;
     matched_pairs_bonds := matched_pairs_bonds st;
     ignore_bond_types := ignore_bond_types st;
     left_coords_are_ref := left_coords_are_ref st;
     _removed_pairs_with_charge_difference := _removed_pairs_with_charge_difference st;
     _removed_because_disjointed_cc := _removed_because_disjointed_cc st;
     _removed_due_to_net_charge := _removed_due_to_net_charge st;
     _removed_because_unmatched_rings := _removed_because_unmatched_rings st;
     _removed_because_diff_bonds := _removed_because_diff_bonds st;
     _nonoverlapping_l_cycles := _nonoverlapping_l_cycles st;
     _nonoverlapping_r_cycles := _nonoverlapping_r_cycles st |}.

Definition set_matched_pairs_bonds (st : SuperimposedTopology) v :=
  {| matched_pairs := matched_pairs st; top1 := top1 st; top2 := top2 st;
     mirrors := mirrors st; alternative_mappings := alternative_mappings st;
     nodes := nodes st; nodes_added_log := nodes_added_log st;
     matched_pairs_bonds := v;
     ignore_bond_types := ignore_bond_types st;
     left_coords_are_ref := left_coords_are_ref st;
     _removed_pairs_with_charge_difference := _removed_pairs_with_charge_difference st;
     _removed_because_disjointed_cc := _removed_because_disjointed_cc st;
     _removed_due_to_net_charge := _removed_due_to_net_charge st;
     _removed_because_unmatched_rings := _removed_because_unmatched_rings st;
     _removed_because_diff_bonds := _removed_because_diff_bonds st;
     _nonoverlapping_l_cycles := _nonoverlapping_l_cycles st;
     _nonoverlapping_r_cycles := _nonoverlapping_r_cycles st |}.

Definition set_removed_q (st : SuperimposedTopology) v :=
  {| matched_pairs := matched_pairs st; top1 := top1 st; top2 := top2 st;
     mirrors := mirrors st; alternative_mappings := alternative_mappings st;
     nodes := nodes st; nodes_added_log := nodes_added_log st;
     matched_pairs_bonds := matched_pairs_bonds st;
     ignore_bond_types := ignore_bond_types st;
     left_coords_are_ref := left_coords_are_ref st;
     _removed_pairs_with_charge_difference := v;
     _removed_because_disjointed_cc := _removed_because_disjointed_cc st;
     _removed_due_to_net_charge := _removed_due_to_net_charge st;
     _removed_because_unmatched_rings := _removed_because_unmatched_rings st;
     _removed_because_diff_bonds := _removed_because_diff_bonds st;
     _nonoverlapping_l_cycles := _nonoverlapping_l_cycles st;
     _nonoverlapping_r_cycles := _nonoverlapping_r_cycles st |}.

Definition set_removed_net (st : SuperimposedTopology) v :=
  {| matched_pairs := matched_pairs st; top1 := top1 st; top2 := top2 st;
     mirrors := mirrors st; alternative_mappings := alternative_mappings st;
     nodes := nodes st; nodes_added_log := nodes_added_log st;
     matched_pairs_bonds := matched_pairs_bonds st;
     ignore_bond_types := ignore_bond_types st;
     left_coords_are_ref := left_coords_are_ref st;
     _removed_pairs_with_charge_difference := _removed_pairs_with_charge_difference st;
     _removed_because_disjointed_cc := _removed_because_disjointed_cc st;
     _removed_due_to_net_charge := v;
     _removed_because_unmatched_rings := _removed_because_unmatched_rings st;
     _removed_because_diff_bonds := _removed_because_diff_bonds st;
     _nonoverlapping_l_cycles := _nonoverlapping_l_cycles st;
     _nonoverlapping_r_cycles := _nonoverlapping_r_cycles st |}.

Definition set_tops (st : SuperimposedTopology) (t1 t2 : list AtomNode) :=
  {| matched_pairs := matched_pairs st; top1 := Some t1; top2 := Some t2;
     mirrors := mirrors st; alternative_mappings := alternative_mappings st;
     nodes := nodes st; nodes_added_log := nodes_added_log st;
     matched_pairs_bonds := matched_pairs_bonds st;
     ignore_bond_types := ignore_bond_types st;
     left_coords_are_ref := left_coords_are_ref st;
     _removed_pairs_with_charge_difference := _removed_pairs_with_charge_difference st;
     _removed_because_disjointed_cc := _removed_because_disjointed_cc st;
     _removed_due_to_net_charge := _removed_due_to_net_charge st;
     _removed_because_unmatched_rings := _removed_because_unmatched_rings st;
     _removed_because_diff_bonds := _removed_because_diff_bonds st;
     _nonoverlapping_l_cycles := _nonoverlapping_l_cycles st;
     _nonoverlapping_r_cycles := _nonoverlapping_r_cycles st |}.

Definition set_flags (st : SuperimposedTopology) (ignore_bond_types_ left_coords_are_ref_ : bool) :=
  {| matched_pairs := matched_pairs st; top1 := top1 st; top2 := top2 st;
     mirrors := mirrors st; alternative_mappings := alternative_mappings st;
     nodes := nodes st; nodes_added_log := nodes_added_log st;
     matched_pairs_bonds := matched_pairs_bonds st;
     ignore_bond_types := ignore_bond_types_;
     left_coords_are_ref := left_coords_are_ref_;
     _removed_pairs_with_charge_difference := _removed_pairs_with_charge_difference st;
     _removed_because_disjointed_cc := _removed_because_disjointed_cc st;
     _removed_due_to_net_charge := _removed_due_to_net_charge st;
     _removed_because_unmatched_rings := _removed_because_unmatched_rings st;
     _removed_because_diff_bonds := _removed_because_diff_bonds st;
     _nonoverlapping_l_cycles := _nonoverlapping_l_cycles st;
     _nonoverlapping_r_cycles := _nonoverlapping_r_cycles st |}.

Definition set_removed_rings (st : SuperimposedTopology) v :=
  {| matched_pairs := matched_pairs st; top1 := top1 st; top2 := top2 st;
     mirrors := mirrors st; alternative_mappings := alternative_mappings st;
     nodes := nodes st; nodes_added_log := nodes_added_log st;
     matched_pairs_bonds := matched_pairs_bonds st;
     ignore_bond_types := ignore_bond_types st;
     left_coords_are_ref := left_coords_are_ref st;
     _removed_pairs_with_charge_difference := _removed_pairs_with_charge_difference st;
     _removed_because_disjointed_cc := _removed_because_disjointed_cc st;
     _removed_due_to_net_charge := _removed_due_to_net_charge st;
     _removed_because_unmatched_rings := v;
     _removed_because_diff_bonds := _removed_because_diff_bonds st;
     _nonoverlapping_l_cycles := _nonoverlapping_l_cycles st;
     _nonoverlapping_r_cycles := _nonoverlapping_r_cycles st |}.

(** [len(self)] *)
Definition st_len (self : SuperimposedTopology) : nat := length (matched_pairs self).

(** [contains_node] *)
Definition contains_node (self : SuperimposedTopology) (node : AtomNode) : bool :=
  (length (set_inter atom_eqb (nodes self) (set_of_list atom_eqb [node])) =? 1)%nat.

(** [contains_any_node] *)
Definition contains_any_node (self : SuperimposedTopology) (node_list : list AtomNode) : bool :=
  (0 <? length (set_inter atom_eqb (nodes self) (set_of_list atom_eqb node_list)))%nat.

(** [contains] *)
Definition contains (self : SuperimposedTopology) (node_pair : pair) : bool :=
  existsb (fun match_pair => pair_eqb match_pair node_pair) (matched_pairs self).

(** [get_pair_with_atom] *)
Definition get_pair_with_atom (self : SuperimposedTopology) (atom : AtomNode) : option pair :=
  find (fun p => atom_eqb (fst p) atom || atom_eqb (snd p) atom) (matched_pairs self).

(** The key of [matched_pairs.sort(key=lambda pair: pair[0].name)] *)
Definition left_name_le (p q : pair) : bool := String.leb (name (fst p)) (name (fst q)).

(** [add_node_pair] *)
Definition add_node_pair (self : SuperimposedTopology) (node_pair : pair)
    : res SuperimposedTopology :=
  _ ← py_assert (negb (py_in pair_eqb node_pair (matched_pairs self)));
  _ ← (if existsb (fun p => atom_eqb (fst node_pair) (fst p) && atom_eqb (snd node_pair) (snd p))
                  (matched_pairs self)
       then Raise (Exception_ "already exists") else Ok tt);
  let matched_pairs' := py_sort left_name_le (matched_pairs self ++ [node_pair]) in
  let '(n1, n2) := node_pair in
  _ ← py_assert (negb (py_in atom_eqb n1 (nodes self)) && negb (py_in atom_eqb n2 (nodes self)));
  let nodes' := set_add atom_eqb n2 (set_add atom_eqb n1 (nodes self)) in
  _ ← py_assert (length matched_pairs' * 2 =? length nodes')%nat;
  Ok (set_matched_pairs_bonds
        (set_nodes_added_log
           (set_nodes (set_matched_pairs self matched_pairs') nodes')
           (nodes_added_log self ++ [Added node_pair]))
        (dict_set pair_eqb node_pair [] (matched_pairs_bonds self))).

(** [matched_pairs_bonds[k].add(x)] for a key that is present *)
Definition bonds_add (k : pair) (x : bonded) (d : list (pair * list bonded))
    : res (list (pair * list bonded)) :=
  s ← dict_lookup pair_eqb k d;
  Ok (dict_set pair_eqb k (set_add bonded_eqb x s) d).

(** [link_pairs] *)
Definition link_pairs (self : SuperimposedTopology) (from_pair : pair) (pairs : list bonded)
    : res SuperimposedTopology :=
  _ ← py_assert (dict_has pair_eqb from_pair (matched_pairs_bonds self));
  d ← foldM (fun d '(pair_, bond_types_) =>
               _ ← py_assert (dict_has pair_eqb pair_ d);
               d1 ← bonds_add from_pair (pair_, bond_types_) d;
               bonds_add pair_ (from_pair, bond_types_) d1)
            pairs (matched_pairs_bonds self);
  Ok (set_matched_pairs_bonds self d).

(** [link_with_parent] *)
Definition link_with_parent (self : SuperimposedTopology) (pair_ parent : pair)
    (bond_type : bond_types) : res SuperimposedTopology :=
  _ ← py_assert (dict_has pair_eqb pair_ (matched_pairs_bonds self));
  _ ← py_assert (dict_has pair_eqb parent (matched_pairs_bonds self));
  d1 ← bonds_add parent (pair_, bond_type) (matched_pairs_bonds self);
  d2 ← bonds_add pair_ (parent, bond_type) d1;
  Ok (set_matched_pairs_bonds self d2).

(** The body of the loop of [remove_node_pair] over the bonded pairs: the
    bonded pair loses its entry for the removed pair. *)
Definition unlink (node_pair : pair) (d : list (pair * list bonded)) (b : bonded)
    : res (list (pair * list bonded)) :=
  let '(bound_pair, bond_type) := b in
  bound_pair_bonds ← dict_lookup pair_eqb bound_pair d;
  s ← set_remove bonded_eqb (node_pair, bond_type) bound_pair_bonds;
  Ok (dict_set pair_eqb bound_pair s d).

(** [remove_node_pair] *)
Definition remove_node_pair (self : SuperimposedTopology) (node_pair : pair)
    : res SuperimposedTopology :=
  matched_pairs' ← list_remove pair_eqb node_pair (matched_pairs self);
  nodes1 ← set_remove atom_eqb (fst node_pair) (nodes self);
  nodes2 ← set_remove atom_eqb (snd node_pair) nodes1;
  let log' := nodes_added_log self ++ [Removed node_pair] in
  bound_pairs ← dict_lookup pair_eqb node_pair (matched_pairs_bonds self);
  let d0 := dict_del pair_eqb node_pair (matched_pairs_bonds self) in
  d ← foldM (unlink node_pair) bound_pairs d0;
  Ok (set_matched_pairs_bonds
        (set_nodes_added_log
           (set_nodes (set_matched_pairs self matched_pairs') nodes2) log') d).

(** The body of the loop of [remove_attached_hydrogens] *)
Definition hydrogen_step (acc : SuperimposedTopology * list pair) (b : bonded)
    : res (SuperimposedTopology * list pair) :=
  let '(st, removed_pairs) := acc in
  let '(pair_, _) := b in
  if negb (String.prefix "H" (name (fst pair_))) then Ok (st, removed_pairs)
  else st' ← remove_node_pair st pair_;
       Ok (st', removed_pairs ++ [pair_]).

(** [remove_attached_hydrogens]; returns the topology and [removed_pairs] *)
Definition remove_attached_hydrogens (self : SuperimposedTopology) (node_pair : pair)
    : res (SuperimposedTopology * list pair) :=
  match dict_get pair_eqb node_pair (matched_pairs_bonds self) with
  | None => Ok (self, [])
  | Some attached_pairs => foldM hydrogen_step attached_pairs (self, [])
  end.

(** [matched_atom_types_are_the_same] *)
Definition matched_atom_types_are_the_same (self : SuperimposedTopology)
    : res SuperimposedTopology :=
  foldM (fun st '(a1, a2) =>
           if negb (same_type a1 a2) then remove_node_pair st (a1, a2) else Ok st)
        (rev (matched_pairs self)) self.

(** [get_net_charge] *)
Definition get_net_charge (self : SuperimposedTopology) : Q :=
  fold_left (fun acc p => acc + (charge (fst p) - charge (snd p)))%Q (matched_pairs self) 0%Q.

(** Python's [max] over a non-empty sequence: the first largest element *)
Definition py_max (l : list Q) : res Q :=
  match l with
  | [] => Raise ValueError
  | x :: l' => Ok (fold_left (fun m y => if Qlt_le_dec m y then y else m) l' x)
  end.

Definition abs_charge_diff (p : pair) : Q := Qabs (charge (fst p) - charge (snd p)).

(** [get_worst_match_charge] *)
Definition get_worst_match_charge (self : SuperimposedTopology) : res Q :=
  py_max (map abs_charge_diff (matched_pairs self)).

(** [remove_worst_charge_match]; returns the topology and the returned number *)
Definition remove_worst_charge_match (self : SuperimposedTopology)
    : res (SuperimposedTopology * Q) :=
  largest_difference ← get_worst_match_charge self;
  if Qeq_bool largest_difference 0 then Ok (self, 0%Q)
  else
    match List.filter (fun p => Qeq_bool (abs_charge_diff p) largest_difference)
                 (matched_pairs self) with
    | [] => Raise IndexError
    | worst_match :: _ =>
        st ← remove_node_pair self worst_match;
        Ok (set_removed_net st
              (_removed_due_to_net_charge st ++ [(worst_match, largest_difference)]),
            Qabs largest_difference)
    end.

(** The key order of [sort(key=lambda x: x[1], reverse=True)] *)
Definition charge_diff_ge (x y : pair * Q) : bool := Qle_bool (snd y) (snd x).

(** The body of the loop of [refine_against_charges] *)
Definition refine_step (atol : Q) (remove_dangling_h : bool)
    (st : SuperimposedTopology) (p : pair) : res SuperimposedTopology :=
  let '(node1, node2) := p in
  if AtomNode_eq node1 node2 atol then Ok st
  else
    st1 ← (if remove_dangling_h
           then '(st', _) ← remove_attached_hydrogens st (node1, node2); Ok st'
           else Ok st);
    st2 ← remove_node_pair st1 (node1, node2);
    Ok (set_removed_q st2
          (_removed_pairs_with_charge_difference st2
             ++ [((node1, node2), Qabs (charge node2 - charge node1))])).

(** [refine_against_charges] *)
Definition refine_against_charges (self : SuperimposedTopology) (atol : Q)
    (remove_dangling_h : bool) : res SuperimposedTopology :=
  st ← foldM (refine_step atol remove_dangling_h) (rev (matched_pairs self)) self;
  Ok (set_removed_q st (py_sort charge_diff_ge (_removed_pairs_with_charge_difference st))).

(** [merge]; returns the topology and [merged_pairs] *)
Definition merge (self suptop : SuperimposedTopology)
    : res (SuperimposedTopology * list pair) :=
  '(st, merged_pairs) ←
    foldM (fun '(st, merged_pairs) pair_ =>
             if negb (contains st pair_) then
               if contains_node st (fst pair_) || contains_node st (snd pair_)
               then Raise (Exception_ "already uses that node")
               else st' ← add_node_pair st pair_; Ok (st', merged_pairs ++ [pair_])
             else Ok (st, merged_pairs))
          (matched_pairs suptop) (self, []);
  st' ← foldM (fun st pair_ =>
                 bonded_pairs ← dict_lookup pair_eqb pair_ (matched_pairs_bonds suptop);
                 _ ← py_assert (0 <? length bonded_pairs)%nat;
                 link_pairs st pair_ bonded_pairs)
              merged_pairs st;
  Ok (set_nodes_added_log st' (nodes_added_log st' ++ [MergedWith merged_pairs]),
      merged_pairs).

(** [_cycles_overlap] *)
Definition _cycles_overlap (self : SuperimposedTopology) (l_cycle r_cycle : list AtomNode) : bool :=
  existsb (fun left => existsb (fun right => contains self (left, right)) r_cycle) l_cycle.

(** The guard [overlap_counter > 1] for one cycle against the cycles of the
    other side; [swap] tells which side [cycle] is on. *)
Definition overlap_counter (self : SuperimposedTopology) (swap : bool)
    (cycle : list AtomNode) (others : list (list AtomNode)) : nat :=
  length (List.filter (fun other => if swap then _cycles_overlap self other cycle
                               else _cycles_overlap self cycle other) others).

(** [cycle_spans_multiple_cycles] *)
Definition cycle_spans_multiple_cycles (self : SuperimposedTopology) : res bool :=
  match _nonoverlapping_l_cycles self, _nonoverlapping_r_cycles self with
  | Some l_cycles, Some r_cycles =>
      if existsb (fun l_cycle => (1 <? overlap_counter self false l_cycle r_cycles)%nat) l_cycles
      then Ok true
      else Ok (existsb (fun r_cycle => (1 <? overlap_counter self true r_cycle l_cycles)%nat)
                       r_cycles)
  | _, _ => Raise AttributeError
  end.

(** ** Cycles and the overlay kernel *)

(** A [networkx.Graph] as the code builds it: [add_node] and [add_edge] calls
    in order. *)
Record Graph : Type := { g_nodes : list AtomNode; g_edges : list (AtomNode * AtomNode) }.

(** What [st.matched_pairs_bonds]-independent search results look like:
    [atom_type_solutions], a dict from a left neighbour to the dict of its
    right candidates and their topologies. *)
Definition solutions : Type := list (AtomNode * list (AtomNode * SuperimposedTopology)).

(** [itertools.groupby] with the key [element] *)
Fixpoint groupby (l : list (AtomNode * bond)) : list (string * list (AtomNode * bond)) :=
  match l with
  | [] => []
  | x :: l' =>
      match groupby l' with
      | (k, g) :: gs =>
          if String.eqb (element (fst x)) k then (k, x :: g) :: gs
          else (element (fst x), [x]) :: (k, g) :: gs
      | [] => [(element (fst x), [x])]
      end
  end.

Definition element_le (x y : AtomNode * bond) : bool :=
  String.leb (element (fst x)) (element (fst y)).

Section Superimposer.
(** The [bonds] attribute of every atom *)
Variable bonds : AtomNode -> list (AtomNode * bond).
(** [networkx.cycle_basis] *)
Variable cycle_basis : Graph -> list (list AtomNode).
(** The end of [_overlay] once the neighbour searches have produced at
    least one solution: [solve_one_combination], the pairwise merges and
    [extract_best_suptop], which rank by the RMSD after alignment. *)
Variable resolve_combinations : list solutions -> res SuperimposedTopology.

(** [AtomNode.bound_to] *)
Definition bound_to (self other : AtomNode) : bool :=
  existsb (fun b => atom_eqb (fst b) other) (bonds self).

(** [_get_original_circle] *)
Definition _get_original_circle (atom_list : list AtomNode) : Graph :=
  {| g_nodes := atom_list;
     g_edges := flat_map (fun atom =>
                  map (fun other => (atom, other))
                      (List.filter (fun other => bound_to atom other) atom_list))
                  atom_list |}.

(** [get_original_circles] *)
Definition get_original_circles (self : SuperimposedTopology)
    : res (list (list AtomNode) * list (list AtomNode)) :=
  match top1 self, top2 self with
  | Some t1, Some t2 =>
      Ok (map (set_of_list atom_eqb) (cycle_basis (_get_original_circle t1)),
          map (set_of_list atom_eqb) (cycle_basis (_get_original_circle t2)))
  | _, _ => Raise TypeError
  end.

(** [get_nx_graphs] *)
Definition get_nx_graphs (self : SuperimposedTopology) : Graph * Graph :=
  let side (proj : pair -> AtomNode) :=
    let ns := map proj (matched_pairs self) in
    {| g_nodes := ns;
       g_edges := flat_map (fun n =>
                    map (fun b => (n, fst b))
                        (List.filter (fun b => py_in atom_eqb (fst b) ns) (bonds n)))
                    ns |} in
  (side fst, side snd).

(** [get_circles] *)
Definition get_circles (self : SuperimposedTopology)
    : list (list AtomNode) * list (list AtomNode) :=
  let '(gl, gr) := get_nx_graphs self in
  (map (set_of_list atom_eqb) (cycle_basis gl),
   map (set_of_list atom_eqb) (cycle_basis gr)).

(** One round of [for c1, c2 in itertools.combinations(cycles, r=2)] with
    [c1] fixed: the atoms [c1] shares with a later cycle leave both. *)
Fixpoint strip_shared_from (c1 : list AtomNode) (rest : list (list AtomNode))
    : list AtomNode * list (list AtomNode) :=
  match rest with
  | [] => (c1, [])
  | c2 :: rest' =>
      let common := set_inter atom_eqb c1 c2 in
      let drop c := List.filter (fun a => negb (py_in atom_eqb a common)) c in
      let '(c1', rest'') := strip_shared_from (drop c1) rest' in
      (c1', drop c2 :: rest'')
  end.

Fixpoint strip_shared (n : nat) (cycles : list (list AtomNode)) : list (list AtomNode) :=
  match n, cycles with
  | S n', c1 :: rest =>
      let '(c1', rest') := strip_shared_from c1 rest in
      c1' :: strip_shared n' rest'
  | _, _ => cycles
  end.

(** [SuperimposedTopology.__init__] with [_init_nonoverlapping_cycles] *)
Definition new_SuperimposedTopology (topology1 topology2 : option (list AtomNode))
    : SuperimposedTopology :=
  let fresh :=
    {| matched_pairs := []; top1 := topology1; top2 := topology2;
       mirrors := []; alternative_mappings := [];
       nodes := []; nodes_added_log := []; matched_pairs_bonds := [];
       ignore_bond_types := true; left_coords_are_ref := true;
       _removed_pairs_with_charge_difference := [];
       _removed_because_disjointed_cc := [];
       _removed_due_to_net_charge := [];
       _removed_because_unmatched_rings := [];
       _removed_because_diff_bonds := [];
       _nonoverlapping_l_cycles := None;
       _nonoverlapping_r_cycles := None |} in
  match get_original_circles fresh with
  | Ok (l_cycles, r_cycles) =>
      {| matched_pairs := []; top1 := topology1; top2 := topology2;
         mirrors := []; alternative_mappings := [];
         nodes := []; nodes_added_log := []; matched_pairs_bonds := [];
         ignore_bond_types := true; left_coords_are_ref := true;
         _removed_pairs_with_charge_difference := [];
         _removed_because_disjointed_cc := [];
         _removed_due_to_net_charge := [];
         _removed_because_unmatched_rings := [];
         _removed_because_diff_bonds := [];
         _nonoverlapping_l_cycles := Some (strip_shared (length l_cycles) l_cycles);
         _nonoverlapping_r_cycles := Some (strip_shared (length r_cycles) r_cycles) |}
  | Raise _ => fresh
  end.

(** The joint cycle check of [_overlay] from the side of [n1]: every bond of
    [n1], other than to its parent, into the topology needs a bond of [n2],
    other than to its parent, into the topology whose ends are paired. *)
Definition cycle_check (suptop : SuperimposedTopology)
    (n1 n2 : AtomNode) (parent_n1 parent_n2 : option AtomNode) : bool :=
  forallb (fun b1 =>
             if negb (opt_atom_is parent_n1 (fst b1)) && contains_node suptop (fst b1)
             then existsb (fun b2 =>
                             negb (opt_atom_is parent_n2 (fst b2))
                             && contains_node suptop (fst b2)
                             && contains suptop (fst b1, fst b2))
                          (bonds n2)
             else true)
          (bonds n1).

(** The same check for the bonds of [n2]. *)
Definition cycle_check_r (suptop : SuperimposedTopology)
    (n1 n2 : AtomNode) (parent_n1 parent_n2 : option AtomNode) : bool :=
  forallb (fun b2 =>
             if negb (opt_atom_is parent_n2 (fst b2)) && contains_node suptop (fst b2)
             then existsb (fun b1 =>
                             negb (opt_atom_is parent_n1 (fst b1))
                             && contains_node suptop (fst b1)
                             && contains suptop (fst b1, fst b2))
                          (bonds n1)
             else true)
          (bonds n2).

(** The commit of [_overlay]: [add_node_pair], [link_with_parent] and the
    bonds to the pairs that are already there. *)
Definition overlay_commit (suptop : SuperimposedTopology)
    (n1 n2 : AtomNode) (parent_n1 parent_n2 : option AtomNode)
    (bond_types_ : bond_types) : res SuperimposedTopology :=
  st1 ← add_node_pair suptop (n1, n2);
  st2 ← match parent_n1, parent_n2 with
        | None, None => Ok st1
        | Some p1, Some p2 => link_with_parent st1 (n1, n2) (p1, p2) bond_types_
        | _, _ => Raise AssertionError
        end;
  foldM (fun st '(n1bonded_node, bond_type1) =>
           if opt_atom_is parent_n1 n1bonded_node then Ok st
           else foldM (fun st '(n2bonded_node, bond_type2) =>
                         if opt_atom_is parent_n2 n2bonded_node then Ok st
                         else if contains st (n1bonded_node, n2bonded_node)
                              then link_pairs st (n1, n2)
                                     [((n1bonded_node, n2bonded_node),
                                       (bond_type1, bond_type2))]
                              else Ok st)
                      (bonds n2) st)
        (bonds n1) st2.

(** [_overlay]; [fuel] bounds the depth of the recursion. *)
Fixpoint _overlay (fuel : nat) (n1 n2 : AtomNode) (parent_n1 parent_n2 : option AtomNode)
    (bond_types_ : bond_types) (suptop : SuperimposedTopology)
    (use_element_type : bool) : res (option SuperimposedTopology) :=
  match fuel with
  | O => Raise OutOfFuel
  | S fuel' =>
      if contains_any_node suptop [n1; n2] then Ok None
      else if use_element_type && negb (same_element n1 n2) then Ok None
      else if negb use_element_type && negb (same_type n1 n2) then Ok None
      else if negb (cycle_check suptop n1 n2 parent_n1 parent_n2) then Ok None
      else if negb (cycle_check_r suptop n1 n2 parent_n1 parent_n2) then Ok None
      else
        spans ← cycle_spans_multiple_cycles suptop;
        if (spans : bool) then Ok None
        else
          suptop' ← overlay_commit suptop n1 n2 parent_n1 parent_n2 bond_types_;
          let no_parent (parent : option AtomNode) (n : AtomNode) :=
            List.filter (fun b => negb (opt_atom_is parent (fst b))) (bonds n) in
          let n1_bonds_no_parent_srt := py_sort element_le (no_parent parent_n1 n1) in
          let n2_bonds_no_parent_srt := py_sort element_le (no_parent parent_n2 n2) in
          combinations ←
            foldM (fun combinations '(n1_type, n1_bonds) =>
              foldM (fun combinations '(n2_type, n2_bonds) =>
                if negb (String.eqb n1_type n2_type) then Ok combinations
                else
                  atom_type_solutions ←
                    foldM (fun atom_type_solutions '(n1bonded_node, bond_type1) =>
                      solutions_for_this_left_atom ←
                        foldM (fun sols '(n2bonded_node, bond_type2) =>
                          bond_solutions ←
                            _overlay fuel' n1bonded_node n2bonded_node (Some n1) (Some n2)
                                     (bond_type1, bond_type2) suptop' use_element_type;
                          match bond_solutions with
                          | None => Ok sols
                          | Some s => Ok (dict_set atom_eqb n2bonded_node s sols)
                          end)
                        n2_bonds [];
                      if (0 <? length solutions_for_this_left_atom)%nat
                      then Ok (dict_set atom_eqb n1bonded_node
                                        solutions_for_this_left_atom atom_type_solutions)
                      else Ok atom_type_solutions)
                    n1_bonds [];
                  if negb (length atom_type_solutions =? 0)%nat
                  then Ok (combinations ++ [atom_type_solutions])
                  else Ok combinations)
                (groupby n2_bonds_no_parent_srt) combinations)
              (groupby n1_bonds_no_parent_srt) [];
          if (length (combinations : list solutions) =? 0)%nat then Ok (Some suptop')
          else best ← resolve_combinations combinations; Ok (Some best)
  end.
End Superimposer.

(** ** The partial-ring filter *)

(** The loop of [are_matched_sets] over the left atoms *)
Fixpoint are_matched_atoms (self : SuperimposedTopology) (l_atoms r_atoms : list AtomNode)
    : res bool :=
  match l_atoms with
  | [] => Ok true
  | atom :: rest =>
      match get_pair_with_atom self atom with
      | None => Raise TypeError
      | Some (_, matched_r) =>
          if negb (py_in atom_eqb matched_r r_atoms) then Ok false
          else are_matched_atoms self rest r_atoms
      end
  end.

(** [are_matched_sets] *)
Definition are_matched_sets (self : SuperimposedTopology) (l_atoms r_atoms : list AtomNode)
    : res bool :=
  if negb (length l_atoms =? length r_atoms)%nat then Ok false
  else are_matched_atoms self l_atoms r_atoms.

(** The body of the loops of [_remove_unmatched_ring_atoms] for one atom *)
Definition ring_atom_step (acc : SuperimposedTopology * list pair)
    (unmatched_ring_atom : AtomNode) : res (SuperimposedTopology * list pair) :=
  let '(st, removed_pairs) := acc in
  if contains_node st unmatched_ring_atom then
    match get_pair_with_atom st unmatched_ring_atom with
    | None => Raise TypeError
    | Some pair_ =>
        st' ← remove_node_pair st pair_;
        Ok (set_removed_rings st' (_removed_because_unmatched_rings st' ++ [pair_]),
            removed_pairs ++ [pair_])
    end
  else Ok (st, removed_pairs).

(** [_remove_unmatched_ring_atoms]; returns the topology and [removed_pairs] *)
Definition _remove_unmatched_ring_atoms (self : SuperimposedTopology)
    (circles : list (list AtomNode)) : res (SuperimposedTopology * list pair) :=
  foldM (fun acc circle => foldM ring_atom_step circle acc) circles (self, []).

Definition MAX_CIRCLE_SIZE : nat := 7.

Definition small_circles (circles : list (list AtomNode)) : list (list AtomNode) :=
  List.filter (fun c => (length c <=? MAX_CIRCLE_SIZE)%nat) circles.

(** The state of the first loop of [enforce_no_partial_rings]:
    [l_matched_circles], [r_matched_circles], [l_circles], [r_circles] and
    [correct_circles]. *)
Record ring_state : Type := {
  l_matched_circles : list (list AtomNode);
  r_matched_circles : list (list AtomNode);
  l_circles : list (list AtomNode);
  r_circles : list (list AtomNode);
  correct_circles : list (list AtomNode * list AtomNode)
}.

(** The body of the two nested [for] loops for one pair of matched circles *)
Definition match_circles (self : SuperimposedTopology) (s : ring_state)
    (l_matched_circle r_matched_circle : list AtomNode) : res ring_state :=
  matched ← are_matched_sets self l_matched_circle r_matched_circle;
  if (matched : bool) then
    lm ← list_remove (set_eqb atom_eqb) l_matched_circle (l_matched_circles s);
    rm ← list_remove (set_eqb atom_eqb) r_matched_circle (r_matched_circles s);
    lc ← list_remove (set_eqb atom_eqb) l_matched_circle (l_circles s);
    rc ← list_remove (set_eqb atom_eqb) r_matched_circle (r_circles s);
    Ok {| l_matched_circles := lm; r_matched_circles := rm;
          l_circles := lc; r_circles := rc;
          correct_circles := correct_circles s ++ [(l_matched_circle, r_matched_circle)] |}
  else Ok s.

(** Which correct circles a round of removals has broken; they go back to
    the circles to take apart. *)
Definition readd_affected (correct : list (list AtomNode * list AtomNode))
    (l_removed_pairs r_removed_pairs : list pair)
    (lc rc : list (list AtomNode)) : list (list AtomNode) * list (list AtomNode) :=
  fold_left (fun '(lc, rc) '(l_circle, r_circle) =>
               let affected_l_circle :=
                 existsb (fun p => py_in atom_eqb (fst p) l_circle) l_removed_pairs in
               let affected_r_circle :=
                 existsb (fun p => py_in atom_eqb (snd p) r_circle) r_removed_pairs in
               if affected_l_circle || affected_r_circle
               then (lc ++ [l_circle], rc ++ [r_circle])
               else (lc, rc))
            correct (lc, rc).

(** The [while True] loop of [enforce_no_partial_rings] *)
Fixpoint partial_rings_loop (fuel : nat) (self : SuperimposedTopology)
    (lc rc : list (list AtomNode)) (correct : list (list AtomNode * list AtomNode))
    : res SuperimposedTopology :=
  match fuel with
  | O => Raise OutOfFuel
  | S fuel' =>
      '(st1, l_removed_pairs) ← _remove_unmatched_ring_atoms self lc;
      '(st2, r_removed_pairs) ← _remove_unmatched_ring_atoms st1 rc;
      let '(lc', rc') := readd_affected correct l_removed_pairs r_removed_pairs lc rc in
      if (length l_removed_pairs =? 0)%nat && (length r_removed_pairs =? 0)%nat
      then Ok st2
      else partial_rings_loop fuel' st2 lc' rc' correct
  end.

Section PartialRings.
Variable bonds : AtomNode -> list (AtomNode * bond).
Variable cycle_basis : Graph -> list (list AtomNode).

(** The first loop of [enforce_no_partial_rings]: matched circles that
    overlap fully leave the lists. *)
Definition classify_circles (self : SuperimposedTopology) : res ring_state :=
  '(l_circles0, r_circles0) ← get_original_circles bonds cycle_basis self;
  let '(l_matched0, r_matched0) := get_circles bonds cycle_basis self in
  let s0 := {| l_matched_circles := small_circles l_matched0;
               r_matched_circles := small_circles r_matched0;
               l_circles := small_circles l_circles0;
               r_circles := small_circles r_circles0;
               correct_circles := [] |} in
  s ← foldM (fun s l_matched_circle =>
               foldM (fun s r_matched_circle =>
                        match_circles self s l_matched_circle r_matched_circle)
                     (rev (r_matched_circles s)) s)
            (rev (l_matched_circles s0)) s0;
  _ ← py_assert ((length (l_matched_circles s) =? length (r_matched_circles s))%nat
                 && (length (r_matched_circles s) =? 0)%nat);
  Ok s.

(** [enforce_no_partial_rings] *)
Definition enforce_no_partial_rings (fuel : nat) (self : SuperimposedTopology)
    : res SuperimposedTopology :=
  s ← classify_circles self;
  partial_rings_loop fuel self (l_circles s) (r_circles s) (correct_circles s).
End PartialRings.

(** ** Objects and references: [__copy__]

    The methods above pass the contents of a topology along.  In Python a
    [SuperimposedTopology] is an object whose attributes refer to lists, sets
    and dicts on the heap, and two objects may refer to the same container.
    The heap below holds the containers; an object is its attribute
    dictionary. *)

Definition loc : Type := nat.

(** The attributes that refer to a mutable container *)
Inductive field : Type :=
| F_matched_pairs
| F_nodes
| F_nodes_added_log
| F_matched_pairs_bonds
| F_mirrors
| F_alternative_mappings
| F_removed_pairs_with_charge_difference
| F_removed_because_disjointed_cc
| F_removed_due_to_net_charge
| F_removed_because_unmatched_rings
| F_removed_because_diff_bonds.

#[global] Instance field_eq_dec : EqDecision field.
Proof. solve_decision. Defined.

Definition all_fields : list field :=
  [F_matched_pairs; F_nodes; F_nodes_added_log; F_matched_pairs_bonds;
   F_mirrors; F_alternative_mappings;
   F_removed_pairs_with_charge_difference; F_removed_because_disjointed_cc;
   F_removed_due_to_net_charge; F_removed_because_unmatched_rings;
   F_removed_because_diff_bonds].

(** The five removal-reason logs *)
Definition removal_logs : list field :=
  [F_removed_pairs_with_charge_difference; F_removed_because_disjointed_cc;
   F_removed_due_to_net_charge; F_removed_because_unmatched_rings;
   F_removed_because_diff_bonds].

(** A container on the heap *)
Inductive cell : Type :=
| CPairs (v : list pair)
| CNodes (v : list AtomNode)
| CLog (v : list log_entry)
| CBonds (v : list (pair * list bonded))
| CRefs (v : list nat)
| CPairsQ (v : list (pair * Q))
| CBondPairs (v : list (pair * pair)).

Record heap : Type := { cells : gmap loc cell; next_loc : loc }.

(** A new container *)
Definition alloc (c : cell) (h : heap) : loc * heap :=
  (next_loc h, {| cells := <[next_loc h := c]> (cells h); next_loc := S (next_loc h) |}).

(** The attribute dictionary of a [SuperimposedTopology] object *)
Record st_object : Type := {
  attr : field -> loc;
  o_top1 : option (list AtomNode);
  o_top2 : option (list AtomNode);
  o_ignore_bond_types : bool;
  o_left_coords_are_ref : bool;
  o_nonoverlapping_l_cycles : option (list (list AtomNode));
  o_nonoverlapping_r_cycles : option (list (list AtomNode))
}.

(** [obj.f = <the container at l>] *)
Definition set_attr (o : st_object) (f : field) (l : loc) : st_object :=
  {| attr := fun g => if decide (g = f) then l else attr o g;
     o_top1 := o_top1 o; o_top2 := o_top2 o;
     o_ignore_bond_types := o_ignore_bond_types o;
     o_left_coords_are_ref := o_left_coords_are_ref o;
     o_nonoverlapping_l_cycles := o_nonoverlapping_l_cycles o;
     o_nonoverlapping_r_cycles := o_nonoverlapping_r_cycles o |}.

(** The contents of the container an attribute of a topology holds *)
Definition field_value (st : SuperimposedTopology) (f : field) : cell :=
  match f with
  | F_matched_pairs => CPairs (matched_pairs st)
  | F_nodes => CNodes (nodes st)
  | F_nodes_added_log => CLog (nodes_added_log st)
  | F_matched_pairs_bonds => CBonds (matched_pairs_bonds st)
  | F_mirrors => CRefs (mirrors st)
  | F_alternative_mappings => CRefs (alternative_mappings st)
  | F_removed_pairs_with_charge_difference => CPairsQ (_removed_pairs_with_charge_difference st)
  | F_removed_because_disjointed_cc => CPairs (_removed_because_disjointed_cc st)
  | F_removed_due_to_net_charge => CPairsQ (_removed_due_to_net_charge st)
  | F_removed_because_unmatched_rings => CPairs (_removed_because_unmatched_rings st)
  | F_removed_because_diff_bonds => CBondPairs (_removed_because_diff_bonds st)
  end.

Definition read (h : heap) (l : loc) : res cell :=
  match cells h !! l with
  | Some c => Ok c
  | None => Raise AttributeError
  end.

Definition as_pairs (c : cell) : res (list pair) :=
  match c with CPairs v => Ok v | _ => Raise TypeError end.
Definition as_nodes (c : cell) : res (list AtomNode) :=
  match c with CNodes v => Ok v | _ => Raise TypeError end.
Definition as_log (c : cell) : res (list log_entry) :=
  match c with CLog v => Ok v | _ => Raise TypeError end.
Definition as_bonds (c : cell) : res (list (pair * list bonded)) :=
  match c with CBonds v => Ok v | _ => Raise TypeError end.
Definition as_refs (c : cell) : res (list nat) :=
  match c with CRefs v => Ok v | _ => Raise TypeError end.
Definition as_pairs_q (c : cell) : res (list (pair * Q)) :=
  match c with CPairsQ v => Ok v | _ => Raise TypeError end.
Definition as_bond_pairs (c : cell) : res (list (pair * pair)) :=
  match c with CBondPairs v => Ok v | _ => Raise TypeError end.

(** The topology an object stands for: the contents of its containers *)
Definition load (h : heap) (o : st_object) : res SuperimposedTopology :=
  mp ← read h (attr o F_matched_pairs) ≫= as_pairs;
  ns ← read h (attr o F_nodes) ≫= as_nodes;
  lg ← read h (attr o F_nodes_added_log) ≫= as_log;
  bs ← read h (attr o F_matched_pairs_bonds) ≫= as_bonds;
  mi ← read h (attr o F_mirrors) ≫= as_refs;
  am ← read h (attr o F_alternative_mappings) ≫= as_refs;
  rq ← read h (attr o F_removed_pairs_with_charge_difference) ≫= as_pairs_q;
  rd ← read h (attr o F_removed_because_disjointed_cc) ≫= as_pairs;
  rn ← read h (attr o F_removed_due_to_net_charge) ≫= as_pairs_q;
  rr ← read h (attr o F_removed_because_unmatched_rings) ≫= as_pairs;
  rb ← read h (attr o F_removed_because_diff_bonds) ≫= as_bond_pairs;
  Ok {| matched_pairs := mp; top1 := o_top1 o; top2 := o_top2 o;
        mirrors := mi; alternative_mappings := am;
        nodes := ns; nodes_added_log := lg; matched_pairs_bonds := bs;
        ignore_bond_types := o_ignore_bond_types o;
        left_coords_are_ref := o_left_coords_are_ref o;
        _removed_pairs_with_charge_difference := rq;
        _removed_because_disjointed_cc := rd;
        _removed_due_to_net_charge := rn;
        _removed_because_unmatched_rings := rr;
        _removed_because_diff_bonds := rb;
        _nonoverlapping_l_cycles := o_nonoverlapping_l_cycles o;
        _nonoverlapping_r_cycles := o_nonoverlapping_r_cycles o |}.

(** The in-place updates of a method, written to the containers of the object *)
Definition write_back (h : heap) (o : st_object) (st : SuperimposedTopology) : heap :=
  {| cells := foldr (fun f m => <[attr o f := field_value st f]> m) (cells h) all_fields;
     next_loc := next_loc h |}.

(** A call [obj.method(...)] of one of the methods above *)
Definition call {A : Type} (method : SuperimposedTopology -> res (SuperimposedTopology * A))
    (h : heap) (o : st_object) : res (heap * A) :=
  st ← load h o;
  '(st', a) ← method st;
  Ok (write_back h o st', a).

(** [SuperimposedTopology()] as [__copy__] calls it: fresh empty containers *)
Definition new_object (h : heap) : heap * st_object :=
  let '(o, h') :=
    fold_left (fun '(o, h) f =>
                 let '(l, h') := alloc (field_value (new_SuperimposedTopology
                                                       (fun _ => []) (fun _ => []) None None) f) h in
                 (set_attr o f l, h'))
              all_fields
              ({| attr := fun _ => O; o_top1 := None; o_top2 := None;
                  o_ignore_bond_types := true; o_left_coords_are_ref := true;
                  o_nonoverlapping_l_cycles := None;
                  o_nonoverlapping_r_cycles := None |}, h) in
  (h', o).

(** [new_one.f = copy.copy(self.f)]; for [matched_pairs_bonds] the dict and
    each of its sets are copied. *)
Definition copy_attr (self : st_object) (f : field) (s : heap * st_object)
    : res (heap * st_object) :=
  let '(h, new_one) := s in
  c ← read h (attr self f);
  let '(l, h') := alloc c h in
  Ok (h', set_attr new_one f l).

(** [SuperimposedTopology.__copy__] *)
Definition __copy__ (h : heap) (self : st_object) : res (heap * st_object) :=
  let '(h0, new_one) := new_object h in
  (* new_one.__dict__.update(self.__dict__) *)
  let new_one := self in
  s ← copy_attr self F_matched_pairs (h0, new_one);
  s ← copy_attr self F_nodes s;
  s ← copy_attr self F_nodes_added_log s;
  s ← copy_attr self F_matched_pairs_bonds s;
  s ← copy_attr self F_mirrors s;
  copy_attr self F_alternative_mappings s.

(** ** The orchestrator *)

(** The keyword arguments of [superimpose_topologies] *)
Record config : Type := {
  pair_charge_atol : Q;
  use_charges : bool;
  use_coords : bool;
  starting_node_pairs : option (list pair);
  force_mismatch : option (list (string * string));
  disjoint_components : bool;
  net_charge_filter : bool;
  net_charge_threshold : Q;
  redistribute_charges_over_unmatched : bool;
  align_molecules : bool;
  partial_rings_allowed : bool;
  ignore_charges_completely : bool;
  cfg_ignore_bond_types : bool;
  ignore_coords : bool;
  cfg_left_coords_are_ref : bool;
  use_general_type_ : bool;
  use_only_element : bool;
  check_atom_names_unique : bool;
  starting_pairs_heuristics : bool
}.

(** The defaults of the signature *)
Definition default_config : config :=
  {| pair_charge_atol := 1 # 10; use_charges := true; use_coords := true;
     starting_node_pairs := None; force_mismatch := None;
     disjoint_components := true;
     net_charge_filter := true; net_charge_threshold := 1 # 10;
     redistribute_charges_over_unmatched := true;
     align_molecules := true; partial_rings_allowed := true;
     ignore_charges_completely := false; cfg_ignore_bond_types := true;
     ignore_coords := false; cfg_left_coords_are_ref := true;
     use_general_type_ := true; use_only_element := false;
     check_atom_names_unique := true; starting_pairs_heuristics := true |}.

(** Calls that leave the topology bookkeeping: they work on coordinates,
    charges and types of the atoms, or on generated ids. *)
Inductive event : Type :=
| Called_align_ligands_using_matched (st : SuperimposedTopology) (overwrite_original : bool)
| Called_align_mirror (mirror : nat)
| Called_match_cccd_to_cdcc
| Called_largest_cc_survives (st : SuperimposedTopology)
| Called_redistribute_charges (st : SuperimposedTopology)
| Called_assign_atoms_ids (st : SuperimposedTopology) (id_start : nat).

(** A run of the orchestrator: the calls it made and how it ended *)
Record run (A : Type) : Type := { trace : list event; outcome : res A }.
Arguments trace {A} r.
Arguments outcome {A} r.

#[global] Instance run_bind : MBind run := fun A B k m =>
  match outcome m with
  | Ok a => {| trace := trace m ++ trace (k a); outcome := outcome (k a) |}
  | Raise e => {| trace := trace m; outcome := Raise e |}
  end.

#[global] Instance run_ret : MRet run := fun A a => {| trace := []; outcome := Ok a |}.

Definition lift {A : Type} (r : res A) : run A := {| trace := []; outcome := r |}.

(** A call of a collaborator *)
Definition calling {A : Type} (e : event) (r : res A) : run A :=
  {| trace := [e]; outcome := r |}.

(** [for x in l] in a run *)
Fixpoint for_each {A B : Type} (f : B -> A -> run B) (l : list A) (acc : B) : run B :=
  match l with
  | [] => mret acc
  | x :: l' => acc' ← f acc x; for_each f l' acc'
  end.

(** Python's [round] on a number: to the nearest integer, halves to even *)
Definition py_round (q : Q) : Z :=
  let f := Qfloor q in
  match (q - inject_Z f) ?= (1 # 2) with
  | Lt => f
  | Gt => (f + 1)%Z
  | Eq => if Z.even f then f else (f + 1)%Z
  end%Q.

(** [np.testing.assert_almost_equal(actual, desired, decimal=2)]: numpy
    raises when [abs(desired - actual) >= 1.5 * 10**(-2)].  The difference
    and the bound are exact here, where numpy has their float64 values. *)
Definition assert_almost_equal (actual desired : Q) : res unit :=
  if Qle_bool (15 # 1000) (Qabs (desired - actual)) then Raise AssertionError else Ok tt.

(** [sum(a.charge for a in atoms)], as an exact sum *)
Definition total_charge (atoms : list AtomNode) : Q :=
  fold_left (fun acc a => acc + charge a)%Q atoms 0%Q.

(** [validate_charges] *)
Definition validate_charges (atom_list_l atom_list_right : list AtomNode) : res Z :=
  let whole_left_charge := total_charge atom_list_l in
  _ ← assert_almost_equal whole_left_charge (inject_Z (py_round whole_left_charge));
  let whole_right_charge := total_charge atom_list_right in
  _ ← assert_almost_equal whole_right_charge (inject_Z (py_round whole_right_charge));
  _ ← assert_almost_equal whole_left_charge whole_right_charge;
  Ok (py_round whole_left_charge).

(** The [while] loop of the net-charge filter for one topology; [false]
    tells that the topology became empty and leaves the list. *)
Fixpoint net_charge_while (fuel : nat) (net_charge_threshold_ : Q)
    (suptop : SuperimposedTopology) : res (SuperimposedTopology * bool) :=
  match fuel with
  | O => Raise OutOfFuel
  | S fuel' =>
      if negb (Qle_bool (Qabs (get_net_charge suptop)) net_charge_threshold_) then
        '(suptop', largest_difference) ← remove_worst_charge_match suptop;
        if Qeq_bool largest_difference 0
        then Raise (Exception_
          "How can there be net charge but no pair can be found that actually is different?")
        else if (st_len suptop' =? 0)%nat then Ok (suptop', false)
        else net_charge_while fuel' net_charge_threshold_ suptop'
      else Ok (suptop, true)
  end.

(** [for suptop in suptops[::-1]: ... suptops.remove(suptop)]: the loop body
    on every topology, last one first; [None] drops the topology. *)
Definition for_suptops_reversed (body : SuperimposedTopology -> res (option SuperimposedTopology))
    (suptops : list SuperimposedTopology) : res (list SuperimposedTopology) :=
  foldM (fun kept suptop =>
           r ← body suptop;
           match r with
           | Some suptop' => Ok (suptop' :: kept)
           | None => Ok kept
           end)
        (rev suptops) [].

(** [for st in suptops: st.method()] *)
Fixpoint for_suptops (body : SuperimposedTopology -> res SuperimposedTopology)
    (suptops : list SuperimposedTopology) : res (list SuperimposedTopology) :=
  match suptops with
  | [] => Ok []
  | st :: rest => st' ← body st; rest' ← for_suptops body rest; Ok (st' :: rest')
  end.

(** [reduce(take_largest, suptops)] *)
Definition take_largest (x y : SuperimposedTopology) : SuperimposedTopology :=
  if (st_len y <? st_len x)%nat then x else y.

Section Orchestrator.
Variable bonds : AtomNode -> list (AtomNode * bond).
Variable cycle_basis : Graph -> list (list AtomNode).
Variable resolve_combinations : list solutions -> res SuperimposedTopology.
(** [get_starting_configurations]: the seed heuristic (rarity of types,
    ring carbons left out through [networkx.cycle_basis]) *)
Variable get_starting_configurations : list AtomNode -> list AtomNode -> list pair.
(** What [_superimpose_topologies] does with a non-empty candidate: [seen],
    [sub_graph_of], [is_mirror_of_one], [remove_candidates_subgraphs],
    [solve_partial_overlaps] and the final [append]; they rank by RMSD. *)
Variable accept_candidate :
  SuperimposedTopology -> list SuperimposedTopology -> res (list SuperimposedTopology).
(** Methods on coordinates, charges, atom types and ids *)
Variable align_ligands_using_matched : SuperimposedTopology -> bool -> res Q.
Variable align_mirror : nat -> res Q.
Variable match_cccd_to_cdcc : list SuperimposedTopology -> res (list SuperimposedTopology).
Variable largest_cc_survives : SuperimposedTopology -> res SuperimposedTopology.
Variable redistribute_charges : SuperimposedTopology -> res SuperimposedTopology.
Variable assign_atoms_ids : SuperimposedTopology -> nat -> res (SuperimposedTopology * nat).
Variable rmsd : SuperimposedTopology -> res Q.
(** The bound on the depth of the search *)
Variable fuel : nat.

(** The seed pairs of [_superimpose_topologies] *)
Definition seed_pairs (top1_nodes top2_nodes : list AtomNode)
    (starting_node_pairs_ : option (list pair)) (starting_pairs_heuristics_ : bool)
    : list pair :=
  match starting_node_pairs_ with
  | Some (p :: ps) => p :: ps
  | _ => if starting_pairs_heuristics_
         then get_starting_configurations top1_nodes top2_nodes
         else list_prod top1_nodes top2_nodes
  end.

(** The candidate of one seed *)
Definition seed_candidate (top1_nodes top2_nodes : list AtomNode)
    (left_coords_are_ref_ use_general_type__ : bool) (seed : pair)
    : res (option SuperimposedTopology) :=
  let suptop := new_SuperimposedTopology bonds cycle_basis
                  (Some top1_nodes) (Some top2_nodes) in
  let suptop := set_flags suptop (ignore_bond_types suptop) left_coords_are_ref_ in
  _overlay bonds resolve_combinations fuel (fst seed) (snd seed) None None (None, None)
           suptop use_general_type__.

(** [_superimpose_topologies] *)
Definition _superimpose_topologies (top1_nodes top2_nodes : list AtomNode)
    (starting_node_pairs_ : option (list pair))
    (left_coords_are_ref_ use_general_type__ starting_pairs_heuristics_ : bool)
    : res (list SuperimposedTopology) :=
  suptops ←
    foldM (fun suptops seed =>
             candidate_suptop ← seed_candidate top1_nodes top2_nodes
                                  left_coords_are_ref_ use_general_type__ seed;
             match candidate_suptop with
             | None => Ok suptops
             | Some c => if (st_len c =? 0)%nat then Ok suptops
                         else accept_candidate c suptops
             end)
          (seed_pairs top1_nodes top2_nodes starting_node_pairs_ starting_pairs_heuristics_)
          [];
  let suptops :=
    List.filter (fun suptop =>
                   negb (forallb (fun p => String.eqb (type (fst p)) "H")
                                 (matched_pairs suptop)))
                suptops in
  _ ← py_assert (forallb (fun suptop =>
                   forallb (fun p => py_in atom_eqb (fst p) top1_nodes
                                     && py_in atom_eqb (snd p) top2_nodes)
                           (matched_pairs suptop))
                 suptops);
  Ok suptops.

(** The steps of [superimpose_topologies] up to the removal of the empty
    topologies and the pruning of disjoint components *)
Definition search_and_filter (cfg : config) (top1_nodes top2_nodes : list AtomNode)
    : run (list SuperimposedTopology) :=
  _ ← lift (if negb (ignore_charges_completely cfg)
            then _ ← validate_charges top1_nodes top2_nodes; Ok tt
            else Ok tt);
  _ ← lift (if check_atom_names_unique cfg
            then py_assert ((length (set_inter String.eqb
                                       (set_of_list String.eqb (map name top1_nodes))
                                       (set_of_list String.eqb (map name top2_nodes)))
                             =? 0)%nat)
            else Ok tt);
  suptops ← lift (_superimpose_topologies top1_nodes top2_nodes
                    (starting_node_pairs cfg) (cfg_left_coords_are_ref cfg)
                    (use_general_type_ cfg) (starting_pairs_heuristics cfg));
  _ ← lift (match suptops with
            | [] => Raise (Exception_ ("Error: Did not find a single superimposition state."
                     ++ "Error: Not even a single atom is common across the two molecules? "
                     ++ "Something must be wrong. ")%string)
            | _ :: _ => Ok tt
            end);
  let suptops :=
    map (fun st => set_tops (set_flags st (cfg_ignore_bond_types cfg) (left_coords_are_ref st))
                            top1_nodes top2_nodes) suptops in
  _ ← (if align_molecules cfg
       then match suptops with
            | [] => lift (Raise TypeError)
            | st :: rest =>
                let largest := fold_left take_largest rest st in
                _ ← calling (Called_align_ligands_using_matched largest false)
                            (align_ligands_using_matched largest false);
                mret tt
            end
       else mret tt);
  suptops ← calling Called_match_cccd_to_cdcc (match_cccd_to_cdcc suptops);
  suptops ← lift (if negb (use_only_element cfg)
                  then for_suptops matched_atom_types_are_the_same suptops
                  else Ok suptops);
  suptops ← lift (if use_charges cfg && negb (ignore_charges_completely cfg)
                  then for_suptops (fun sup_top =>
                         refine_against_charges sup_top (pair_charge_atol cfg) false) suptops
                  else Ok suptops);
  (* [suptop.contains_atomNamePair] is not a method of the class *)
  _ ← lift (match force_mismatch cfg, suptops with
            | Some (_ :: _), _ :: _ => Raise AttributeError
            | _, _ => Ok tt
            end);
  suptops ← lift (if net_charge_filter cfg && negb (ignore_charges_completely cfg)
                  then for_suptops_reversed (fun suptop =>
                         '(suptop', kept) ← net_charge_while (S (st_len suptop))
                                              (net_charge_threshold cfg) suptop;
                         Ok (if (kept : bool) then Some suptop' else None)) suptops
                  else Ok suptops);
  suptops ← lift (if negb (partial_rings_allowed cfg)
                  then for_suptops (fun suptop =>
                         enforce_no_partial_rings bonds cycle_basis (S (st_len suptop)) suptop)
                         suptops
                  else Ok suptops);
  let suptops := List.filter (fun st => negb (st_len st =? 0)%nat) suptops in
  if negb (disjoint_components cfg) then
    suptops ← for_each (fun done st =>
                          st' ← calling (Called_largest_cc_survives st)
                                        (largest_cc_survives st);
                          mret (done ++ [st']))
                       suptops [];
    let suptops :=
      match suptops with
      | _ :: _ :: _ =>
          let max_len := fold_left Nat.max (map st_len suptops) O in
          match List.filter (fun suptop => negb (st_len suptop <? max_len)%nat) suptops with
          | st :: _ :: _ => [st]
          | l => l
          end
      | _ => suptops
      end in
    _ ← lift (py_assert (length suptops =? 1)%nat);
    mret suptops
  else mret suptops.

(** The charge redistribution step *)
Definition redistribute_step (cfg : config) (suptops : list SuperimposedTopology)
    : run (list SuperimposedTopology) :=
  if redistribute_charges_over_unmatched cfg && negb (ignore_charges_completely cfg)
     && disjoint_components cfg
  then
    match suptops with
    | _ :: _ :: _ => lift (Raise NotImplementedError)
    | [] => lift (Raise IndexError)
    | [st] => st' ← calling (Called_redistribute_charges st) (redistribute_charges st);
              mret [st']
    end
  else mret suptops.

(** The rest: ids, the order by RMSD, the final alignment and the summary *)
Definition finish (cfg : config) (top1_nodes top2_nodes : list AtomNode)
    (suptops : list SuperimposedTopology) : run (list SuperimposedTopology) :=
  '(suptops, _) ←
    for_each (fun '(done, start_atom_id) suptop =>
                '(suptop', next_id) ← calling (Called_assign_atoms_ids suptop start_atom_id)
                                              (assign_atoms_ids suptop start_atom_id);
                mret (done ++ [suptop'], S next_id))
             suptops ([], 1%nat);
  keyed ← lift (foldM (fun keyed st => k ← rmsd st; Ok (keyed ++ [(st, k)])) suptops []);
  let suptops := map fst (py_sort (fun x y => Qle_bool (snd x) (snd y)) keyed) in
  _ ← (if align_molecules cfg
       then for_each (fun _ st =>
                _ ← calling (Called_align_ligands_using_matched st false)
                            (align_ligands_using_matched st false);
                _ ← for_each (fun _ mirror =>
                                _ ← calling (Called_align_mirror mirror) (align_mirror mirror);
                                mret tt)
                             (mirrors st) tt;
                _ ← calling (Called_align_ligands_using_matched st true)
                            (align_ligands_using_matched st true);
                mret tt)
              suptops tt
       else mret tt);
  _ ← lift (match suptops with
            | [] => Ok tt
            | _ :: _ => if (length top1_nodes =? 0)%nat || (length top2_nodes =? 0)%nat
                        then Raise ZeroDivisionError else Ok tt
            end);
  mret suptops.

(** [superimpose_topologies] *)
Definition superimpose_topologies (cfg : config) (top1_nodes top2_nodes : list AtomNode)
    : run (list SuperimposedTopology) :=
  suptops ← search_and_filter cfg top1_nodes top2_nodes;
  suptops ← redistribute_step cfg suptops;
  finish cfg top1_nodes top2_nodes suptops.
End Orchestrator.

(** ** Queries on a superimposed topology *)

(** [contains_atom_name_pair] *)
Definition contains_atom_name_pair (self : SuperimposedTopology)
    (atom_name1 atom_name2 : string) : bool :=
  existsb (fun '(m1, m2) => String.eqb (name m1) atom_name1 && String.eqb (name m2) atom_name2)
          (matched_pairs self).

(** [is_or_was_matched] *)
Definition is_or_was_matched (self : SuperimposedTopology)
    (atom_name1 atom_name2 : string) : bool :=
  if contains_atom_name_pair self atom_name1 atom_name2 then true
  else
    let unmatched_lists :=
      [_removed_because_disjointed_cc self;
       map fst (_removed_due_to_net_charge self);
       map fst (_removed_pairs_with_charge_difference self)] in
    existsb (fun unmatched_list =>
               existsb (fun '(atom1, atom2) =>
                          String.eqb (name atom1) atom_name1
                          && String.eqb (name atom2) atom_name2)
                       unmatched_list)
            unmatched_lists.

(** [get_appearing_atoms] *)
Definition get_appearing_atoms (self : SuperimposedTopology) : res (list AtomNode) :=
  match top2 self with
  | None => Raise TypeError
  | Some t2 =>
      Ok (List.filter (fun top2_atom =>
                         negb (existsb (fun p => atom_eqb top2_atom (snd p))
                                       (matched_pairs self)))
                      t2)
  end.

(** [get_disappearing_atoms] *)
Definition get_disappearing_atoms (self : SuperimposedTopology) : res (list AtomNode) :=
  match top1 self with
  | None => Raise TypeError
  | Some t1 =>
      Ok (List.filter (fun top1_atom =>
                         negb (existsb (fun p => atom_eqb top1_atom (fst p))
                                       (matched_pairs self)))
                      t1)
  end.

(** [get_unmatched_atoms] *)
Definition get_unmatched_atoms (self : SuperimposedTopology) : res (list AtomNode) :=
  match top1 self with
  | None => Raise TypeError
  | Some t1 =>
      let unmatched_atoms := List.filter (fun node => negb (contains_node self node)) t1 in
      match top2 self with
      | None => Raise TypeError
      | Some t2 =>
          Ok (unmatched_atoms ++ List.filter (fun node => negb (contains_node self node)) t2)
      end
  end.

(** An element of the list [get_single_topology_region] returns:
    [matched_pairs], [_removed_because_disjointed_cc] and the stripped
    [_removed_pairs_with_charge_difference] give tuples [(left, right)];
    [_removed_due_to_net_charge] is appended as it is, and its entries are
    the lists [[pair, number]]. *)
Inductive region_item : Type :=
| Region_pair (p : pair)
| Region_entry (p : pair) (q : Q).

(** [get_single_topology_region] *)
Definition get_single_topology_region (self : SuperimposedTopology) : list region_item :=
  let removed_pairs_with_charge_difference :=
    map fst (_removed_pairs_with_charge_difference self) in
  let unpaired :=
    (map Region_pair (_removed_because_disjointed_cc self)
     ++ map (fun e => Region_entry (fst e) (snd e)) (_removed_due_to_net_charge self))
    ++ map Region_pair removed_pairs_with_charge_difference in
  map Region_pair (matched_pairs self) ++ unpaired.

(** What [single_top_set] of [get_single_topology_app] can hold: the loop
    [for left, right in single_top_area] unpacks a tuple into two atoms and
    a [[pair, number]] entry into the pair and the number. *)
Inductive set_item : Type :=
| Item_atom (a : AtomNode)
| Item_pair (p : pair)
| Item_number (q : Q).

(** [==] on the elements of [single_top_set] *)
Definition set_item_eqb (x y : set_item) : bool :=
  match x, y with
  | Item_atom a, Item_atom b => atom_eqb a b
  | Item_pair p, Item_pair q => pair_eqb p q
  | Item_number p, Item_number q => Qeq_bool p q
  | _, _ => false
  end.

(** [get_single_topology_app]; returns [app] and [dis] *)
Definition get_single_topology_app (self : SuperimposedTopology)
    : res (list AtomNode * list AtomNode) :=
  let single_top_area := get_single_topology_region self in
  let single_top_set :=
    fold_left (fun single_top_set item =>
                 match item with
                 | Region_pair (left_, right_) =>
                     set_add set_item_eqb (Item_atom right_)
                       (set_add set_item_eqb (Item_atom left_) single_top_set)
                 | Region_entry left_ right_ =>
                     set_add set_item_eqb (Item_number right_)
                       (set_add set_item_eqb (Item_pair left_) single_top_set)
                 end)
              single_top_area [] in
  unmatched_app ← get_appearing_atoms self;
  let app := set_of_list atom_eqb
               (List.filter (fun a => negb (py_in set_item_eqb (Item_atom a) single_top_set))
                            unmatched_app) in
  unmatched_dis ← get_disappearing_atoms self;
  let dis := set_of_list atom_eqb
               (List.filter (fun a => negb (py_in set_item_eqb (Item_atom a) single_top_set))
                            unmatched_dis) in
  Ok (app, dis).

(** A key of [internal_ids]: an atom or a pair *)
Inductive id_key : Type :=
| Key_atom (a : AtomNode)
| Key_pair (p : pair).

#[global] Instance id_key_eq_dec : EqDecision id_key.
Proof. solve_decision. Defined.

Definition id_key_eqb (x y : id_key) : bool := bool_decide (x = y).

(** The first loop of [assign_atoms_ids]: the two atoms of a pair and the
    pair get the same id. *)
Definition assign_pair_id (acc : list (id_key * nat) * nat) (p : pair)
    : list (id_key * nat) * nat :=
  let '(internal_ids, id_counter) := acc in
  let '(left_atom, right_atom) := p in
  let internal_ids := dict_set id_key_eqb (Key_atom left_atom) id_counter internal_ids in
  let internal_ids := dict_set id_key_eqb (Key_atom right_atom) id_counter internal_ids in
  let internal_ids :=
    dict_set id_key_eqb (Key_pair (left_atom, right_atom)) id_counter internal_ids in
  (internal_ids, S id_counter).

(** The loops over [top1] and [top2]: an atom that is in no pair gets an id
    of its own. *)
Definition assign_node_id (self : SuperimposedTopology)
    (acc : list (id_key * nat) * nat) (node : AtomNode) : list (id_key * nat) * nat :=
  let '(internal_ids, id_counter) := acc in
  if negb (contains_node self node)
  then (dict_set id_key_eqb (Key_atom node) id_counter internal_ids, S id_counter)
  else (internal_ids, id_counter).

(** [assign_atoms_ids]: returns [internal_ids], the returned [id_counter]
    and the new [unique_atom_count]. *)
Definition assign_atoms_ids (self : SuperimposedTopology) (unique_atom_count id_start : nat)
    : res (list (id_key * nat) * nat * nat) :=
  let acc := fold_left assign_pair_id (matched_pairs self) ([], id_start) in
  match top1 self with
  | None => Raise TypeError
  | Some t1 =>
      let acc := fold_left (assign_node_id self) t1 acc in
      match top2 self with
      | None => Raise TypeError
      | Some t2 =>
          let '(internal_ids, id_counter) := fold_left (assign_node_id self) t2 acc in
          Ok (internal_ids, id_counter, (unique_atom_count + (id_counter - id_start))%nat)
      end
  end.

(** [get_generated_atom_id] *)
Definition get_generated_atom_id (internal_ids : list (id_key * nat)) (atom : id_key)
    : res nat :=
  dict_lookup id_key_eqb atom internal_ids.

(** [SuperimposedTopology.eq] *)
Definition SuperimposedTopology_eq (self sup_top : SuperimposedTopology) : bool :=
  if negb (st_len self =? st_len sup_top)%nat then false
  else forallb (fun pair_ => contains sup_top pair_) (matched_pairs self).

(** [contains_all] *)
Definition contains_all (self other_sup_top : SuperimposedTopology) : bool :=
  forallb (fun pair_ => contains self pair_) (matched_pairs other_sup_top).

(** [seen] *)
Definition seen (suptop : SuperimposedTopology) (suptops : list SuperimposedTopology) : bool :=
  existsb (fun next_suptop => SuperimposedTopology_eq next_suptop suptop) suptops.

(** Python's [max] over a non-empty sequence of lengths *)
Definition py_max_nat (l : list nat) : res nat :=
  match l with
  | [] => Raise ValueError
  | x :: l' => Ok (fold_left (fun m y => if (m <? y)%nat then y else m) l' x)
  end.

(** [get_largest] *)
Definition get_largest (lists : list SuperimposedTopology) : res (list SuperimposedTopology) :=
  let solution_sizes := map st_len lists in
  largest_sol_size ← py_max_nat solution_sizes;
  Ok (List.filter (fun st => (st_len st =? largest_sol_size)%nat) lists).

(** ** Renaming the atoms *)

(** [atom.name = name_] *)
Definition set_name (a : AtomNode) (name_ : string) : AtomNode :=
  {| name := name_; type := type a; element := element a; charge := charge a;
     use_general_type := use_general_type a; unique_counter := unique_counter a |}.

(** [str(z)] of an integer *)
Definition py_str (z : Z) : string := NilEmpty.string_of_int (Z.to_int z).

(** [l[-1]] *)
Definition py_last {A : Type} (l : list A) : res A :=
  match rev l with
  | [] => Raise IndexError
  | x :: _ => Ok x
  end.

(** [name_counter]: the last number used for each letters part *)
Definition name_counter : Type := list (string * Z).

(** [name_counter.get(atom_name, 0)] *)
Definition counter_get (atom_name : string) (d : name_counter) : Z :=
  match dict_get String.eqb atom_name d with
  | Some v => v
  | None => 0%Z
  end.

Section Names.
(** The builtins [str.isalpha], on one character, and [int], on a string,
    are parameters; [int(s)] raises ValueError where [py_int s] is [None]. *)
Variable isalpha : ascii -> bool.
Variable py_int : string -> option Z.

(** [[i for i, l in enumerate(s) if l.isalpha()]], counting from [i] *)
Fixpoint alpha_positions (i : nat) (s : string) : list nat :=
  match s with
  | EmptyString => []
  | String l s' => (if isalpha l then [i] else []) ++ alpha_positions (S i) s'
  end.

(** [[i for i, l in enumerate(atom.name) if l.isalpha()][-1] + 1] *)
Definition after_letters (s : string) : res nat :=
  i ← py_last (alpha_positions 0 s);
  Ok (S i).

(** The body of the loop of [_rename_ligand]; the renamed atoms are
    collected in [renamed]. *)
Definition rename_step (acc : list AtomNode * name_counter) (atom : AtomNode)
    : res (list AtomNode * name_counter) :=
  let '(renamed, name_counter_) := acc in
  after_letters_ ← after_letters (name atom);
  let atom_name := substring 0 after_letters_ (name atom) in
  let last_used_counter := counter_get atom_name name_counter_ in
  let last_used_counter := (last_used_counter + 1)%Z in
  let new_atom_name := String.append atom_name (py_str last_used_counter) in
  Ok (renamed ++ [set_name atom new_atom_name],
      dict_set String.eqb atom_name last_used_counter name_counter_).

(** [_rename_ligand]: returns the atoms with their new names and
    [name_counter].  The atoms of the list are distinct objects. *)
Definition _rename_ligand (atoms : list AtomNode) (name_counter_ : option name_counter)
    : res (list AtomNode * name_counter) :=
  let name_counter_ := match name_counter_ with
                       | None => []
                       | Some d => d
                       end in
  foldM rename_step atoms ([], name_counter_).

(** The body of the loop of [_get_atom_names_counter] *)
Definition counter_step (name_counter_ : name_counter) (atom : AtomNode) : res name_counter :=
  after_letters_ ← after_letters (name atom);
  let atom_name := substring 0 after_letters_ (name atom) in
  match py_int (substring after_letters_ (String.length (name atom) - after_letters_)
                          (name atom)) with
  | None => Raise ValueError
  | Some atom_number =>
      let last_used_counter := counter_get atom_name name_counter_ in
      Ok (dict_set String.eqb atom_name (Z.max last_used_counter atom_number) name_counter_)
  end.

(** [_get_atom_names_counter] *)
Definition _get_atom_names_counter (atoms : list AtomNode) : res name_counter :=
  foldM counter_step atoms [].

(** [_is_correct_atom_name_format] *)
Fixpoint _is_correct_atom_name_format (atoms : list AtomNode) : res bool :=
  match atoms with
  | [] => Ok true
  | atom :: rest =>
      after_letters_ ← after_letters (name atom);
      let atom_name := substring 0 after_letters_ (name atom) in
      if (String.length atom_name =? 0)%nat then Ok false
      else
        match py_int (substring after_letters_ (String.length (name atom) - after_letters_)
                                (name atom)) with
        | None => Ok false
        | Some _ => _is_correct_atom_name_format rest
        end
  end.

(** [rename_ligands]: returns the two lists of atoms with the names they
    have afterwards. *)
Definition rename_ligands (l_nodes r_nodes : list AtomNode)
    : res (list AtomNode * list AtomNode) :=
  let l_atom_names := map name l_nodes in
  let l_names_unique :=
    (length (set_of_list String.eqb l_atom_names) =? length l_atom_names)%nat in
  l_correct_format ← _is_correct_atom_name_format l_nodes;
  '(l_nodes, l_atom_names, name_counter_l_nodes) ←
    (if negb l_names_unique || negb l_correct_format
     then '(l_nodes, name_counter_l_nodes) ← _rename_ligand l_nodes None;
          Ok (l_nodes, map name l_nodes, name_counter_l_nodes)
     else name_counter_l_nodes ← _get_atom_names_counter l_nodes;
          Ok (l_nodes, l_atom_names, name_counter_l_nodes));
  let r_atom_names := map name r_nodes in
  let r_names_unique :=
    (length (set_of_list String.eqb r_atom_names) =? length r_atom_names)%nat in
  r_correct_format ← _is_correct_atom_name_format r_nodes;
  let l_r_overlap :=
    (0 <? length (set_inter String.eqb (set_of_list String.eqb r_atom_names)
                            (set_of_list String.eqb l_atom_names)))%nat in
  if negb r_names_unique || negb r_correct_format || l_r_overlap
  then '(r_nodes, _) ← _rename_ligand r_nodes (Some name_counter_l_nodes);
       Ok (l_nodes, r_nodes)
  else Ok (l_nodes, r_nodes).
End Names.

(** ** The starting configurations *)

(** [int(x)] of a number: truncation toward zero *)
Definition py_trunc (q : Q) : Z := Z.quot (Qnum q) (Z.pos (Qden q)).

Section StartingConfigurations.
Variable bonds : AtomNode -> list (AtomNode * bond).
Variable cycle_basis : Graph -> list (list AtomNode).
(** The order in which Python iterates over a set of strings *)
Variable iteration_order : list string -> list string.

(** [generate_nxg_from_list] *)
Definition generate_nxg_from_list (atoms : list AtomNode) : Graph :=
  {| g_nodes := atoms;
     g_edges := flat_map (fun a => map (fun b => (a, fst b)) (bonds a)) atoms |}.

(** [for cycle in nx.cycle_basis(g): ...
     [atoms_starting.remove(a) for a in cycle_carbons if a in atoms_starting]] *)
Definition drop_cycle_carbons (g : Graph) (atoms_starting : list AtomNode)
    : res (list AtomNode) :=
  foldM (fun atoms_starting cycle =>
           let cycle_carbons := List.filter (fun a => String.eqb (element a) "C") cycle in
           foldM (fun atoms_starting a =>
                    if py_in atom_eqb a atoms_starting
                    then list_remove atom_eqb a atoms_starting
                    else Ok atoms_starting)
                 cycle_carbons atoms_starting)
        (cycle_basis g) atoms_starting.

(** [for atom_type in left_types.intersection(right_types)] *)
Definition common_types (left_atoms right_atoms : list AtomNode) : list string :=
  iteration_order (set_inter String.eqb (set_of_list String.eqb (map type left_atoms))
                             (set_of_list String.eqb (map type right_atoms))).

(** [sum([1 for atom in atoms if atom.type == atom_type])] *)
Definition count_by_type (atoms : list AtomNode) (atom_type : string) : nat :=
  length (List.filter (fun atom => String.eqb (type atom) atom_type) atoms).

(** The key of [sorted(paired_by_type, key=lambda p: min(len(p[0]), len(p[1])))] *)
Definition rarity_le (p q : list AtomNode * list AtomNode) : bool :=
  (Nat.min (length (fst p)) (length (snd p)) <=? Nat.min (length (fst q)) (length (snd q)))%nat.

(** The last loop of [get_starting_configurations], with its [break] *)
Fixpoint take_pairs (desired_number_of_pairs : Z)
    (sorted_paired_by_type : list (list AtomNode * list AtomNode))
    (starting_configurations : list pair) (added_counter : nat) : list pair :=
  match sorted_paired_by_type with
  | [] => starting_configurations
  | (rare_left_atoms, rare_right_atoms) :: rest =>
      let starting_configurations :=
        starting_configurations ++ list_prod rare_left_atoms rare_right_atoms in
      let added_counter :=
        (added_counter + Nat.min (length rare_left_atoms) (length rare_right_atoms))%nat in
      if (desired_number_of_pairs <? Z.of_nat added_counter)%Z then starting_configurations
      else take_pairs desired_number_of_pairs rest starting_configurations added_counter
  end.

(** [get_starting_configurations] *)
Definition get_starting_configurations (left_atoms right_atoms : list AtomNode)
    (fraction : Q) (filter_ring_c : bool) : res (list pair) :=
  let left_atoms_noh :=
    List.filter (fun a => negb (String.eqb (element a) "H")) left_atoms in
  let right_atoms_noh :=
    List.filter (fun a => negb (String.eqb (element a) "H")) right_atoms in
  let per_type_max_counter :=
    fold_left (fun d atom_type =>
                 dict_set String.eqb atom_type
                   (Nat.min (count_by_type left_atoms atom_type)
                            (count_by_type right_atoms atom_type)) d)
              (common_types left_atoms_noh right_atoms_noh) [] in
  let max_overlap_size := list_sum (map snd per_type_max_counter) in
  '(left_atoms_starting, right_atoms_starting) ←
    (if filter_ring_c
     then left_atoms_starting ←
            drop_cycle_carbons (generate_nxg_from_list left_atoms) left_atoms_noh;
          right_atoms_starting ←
            drop_cycle_carbons (generate_nxg_from_list right_atoms_noh) right_atoms_noh;
          Ok (left_atoms_starting, right_atoms_starting)
     else Ok (left_atoms_noh, right_atoms_noh));
  let paired_by_type :=
    map (fun atom_type =>
           (List.filter (fun a => String.eqb (type a) atom_type) left_atoms_starting,
            List.filter (fun a => String.eqb (type a) atom_type) right_atoms_starting))
        (common_types left_atoms_starting right_atoms_starting) in
  let sorted_paired_by_type := py_sort rarity_le paired_by_type in
  let desired_number_of_pairs :=
    py_trunc (fraction * inject_Z (Z.of_nat max_overlap_size)) in
  Ok (take_pairs desired_number_of_pairs sorted_paired_by_type [] 0).
End StartingConfigurations.

(** ** Scenarios *)

(** Bonds of a molecule given as a list of undirected edges, as
    [AtomNode.bind_to] fills the [bonds] sets. *)
Definition bonds_of_edges (edges : list (AtomNode * AtomNode * bond)) (a : AtomNode)
    : list (AtomNode * bond) :=
  flat_map (fun '(x, y, o) =>
              (if atom_eqb x a then [(y, o)] else [])
              ++ (if atom_eqb y a then [(x, o)] else []))
           edges.

(** The two-atom chains C1-N1 and C11-N11 of the overlay tests *)
Module Chain.
Definition atom (counter : nat) (name_ type_ : string) : AtomNode :=
  {| name := name_; type := type_; element := type_; charge := 0;
     use_general_type := false; unique_counter := counter |}.

Definition C1 := atom 1 "C1" "C".
Definition N1 := atom 2 "N1" "N".
Definition C11 := atom 3 "C11" "C".
Definition N11 := atom 4 "N11" "N".

Definition bonds : AtomNode -> list (AtomNode * bond) :=
  bonds_of_edges [(C1, N1, Some "1"); (C11, N11, Some "1")].

Definition L := [C1; N1].
Definition R := [C11; N11].

(** A fresh topology, and what two calls of [add_node_pair] make of it *)
Definition fresh : SuperimposedTopology :=
  new_SuperimposedTopology bonds (fun _ => []) (Some L) (Some R).

Definition one : SuperimposedTopology :=
  match add_node_pair fresh (N1, N11) with
  | Ok st => st
  | Raise _ => fresh
  end.

Definition both : SuperimposedTopology :=
  match add_node_pair one (C1, C11) with
  | Ok st => st
  | Raise _ => one
  end.

(** The constructor builds these atoms. *)
Example chain_atoms_constructed :
  new_AtomNode 1 "C1" "C" 0 false = Ok C1 /\ new_AtomNode 2 "N1" "N" 0 false = Ok N1
  /\ new_AtomNode 3 "C11" "C" 0 false = Ok C11 /\ new_AtomNode 4 "N11" "N" 0 false = Ok N11.
Proof. repeat split. Qed.
End Chain.

(** A three-membered ring on the left; two three-membered rings joined by
    the bond C11-C21 on the right. *)
Module TwoRings.
Definition atom (counter : nat) (name_ : string) : AtomNode :=
  {| name := name_; type := "C3"; element := "C"; charge := 0;
     use_general_type := true; unique_counter := counter |}.

Definition C1 := atom 1 "C1".
Definition C2 := atom 2 "C2".
Definition C3 := atom 3 "C3".
Definition C11 := atom 11 "C11".
Definition C12 := atom 12 "C12".
Definition C13 := atom 13 "C13".
Definition C21 := atom 21 "C21".
Definition C22 := atom 22 "C22".
Definition C23 := atom 23 "C23".

Definition bonds : AtomNode -> list (AtomNode * bond) :=
  bonds_of_edges
    [(C1, C2, Some "1"); (C2, C3, Some "1"); (C3, C1, Some "1");
     (C11, C12, Some "1"); (C12, C13, Some "1"); (C13, C11, Some "1");
     (C21, C22, Some "1"); (C22, C23, Some "1"); (C23, C21, Some "1");
     (C11, C21, Some "1")].

Definition L := [C1; C2; C3].
Definition R := [C11; C12; C13; C21; C22; C23].

(** The cycle bases of the two graphs *)
Definition cycle_basis (g : Graph) : list (list AtomNode) :=
  if (length (g_nodes g) =? 3)%nat then [[C1; C2; C3]]
  else [[C11; C12; C13]; [C21; C22; C23]].

(** The topology of the seed (C1, C11) after its commit: what the kernel
    hands to the searches of the neighbours *)
Definition fresh : SuperimposedTopology :=
  new_SuperimposedTopology bonds cycle_basis (Some L) (Some R).

Definition seeded : SuperimposedTopology :=
  match overlay_commit bonds fresh C1 C11 None None (None, None) with
  | Ok st => st
  | Raise _ => fresh
  end.

(** [seeded] after the commit of (C2, C21): the left ring is now paired
    with atoms of both right rings. *)
Definition spanning : SuperimposedTopology :=
  match overlay_commit bonds seeded C2 C21 (Some C1) (Some C11) (Some "1", Some "1") with
  | Ok st => st
  | Raise _ => seeded
  end.
End TwoRings.

(** Three matched pairs with their charges: (C1, C11) differ in type and
    not in charge; (C2, C12) differ by 0.100005 e where the right charge is
    1 e; (C3, C13) differ by 0.5 e. *)
Module Charges.
Definition atom (counter : nat) (name_ type_ : string) (charge_ : Q) : AtomNode :=
  {| name := name_; type := type_; element := "C"; charge := charge_;
     use_general_type := true; unique_counter := counter |}.

Definition C1 := atom 1 "C1" "CA" 0.
Definition C2 := atom 2 "C2" "C3" (1100005 # 1000000).
Definition C3 := atom 3 "C3" "C3" (1 # 2).
Definition C11 := atom 11 "C11" "CB" 0.
Definition C12 := atom 12 "C12" "C3" 1.
Definition C13 := atom 13 "C13" "C3" 0.

Definition bonds : AtomNode -> list (AtomNode * bond) :=
  bonds_of_edges [(C1, C2, Some "1"); (C2, C3, Some "1");
                  (C11, C12, Some "1"); (C12, C13, Some "1")].

(** The topology the kernel returns for the seed (C1, C11) *)
Definition st : SuperimposedTopology :=
  match _overlay bonds (fun combinations =>
                          match combinations with
                          | [[(_, [(_, s)])]] => Ok s
                          | _ => Raise (Exception_ "no ranking in this scenario")
                          end)
                 4 C1 C11 None None (None, None)
                 (new_SuperimposedTopology bonds (fun _ => [])
                    (Some [C1; C2; C3]) (Some [C11; C12; C13])) true with
  | Ok (Some s) => s
  | _ => new_SuperimposedTopology bonds (fun _ => []) None None
  end.
End Charges.

(** A carbon pair with two bonded pairs: a hydrogen whose name does not
    start with H, and a carbon whose name does. *)
Module Hydrogens.
Definition atom (counter : nat) (name_ type_ element_ : string) : AtomNode :=
  {| name := name_; type := type_; element := element_; charge := 0;
     use_general_type := true; unique_counter := counter |}.

Definition C1 := atom 1 "C1" "C3" "C".
Definition D1 := atom 2 "D1" "HC" "H".
Definition HX1 := atom 3 "HX1" "C3" "C".
Definition C11 := atom 11 "C11" "C3" "C".
Definition D11 := atom 12 "D11" "HC" "H".
Definition HX11 := atom 13 "HX11" "C3" "C".

Example hydrogen_atoms_constructed :
  new_AtomNode 2 "D1" "HC" 0 true = Ok D1 /\ new_AtomNode 3 "HX1" "C3" 0 true = Ok HX1.
Proof. split; reflexivity. Qed.

(** (C1, C11) with (D1, D11) and (HX1, HX11) linked to it *)
Definition st : SuperimposedTopology :=
  match
    (st ← add_node_pair (new_SuperimposedTopology (fun _ => []) (fun _ => []) None None)
                        (C1, C11);
     st ← add_node_pair st (D1, D11);
     st ← link_with_parent st (D1, D11) (C1, C11) (Some "1", Some "1");
     st ← add_node_pair st (HX1, HX11);
     link_with_parent st (HX1, HX11) (C1, C11) (Some "1", Some "1"))
  with
  | Ok st => st
  | Raise _ => new_SuperimposedTopology (fun _ => []) (fun _ => []) None None
  end.
End Hydrogens.

(** An eight-membered ring with a three-membered ring attached on the left;
    on the right the eight-membered ring with a chain of two atoms.  Two
    atoms of the large rings and two of the small ring are matched. *)
Module Macrocycle.
Definition atom (counter : nat) (name_ : string) : AtomNode :=
  {| name := name_; type := "C3"; element := "C"; charge := 0;
     use_general_type := true; unique_counter := counter |}.

Definition M1 := atom 1 "M1".
Definition M2 := atom 2 "M2".
Definition M3 := atom 3 "M3".
Definition M4 := atom 4 "M4".
Definition M5 := atom 5 "M5".
Definition M6 := atom 6 "M6".
Definition M7 := atom 7 "M7".
Definition M8 := atom 8 "M8".
Definition T1 := atom 9 "T1".
Definition T2 := atom 10 "T2".
Definition T3 := atom 11 "T3".
Definition M11 := atom 21 "M11".
Definition M12 := atom 22 "M12".
Definition M13 := atom 23 "M13".
Definition M14 := atom 24 "M14".
Definition M15 := atom 25 "M15".
Definition M16 := atom 26 "M16".
Definition M17 := atom 27 "M17".
Definition M18 := atom 28 "M18".
Definition T11 := atom 29 "T11".
Definition T12 := atom 30 "T12".

Definition L := [M1; M2; M3; M4; M5; M6; M7; M8; T1; T2; T3].
Definition R := [M11; M12; M13; M14; M15; M16; M17; M18; T11; T12].

Definition bonds : AtomNode -> list (AtomNode * bond) :=
  bonds_of_edges
    [(M1, M2, Some "1"); (M2, M3, Some "1"); (M3, M4, Some "1"); (M4, M5, Some "1");
     (M5, M6, Some "1"); (M6, M7, Some "1"); (M7, M8, Some "1"); (M8, M1, Some "1");
     (M1, T1, Some "1"); (T1, T2, Some "1"); (T2, T3, Some "1"); (T3, T1, Some "1");
     (M11, M12, Some "1"); (M12, M13, Some "1"); (M13, M14, Some "1");
     (M14, M15, Some "1"); (M15, M16, Some "1"); (M16, M17, Some "1");
     (M17, M18, Some "1"); (M18, M11, Some "1");
     (M11, T11, Some "1"); (T11, T12, Some "1")].

(** The cycle bases: of the left molecule, of the right molecule, and of
    the graphs on the matched atoms, which have no cycle *)
Definition cycle_basis (g : Graph) : list (list AtomNode) :=
  if (length (g_nodes g) =? 11)%nat then [[M1; M2; M3; M4; M5; M6; M7; M8]; [T1; T2; T3]]
  else if (length (g_nodes g) =? 10)%nat then [[M11; M12; M13; M14; M15; M16; M17; M18]]
  else [].

Definition st : SuperimposedTopology :=
  match
    (st ← add_node_pair (new_SuperimposedTopology bonds cycle_basis (Some L) (Some R))
                        (M1, M11);
     st ← add_node_pair st (M2, M12);
     st ← link_with_parent st (M2, M12) (M1, M11) (Some "1", Some "1");
     st ← add_node_pair st (T1, T11);
     st ← link_with_parent st (T1, T11) (M1, M11) (Some "1", Some "1");
     st ← add_node_pair st (T2, T12);
     link_with_parent st (T2, T12) (T1, T11) (Some "1", Some "1"))
  with
  | Ok st => st
  | Raise _ => new_SuperimposedTopology bonds cycle_basis (Some L) (Some R)
  end.
End Macrocycle.

(** The topology of module [Charges] as an object on the heap *)
Module Shared.
Definition h0 : heap :=
  {| cells := ∅; next_loc := 0%nat |}.

(** An object for [Charges.st]: fresh containers, and the attributes that
    are assigned, not updated in place, as the topology has them *)
Definition o1 : st_object :=
  {| attr := attr (snd (new_object h0));
     o_top1 := top1 Charges.st; o_top2 := top2 Charges.st;
     o_ignore_bond_types := ignore_bond_types Charges.st;
     o_left_coords_are_ref := left_coords_are_ref Charges.st;
     o_nonoverlapping_l_cycles := _nonoverlapping_l_cycles Charges.st;
     o_nonoverlapping_r_cycles := _nonoverlapping_r_cycles Charges.st |}.

Definition h1 : heap := write_back (fst (new_object h0)) o1 Charges.st.
End Shared.

(** The chains C1-N1 and C11-N11 through the orchestrator, from the seed
    (C1, C11); the argument is [disjoint_components], the other keyword
    arguments are the defaults.  The two molecules match in full, so the
    methods on coordinates, atom types and ids are taken to leave the
    topology as it is, and the ranking of candidates to keep the only one. *)
Module Redistribution.
Definition cfg (disjoint_components_ : bool) : config :=
  {| pair_charge_atol := 1 # 10; use_charges := true; use_coords := true;
     starting_node_pairs := Some [(Chain.C1, Chain.C11)]; force_mismatch := None;
     disjoint_components := disjoint_components_;
     net_charge_filter := true; net_charge_threshold := 1 # 10;
     redistribute_charges_over_unmatched := true;
     align_molecules := true; partial_rings_allowed := true;
     ignore_charges_completely := false; cfg_ignore_bond_types := true;
     ignore_coords := false; cfg_left_coords_are_ref := true;
     use_general_type_ := true; use_only_element := false;
     check_atom_names_unique := true; starting_pairs_heuristics := true |}.

Definition run_superimpose_topologies (disjoint_components_ : bool)
    : run (list SuperimposedTopology) :=
  superimpose_topologies Chain.bonds (fun _ => [])
    (fun combinations => match combinations with
                         | [[(_, [(_, s)])]] => Ok s
                         | _ => Raise (Exception_ "no ranking in this scenario")
                         end)
    (fun _ _ => [])
    (fun candidate suptops => Ok (suptops ++ [candidate]))
    (fun _ _ => Ok 0%Q) (fun _ => Ok 0%Q)
    (fun suptops => Ok suptops) (fun st => Ok st) (fun st => Ok st)
    (fun st id_start => Ok (st, (id_start + length (matched_pairs st))%nat))
    (fun _ => Ok 0%Q)
    4 (cfg disjoint_components_) Chain.L Chain.R.
End Redistribution.

(** Two molecules of one atom each, a carbon and a nitrogen, with no type
    in common; every pair of atoms is a seed. *)
Module Unrelated.
Definition C1 : AtomNode :=
  {| name := "C1"; type := "C"; element := "C"; charge := 0;
     use_general_type := true; unique_counter := 1 |}.
Definition N11 : AtomNode :=
  {| name := "N11"; type := "N"; element := "N"; charge := 0;
     use_general_type := true; unique_counter := 2 |}.

Definition bonds : AtomNode -> list (AtomNode * bond) := fun _ => [].
Definition cycle_basis : Graph -> list (list AtomNode) := fun _ => [].

Definition L := [C1].
Definition R := [N11].

(** [starting_pairs_heuristics=False], the other arguments at their defaults *)
Definition cfg : config :=
  {| pair_charge_atol := 1 # 10; use_charges := true; use_coords := true;
     starting_node_pairs := None; force_mismatch := None;
     disjoint_components := true;
     net_charge_filter := true; net_charge_threshold := 1 # 10;
     redistribute_charges_over_unmatched := true;
     align_molecules := true; partial_rings_allowed := true;
     ignore_charges_completely := false; cfg_ignore_bond_types := true;
     ignore_coords := false; cfg_left_coords_are_ref := true;
     use_general_type_ := true; use_only_element := false;
     check_atom_names_unique := true; starting_pairs_heuristics := false |}.

(** The collaborators of the orchestrator; none of them is reached when the
    search finds nothing. *)
Definition unreached {A : Type} : res A :=
  Raise (Exception_ "not reached in this scenario").

Definition run_superimpose_topologies : run (list SuperimposedTopology) :=
  superimpose_topologies bonds cycle_basis (fun _ => unreached) (fun _ _ => [])
    (fun _ _ => unreached) (fun _ _ => unreached) (fun _ => unreached)
    (fun _ => unreached) (fun _ => unreached) (fun _ => unreached)
    (fun _ _ => unreached) (fun _ => unreached) 4 cfg L R.

Example unrelated_atoms_constructed :
  new_AtomNode 1 "C1" "C" 0 true = Ok C1 /\ new_AtomNode 2 "N11" "N" 0 true = Ok N11.
Proof. split; reflexivity. Qed.
End Unrelated.

(** The molecules of [Charges] through the orchestrator with the default
    arguments: the total charge on the left, 1.600005, is no integer. *)
Module Rejected.
Definition L := [Charges.C1; Charges.C2; Charges.C3].
Definition R := [Charges.C11; Charges.C12; Charges.C13].

Definition run_superimpose_topologies : run (list SuperimposedTopology) :=
  superimpose_topologies Charges.bonds (fun _ => []) (fun _ => Unrelated.unreached)
    (fun _ _ => []) (fun _ _ => Unrelated.unreached) (fun _ _ => Unrelated.unreached)
    (fun _ => Unrelated.unreached) (fun _ => Unrelated.unreached)
    (fun _ => Unrelated.unreached) (fun _ => Unrelated.unreached)
    (fun _ _ => Unrelated.unreached) (fun _ => Unrelated.unreached)
    4 default_config L R.
End Rejected.

(** The chains of [Redistribution] with [force_mismatch=[('C1', 'C11')]] *)
Module Mismatch.
Definition cfg : config :=
  {| pair_charge_atol := 1 # 10; use_charges := true; use_coords := true;
     starting_node_pairs := Some [(Chain.C1, Chain.C11)];
     force_mismatch := Some [("C1", "C11")];
     disjoint_components := true;
     net_charge_filter := true; net_charge_threshold := 1 # 10;
     redistribute_charges_over_unmatched := true;
     align_molecules := true; partial_rings_allowed := true;
     ignore_charges_completely := false; cfg_ignore_bond_types := true;
     ignore_coords := false; cfg_left_coords_are_ref := true;
     use_general_type_ := true; use_only_element := false;
     check_atom_names_unique := true; starting_pairs_heuristics := true |}.

Definition run_superimpose_topologies : run (list SuperimposedTopology) :=
  superimpose_topologies Chain.bonds (fun _ => [])
    (fun combinations => match combinations with
                         | [[(_, [(_, s)])]] => Ok s
                         | _ => Raise (Exception_ "no ranking in this scenario")
                         end)
    (fun _ _ => [])
    (fun candidate suptops => Ok (suptops ++ [candidate]))
    (fun _ _ => Ok 0%Q) (fun _ => Ok 0%Q)
    (fun suptops => Ok suptops) (fun st => Ok st) (fun st => Ok st)
    (fun st id_start => Ok (st, (id_start + length (matched_pairs st))%nat))
    (fun _ => Ok 0%Q)
    4 cfg Chain.L Chain.R.
End Mismatch.

(** Atom names: the letters of ASCII for [str.isalpha] and, for [int], the
    decimal literals that Python reads from an ASCII string: whitespace
    around the literal, a sign, and digits with single underscores between
    them; two molecules that share names. *)
Module Names.
Definition isalpha (c : ascii) : bool :=
  let n := nat_of_ascii c in
  ((65 <=? n) && (n <=? 90) || (97 <=? n) && (n <=? 122))%nat.

(** The characters that [int] skips around a literal *)
Definition isspace (c : ascii) : bool :=
  let n := nat_of_ascii c in
  ((9 <=? n) && (n <=? 13) || (n =? 32))%nat.

Definition digit (c : ascii) : option Z :=
  let n := nat_of_ascii c in
  if ((48 <=? n) && (n <=? 57))%nat then Some (Z.of_nat (n - 48)) else None.

Fixpoint lstrip (s : string) : string :=
  match s with
  | String c s' => if isspace c then lstrip s' else s
  | EmptyString => EmptyString
  end.

Fixpoint rstrip (s : string) : string :=
  match s with
  | String c s' =>
      match rstrip s' with
      | EmptyString => if isspace c then EmptyString else String c EmptyString
      | r => String c r
      end
  | EmptyString => EmptyString
  end.

(** The digits of a literal, with single underscores between digits *)
Fixpoint digits (s : string) (acc : Z) (after_digit : bool) : option Z :=
  match s with
  | String c s' =>
      match digit c with
      | Some d => digits s' (10 * acc + d)%Z true
      | None => if Ascii.eqb c "_" && after_digit then digits s' acc false else None
      end
  | EmptyString => if after_digit then Some acc else None
  end.

Definition py_int (s : string) : option Z :=
  match rstrip (lstrip s) with
  | String "-" r => option_map Z.opp (digits r 0%Z false)
  | String "+" r => digits r 0%Z false
  | t => digits t 0%Z false
  end.

(** The number that a sequence of decimal digits writes, after [acc] *)
Fixpoint uint_value (d : Decimal.uint) (acc : Z) : Z :=
  match d with
  | Decimal.Nil => acc
  | Decimal.D0 d => uint_value d (10 * acc + 0)
  | Decimal.D1 d => uint_value d (10 * acc + 1)
  | Decimal.D2 d => uint_value d (10 * acc + 2)
  | Decimal.D3 d => uint_value d (10 * acc + 3)
  | Decimal.D4 d => uint_value d (10 * acc + 4)
  | Decimal.D5 d => uint_value d (10 * acc + 5)
  | Decimal.D6 d => uint_value d (10 * acc + 6)
  | Decimal.D7 d => uint_value d (10 * acc + 7)
  | Decimal.D8 d => uint_value d (10 * acc + 8)
  | Decimal.D9 d => uint_value d (10 * acc + 9)
  end%Z.

Definition atom (counter : nat) (name_ type_ : string) : AtomNode :=
  {| name := name_; type := type_; element := type_; charge := 0;
     use_general_type := false; unique_counter := counter |}.

Definition L := [atom 1 "C1" "C"; atom 2 "C1" "C"; atom 3 "N1" "N"].
Definition R := [atom 4 "C2" "C"; atom 5 "N1" "N"].
End Names.

(** ** Invariants of a superimposed topology *)

(** [matched_pairs] in ascending order of the name of the left atom *)
Definition sorted_by_left_name (l : list pair) : Prop :=
  StronglySorted (fun p q => left_name_le p q = true) l.

(** The states a topology goes through: it starts empty and changes through
    its mutating methods and through the commit of the kernel. *)
Inductive reachable : SuperimposedTopology -> Prop :=
| reach_new bonds cycle_basis t1 t2 :
    reachable (new_SuperimposedTopology bonds cycle_basis t1 t2)
| reach_add_node_pair st p st' :
    reachable st -> add_node_pair st p = Ok st' -> reachable st'
| reach_remove_node_pair st p st' :
    reachable st -> remove_node_pair st p = Ok st' -> reachable st'
| reach_merge st other st' merged :
    reachable st -> merge st other = Ok (st', merged) -> reachable st'
| reach_link_pairs st p ps st' :
    reachable st -> link_pairs st p ps = Ok st' -> reachable st'
| reach_link_with_parent st p parent bt st' :
    reachable st -> link_with_parent st p parent bt = Ok st' -> reachable st'
| reach_remove_attached_hydrogens st p st' removed :
    reachable st -> remove_attached_hydrogens st p = Ok (st', removed) -> reachable st'
| reach_matched_atom_types_are_the_same st st' :
    reachable st -> matched_atom_types_are_the_same st = Ok st' -> reachable st'
| reach_remove_worst_charge_match st st' d :
    reachable st -> remove_worst_charge_match st = Ok (st', d) -> reachable st'
| reach_refine_against_charges st atol h st' :
    reachable st -> refine_against_charges st atol h = Ok st' -> reachable st'
| reach_remove_unmatched_ring_atoms st circles st' removed :
    reachable st -> _remove_unmatched_ring_atoms st circles = Ok (st', removed) -> reachable st'
| reach_overlay_commit bonds st n1 n2 p1 p2 bt st' :
    reachable st -> overlay_commit bonds st n1 n2 p1 p2 bt = Ok st' -> reachable st'
| reach_set_flags st b1 b2 : reachable st -> reachable (set_flags st b1 b2)
| reach_set_tops st t1 t2 : reachable st -> reachable (set_tops st t1 t2).

(** [q] is bonded to [p] in [matched_pairs_bonds] *)
Definition adjacent (st : SuperimposedTopology) (p q : pair) : Prop :=
  exists s bt, dict_get pair_eqb p (matched_pairs_bonds st) = Some s /\ In (q, bt) s.

(** The invariants of the bookkeeping: the pairs are a bijection between
    left and right atoms, [nodes] holds the atoms of the pairs, the keys of
    [matched_pairs_bonds] are the pairs, and its bond sets are symmetric,
    without loops and with one entry for a bonded pair. *)
Record st_wf (st : SuperimposedTopology) : Prop := {
  wf_left : List.NoDup (map fst (matched_pairs st));
  wf_right : List.NoDup (map snd (matched_pairs st));
  wf_sides : forall p q, In p (matched_pairs st) -> In q (matched_pairs st) -> fst p <> snd q;
  wf_nodes_NoDup : List.NoDup (nodes st);
  wf_nodes : forall a, In a (nodes st)
                       <-> exists p, In p (matched_pairs st) /\ (a = fst p \/ a = snd p);
  wf_keys_NoDup : List.NoDup (map fst (matched_pairs_bonds st));
  wf_keys : forall p, In p (map fst (matched_pairs_bonds st)) <-> In p (matched_pairs st);
  wf_adj_NoDup : forall p s, In (p, s) (matched_pairs_bonds st) -> List.NoDup (map fst s);
  wf_adj : forall p s q bt, In (p, s) (matched_pairs_bonds st) -> In (q, bt) s ->
             q <> p /\ exists s', In (q, s') (matched_pairs_bonds st) /\ In (p, bt) s'
}.

(** What [remove_node_pair] leaves of [matched_pairs_bonds]: the key of the
    pair is gone, and so is every entry for the pair in the other bond sets. *)
Definition strip (p : pair) (s : list bonded) : list bonded :=
  List.filter (fun e => negb (pair_eqb (fst e) p)) s.

Definition strip_at (p : pair) (ks : list pair) (d : list (pair * list bonded))
    : list (pair * list bonded) :=
  map (fun kv => (fst kv, if py_in pair_eqb (fst kv) ks then strip p (snd kv) else snd kv)) d.

Definition removed_bonds (p : pair) (d : list (pair * list bonded))
    : list (pair * list bonded) :=
  map (fun kv => (fst kv, strip p (snd kv))) (dict_del pair_eqb p d).

(** The pairs the charge refinement takes out *)
Definition charge_mismatch (atol : Q) (p : pair) : bool :=
  negb (AtomNode_eq (fst p) (snd p) atol).

(** The entry the refinement records for a removed pair *)
Definition charge_entry (p : pair) : pair * Q :=
  (p, Qabs (charge (snd p) - charge (fst p))).

(** What [remove_attached_hydrogens] takes for a hydrogen: a pair whose left
    atom has a name that starts with H *)
Definition named_hydrogen (q : pair) : bool := String.prefix "H" (name (fst q)).

(** A pair whose atoms lie in no cycle of at most [MAX_CIRCLE_SIZE] atoms
    among [circles]: its atoms are in macrocycles only, or in no cycle. *)
Definition only_in_macrocycles (circles : list (list AtomNode)) (p : pair) : bool :=
  forallb (fun c => negb (py_in atom_eqb (fst p) c || py_in atom_eqb (snd p) c)
                    || (MAX_CIRCLE_SIZE <? length c)%nat)
          circles.

(** No atom of the pair is in the cycle. *)
Definition avoids (p : pair) (c : list AtomNode) : Prop :=
  ~ In (fst p) c /\ ~ In (snd p) c.

(** The circles of a [ring_state] avoid the pair. *)
Definition ring_state_avoids (p : pair) (s : ring_state) : Prop :=
  Forall (avoids p) (l_matched_circles s) /\ Forall (avoids p) (r_matched_circles s)
  /\ Forall (avoids p) (l_circles s) /\ Forall (avoids p) (r_circles s)
  /\ Forall (fun cc => avoids p (fst cc) /\ avoids p (snd cc)) (correct_circles s).

(** The container an attribute of an object refers to *)
Definition contents (h : heap) (o : st_object) (f : field) : option cell :=
  cells h !! attr o f.

Definition is_removal_log (f : field) : bool :=
  existsb (fun g => bool_decide (g = f)) removal_logs.

(** An object of the heap: its containers were allocated, no two of its
    attributes refer to the same container, and the containers hold the
    topology [st]. *)
Record object_of (h : heap) (o : st_object) (st : SuperimposedTopology) : Prop := {
  obj_allocated : forall f, (attr o f < next_loc h)%nat;
  obj_separate : forall f g, attr o f = attr o g -> f = g;
  obj_load : load h o = Ok st
}.

(** [object_of], decided for the topology that [load] yields *)
Definition object_ofb (h : heap) (o : st_object) : bool :=
  forallb (fun f => (attr o f <? next_loc h)%nat) all_fields
  && forallb (fun f => forallb (fun g => negb (attr o f =? attr o g)%nat || bool_decide (f = g))
                               all_fields) all_fields
  && match load h o with Ok _ => true | Raise _ => false end.

(** A later heap: what was allocated is still there, unchanged. *)
Definition extends (h h' : heap) : Prop :=
  (next_loc h <= next_loc h')%nat
  /\ forall l, (l < next_loc h)%nat -> cells h' !! l = cells h !! l.

(** The attributes of a copy in the making: those in [done] refer to fresh
    containers with the contents of the original's, the others still refer
    to the containers of the original [o1] itself. *)
Record copying (h : heap) (o1 : st_object) (st : SuperimposedTopology)
    (done : list field) (hk : heap) (ok : st_object) : Prop := {
  cp_extends : extends h hk;
  cp_fresh : forall f, In f done ->
               (next_loc h <= attr ok f < next_loc hk)%nat
               /\ cells hk !! attr ok f = Some (field_value st f);
  cp_shared : forall f, ~ In f done -> attr ok f = attr o1 f;
  cp_separate : forall f g, In f done -> In g done -> attr ok f = attr ok g -> f = g;
  cp_immediate :
    o_top1 ok = o_top1 o1 /\ o_top2 ok = o_top2 o1
    /\ o_ignore_bond_types ok = o_ignore_bond_types o1
    /\ o_left_coords_are_ref ok = o_left_coords_are_ref o1
    /\ o_nonoverlapping_l_cycles ok = o_nonoverlapping_l_cycles o1
    /\ o_nonoverlapping_r_cycles ok = o_nonoverlapping_r_cycles o1
}.

(** The attributes [__copy__] gives a container of their own *)
Definition duplicated : list field :=
  [F_alternative_mappings; F_mirrors; F_matched_pairs_bonds;
   F_nodes_added_log; F_nodes; F_matched_pairs].

(** The message of the exception raised by [superimpose_topologies] at lines
    2517-2519 of the source *)
Definition no_state_message : string :=
  ("Error: Did not find a single superimposition state."
   ++ "Error: Not even a single atom is common across the two molecules? "
   ++ "Something must be wrong. ")%string.

(** The two checks on the input that come before the search: the total
    charges and the atom names *)
Definition inputs_accepted (cfg : config) (top1_nodes top2_nodes : list AtomNode) : bool :=
  (ignore_charges_completely cfg
   || match validate_charges top1_nodes top2_nodes with Ok _ => true | Raise _ => false end)
  && (negb (check_atom_names_unique cfg)
      || (length (set_inter String.eqb
                    (set_of_list String.eqb (map name top1_nodes))
                    (set_of_list String.eqb (map name top2_nodes))) =? 0)%nat).

(** No seed pair yields a topology with a pair in it: the kernel returns
    [None] or a topology of length 0 for each. *)
Definition no_seed_matches (bonds : AtomNode -> list (AtomNode * bond))
    (cycle_basis : Graph -> list (list AtomNode))
    (resolve_combinations : list solutions -> res SuperimposedTopology)
    (get_starting_configurations : list AtomNode -> list AtomNode -> list pair)
    (fuel : nat) (cfg : config) (top1_nodes top2_nodes : list AtomNode) : bool :=
  forallb (fun seed =>
             match seed_candidate bonds cycle_basis resolve_combinations fuel
                     top1_nodes top2_nodes (cfg_left_coords_are_ref cfg)
                     (use_general_type_ cfg) seed with
             | Ok None => true
             | Ok (Some c) => (st_len c =? 0)%nat
             | Raise _ => false
             end)
          (seed_pairs get_starting_configurations top1_nodes top2_nodes
             (starting_node_pairs cfg) (starting_pairs_heuristics cfg)).

(** The topologies [redistribute_charges] was called on, in a trace *)
Definition redistribute_calls (t : list event) : list SuperimposedTopology :=
  flat_map (fun e => match e with
                     | Called_redistribute_charges st => [st]
                     | _ => []
                     end) t.

(** A run of a loop of the model ended as the Python loop does: with a
    result or with a Python exception, and not because the bound on the
    number of iterations was too small. *)
Definition terminated {A : Type} (r : res A) : Prop :=
  match r with
  | Raise OutOfFuel => False
  | _ => True
  end.

(** A duplicate-free list, decided *)
Fixpoint nodupb {A : Type} (eqb : A -> A -> bool) (l : list A) : bool :=
  match l with
  | [] => true
  | x :: l' => negb (py_in eqb x l') && nodupb eqb l'
  end.

(** [st_wf], decided *)
Definition st_wfb (st : SuperimposedTopology) : bool :=
  nodupb atom_eqb (map fst (matched_pairs st))
  && nodupb atom_eqb (map snd (matched_pairs st))
  && forallb (fun p => forallb (fun q => negb (atom_eqb (fst p) (snd q))) (matched_pairs st))
             (matched_pairs st)
  && nodupb atom_eqb (nodes st)
  && forallb (fun a => existsb (fun p => atom_eqb a (fst p) || atom_eqb a (snd p))
                               (matched_pairs st)) (nodes st)
  && forallb (fun p => py_in atom_eqb (fst p) (nodes st) && py_in atom_eqb (snd p) (nodes st))
             (matched_pairs st)
  && nodupb pair_eqb (map fst (matched_pairs_bonds st))
  && forallb (fun p => py_in pair_eqb p (matched_pairs st)) (map fst (matched_pairs_bonds st))
  && forallb (fun p => py_in pair_eqb p (map fst (matched_pairs_bonds st))) (matched_pairs st)
  && forallb (fun '(p, s) =>
                nodupb pair_eqb (map fst s)
                && forallb (fun '(q, bt) =>
                              negb (pair_eqb q p)
                              && existsb (fun '(q', s') =>
                                            pair_eqb q' q && py_in bonded_eqb (p, bt) s')
                                         (matched_pairs_bonds st))
                           s)
             (matched_pairs_bonds st).

(** The five removal logs of two topologies hold the same *)
Definition same_removal_logs (st st' : SuperimposedTopology) : Prop :=
  _removed_pairs_with_charge_difference st' = _removed_pairs_with_charge_difference st
  /\ _removed_because_disjointed_cc st' = _removed_because_disjointed_cc st
  /\ _removed_due_to_net_charge st' = _removed_due_to_net_charge st
  /\ _removed_because_unmatched_rings st' = _removed_because_unmatched_rings st
  /\ _removed_because_diff_bonds st' = _removed_because_diff_bonds st.

(** The letters part and the number part of a name: the name up to its
    last letter, and what follows *)
Fixpoint split_name (isalpha : ascii -> bool) (s : string) : option (string * string) :=
  match s with
  | EmptyString => None
  | String c s' =>
      match split_name isalpha s' with
      | Some (p, d) => Some (String c p, d)
      | None => if isalpha c then Some (String c EmptyString, s') else None
      end
  end.

(** The name has a letter. *)
Definition has_letter (isalpha : ascii -> bool) (s : string) : bool :=
  existsb isalpha (list_ascii_of_string s).

(** The last character is a letter. *)
Fixpoint ends_alpha (isalpha : ascii -> bool) (s : string) : bool :=
  match s with
  | EmptyString => false
  | String c EmptyString => isalpha c
  | String _ s' => ends_alpha isalpha s'
  end.

(** No character is a letter. *)
Definition no_alpha (isalpha : ascii -> bool) (s : string) : bool :=
  negb (has_letter isalpha s).

(** The atom but for its name *)
Definition renamed (a a' : AtomNode) : Prop := a' = set_name a (name a').

(** The counter is at least the number of every name of the form
    letters part plus number. *)
Definition names_below (isalpha : ascii -> bool) (d : name_counter) (names : list string)
    : Prop :=
  forall x p k, In x names -> x = String.append p (py_str k) ->
                ends_alpha isalpha p = true -> (k <= counter_get p d)%Z.

(** A carbon of a cycle that [cycle_basis] finds in the graph *)
Definition ring_carbon (cycle_basis : Graph -> list (list AtomNode)) (g : Graph)
    (a : AtomNode) : Prop :=
  element a = "C" /\ exists cycle, In cycle (cycle_basis g) /\ In a cycle.

(** * Properties *)

(** ** Facts about the Python containers *)

Lemma bind_Ok {A B : Type} (m : res A) (k : A -> res B) (b : B) :
  (m ≫= k) = Ok b -> exists a, m = Ok a /\ k a = Ok b.
Proof. destruct m as [a|e]; simpl; intros H; [eauto | discriminate]. Qed.

Lemma atom_eqb_eq (a b : AtomNode) : atom_eqb a b = true <-> a = b.
Proof. unfold atom_eqb. apply bool_decide_eq_true. Qed.

Lemma pair_eqb_eq (p q : pair) : pair_eqb p q = true <-> p = q.
Proof. unfold pair_eqb. apply bool_decide_eq_true. Qed.

Lemma bonded_eqb_eq (x y : bonded) : bonded_eqb x y = true <-> x = y.
Proof. unfold bonded_eqb. apply bool_decide_eq_true. Qed.

Section ContainerFacts.
Context {A : Type} (eqb : A -> A -> bool).
Hypothesis eqb_eq : forall x y, eqb x y = true <-> x = y.

Lemma eqb_refl' x : eqb x x = true.
Proof using eqb_eq. now apply eqb_eq. Qed.

Lemma eqb_neq x y : eqb x y = false <-> x <> y.
Proof using eqb_eq.
  split.
  - intros H E. apply eqb_eq in E. congruence.
  - intros H. destruct (eqb x y) eqn:E; [apply eqb_eq in E; contradiction | reflexivity].
Qed.

Lemma py_in_In x l : py_in eqb x l = true <-> In x l.
Proof using eqb_eq.
  unfold py_in. rewrite existsb_exists. split.
  - intros (y & Hy & E). apply eqb_eq in E. now subst.
  - intros H. exists x. split; [assumption | apply eqb_refl'].
Qed.

Lemma py_in_not_In x l : py_in eqb x l = false <-> ~ In x l.
Proof using eqb_eq.
  rewrite <- py_in_In. destruct (py_in eqb x l); split; congruence.
Qed.

Lemma filter_neq_In x y l :
  In y (List.filter (fun z => negb (eqb z x)) l) <-> In y l /\ y <> x.
Proof using eqb_eq.
  rewrite filter_In, negb_true_iff, eqb_neq. reflexivity.
Qed.

Lemma filter_neq_id x l :
  ~ In x l -> List.filter (fun z => negb (eqb z x)) l = l.
Proof using eqb_eq.
  induction l as [|y l IH]; simpl; intros H; [reflexivity|].
  destruct (eqb y x) eqn:E.
  - apply eqb_eq in E. subst. exfalso. apply H. now left.
  - simpl. f_equal. apply IH. intros Hin. apply H. now right.
Qed.

(** [list.remove] takes out one element, and only an element equal to the
    argument. *)
Lemma list_remove_In x l l' :
  list_remove eqb x l = Ok l' ->
  In x l /\ length l = S (length l')
  /\ (forall y, In y l' -> In y l)
  /\ (forall y, y <> x -> In y l -> In y l').
Proof using eqb_eq.
  revert l'. induction l as [|y l IH]; simpl; intros l' H; [discriminate|].
  destruct (eqb y x) eqn:E.
  - apply eqb_eq in E. inversion H; subst.
    split; [now left|]. split; [reflexivity|]. split.
    + intros z Hz. now right.
    + intros z Hne [Hz|Hz]; [congruence | assumption].
  - apply bind_Ok in H. destruct H as (l'' & Hr & Hk). inversion Hk; subst.
    destruct (IH _ Hr) as (H1 & H2 & H3 & H4).
    split; [now right|]. split; [simpl; now rewrite H2|]. split.
    + intros z [Hz|Hz]; [now left | right; auto].
    + intros z Hne [Hz|Hz]; [now left | right; auto].
Qed.

Lemma list_remove_NoDup x l :
  List.NoDup l -> In x l ->
  list_remove eqb x l = Ok (List.filter (fun z => negb (eqb z x)) l).
Proof using eqb_eq.
  induction l as [|y l IH]; simpl; intros Hnd Hin; [contradiction|].
  inversion Hnd as [|? ? Hy Hnd']; subst.
  destruct (eqb y x) eqn:E.
  - apply eqb_eq in E. subst. simpl. now rewrite filter_neq_id.
  - simpl. destruct Hin as [Hin|Hin]; [apply eqb_neq in E; congruence|].
    rewrite (IH Hnd' Hin). reflexivity.
Qed.

Lemma list_remove_sorted (R : A -> A -> Prop) x l l' :
  StronglySorted R l -> list_remove eqb x l = Ok l' -> StronglySorted R l'.
Proof using eqb_eq.
  intros Hs. revert l'. induction Hs as [|y l Hs IH Hall]; simpl; intros l' H; [discriminate|].
  destruct (eqb y x).
  - now inversion H; subst.
  - apply bind_Ok in H. destruct H as (l'' & Hr & Hk). inversion Hk; subst.
    constructor; [now apply IH|].
    rewrite Forall_forall in *. intros z Hz.
    apply Hall. now apply (list_remove_In _ _ _ Hr).
Qed.

Lemma set_remove_In x s :
  In x s -> set_remove eqb x s = Ok (List.filter (fun y => negb (eqb y x)) s).
Proof using eqb_eq.
  intros H. unfold set_remove. now rewrite (proj2 (py_in_In x s) H).
Qed.

Lemma set_add_In x y s : In y (set_add eqb x s) <-> y = x \/ In y s.
Proof using eqb_eq.
  unfold set_add. destruct (py_in eqb x s) eqn:E.
  - apply py_in_In in E. split; [now right | intros [->|H]; assumption].
  - rewrite in_app_iff. simpl. intuition.
Qed.

Lemma set_add_NoDup x s : List.NoDup s -> List.NoDup (set_add eqb x s).
Proof using eqb_eq.
  unfold set_add. intros H. destruct (py_in eqb x s) eqn:E; [assumption|].
  apply py_in_not_In in E.
  apply List.NoDup_app; [assumption | |].
  - constructor; [intros [] | constructor].
  - intros y Hy [<-|[]]. contradiction.
Qed.
End ContainerFacts.

(** ** The order of atom names *)

Lemma String_leb_iff (s1 s2 : string) :
  String.leb s1 s2 = true <-> s1 = s2 \/ String_as_OT.lt s1 s2.
Proof.
  unfold String.leb.
  rewrite <- String_as_OT.cmp_lt, <- String_as_OT.cmp_eq.
  unfold String_as_OT.cmp.
  destruct (String.compare s1 s2); intuition congruence.
Qed.

Lemma String_leb_trans (s1 s2 s3 : string) :
  String.leb s1 s2 = true -> String.leb s2 s3 = true -> String.leb s1 s3 = true.
Proof.
  rewrite !String_leb_iff. intros [->|H1] [->|H2]; auto.
  right. eapply String_as_OT.lt_trans; eassumption.
Qed.

(** ** Facts about the stable sort *)

Section SortFacts.
Context {A : Type} (le : A -> A -> bool).
Hypothesis le_total : forall x y, le x y = true \/ le y x = true.
Hypothesis le_trans : forall x y z, le x y = true -> le y z = true -> le x z = true.

Lemma sort_insert_perm x l : Permutation (sort_insert le x l) (x :: l).
Proof using Type.
  induction l as [|y l IH]; simpl; [reflexivity|].
  destruct (le x y); [reflexivity|].
  rewrite IH. apply perm_swap.
Qed.

Lemma py_sort_perm l : Permutation (py_sort le l) l.
Proof using Type.
  induction l as [|x l IH]; simpl; [reflexivity|].
  rewrite sort_insert_perm. now constructor.
Qed.

Lemma sort_insert_sorted x l :
  StronglySorted (fun a b => le a b = true) l ->
  StronglySorted (fun a b => le a b = true) (sort_insert le x l).
Proof using le_total le_trans.
  induction 1 as [|y l Hs IH Hall]; simpl.
  - repeat constructor.
  - destruct (le x y) eqn:E.
    + constructor; [now constructor|].
      constructor; [assumption|].
      rewrite Forall_forall in *. intros z Hz. eapply le_trans; eauto.
    + constructor; [assumption|].
      rewrite Forall_forall in *. intros z Hz.
      apply (Permutation_in _ (sort_insert_perm x l)) in Hz.
      destruct Hz as [<-|Hz]; [|auto].
      destruct (le_total x y) as [H|H]; congruence.
Qed.

Lemma py_sort_sorted l : StronglySorted (fun a b => le a b = true) (py_sort le l).
Proof using le_total le_trans.
  induction l as [|x l IH]; simpl; [constructor | now apply sort_insert_sorted].
Qed.
End SortFacts.

(** ** The overlay kernel: its guards *)

Lemma new_SuperimposedTopology_empty bonds cycle_basis t1 t2 :
  matched_pairs (new_SuperimposedTopology bonds cycle_basis t1 t2) = []
  /\ nodes (new_SuperimposedTopology bonds cycle_basis t1 t2) = []
  /\ matched_pairs_bonds (new_SuperimposedTopology bonds cycle_basis t1 t2) = [].
Proof.
  unfold new_SuperimposedTopology.
  destruct (get_original_circles _ _ _) as [[? ?]|?]; simpl; auto.
Qed.

(** A seed whose atoms differ in type (or in element, under
    [use_general_type]) is a dead branch: the kernel returns [None]. *)
Lemma overlay_type_mismatch bonds resolve fuel n1 n2 p1 p2 bt st (use_element_type : bool) :
  (if use_element_type then same_element n1 n2 else same_type n1 n2) = false ->
  _overlay bonds resolve (S fuel) n1 n2 p1 p2 bt st use_element_type = Ok None.
Proof.
  intros H. simpl.
  destruct (contains_any_node st [n1; n2]); [reflexivity|].
  destruct use_element_type; rewrite H; reflexivity.
Qed.

(** C2, as amended: for the two-atom chains C1-N1 and C11-N11, the kernel
    called on the seed (C1, N11) with a fresh empty topology returns [None],
    no topology at all, because the types disagree at the first step. *)
Theorem overlay_wrong_start bonds_ cycle_basis resolve fuel top1_ top2_ use_element_type :
  _overlay Chain.bonds resolve (S fuel) Chain.C1 Chain.N11 None None (None, None)
           (new_SuperimposedTopology bonds_ cycle_basis top1_ top2_) use_element_type
  = Ok None.
Proof.
  apply overlay_type_mismatch. now destruct use_element_type.
Qed.

(** C2, as stated, fails: no amount of search depth and no way of resolving
    combinations makes the call return a topology, of size 0 or other. *)
Lemma overlay_wrong_start_counterexample :
  ~ exists resolve fuel st,
      _overlay Chain.bonds resolve fuel Chain.C1 Chain.N11 None None (None, None)
               Chain.fresh true
      = Ok (Some st) /\ st_len st = 0%nat.
Proof.
  intros (resolve & fuel & st & H & _). destruct fuel as [|fuel].
  - discriminate H.
  - rewrite overlay_type_mismatch in H by reflexivity. discriminate H.
Qed.

(** C3, as amended: the cycle-spanning guard is evaluated on the topology
    as it is passed in, before the candidate pair is added; if that
    topology satisfies [cycle_spans_multiple_cycles], the call returns
    [None] and commits nothing. *)
Theorem overlay_guard_on_entry bonds resolve fuel n1 n2 p1 p2 bt st use_element_type :
  cycle_spans_multiple_cycles st = Ok true ->
  _overlay bonds resolve (S fuel) n1 n2 p1 p2 bt st use_element_type = Ok None.
Proof.
  intros H. simpl.
  repeat match goal with
         | |- (if ?c then _ else _) = _ => destruct c; [reflexivity|]
         end.
  rewrite H. reflexivity.
Qed.

Lemma overlay_guard_on_entry_witness :
  cycle_spans_multiple_cycles TwoRings.spanning = Ok true
  /\ _overlay TwoRings.bonds (fun _ => Raise (Exception_ "unused")) 1
              TwoRings.C3 TwoRings.C22 (Some TwoRings.C2) (Some TwoRings.C21)
              (Some "1", Some "1") TwoRings.spanning true
     = Ok None.
Proof.
  split.
  - vm_compute. reflexivity.
  - apply (overlay_guard_on_entry TwoRings.bonds). vm_compute. reflexivity.
Defined.

(** C3, as stated, fails: with the ring C1-C2-C3 on the left and the rings
    C11-C12-C13 and C21-C22-C23 joined by C11-C21 on the right, the topology
    that holds (C1, C11) does not span; extended with (C2, C21) it does; and
    yet the call on (C2, C21) returns a topology that contains (C2, C21). *)
Lemma overlay_guard_counterexample :
  cycle_spans_multiple_cycles TwoRings.seeded = Ok false
  /\ (exists st_ext, add_node_pair TwoRings.seeded (TwoRings.C2, TwoRings.C21) = Ok st_ext
                     /\ cycle_spans_multiple_cycles st_ext = Ok true)
  /\ forall resolve,
       exists st', _overlay TwoRings.bonds resolve 2
                            TwoRings.C2 TwoRings.C21 (Some TwoRings.C1) (Some TwoRings.C11)
                            (Some "1", Some "1") TwoRings.seeded true
                   = Ok (Some st')
                   /\ contains st' (TwoRings.C2, TwoRings.C21) = true.
Proof.
  split; [vm_compute; reflexivity|]. split.
  - eexists. split; vm_compute; reflexivity.
  - intros resolve. eexists. split; [vm_compute; reflexivity|]. vm_compute. reflexivity.
Qed.

(** ** [matched_pairs] stays sorted *)

Lemma foldM_invariant {A B : Type} (P : B -> Prop) (f : B -> A -> res B) l acc r :
  (forall acc x acc', P acc -> f acc x = Ok acc' -> P acc') ->
  P acc -> foldM f l acc = Ok r -> P r.
Proof.
  intros Hstep. revert acc. induction l as [|x l IH]; simpl; intros acc Hacc H.
  - now inversion H; subst.
  - apply bind_Ok in H. destruct H as (acc' & Hf & Hrest). eauto.
Qed.

Lemma foldM_invariant_In {A B : Type} (P : B -> Prop) (f : B -> A -> res B) l acc r :
  (forall acc x acc', In x l -> P acc -> f acc x = Ok acc' -> P acc') ->
  P acc -> foldM f l acc = Ok r -> P r.
Proof.
  revert acc. induction l as [|x l IH]; simpl; intros acc Hstep Hacc H.
  - now inversion H; subst.
  - apply bind_Ok in H. destruct H as (acc' & Hf & Hrest).
    eapply IH; [| |exact Hrest]; eauto.
Qed.

Lemma left_name_le_total p q : left_name_le p q = true \/ left_name_le q p = true.
Proof. apply String.leb_total. Qed.

Lemma left_name_le_trans p q r :
  left_name_le p q = true -> left_name_le q r = true -> left_name_le p r = true.
Proof. apply String_leb_trans. Qed.

Lemma add_node_pair_pairs st p st' :
  add_node_pair st p = Ok st' ->
  matched_pairs st' = py_sort left_name_le (matched_pairs st ++ [p]).
Proof.
  unfold add_node_pair. intros H.
  apply bind_Ok in H. destruct H as (_ & _ & H).
  apply bind_Ok in H. destruct H as (_ & _ & H).
  destruct p as [n1 n2].
  apply bind_Ok in H. destruct H as (_ & _ & H).
  apply bind_Ok in H. destruct H as (_ & _ & H).
  now inversion H.
Qed.

Lemma remove_node_pair_pairs st p st' :
  remove_node_pair st p = Ok st' ->
  list_remove pair_eqb p (matched_pairs st) = Ok (matched_pairs st').
Proof.
  unfold remove_node_pair. intros H.
  apply bind_Ok in H. destruct H as (mp & Hmp & H).
  apply bind_Ok in H. destruct H as (n1 & _ & H).
  apply bind_Ok in H. destruct H as (n2 & _ & H).
  apply bind_Ok in H. destruct H as (bp & _ & H).
  apply bind_Ok in H. destruct H as (d & _ & H).
  inversion H; subst. exact Hmp.
Qed.

Lemma link_pairs_pairs st p ps st' :
  link_pairs st p ps = Ok st' -> matched_pairs st' = matched_pairs st.
Proof.
  unfold link_pairs. intros H.
  apply bind_Ok in H. destruct H as (_ & _ & H).
  apply bind_Ok in H. destruct H as (d & _ & H).
  now inversion H.
Qed.

Lemma link_with_parent_pairs st p parent bt st' :
  link_with_parent st p parent bt = Ok st' -> matched_pairs st' = matched_pairs st.
Proof.
  unfold link_with_parent. intros H.
  apply bind_Ok in H. destruct H as (_ & _ & H).
  apply bind_Ok in H. destruct H as (_ & _ & H).
  apply bind_Ok in H. destruct H as (d1 & _ & H).
  apply bind_Ok in H. destruct H as (d2 & _ & H).
  now inversion H.
Qed.

Lemma add_node_pair_sorted st p st' :
  add_node_pair st p = Ok st' -> sorted_by_left_name (matched_pairs st').
Proof.
  intros H. rewrite (add_node_pair_pairs _ _ _ H).
  apply py_sort_sorted; [apply left_name_le_total | apply left_name_le_trans].
Qed.

Lemma remove_node_pair_sorted st p st' :
  sorted_by_left_name (matched_pairs st) -> remove_node_pair st p = Ok st' ->
  sorted_by_left_name (matched_pairs st').
Proof.
  intros Hs H. apply remove_node_pair_pairs in H.
  eapply list_remove_sorted; [apply pair_eqb_eq | exact Hs | exact H].
Qed.

Lemma link_pairs_sorted st p ps st' :
  sorted_by_left_name (matched_pairs st) -> link_pairs st p ps = Ok st' ->
  sorted_by_left_name (matched_pairs st').
Proof. intros Hs H. now rewrite (link_pairs_pairs _ _ _ _ H). Qed.

Lemma remove_attached_hydrogens_sorted st p st' removed :
  sorted_by_left_name (matched_pairs st) ->
  remove_attached_hydrogens st p = Ok (st', removed) ->
  sorted_by_left_name (matched_pairs st').
Proof.
  unfold remove_attached_hydrogens. intros Hs H.
  destruct (dict_get pair_eqb p (matched_pairs_bonds st)) as [attached|].
  - change (sorted_by_left_name (matched_pairs (fst (st', removed)))).
    eapply (foldM_invariant (fun acc => sorted_by_left_name (matched_pairs (fst acc))));
      [ | | exact H]; [ | exact Hs].
    intros [s r] [q bt] acc' Hacc Hf. unfold hydrogen_step in Hf. simpl in *.
    destruct (String.prefix "H" (name (fst q))); simpl in Hf.
    + apply bind_Ok in Hf. destruct Hf as (s' & Hr & Hk). inversion Hk; subst. simpl.
      eapply remove_node_pair_sorted; eauto.
    + now inversion Hf; subst.
  - now inversion H; subst.
Qed.

Lemma merge_sorted st other st' merged :
  sorted_by_left_name (matched_pairs st) -> merge st other = Ok (st', merged) ->
  sorted_by_left_name (matched_pairs st').
Proof.
  unfold merge. intros Hs H.
  apply bind_Ok in H. destruct H as ([st1 merged1] & H1 & H).
  apply bind_Ok in H. destruct H as (st2 & H2 & H).
  inversion H; subst. simpl.
  assert (Hs1 : sorted_by_left_name (matched_pairs st1)).
  { change (sorted_by_left_name (matched_pairs (fst (st1, merged)))).
    eapply (foldM_invariant (fun acc => sorted_by_left_name (matched_pairs (fst acc))));
      [ | | exact H1]; [ | exact Hs].
    intros [s r] q acc' Hacc Hf. simpl in *.
    destruct (contains s q); simpl in Hf; [now inversion Hf; subst|].
    destruct (contains_node s (fst q) || contains_node s (snd q)); [discriminate|].
    apply bind_Ok in Hf. destruct Hf as (s' & Hr & Hk). inversion Hk; subst. simpl.
    eapply add_node_pair_sorted; eauto. }
  eapply (foldM_invariant (fun s => sorted_by_left_name (matched_pairs s)));
    [ | | exact H2]; [ | exact Hs1].
  intros s q s' Hacc Hf.
  apply bind_Ok in Hf. destruct Hf as (bp & _ & Hf).
  apply bind_Ok in Hf. destruct Hf as (_ & _ & Hf).
  eapply link_pairs_sorted; eauto.
Qed.

Lemma overlay_commit_sorted bonds st n1 n2 p1 p2 bt st' :
  overlay_commit bonds st n1 n2 p1 p2 bt = Ok st' -> sorted_by_left_name (matched_pairs st').
Proof.
  unfold overlay_commit. intros H.
  apply bind_Ok in H. destruct H as (st1 & H1 & H).
  apply bind_Ok in H. destruct H as (st2 & H2 & H).
  assert (Hs2 : sorted_by_left_name (matched_pairs st2)).
  { destruct p1, p2; try discriminate.
    - rewrite (link_with_parent_pairs _ _ _ _ _ H2). eapply add_node_pair_sorted; eauto.
    - inversion H2; subst. eapply add_node_pair_sorted; eauto. }
  eapply (foldM_invariant (fun s => sorted_by_left_name (matched_pairs s)));
    [ | | exact H]; [ | exact Hs2].
  intros s [b1 o1] s' Hs Hf. simpl in Hf.
  destruct (opt_atom_is p1 b1); [now inversion Hf; subst|].
  eapply (foldM_invariant (fun s => sorted_by_left_name (matched_pairs s)));
    [ | | exact Hf]; [ | exact Hs].
  intros s0 [b2 o2] s0' Hs0 Hf0. simpl in Hf0.
  destruct (opt_atom_is p2 b2); [now inversion Hf0; subst|].
  destruct (contains s0 (b1, b2)); [|now inversion Hf0; subst].
  eapply link_pairs_sorted; eauto.
Qed.

(** C7: [matched_pairs] is sorted in ascending order of the left atom's
    name in every state a topology can reach: [add_node_pair] sorts after
    appending, and [remove_node_pair], [merge] and the other mutations keep
    the order. *)
Theorem matched_pairs_always_sorted st :
  reachable st -> sorted_by_left_name (matched_pairs st).
Proof.
  induction 1 as
    [ b cb t1 t2
    | st p st' _ IH H | st p st' _ IH H | st other st' merged _ IH H
    | st p ps st' _ IH H | st p parent bt st' _ IH H
    | st p st' removed _ IH H | st st' _ IH H | st st' d _ IH H
    | st atol h st' _ IH H | st circles st' removed _ IH H
    | b st n1 n2 p1 p2 bt st' _ IH H
    | st b1 b2 _ IH | st t1 t2 _ IH ].
  - destruct (new_SuperimposedTopology_empty b cb t1 t2) as (-> & _). constructor.
  - eapply add_node_pair_sorted; eauto.
  - eapply remove_node_pair_sorted; eauto.
  - eapply merge_sorted; eauto.
  - eapply link_pairs_sorted; eauto.
  - now rewrite (link_with_parent_pairs _ _ _ _ _ H).
  - eapply remove_attached_hydrogens_sorted; eauto.
  - unfold matched_atom_types_are_the_same in H.
    eapply (foldM_invariant (fun s => sorted_by_left_name (matched_pairs s)));
      [ | | exact H]; [ | exact IH].
    intros s [a1 a2] s' Hs Hf. simpl in Hf.
    destruct (same_type a1 a2); simpl in Hf; [now inversion Hf; subst|].
    eapply remove_node_pair_sorted; eauto.
  - unfold remove_worst_charge_match in H.
    apply bind_Ok in H. destruct H as (ld & _ & H).
    destruct (Qeq_bool ld 0); [now inversion H; subst|].
    destruct (List.filter _ _) as [|worst ?]; [discriminate|].
    apply bind_Ok in H. destruct H as (s & Hr & H). inversion H; subst. simpl.
    eapply remove_node_pair_sorted; eauto.
  - unfold refine_against_charges in H.
    apply bind_Ok in H. destruct H as (s & Hf & H). inversion H; subst. simpl.
    eapply (foldM_invariant (fun s => sorted_by_left_name (matched_pairs s)));
      [ | | exact Hf]; [ | exact IH].
    intros s0 [a1 a2] s0' Hs Hstep. unfold refine_step in Hstep.
    destruct (AtomNode_eq a1 a2 atol); [now inversion Hstep; subst|].
    apply bind_Ok in Hstep. destruct Hstep as (s1 & H1 & Hstep).
    apply bind_Ok in Hstep. destruct Hstep as (s2 & H2 & Hstep).
    inversion Hstep; subst. simpl.
    eapply remove_node_pair_sorted; [|exact H2].
    destruct h.
    + apply bind_Ok in H1. destruct H1 as ([s3 r3] & H3 & H1). inversion H1; subst.
      eapply remove_attached_hydrogens_sorted; eauto.
    + now inversion H1; subst.
  - unfold _remove_unmatched_ring_atoms in H.
    change (sorted_by_left_name (matched_pairs (fst (st', removed)))).
    eapply (foldM_invariant (fun acc => sorted_by_left_name (matched_pairs (fst acc))));
      [ | | exact H]; [ | exact IH].
    intros acc circle acc' Hacc Hf.
    eapply (foldM_invariant (fun acc => sorted_by_left_name (matched_pairs (fst acc))));
      [ | | exact Hf]; [ | exact Hacc].
    intros [s r] a acc0 Hs Hstep. unfold ring_atom_step in Hstep. simpl in *.
    destruct (contains_node s a); [|now inversion Hstep; subst].
    destruct (get_pair_with_atom s a) as [q|]; [|discriminate].
    apply bind_Ok in Hstep. destruct Hstep as (s' & Hr & Hk). inversion Hk; subst. simpl.
    eapply remove_node_pair_sorted; eauto.
  - eapply overlay_commit_sorted; eauto.
  - exact IH.
  - exact IH.
Qed.

Lemma matched_pairs_always_sorted_witness :
  reachable Chain.both
  /\ map (fun p => name (fst p)) (matched_pairs Chain.both) = ["C1"; "N1"]
  /\ sorted_by_left_name (matched_pairs Chain.both).
Proof.
  assert (H : reachable Chain.both).
  { apply (reach_add_node_pair Chain.one (Chain.C1, Chain.C11)).
    - apply (reach_add_node_pair Chain.fresh (Chain.N1, Chain.N11)).
      + apply reach_new.
      + vm_compute. reflexivity.
    - vm_compute. reflexivity. }
  split; [exact H|]. split; [vm_compute; reflexivity|].
  apply matched_pairs_always_sorted. exact H.
Defined.

(** ** The net-charge filter terminates *)

Lemma terminated_bind {A B : Type} (m : res A) (k : A -> res B) :
  terminated m -> (forall a, m = Ok a -> terminated (k a)) -> terminated (m ≫= k).
Proof. destruct m as [a|e]; simpl; intros Hm Hk; [now apply Hk | exact Hm]. Qed.

Lemma terminated_foldM {A B : Type} (f : B -> A -> res B) l acc :
  (forall acc x, terminated (f acc x)) -> terminated (foldM f l acc).
Proof.
  intros Hf. revert acc. induction l as [|x l IH]; simpl; intros acc; [exact I|].
  apply terminated_bind; [apply Hf | intros; apply IH].
Qed.

Lemma terminated_list_remove {A : Type} (eqb : A -> A -> bool) x l :
  terminated (list_remove eqb x l).
Proof.
  induction l as [|y l IH]; simpl; [exact I|].
  destruct (eqb y x); [exact I|]. apply terminated_bind; [exact IH | intros; exact I].
Qed.

Lemma terminated_set_remove {A : Type} (eqb : A -> A -> bool) x s :
  terminated (set_remove eqb x s).
Proof. unfold set_remove. now destruct (py_in eqb x s). Qed.

Lemma terminated_dict_lookup {K V : Type} (eqb : K -> K -> bool) k (d : list (K * V)) :
  terminated (dict_lookup eqb k d).
Proof. unfold dict_lookup. now destruct (dict_get eqb k d). Qed.

Lemma terminated_remove_node_pair st p : terminated (remove_node_pair st p).
Proof.
  unfold remove_node_pair.
  apply terminated_bind; [apply terminated_list_remove | intros mp _].
  apply terminated_bind; [apply terminated_set_remove | intros n1 _].
  apply terminated_bind; [apply terminated_set_remove | intros n2 _].
  apply terminated_bind; [apply terminated_dict_lookup | intros bp _].
  apply terminated_bind; [| intros; exact I].
  apply terminated_foldM. intros d [q bt]. unfold unlink.
  apply terminated_bind; [apply terminated_dict_lookup | intros s _].
  apply terminated_bind; [apply terminated_set_remove | intros; exact I].
Qed.

Lemma terminated_remove_worst_charge_match st : terminated (remove_worst_charge_match st).
Proof.
  unfold remove_worst_charge_match.
  apply terminated_bind.
  - unfold get_worst_match_charge, py_max. now destruct (map _ _).
  - intros ld _. destruct (Qeq_bool ld 0); [exact I|].
    destruct (List.filter _ _) as [|worst ?]; [exact I|].
    apply terminated_bind; [apply terminated_remove_node_pair | intros; exact I].
Qed.

(** An iteration of the loop that goes on has removed exactly one pair. *)
Lemma remove_worst_charge_match_shrinks st st' d :
  remove_worst_charge_match st = Ok (st', d) -> Qeq_bool d 0 = false ->
  S (st_len st') = st_len st.
Proof.
  unfold remove_worst_charge_match. intros H Hd.
  apply bind_Ok in H. destruct H as (ld & _ & H).
  destruct (Qeq_bool ld 0).
  - inversion H; subst. discriminate Hd.
  - destruct (List.filter _ _) as [|worst ?]; [discriminate|].
    apply bind_Ok in H. destruct H as (s & Hr & H). inversion H; subst.
    apply remove_node_pair_pairs in Hr.
    destruct (list_remove_In _ pair_eqb_eq _ _ _ Hr) as (_ & Hlen & _).
    unfold st_len. simpl. now rewrite Hlen.
Qed.

Lemma net_charge_while_enough_fuel fuel thr st :
  (st_len st < fuel)%nat -> terminated (net_charge_while fuel thr st).
Proof.
  revert st. induction fuel as [|fuel IH]; intros st Hlt; [lia|].
  simpl. destruct (negb _); [|exact I].
  apply terminated_bind; [apply terminated_remove_worst_charge_match|].
  intros [st' ld] Hr. destruct (Qeq_bool ld 0) eqn:Hld; [exact I|].
  destruct (st_len st' =? 0)%nat; [exact I|].
  apply IH. pose proof (remove_worst_charge_match_shrinks _ _ _ Hr Hld). lia.
Qed.

(** What the loop leaves: a topology within the threshold, or an empty one
    that leaves the list. *)
Lemma net_charge_while_post fuel thr st st' (kept : bool) :
  net_charge_while fuel thr st = Ok (st', kept) ->
  if kept then (Qabs (get_net_charge st') <= thr)%Q else st_len st' = 0%nat.
Proof.
  revert st. induction fuel as [|fuel IH]; intros st H; [discriminate|].
  cbn [net_charge_while] in H.
  destruct (Qle_bool (Qabs (get_net_charge st)) thr) eqn:Hq; cbn [negb] in H.
  - inversion H; subst. now apply Qle_bool_iff.
  - apply bind_Ok in H. destruct H as ([st1 ld] & Hr & H).
    destruct (Qeq_bool ld 0); [discriminate|].
    destruct (st_len st1 =? 0)%nat eqn:Hlen.
    + inversion H; subst. now apply Nat.eqb_eq.
    + exact (IH _ H).
Qed.

(** C6: the net-charge filter loop of a topology terminates: a bound of one
    more than the number of matched pairs on the iterations is never
    reached, whatever the threshold, because an iteration that does not
    leave the loop removes exactly one pair.  The loop leaves a topology
    whose net charge is within the threshold, or an empty one, which is
    dropped. *)
Theorem net_charge_filter_terminates thr st k :
  terminated (net_charge_while (S (st_len st) + k) thr st)
  /\ (forall st' d, remove_worst_charge_match st = Ok (st', d) -> Qeq_bool d 0 = false ->
        S (st_len st') = st_len st)
  /\ (forall st' (kept : bool),
        net_charge_while (S (st_len st) + k) thr st = Ok (st', kept) ->
        if kept then (Qabs (get_net_charge st') <= thr)%Q else st_len st' = 0%nat).
Proof.
  split; [|split].
  - apply net_charge_while_enough_fuel. lia.
  - intros st' d Hr Hd. exact (remove_worst_charge_match_shrinks _ _ _ Hr Hd).
  - intros st' kept H. exact (net_charge_while_post _ _ _ _ _ H).
Qed.

Lemma net_charge_filter_terminates_witness :
  exists st',
    net_charge_while (S (st_len Charges.st) + 0) (1 # 10) Charges.st = Ok (st', true)
    /\ map (fun p => name (fst p)) (matched_pairs Charges.st) = ["C1"; "C2"; "C3"]
    /\ map (fun p => name (fst p)) (matched_pairs st') = ["C1"]
    /\ (Qabs (get_net_charge st') <= 1 # 10)%Q.
Proof.
  eexists. split; [vm_compute; reflexivity|].
  split; [vm_compute; reflexivity|]. split; [vm_compute; reflexivity|].
  refine (proj2 (proj2 (net_charge_filter_terminates (1 # 10) Charges.st 0)) _ true _).
  vm_compute. reflexivity.
Defined.

(** ** [remove_node_pair] on a well-formed topology *)

Section DictFacts.
Context {K V : Type} (eqb : K -> K -> bool).
Hypothesis eqb_eq : forall x y, eqb x y = true <-> x = y.

Lemma NoDup_map_fst_inj (d : list (K * V)) k v v' :
  List.NoDup (map fst d) -> In (k, v) d -> In (k, v') d -> v = v'.
Proof using Type.
  induction d as [|[k0 v0] d IH]; simpl; intros Hnd H1 H2; [contradiction|].
  inversion Hnd as [|? ? Hk Hnd']; subst.
  destruct H1 as [H1|H1], H2 as [H2|H2].
  - congruence.
  - inversion H1; subst. exfalso. apply Hk. apply (in_map fst) in H2. exact H2.
  - inversion H2; subst. exfalso. apply Hk. apply (in_map fst) in H1. exact H1.
  - eauto.
Qed.

Lemma dict_get_Some_In k v (d : list (K * V)) :
  dict_get eqb k d = Some v -> In (k, v) d.
Proof using eqb_eq.
  induction d as [|[k0 v0] d IH]; simpl; [discriminate|].
  destruct (eqb k0 k) eqn:E.
  - apply eqb_eq in E. intros H. inversion H; subst. now left.
  - intros H. right. auto.
Qed.

Lemma dict_get_In k v (d : list (K * V)) :
  List.NoDup (map fst d) -> In (k, v) d -> dict_get eqb k d = Some v.
Proof using eqb_eq.
  induction d as [|[k0 v0] d IH]; simpl; intros Hnd Hin; [contradiction|].
  inversion Hnd as [|? ? Hk Hnd']; subst.
  destruct (eqb k0 k) eqn:E.
  - apply eqb_eq in E. subst. destruct Hin as [Hin|Hin]; [congruence|].
    exfalso. apply Hk. apply (in_map fst) in Hin. exact Hin.
  - destruct Hin as [Hin|Hin]; [|auto].
    inversion Hin; subst. rewrite (eqb_refl' eqb eqb_eq) in E. discriminate.
Qed.

Lemma dict_get_None k (d : list (K * V)) :
  dict_get eqb k d = None -> ~ In k (map fst d).
Proof using eqb_eq.
  induction d as [|[k0 v0] d IH]; simpl; [intros _ []|].
  destruct (eqb k0 k) eqn:E; [discriminate|].
  intros H [H1|H1]; [|now apply IH].
  subst. rewrite (eqb_refl' eqb eqb_eq) in E. discriminate.
Qed.

Lemma dict_set_map k v v0 (d : list (K * V)) :
  List.NoDup (map fst d) -> In (k, v0) d ->
  dict_set eqb k v d = map (fun kv => if eqb (fst kv) k then (fst kv, v) else kv) d.
Proof using eqb_eq.
  induction d as [|[k1 v1] d IH]; simpl; intros Hnd Hin; [contradiction|].
  inversion Hnd as [|? ? Hk Hnd']; subst.
  destruct (eqb k1 k) eqn:E.
  - apply eqb_eq in E. subst. f_equal.
    symmetry. erewrite map_ext_in; [apply map_id|].
    intros [k2 v2] H2. simpl. destruct (eqb k2 k) eqn:E2; [|reflexivity].
    apply eqb_eq in E2. subst. exfalso. apply Hk. apply (in_map fst) in H2. exact H2.
  - f_equal. destruct Hin as [Hin|Hin].
    + inversion Hin; subst. rewrite (eqb_refl' eqb eqb_eq) in E. discriminate.
    + now apply IH.
Qed.

Lemma dict_del_In k k' v (d : list (K * V)) :
  In (k', v) (dict_del eqb k d) <-> In (k', v) d /\ k' <> k.
Proof using eqb_eq.
  unfold dict_del. rewrite filter_In. simpl.
  rewrite negb_true_iff, (eqb_neq eqb eqb_eq). reflexivity.
Qed.

Lemma dict_del_keys k (d : list (K * V)) :
  map fst (dict_del eqb k d) = List.filter (fun k' => negb (eqb k' k)) (map fst d).
Proof using Type.
  unfold dict_del. induction d as [|[k0 v0] d IH]; simpl; [reflexivity|].
  destruct (eqb k0 k); simpl; now rewrite IH.
Qed.
End DictFacts.

Lemma NoDup_filter' {A : Type} (f : A -> bool) l :
  List.NoDup l -> List.NoDup (List.filter f l).
Proof.
  induction 1 as [|x l Hx Hnd IH]; simpl; [constructor|].
  destruct (f x); [|exact IH].
  constructor; [|exact IH]. rewrite filter_In. tauto.
Qed.

Lemma NoDup_map_filter {A B : Type} (g : A -> B) (f : A -> bool) l :
  List.NoDup (map g l) -> List.NoDup (map g (List.filter f l)).
Proof.
  induction l as [|x l IH]; simpl; intros H; [constructor|].
  inversion H as [|? ? Hx Hnd]; subst.
  destruct (f x); simpl; [|auto].
  constructor; [|auto].
  rewrite in_map_iff in *. intros (y & Hy & Hin). apply Hx.
  exists y. split; [exact Hy|]. apply filter_In in Hin. tauto.
Qed.

Lemma NoDup_map_inj {A B : Type} (g : A -> B) l x y :
  List.NoDup (map g l) -> In x l -> In y l -> g x = g y -> x = y.
Proof.
  induction l as [|z l IH]; simpl; intros Hnd Hx Hy E; [contradiction|].
  inversion Hnd as [|? ? Hz Hnd']; subst.
  destruct Hx as [Hx|Hx], Hy as [Hy|Hy]; subst; auto.
  - exfalso. apply Hz. rewrite E. now apply in_map.
  - exfalso. apply Hz. rewrite <- E. now apply in_map.
Qed.

Lemma strip_In (p : pair) (s : list bonded) (e : bonded) : In e (strip p s) <-> In e s /\ fst e <> p.
Proof.
  unfold strip. rewrite filter_In, negb_true_iff.
  rewrite (eqb_neq pair_eqb pair_eqb_eq). reflexivity.
Qed.

Lemma strip_idem p s : strip p (strip p s) = strip p s.
Proof.
  unfold strip. induction s as [|e s IH]; simpl; [reflexivity|].
  destruct (negb (pair_eqb (fst e) p)) eqn:E; simpl; [rewrite E; now f_equal | exact IH].
Qed.

Lemma strip_id (p : pair) (s : list bonded) : (forall bt, ~ In (p, bt) s) -> strip p s = s.
Proof.
  unfold strip. induction s as [|[q bt] s IH]; simpl; intros H; [reflexivity|].
  destruct (pair_eqb q p) eqn:E; simpl.
  - apply pair_eqb_eq in E. subst. exfalso. apply (H bt). now left.
  - f_equal. apply IH. intros bt' Hin. apply (H bt'). now right.
Qed.

Lemma set_remove_strip (p : pair) (bt : bond_types) (s : list bonded) :
  List.NoDup (map fst s) -> In (p, bt) s ->
  set_remove bonded_eqb (p, bt) s = Ok (strip p s).
Proof.
  intros Hnd Hin. unfold set_remove.
  rewrite (proj2 (py_in_In bonded_eqb bonded_eqb_eq _ _) Hin).
  f_equal. unfold strip. apply filter_ext_in. intros [q bt'] Hq. simpl. f_equal.
  destruct (pair_eqb q p) eqn:E.
  - apply pair_eqb_eq in E. subst.
    rewrite (NoDup_map_fst_inj _ _ _ _ Hnd Hq Hin). now apply bonded_eqb_eq.
  - apply (eqb_neq bonded_eqb bonded_eqb_eq). intros E'. inversion E'; subst.
    rewrite (eqb_refl' pair_eqb pair_eqb_eq) in E. discriminate.
Qed.

Lemma strip_at_keys p ks d : map fst (strip_at p ks d) = map fst d.
Proof. unfold strip_at. rewrite map_map. reflexivity. Qed.

Lemma strip_at_nil p d : strip_at p [] d = d.
Proof.
  unfold strip_at. erewrite map_ext; [apply map_id|]. now intros [k v].
Qed.

Lemma strip_at_cons p q ks d :
  strip_at p ks (strip_at p [q] d) = strip_at p (q :: ks) d.
Proof.
  unfold strip_at. rewrite map_map. apply map_ext. intros [k s]. simpl.
  destruct (pair_eqb k q) eqn:E; simpl; [|reflexivity].
  destruct (py_in pair_eqb k ks); [now rewrite strip_idem | reflexivity].
Qed.

Lemma dict_lookup_In {K V : Type} (eqb : K -> K -> bool)
    (eqb_eq : forall x y, eqb x y = true <-> x = y) k v (d : list (K * V)) :
  List.NoDup (map fst d) -> In (k, v) d -> dict_lookup eqb k d = Ok v.
Proof. intros Hnd Hin. unfold dict_lookup. now rewrite (dict_get_In eqb eqb_eq _ _ _ Hnd Hin). Qed.

Lemma unlink_step (p q : pair) (bt : bond_types) (d : list (pair * list bonded))
    (s : list bonded) :
  List.NoDup (map fst d) -> In (q, s) d -> In (p, bt) s -> List.NoDup (map fst s) ->
  unlink p d (q, bt) = Ok (strip_at p [q] d).
Proof.
  intros Hd Hs Hp Hnd. unfold unlink.
  rewrite (dict_lookup_In pair_eqb pair_eqb_eq _ _ _ Hd Hs). cbn [mbind res_bind].
  rewrite (set_remove_strip _ _ _ Hnd Hp). cbn [mbind res_bind]. f_equal.
  rewrite (dict_set_map pair_eqb pair_eqb_eq _ _ _ _ Hd Hs).
  unfold strip_at. apply map_ext_in. intros [k s0] Hk. simpl.
  destruct (pair_eqb k q) eqn:E; [|reflexivity].
  apply pair_eqb_eq in E. subst. simpl.
  now rewrite (NoDup_map_fst_inj _ _ _ _ Hd Hk Hs).
Qed.

(** The loop of [remove_node_pair] over the bonded pairs *)
Lemma remove_bonds_fold (p : pair) (todo : list bonded) (d : list (pair * list bonded)) :
  List.NoDup (map fst d) -> List.NoDup (map fst todo) ->
  (forall q bt, In (q, bt) todo ->
     exists s : list bonded, In (q, s) d /\ In (p, bt) s /\ List.NoDup (map fst s)) ->
  foldM (unlink p) todo d = Ok (strip_at p (map fst todo) d).
Proof.
  revert d. induction todo as [|[q bt] todo IH]; intros d Hd Htodo Hall.
  - simpl. now rewrite strip_at_nil.
  - simpl in Htodo. inversion Htodo as [|? ? Hq Htodo']; subst.
    destruct (Hall q bt (or_introl eq_refl)) as (s & Hs & Hp & Hnd).
    cbn [foldM]. rewrite (unlink_step _ _ _ _ _ Hd Hs Hp Hnd). cbn [mbind res_bind].
    rewrite IH.
    + now rewrite strip_at_cons.
    + now rewrite strip_at_keys.
    + exact Htodo'.
    + intros q' bt' Hin.
      destruct (Hall q' bt' (or_intror Hin)) as (s' & Hs' & Hp' & Hnd').
      exists s'. split; [|tauto].
      unfold strip_at. apply in_map_iff. exists (q', s'). split; [|exact Hs'].
      simpl. replace (pair_eqb q' q) with false; [reflexivity|].
      symmetry. apply (eqb_neq pair_eqb pair_eqb_eq). intros ->.
      apply Hq. apply (in_map fst) in Hin. exact Hin.
Qed.

Lemma removed_bonds_In (p k : pair) (s' : list bonded) (d : list (pair * list bonded)) :
  In (k, s') (removed_bonds p d) <-> exists s, In (k, s) d /\ k <> p /\ s' = strip p s.
Proof.
  unfold removed_bonds. rewrite in_map_iff. split.
  - intros ([k0 s0] & E & Hin). simpl in E. inversion E; subst.
    apply (dict_del_In pair_eqb pair_eqb_eq) in Hin. exists s0. tauto.
  - intros (s & Hin & Hne & ->). exists (k, s). split; [reflexivity|].
    apply (dict_del_In pair_eqb pair_eqb_eq). tauto.
Qed.

Lemma removed_bonds_keys (p : pair) (d : list (pair * list bonded)) :
  map fst (removed_bonds p d) = List.filter (fun k => negb (pair_eqb k p)) (map fst d).
Proof.
  unfold removed_bonds. rewrite map_map. simpl.
  change (map (fun x : pair * list bonded => fst x) (dict_del pair_eqb p d))
    with (map fst (dict_del pair_eqb p d)).
  apply dict_del_keys.
Qed.

(** On a well-formed topology [remove_node_pair] of a matched pair succeeds,
    takes exactly that pair out of [matched_pairs], and leaves a
    well-formed topology. *)
Lemma remove_node_pair_wf st p :
  st_wf st -> In p (matched_pairs st) ->
  exists st', remove_node_pair st p = Ok st'
    /\ st_wf st'
    /\ matched_pairs st' = List.filter (fun q => negb (pair_eqb q p)) (matched_pairs st)
    /\ matched_pairs_bonds st' = removed_bonds p (matched_pairs_bonds st).
Proof.
  intros Hwf Hin. destruct Hwf as [Hl Hr Hsides Hnn Hnodes Hkn Hkeys Han Hadj].
  assert (Hnd : List.NoDup (matched_pairs st)) by (eapply NoDup_map_inv; exact Hl).
  assert (Hk : exists s_p : list bonded, In (p, s_p) (matched_pairs_bonds st)).
  { apply Hkeys in Hin. apply in_map_iff in Hin. destruct Hin as ([k s] & E & H).
    simpl in E. subst. eauto. }
  destruct Hk as (s_p & Hsp).
  assert (Hn1 : In (fst p) (nodes st)) by (apply Hnodes; eauto).
  assert (Hn2 : In (snd p) (List.filter (fun y => negb (atom_eqb y (fst p))) (nodes st))).
  { apply (filter_neq_In atom_eqb atom_eqb_eq). split; [apply Hnodes; eauto|].
    intros E. apply (Hsides p p Hin Hin). now symmetry. }
  assert (Hfold : foldM (unlink p) s_p (dict_del pair_eqb p (matched_pairs_bonds st))
                  = Ok (removed_bonds p (matched_pairs_bonds st))).
  { rewrite remove_bonds_fold.
    - f_equal. unfold strip_at, removed_bonds. apply map_ext_in. intros [k s] Hks. simpl.
      destruct (py_in pair_eqb k (map fst s_p)) eqn:E; [reflexivity|].
      f_equal. symmetry. apply strip_id. intros bt Hbt.
      apply (dict_del_In pair_eqb pair_eqb_eq) in Hks. destruct Hks as (Hks & _).
      destruct (Hadj _ _ _ _ Hks Hbt) as (_ & s' & Hs' & Hk').
      rewrite (NoDup_map_fst_inj _ _ _ _ Hkn Hs' Hsp) in Hk'.
      apply (py_in_not_In pair_eqb pair_eqb_eq) in E. apply E.
      apply (in_map fst) in Hk'. exact Hk'.
    - rewrite (dict_del_keys pair_eqb). now apply NoDup_filter'.
    - eapply Han; exact Hsp.
    - intros q bt Hq. destruct (Hadj _ _ _ _ Hsp Hq) as (Hne & s' & Hs' & Hp').
      exists s'. split; [apply (dict_del_In pair_eqb pair_eqb_eq); tauto|].
      split; [exact Hp' | eapply Han; exact Hs']. }
  eexists. split; [|split; [|split]].
  - unfold remove_node_pair.
    rewrite (list_remove_NoDup pair_eqb pair_eqb_eq _ _ Hnd Hin). cbn [mbind res_bind].
    rewrite (set_remove_In atom_eqb atom_eqb_eq _ _ Hn1). cbn [mbind res_bind].
    rewrite (set_remove_In atom_eqb atom_eqb_eq _ _ Hn2). cbn [mbind res_bind].
    rewrite (dict_lookup_In pair_eqb pair_eqb_eq _ _ _ Hkn Hsp). cbn [mbind res_bind].
    rewrite Hfold. cbn [mbind res_bind]. reflexivity.
  - constructor; simpl.
    + now apply NoDup_map_filter.
    + now apply NoDup_map_filter.
    + intros q1 q2 H1 H2. apply filter_In in H1, H2. apply Hsides; tauto.
    + now apply NoDup_filter', NoDup_filter'.
    + intros a. rewrite !(filter_neq_In atom_eqb atom_eqb_eq), Hnodes. split.
      * intros (((q & Hq & Ha) & Ha1) & Ha2). exists q. split; [|exact Ha].
        apply (filter_neq_In pair_eqb pair_eqb_eq). split; [exact Hq|].
        intros ->. destruct Ha; contradiction.
      * intros (q & Hq & Ha). apply (filter_neq_In pair_eqb pair_eqb_eq) in Hq.
        destruct Hq as (Hq & Hne). split; [split; [eauto|]|].
        -- destruct Ha as [-> | ->]; intros E.
           ++ apply Hne. eapply (NoDup_map_inj fst); eauto.
           ++ apply (Hsides p q Hin Hq). now symmetry.
        -- destruct Ha as [-> | ->]; intros E.
           ++ apply (Hsides q p Hq Hin). exact E.
           ++ apply Hne. eapply (NoDup_map_inj snd); eauto.
    + rewrite removed_bonds_keys. now apply NoDup_filter'.
    + intros q. rewrite removed_bonds_keys.
      rewrite !(filter_neq_In pair_eqb pair_eqb_eq), Hkeys. reflexivity.
    + intros k s' Hk. apply removed_bonds_In in Hk. destruct Hk as (s & Hs & _ & ->).
      unfold strip. apply NoDup_map_filter. eapply Han; exact Hs.
    + intros k s' q bt Hk Hq. apply removed_bonds_In in Hk.
      destruct Hk as (s & Hs & Hkp & ->). apply strip_In in Hq. destruct Hq as (Hq & Hqp).
      simpl in Hqp. destruct (Hadj _ _ _ _ Hs Hq) as (Hne & s'' & Hs'' & Hk'').
      split; [exact Hne|]. exists (strip p s''). split.
      * apply removed_bonds_In. eauto.
      * apply strip_In. split; [exact Hk'' | exact Hkp].
  - reflexivity.
  - reflexivity.
Qed.

(** ** The decision procedure for well-formedness is sound *)

Lemma nodupb_NoDup {A : Type} (eqb : A -> A -> bool)
    (eqb_eq : forall x y, eqb x y = true <-> x = y) l :
  nodupb eqb l = true -> List.NoDup l.
Proof.
  induction l as [|x l IH]; simpl; intros H; [constructor|].
  apply andb_true_iff in H. destruct H as (Hx & Hl).
  constructor; [|auto].
  apply negb_true_iff in Hx. now apply (py_in_not_In eqb eqb_eq).
Qed.

Lemma st_wfb_sound st : st_wfb st = true -> st_wf st.
Proof.
  unfold st_wfb. rewrite !andb_true_iff.
  intros (((((((((H1 & H2) & H3) & H4) & H5) & H6) & H7) & H8) & H9) & H10).
  rewrite forallb_forall in H3, H5, H6, H8, H9, H10.
  constructor.
  - now apply (nodupb_NoDup atom_eqb atom_eqb_eq).
  - now apply (nodupb_NoDup atom_eqb atom_eqb_eq).
  - intros p q Hp Hq E. specialize (H3 p Hp). rewrite forallb_forall in H3.
    specialize (H3 q Hq). apply negb_true_iff in H3.
    apply (eqb_neq atom_eqb atom_eqb_eq) in H3. contradiction.
  - now apply (nodupb_NoDup atom_eqb atom_eqb_eq).
  - intros a. split.
    + intros Ha. specialize (H5 a Ha). apply existsb_exists in H5.
      destruct H5 as (p & Hp & E). exists p. split; [exact Hp|].
      apply orb_true_iff in E. destruct E as [E|E]; apply atom_eqb_eq in E; auto.
    + intros (p & Hp & E). specialize (H6 p Hp). apply andb_true_iff in H6.
      destruct H6 as (Ha & Hb). apply (py_in_In atom_eqb atom_eqb_eq) in Ha, Hb.
      destruct E; now subst.
  - now apply (nodupb_NoDup pair_eqb pair_eqb_eq).
  - intros p. split; intros Hp.
    + apply (py_in_In pair_eqb pair_eqb_eq). now apply H8.
    + apply (py_in_In pair_eqb pair_eqb_eq). now apply H9.
  - intros p s Hps. specialize (H10 _ Hps). simpl in H10.
    apply andb_true_iff in H10. destruct H10 as (Hnd & _).
    now apply (nodupb_NoDup pair_eqb pair_eqb_eq).
  - intros p s q bt Hps Hq. specialize (H10 _ Hps). simpl in H10.
    apply andb_true_iff in H10. destruct H10 as (_ & Hall).
    rewrite forallb_forall in Hall. specialize (Hall _ Hq). simpl in Hall.
    apply andb_true_iff in Hall. destruct Hall as (Hne & Hex).
    apply negb_true_iff in Hne. apply (eqb_neq pair_eqb pair_eqb_eq) in Hne.
    split; [exact Hne|].
    apply existsb_exists in Hex. destruct Hex as ([q' s'] & Hin & E).
    apply andb_true_iff in E. destruct E as (Eq & Es).
    apply pair_eqb_eq in Eq. subst.
    apply (py_in_In bonded_eqb bonded_eqb_eq) in Es. eauto.
Qed.

Lemma st_wf_set_removed_q st v : st_wf st -> st_wf (set_removed_q st v).
Proof. intros []. now constructor. Qed.

Lemma st_wf_set_removed_net st v : st_wf st -> st_wf (set_removed_net st v).
Proof. intros []. now constructor. Qed.

Lemma st_wf_set_removed_rings st v : st_wf st -> st_wf (set_removed_rings st v).
Proof. intros []. now constructor. Qed.

(** ** [refine_against_charges] *)

Lemma filter_filter {A : Type} (f g : A -> bool) l :
  List.filter f (List.filter g l) = List.filter (fun x => g x && f x) l.
Proof.
  induction l as [|x l IH]; simpl; [reflexivity|].
  destruct (g x); simpl; [destruct (f x); now rewrite IH | exact IH].
Qed.

Lemma remove_node_pair_removed_q st p st' :
  remove_node_pair st p = Ok st' ->
  _removed_pairs_with_charge_difference st' = _removed_pairs_with_charge_difference st.
Proof.
  unfold remove_node_pair. intros Hr.
  apply bind_Ok in Hr. destruct Hr as (? & _ & Hr).
  apply bind_Ok in Hr. destruct Hr as (? & _ & Hr).
  apply bind_Ok in Hr. destruct Hr as (? & _ & Hr).
  apply bind_Ok in Hr. destruct Hr as (? & _ & Hr).
  apply bind_Ok in Hr. destruct Hr as (? & _ & Hr).
  now inversion Hr.
Qed.

Lemma refine_step_keep atol h st n1 n2 :
  AtomNode_eq n1 n2 atol = true -> refine_step atol h st (n1, n2) = Ok st.
Proof. intros E. unfold refine_step. now rewrite E. Qed.

Lemma refine_step_remove atol st n1 n2 :
  AtomNode_eq n1 n2 atol = false ->
  refine_step atol false st (n1, n2)
  = st2 ← remove_node_pair st (n1, n2);
    Ok (set_removed_q st2
          (_removed_pairs_with_charge_difference st2 ++ [charge_entry (n1, n2)])).
Proof. intros E. unfold refine_step. now rewrite E. Qed.

Lemma refine_loop atol todo st :
  st_wf st -> List.NoDup todo -> incl todo (matched_pairs st) ->
  exists st',
    foldM (refine_step atol false) todo st = Ok st'
    /\ st_wf st'
    /\ matched_pairs st'
       = List.filter (fun q => negb (py_in pair_eqb q (List.filter (charge_mismatch atol) todo)))
                     (matched_pairs st)
    /\ _removed_pairs_with_charge_difference st'
       = _removed_pairs_with_charge_difference st
         ++ map charge_entry (List.filter (charge_mismatch atol) todo).
Proof.
  revert st. induction todo as [|[n1 n2] todo IH]; intros st Hwf Hnd Hincl.
  - exists st. simpl. split; [reflexivity|]. split; [exact Hwf|]. split.
    + symmetry. apply forallb_filter_id. apply forallb_forall. reflexivity.
    + now rewrite app_nil_r.
  - inversion Hnd as [|? ? Hp Hnd']; subst.
    assert (Hin : In (n1, n2) (matched_pairs st)) by (apply Hincl; now left).
    assert (Hcm : charge_mismatch atol (n1, n2) = negb (AtomNode_eq n1 n2 atol))
      by reflexivity.
    cbn [foldM List.filter]. rewrite Hcm.
    destruct (AtomNode_eq n1 n2 atol) eqn:E;
      [rewrite (refine_step_keep _ _ _ _ _ E) | rewrite (refine_step_remove _ _ _ _ E)];
      cbn [negb mbind res_bind].
    + destruct (IH st Hwf Hnd') as (st' & H1 & H2 & H3 & H4).
      { intros q Hq. apply Hincl. now right. }
      exists st'. split; [exact H1|]. split; [exact H2|]. split; [exact H3 | exact H4].
    + destruct (remove_node_pair_wf st (n1, n2) Hwf Hin) as (st2 & Hr & Hwf2 & Hp2 & Hb2).
      rewrite Hr. cbn [mbind res_bind].
      set (st3 := set_removed_q st2 _).
      destruct (IH st3) as (st' & H1 & H2 & H3 & H4).
      { now apply st_wf_set_removed_q. }
      { exact Hnd'. }
      { intros q Hq. subst st3. simpl. rewrite Hp2.
        apply (filter_neq_In pair_eqb pair_eqb_eq). split; [apply Hincl; now right|].
        intros ->. contradiction. }
      exists st'. split; [exact H1|]. split; [exact H2|]. split.
      * rewrite H3. subst st3. simpl. rewrite Hp2, filter_filter.
        apply filter_ext. intros q. simpl. now rewrite negb_orb.
      * rewrite H4. subst st3. simpl.
        rewrite (remove_node_pair_removed_q _ _ _ Hr), <- app_assoc. reflexivity.
Qed.

Lemma StronglySorted_impl {A : Type} (R S : A -> A -> Prop) l :
  (forall x y, R x y -> S x y) -> StronglySorted R l -> StronglySorted S l.
Proof.
  intros HRS. induction 1 as [|x l Hs IH Hall]; constructor; [exact IH|].
  eapply Forall_impl; [|exact Hall]. intros y. apply HRS.
Qed.

Lemma charge_diff_ge_total x y : charge_diff_ge x y = true \/ charge_diff_ge y x = true.
Proof.
  unfold charge_diff_ge. rewrite !Qle_bool_iff.
  destruct (Qlt_le_dec (snd x) (snd y)) as [H|H]; [right; now apply Qlt_le_weak | now left].
Qed.

Lemma charge_diff_ge_trans x y z :
  charge_diff_ge x y = true -> charge_diff_ge y z = true -> charge_diff_ge x z = true.
Proof.
  unfold charge_diff_ge. rewrite !Qle_bool_iff. intros H1 H2. eapply Qle_trans; eauto.
Qed.

(** What [refine_against_charges(atol)] does as it is written, on exact
    charges: on a well-formed topology it keeps a matched pair (l, r)
    exactly when [l.eq(r, atol)] holds, that is when the types of l and r
    are equal and |l.charge - r.charge| <= atol + 1e-5 * |r.charge|; it
    records every removed pair with |dq|, and when it returns the record is
    sorted by |dq| in descending order. *)
Lemma refine_against_charges_spec st atol :
  st_wf st ->
  exists st',
    refine_against_charges st atol false = Ok st'
    /\ st_wf st'
    /\ (forall l r, In (l, r) (matched_pairs st') <->
          In (l, r) (matched_pairs st)
          /\ type l = type r
          /\ (Qabs (charge l - charge r) <= atol + (1 # 100000) * Qabs (charge r))%Q)
    /\ matched_pairs st'
       = List.filter (fun p => negb (charge_mismatch atol p)) (matched_pairs st)
    /\ Permutation (_removed_pairs_with_charge_difference st')
         (_removed_pairs_with_charge_difference st
          ++ map charge_entry (List.filter (charge_mismatch atol) (rev (matched_pairs st))))
    /\ StronglySorted (fun x y => (snd y <= snd x)%Q)
         (_removed_pairs_with_charge_difference st').
Proof.
  intros Hwf.
  assert (Hnd : List.NoDup (matched_pairs st)).
  { eapply NoDup_map_inv. apply (wf_left _ Hwf). }
  destruct (refine_loop atol (rev (matched_pairs st)) st Hwf) as (st1 & H1 & H2 & H3 & H4).
  { now apply NoDup_rev. }
  { intros q Hq. now apply in_rev. }
  assert (Hpairs : matched_pairs st1
                   = List.filter (fun p => negb (charge_mismatch atol p)) (matched_pairs st)).
  { rewrite H3. apply filter_ext_in. intros q Hq. f_equal.
    destruct (charge_mismatch atol q) eqn:E.
    - apply (py_in_In pair_eqb pair_eqb_eq). apply filter_In. split; [|exact E].
      now apply -> in_rev.
    - apply (py_in_not_In pair_eqb pair_eqb_eq). intros Hin. apply filter_In in Hin.
      destruct Hin as (_ & Hin). congruence. }
  eexists. split; [|split; [|split; [|split; [|split]]]].
  - unfold refine_against_charges. cbn [mbind res_bind] in *.
    rewrite H1. cbn [mbind res_bind]. reflexivity.
  - now apply st_wf_set_removed_q.
  - intros l r. simpl. rewrite Hpairs, filter_In. unfold charge_mismatch, AtomNode_eq, np_isclose.
    simpl. rewrite negb_involutive, andb_true_iff, String.eqb_eq, Qle_bool_iff. reflexivity.
  - simpl. exact Hpairs.
  - simpl. rewrite py_sort_perm, H4. reflexivity.
  - simpl.
    eapply StronglySorted_impl; [|apply (py_sort_sorted charge_diff_ge);
      [apply charge_diff_ge_total | apply charge_diff_ge_trans]].
    intros x y H. unfold charge_diff_ge in H. now apply Qle_bool_iff in H.
Qed.

Lemma refine_against_charges_spec_witness :
  st_wf Charges.st
  /\ exists st', refine_against_charges Charges.st (1 # 10) false = Ok st'
                 /\ map (fun p => name (fst p)) (matched_pairs st') = ["C2"].
Proof.
  assert (H : st_wf Charges.st) by (apply st_wfb_sound; vm_compute; reflexivity).
  split; [exact H|].
  destruct (refine_against_charges_spec Charges.st (1 # 10) H) as (st' & H1 & _ & _ & H2 & _).
  exists st'. split; [exact H1|]. rewrite H2. vm_compute. reflexivity.
Defined.

(** C4: the code at atol = 0.1 on the topology of three carbon pairs.  The
    pair (C2, C12) has equal atom types and charges 1.100005 and 1.0, so
    |dq| = 0.100005 > atol, and [refine_against_charges] keeps it:
    [np.isclose] adds its default rtol * |r.charge| = 1e-5 to the tolerance,
    where the docstring of [refine_against_charges] promises an absolute
    tolerance.  In the same call the pair (C1, C11), of equal charges, is
    removed, because [AtomNode.eq] compares the atom types CA and CB too. *)
Theorem refine_against_charges_keeps_beyond_atol :
  exists st',
    refine_against_charges Charges.st (1 # 10) false = Ok st'
    /\ In (Charges.C2, Charges.C12) (matched_pairs Charges.st)
    /\ type Charges.C2 = type Charges.C12
    /\ (1 # 10 < Qabs (charge Charges.C2 - charge Charges.C12))%Q
    /\ (Qabs (charge Charges.C2 - charge Charges.C12) == 100005 # 1000000)%Q
    /\ In (Charges.C2, Charges.C12) (matched_pairs st')
    /\ In (Charges.C1, Charges.C11) (matched_pairs Charges.st)
    /\ (Qabs (charge Charges.C1 - charge Charges.C11) <= 1 # 10)%Q
    /\ ~ In (Charges.C1, Charges.C11) (matched_pairs st').
Proof.
  eexists. split; [vm_compute; reflexivity|].
  repeat split.
  - apply (py_in_In pair_eqb pair_eqb_eq). vm_compute. reflexivity.
  - apply (py_in_In pair_eqb pair_eqb_eq). vm_compute. reflexivity.
  - apply (py_in_In pair_eqb pair_eqb_eq). vm_compute. reflexivity.
  - apply Qle_bool_iff. vm_compute. reflexivity.
  - apply (py_in_not_In pair_eqb pair_eqb_eq). vm_compute. reflexivity.
Qed.

(** ** [remove_attached_hydrogens] *)

Lemma hydrogen_step_skip st removed q bt :
  named_hydrogen q = false -> hydrogen_step (st, removed) (q, bt) = Ok (st, removed).
Proof. unfold hydrogen_step, named_hydrogen. now intros ->. Qed.

Lemma hydrogen_step_remove st removed q bt :
  named_hydrogen q = true ->
  hydrogen_step (st, removed) (q, bt)
  = st' ← remove_node_pair st q; Ok (st', removed ++ [q]).
Proof. unfold hydrogen_step, named_hydrogen. now intros ->. Qed.

Lemma hydrogens_loop (todo : list bonded) st removed :
  st_wf st -> List.NoDup (map fst todo) ->
  (forall q bt, In (q, bt) todo -> In q (matched_pairs st)) ->
  exists st',
    foldM hydrogen_step todo (st, removed)
    = Ok (st', removed ++ List.filter named_hydrogen (map fst todo))
    /\ st_wf st'
    /\ matched_pairs st'
       = List.filter (fun q => negb (py_in pair_eqb q (List.filter named_hydrogen (map fst todo))))
                     (matched_pairs st).
Proof.
  revert st removed. induction todo as [|[q bt] todo IH]; intros st removed Hwf Hnd Hall.
  - exists st. simpl. rewrite app_nil_r. split; [reflexivity|]. split; [exact Hwf|].
    symmetry. apply forallb_filter_id. apply forallb_forall. reflexivity.
  - simpl in Hnd. inversion Hnd as [|? ? Hq Hnd']; subst.
    cbn [foldM map List.filter fst].
    destruct (named_hydrogen q) eqn:E.
    + rewrite (hydrogen_step_remove _ _ _ _ E).
      destruct (remove_node_pair_wf st q Hwf (Hall q bt (or_introl eq_refl)))
        as (st1 & Hr & Hwf1 & Hp1 & _).
      rewrite Hr. cbn [mbind res_bind].
      destruct (IH st1 (removed ++ [q]) Hwf1 Hnd') as (st' & H1 & H2 & H3).
      { intros q' bt' Hin. rewrite Hp1.
        apply (filter_neq_In pair_eqb pair_eqb_eq). split; [eapply Hall; right; exact Hin|].
        intros ->. apply Hq. apply (in_map fst) in Hin. exact Hin. }
      exists st'. split; [|split; [exact H2|]].
      * rewrite H1, <- app_assoc. reflexivity.
      * rewrite H3, Hp1, filter_filter. apply filter_ext. intros q'. simpl.
        now rewrite negb_orb.
    + rewrite (hydrogen_step_skip _ _ _ _ E). cbn [mbind res_bind].
      apply IH; [exact Hwf | exact Hnd' |].
      intros q' bt' Hin. eapply Hall. right. exact Hin.
Qed.

(** What [remove_attached_hydrogens(p)] does as it is written: on a
    well-formed topology, for a matched pair p, it removes exactly the pairs
    q bonded to p in [matched_pairs_bonds] whose left atom has a name that
    starts with H, whatever its element, and no other pair; it returns the
    removed pairs. *)
Lemma remove_attached_hydrogens_spec st p :
  st_wf st -> In p (matched_pairs st) ->
  exists st' removed,
    remove_attached_hydrogens st p = Ok (st', removed)
    /\ st_wf st'
    /\ (forall q, In q (matched_pairs st') <->
          In q (matched_pairs st) /\ ~ (adjacent st p q /\ named_hydrogen q = true))
    /\ (forall q, In q removed <-> adjacent st p q /\ named_hydrogen q = true).
Proof.
  intros Hwf Hin.
  assert (Hk : exists s_p : list bonded, In (p, s_p) (matched_pairs_bonds st)).
  { apply (wf_keys _ Hwf) in Hin. apply in_map_iff in Hin. destruct Hin as ([k s] & E & H).
    simpl in E. subst. eauto. }
  destruct Hk as (s_p & Hsp).
  pose proof (dict_get_In pair_eqb pair_eqb_eq _ _ _ (wf_keys_NoDup _ Hwf) Hsp) as Hget.
  assert (Hadjacent : forall q, adjacent st p q <-> In q (map fst s_p)).
  { intros q. unfold adjacent. rewrite Hget. split.
    - intros (s & bt & E & Hq). inversion E; subst. apply (in_map fst) in Hq. exact Hq.
    - intros Hq. apply in_map_iff in Hq. destruct Hq as ([q' bt] & E & Hq).
      simpl in E. subst. eauto. }
  destruct (hydrogens_loop s_p st [] Hwf) as (st' & H1 & H2 & H3).
  { eapply wf_adj_NoDup; eauto. }
  { intros q bt Hq. destruct (wf_adj _ Hwf _ _ _ _ Hsp Hq) as (_ & s' & Hs' & _).
    apply (wf_keys _ Hwf). apply (in_map fst) in Hs'. exact Hs'. }
  exists st', (List.filter named_hydrogen (map fst s_p)).
  split; [|split; [exact H2|split]].
  - unfold remove_attached_hydrogens. rewrite Hget. exact H1.
  - intros q. rewrite H3, filter_In, negb_true_iff.
    rewrite (py_in_not_In pair_eqb pair_eqb_eq), filter_In, Hadjacent. reflexivity.
  - intros q. rewrite filter_In, Hadjacent. reflexivity.
Qed.

Lemma remove_attached_hydrogens_spec_witness :
  st_wf Hydrogens.st /\ In (Hydrogens.C1, Hydrogens.C11) (matched_pairs Hydrogens.st)
  /\ exists st' removed,
       remove_attached_hydrogens Hydrogens.st (Hydrogens.C1, Hydrogens.C11) = Ok (st', removed)
       /\ st_wf st'.
Proof.
  assert (H : st_wf Hydrogens.st) by (apply st_wfb_sound; vm_compute; reflexivity).
  assert (Hin : In (Hydrogens.C1, Hydrogens.C11) (matched_pairs Hydrogens.st))
    by (apply (py_in_In pair_eqb pair_eqb_eq); vm_compute; reflexivity).
  split; [exact H|]. split; [exact Hin|].
  destruct (remove_attached_hydrogens_spec _ _ H Hin) as (st' & removed & H1 & H2 & _).
  exists st', removed. split; assumption.
Defined.

(** C9: the code on the pair (C1, C11) with two bonded pairs.  (D1, D11) is
    bonded to (C1, C11) and the element of D1 is H, yet the pair stays;
    (HX1, HX11) is bonded to (C1, C11) and HX1 is a carbon, yet the pair is
    removed: the loop tests [pair[0].name.startswith('H')] under the comment
    [# ignore non hydrogens], where the docstring says "Remove the dangling
    hydrogens" and [get_starting_configurations] tests [a.element != 'H']. *)
Theorem remove_attached_hydrogens_goes_by_name :
  exists st' removed,
    remove_attached_hydrogens Hydrogens.st (Hydrogens.C1, Hydrogens.C11) = Ok (st', removed)
    /\ removed = [(Hydrogens.HX1, Hydrogens.HX11)]
    /\ adjacent Hydrogens.st (Hydrogens.C1, Hydrogens.C11) (Hydrogens.D1, Hydrogens.D11)
    /\ element Hydrogens.D1 = "H"
    /\ In (Hydrogens.D1, Hydrogens.D11) (matched_pairs st')
    /\ adjacent Hydrogens.st (Hydrogens.C1, Hydrogens.C11) (Hydrogens.HX1, Hydrogens.HX11)
    /\ element Hydrogens.HX1 = "C"
    /\ ~ In (Hydrogens.HX1, Hydrogens.HX11) (matched_pairs st').
Proof.
  eexists. eexists. split; [vm_compute; reflexivity|].
  split; [reflexivity|].
  split; [|split; [reflexivity|split; [|split; [|split]]]].
  - eexists. exists (Some "1", Some "1"). split; [vm_compute; reflexivity|].
    apply (py_in_In bonded_eqb bonded_eqb_eq). vm_compute. reflexivity.
  - apply (py_in_In pair_eqb pair_eqb_eq). vm_compute. reflexivity.
  - eexists. exists (Some "1", Some "1"). split; [vm_compute; reflexivity|].
    apply (py_in_In bonded_eqb bonded_eqb_eq). vm_compute. reflexivity.
  - reflexivity.
  - apply (py_in_not_In pair_eqb pair_eqb_eq). vm_compute. reflexivity.
Qed.

(** ** The partial-ring filter leaves macrocycles alone *)

Lemma list_remove_incl {A : Type} (eqb : A -> A -> bool) x l l' :
  list_remove eqb x l = Ok l' -> incl l' l.
Proof.
  revert l'. induction l as [|y l IH]; simpl; intros l' H; [discriminate|].
  destruct (eqb y x).
  - inversion H; subst. intros z Hz. now right.
  - apply bind_Ok in H. destruct H as (l'' & Hr & Hk). inversion Hk; subst.
    intros z [Hz|Hz]; [now left | right; eapply IH; eauto].
Qed.

Lemma get_pair_with_atom_has st a q :
  get_pair_with_atom st a = Some q -> fst q = a \/ snd q = a.
Proof.
  unfold get_pair_with_atom. intros H. apply find_some in H. destruct H as (_ & H).
  apply orb_true_iff in H. destruct H as [H|H]; apply atom_eqb_eq in H; auto.
Qed.

Lemma remove_node_pair_keeps st q st' p :
  remove_node_pair st q = Ok st' -> p <> q -> In p (matched_pairs st) ->
  In p (matched_pairs st').
Proof.
  intros H Hne Hin. apply remove_node_pair_pairs in H.
  now apply (list_remove_In _ pair_eqb_eq _ _ _ H).
Qed.

Lemma ring_atom_step_keeps p acc a acc' :
  fst p <> a -> snd p <> a -> In p (matched_pairs (fst acc)) ->
  ring_atom_step acc a = Ok acc' -> In p (matched_pairs (fst acc')).
Proof.
  destruct acc as [st removed]. unfold ring_atom_step. simpl. intros Ha1 Ha2 Hin Hstep.
  destruct (contains_node st a); [|now inversion Hstep; subst].
  destruct (get_pair_with_atom st a) as [q|] eqn:Hq; [|discriminate].
  apply bind_Ok in Hstep. destruct Hstep as (st3 & Hr & Hk). inversion Hk; subst. simpl.
  eapply remove_node_pair_keeps; [exact Hr | | exact Hin].
  intros ->. destruct (get_pair_with_atom_has _ _ _ Hq); contradiction.
Qed.

Lemma remove_unmatched_ring_atoms_keeps p circles st st' removed :
  Forall (avoids p) circles -> In p (matched_pairs st) ->
  _remove_unmatched_ring_atoms st circles = Ok (st', removed) ->
  In p (matched_pairs st').
Proof.
  unfold _remove_unmatched_ring_atoms. intros Hall Hin H.
  change (In p (matched_pairs (fst (st', removed)))).
  eapply (foldM_invariant_In (fun acc => In p (matched_pairs (fst acc)))); [ | | exact H];
    [|exact Hin].
  intros acc c acc' Hc Hacc Hf. rewrite Forall_forall in Hall.
  destruct (Hall c Hc) as (H1 & H2).
  eapply (foldM_invariant_In (fun acc => In p (matched_pairs (fst acc)))); [ | | exact Hf];
    [|exact Hacc].
  intros acc0 a acc0' Ha Hacc0 Hstep.
  eapply ring_atom_step_keeps; [ | | exact Hacc0 | exact Hstep]; intros <-; contradiction.
Qed.

Lemma readd_affected_avoids p correct l_removed r_removed lc rc lc' rc' :
  Forall (fun cc => avoids p (fst cc) /\ avoids p (snd cc)) correct ->
  Forall (avoids p) lc -> Forall (avoids p) rc ->
  readd_affected correct l_removed r_removed lc rc = (lc', rc') ->
  Forall (avoids p) lc' /\ Forall (avoids p) rc'.
Proof.
  unfold readd_affected. revert lc rc.
  induction correct as [|[l_circle r_circle] correct IH]; simpl; intros lc rc Hc Hl Hr H.
  - inversion H; subst. auto.
  - inversion Hc as [|? ? Hab Hc']; subst. destruct Hab as (Ha & Hb). simpl in Ha, Hb.
    destruct (_ || _).
    + eapply IH; [exact Hc' | | | exact H].
      * apply Forall_app. split; [exact Hl | now constructor].
      * apply Forall_app. split; [exact Hr | now constructor].
    + eapply IH; [exact Hc' | exact Hl | exact Hr | exact H].
Qed.

Lemma partial_rings_loop_keeps p fuel st lc rc correct st' :
  Forall (fun cc => avoids p (fst cc) /\ avoids p (snd cc)) correct ->
  Forall (avoids p) lc -> Forall (avoids p) rc ->
  In p (matched_pairs st) ->
  partial_rings_loop fuel st lc rc correct = Ok st' ->
  In p (matched_pairs st').
Proof.
  revert st lc rc. induction fuel as [|fuel IH]; simpl; intros st lc rc Hc Hl Hr Hin H;
    [discriminate|].
  apply bind_Ok in H. destruct H as ([st1 l_removed] & H1 & H).
  apply bind_Ok in H. destruct H as ([st2 r_removed] & H2 & H).
  pose proof (remove_unmatched_ring_atoms_keeps _ _ _ _ _ Hl Hin H1) as Hin1.
  pose proof (remove_unmatched_ring_atoms_keeps _ _ _ _ _ Hr Hin1 H2) as Hin2.
  destruct (readd_affected correct l_removed r_removed lc rc) as [lc' rc'] eqn:Hre.
  destruct (readd_affected_avoids _ _ _ _ _ _ _ _ Hc Hl Hr Hre) as (Hl' & Hr').
  destruct (_ && _).
  - now inversion H; subst.
  - eapply IH; [exact Hc | exact Hl' | exact Hr' | exact Hin2 | exact H].
Qed.

Lemma small_circles_avoid p circles sub :
  only_in_macrocycles circles p = true -> incl sub circles ->
  Forall (avoids p) (small_circles sub).
Proof.
  unfold only_in_macrocycles, small_circles. rewrite forallb_forall. intros H Hincl.
  apply Forall_forall. intros c Hc. apply filter_In in Hc. destruct Hc as (Hc & Hlen).
  specialize (H c (Hincl c Hc)). apply orb_true_iff in H. destruct H as [H|H].
  - apply negb_true_iff, orb_false_iff in H. destruct H as (H1 & H2).
    split; now apply (py_in_not_In atom_eqb atom_eqb_eq).
  - apply Nat.ltb_lt in H. apply Nat.leb_le in Hlen. lia.
Qed.

Lemma Forall_incl {A : Type} (P : A -> Prop) l l' :
  incl l' l -> Forall P l -> Forall P l'.
Proof. rewrite !Forall_forall. auto. Qed.

Lemma match_circles_avoids p st s lmc rmc s' :
  ring_state_avoids p s -> avoids p lmc -> avoids p rmc ->
  match_circles st s lmc rmc = Ok s' -> ring_state_avoids p s'.
Proof.
  unfold match_circles. intros (H1 & H2 & H3 & H4 & H5) Hl Hr H.
  apply bind_Ok in H. destruct H as (matched & _ & H).
  destruct matched; [|inversion H; subst; repeat split; assumption].
  apply bind_Ok in H. destruct H as (lm & Hlm & H).
  apply bind_Ok in H. destruct H as (rm & Hrm & H).
  apply bind_Ok in H. destruct H as (lc & Hlc & H).
  apply bind_Ok in H. destruct H as (rc & Hrc & H).
  inversion H; subst. unfold ring_state_avoids. simpl.
  split; [eapply Forall_incl; [eapply list_remove_incl; eauto | assumption]|].
  split; [eapply Forall_incl; [eapply list_remove_incl; eauto | assumption]|].
  split; [eapply Forall_incl; [eapply list_remove_incl; eauto | assumption]|].
  split; [eapply Forall_incl; [eapply list_remove_incl; eauto | assumption]|].
  apply Forall_app. split; [assumption|]. constructor; [now split | constructor].
Qed.

Lemma classify_circles_avoids bonds cycle_basis st lo ro p s :
  get_original_circles bonds cycle_basis st = Ok (lo, ro) ->
  only_in_macrocycles (lo ++ ro ++ fst (get_circles bonds cycle_basis st)
                          ++ snd (get_circles bonds cycle_basis st)) p = true ->
  classify_circles bonds cycle_basis st = Ok s -> ring_state_avoids p s.
Proof.
  unfold classify_circles. intros Ho Hm H. rewrite Ho in H. cbn [mbind res_bind] in H.
  destruct (get_circles bonds cycle_basis st) as [lm rm] eqn:Hg. simpl in Hm.
  apply bind_Ok in H. destruct H as (s1 & Hloop & H).
  apply bind_Ok in H. destruct H as (_ & _ & H). inversion H; subst. clear H.
  set (all := lo ++ ro ++ lm ++ rm) in Hm.
  assert (Hlm : Forall (avoids p) (small_circles lm)).
  { eapply small_circles_avoid; [exact Hm|]. subst all. intros c Hc.
    rewrite !in_app_iff. tauto. }
  assert (Hrm : Forall (avoids p) (small_circles rm)).
  { eapply small_circles_avoid; [exact Hm|]. subst all. intros c Hc.
    rewrite !in_app_iff. tauto. }
  assert (Hlo : Forall (avoids p) (small_circles lo)).
  { eapply small_circles_avoid; [exact Hm|]. subst all. intros c Hc.
    rewrite !in_app_iff. tauto. }
  assert (Hro : Forall (avoids p) (small_circles ro)).
  { eapply small_circles_avoid; [exact Hm|]. subst all. intros c Hc.
    rewrite !in_app_iff. tauto. }
  simpl in Hloop.
  eapply (foldM_invariant_In (ring_state_avoids p)); [ | | exact Hloop].
  - intros acc lmc acc' Hlmc Hacc Hf.
    assert (Hl : avoids p lmc).
    { apply in_rev in Hlmc. rewrite Forall_forall in Hlm. auto. }
    assert (Hinner : forall c, In c (rev (r_matched_circles acc)) -> avoids p c).
    { intros c Hc. apply in_rev in Hc. destruct Hacc as (_ & Hr & _).
      rewrite Forall_forall in Hr. auto. }
    eapply (foldM_invariant_In (ring_state_avoids p)); [ | | exact Hf]; [|exact Hacc].
    intros acc0 rmc acc0' Hrmc Hacc0 Hstep.
    eapply match_circles_avoids; [exact Hacc0 | exact Hl | apply Hinner; exact Hrmc | exact Hstep].
  - unfold ring_state_avoids. simpl.
    split; [exact Hlm|]. split; [exact Hrm|]. split; [exact Hlo|]. split; [exact Hro|].
    constructor.
Qed.

(** Every pair that [_remove_unmatched_ring_atoms] reports has left
    [matched_pairs]. *)
Lemma ring_atom_step_len acc a acc' :
  ring_atom_step acc a = Ok acc' ->
  (st_len (fst acc') + length (snd acc') = st_len (fst acc) + length (snd acc))%nat.
Proof.
  destruct acc as [st removed]. unfold ring_atom_step. intros H.
  destruct (contains_node st a); [|now inversion H; subst].
  destruct (get_pair_with_atom st a) as [q|]; [|discriminate].
  apply bind_Ok in H. destruct H as (st3 & Hr & Hk). inversion Hk; subst.
  apply remove_node_pair_pairs in Hr.
  destruct (list_remove_In _ pair_eqb_eq _ _ _ Hr) as (_ & Hlen & _).
  unfold st_len. simpl. rewrite Hlen, length_app. simpl. lia.
Qed.

Lemma remove_unmatched_ring_atoms_len st circles st' removed :
  _remove_unmatched_ring_atoms st circles = Ok (st', removed) ->
  (st_len st' + length removed = st_len st)%nat.
Proof.
  unfold _remove_unmatched_ring_atoms. intros H.
  change ((fun acc : SuperimposedTopology * list pair =>
             st_len (fst acc) + length (snd acc) = st_len st)%nat (st', removed)).
  eapply foldM_invariant; [ | | exact H]; [|simpl; lia].
  intros acc c acc' Hacc Hf.
  eapply (foldM_invariant (fun acc : SuperimposedTopology * list pair =>
            st_len (fst acc) + length (snd acc) = st_len st)%nat); [ | | exact Hf];
    [|exact Hacc].
  intros acc1 a acc2 Hacc1 Hstep. apply ring_atom_step_len in Hstep. lia.
Qed.

Lemma terminated_remove_unmatched_ring_atoms st circles :
  terminated (_remove_unmatched_ring_atoms st circles).
Proof.
  unfold _remove_unmatched_ring_atoms.
  apply terminated_foldM. intros acc c. apply terminated_foldM.
  intros [st1 removed] a. unfold ring_atom_step.
  destruct (contains_node st1 a); [|exact I].
  destruct (get_pair_with_atom st1 a) as [q|]; [|exact I].
  apply terminated_bind; [apply terminated_remove_node_pair | intros; exact I].
Qed.

(** A round of the [while True] loop that does not leave it has removed a
    pair, so one more round than there are pairs is never needed. *)
Lemma partial_rings_loop_enough_fuel fuel st lc rc correct :
  (st_len st < fuel)%nat -> terminated (partial_rings_loop fuel st lc rc correct).
Proof.
  revert st lc rc. induction fuel as [|fuel IH]; intros st lc rc Hlt; [lia|].
  cbn [partial_rings_loop].
  apply terminated_bind; [apply terminated_remove_unmatched_ring_atoms|].
  intros [st1 l_removed] H1.
  apply terminated_bind; [apply terminated_remove_unmatched_ring_atoms|].
  intros [st2 r_removed] H2.
  destruct (readd_affected correct l_removed r_removed lc rc) as [lc' rc'].
  apply remove_unmatched_ring_atoms_len in H1, H2.
  destruct l_removed as [|q l_removed]; [destruct r_removed as [|q r_removed]|];
    [exact I | |]; cbn [length Nat.eqb andb]; apply IH; simpl in H1, H2; lia.
Qed.

Lemma terminated_are_matched_atoms st l_atoms r_atoms :
  terminated (are_matched_atoms st l_atoms r_atoms).
Proof.
  induction l_atoms as [|a rest IH]; simpl; [exact I|].
  destruct (get_pair_with_atom st a) as [[? matched_r]|]; [|exact I].
  destruct (negb _); [exact I | exact IH].
Qed.

Lemma terminated_match_circles st s l r : terminated (match_circles st s l r).
Proof.
  unfold match_circles. apply terminated_bind.
  - unfold are_matched_sets. destruct (negb _); [exact I|apply terminated_are_matched_atoms].
  - intros [|] _; [|exact I].
    repeat (apply terminated_bind; [apply terminated_list_remove | intros ? _]).
    exact I.
Qed.

Lemma terminated_classify_circles bonds cycle_basis st :
  terminated (classify_circles bonds cycle_basis st).
Proof.
  unfold classify_circles. apply terminated_bind.
  - unfold get_original_circles. destruct (top1 st), (top2 st); exact I.
  - intros [lo ro] _. destruct (get_circles bonds cycle_basis st) as [lm rm].
    apply terminated_bind.
    + apply terminated_foldM. intros s l. apply terminated_foldM.
      intros s' r. apply terminated_match_circles.
    + intros s _. apply terminated_bind; [|intros; exact I].
      unfold py_assert. now destruct (_ && _).
Qed.

(** [enforce_no_partial_rings] ends, with a result or with an exception of
    the source: the bound the orchestrator is modelled with, one more than
    the number of matched pairs, is never reached. *)
Lemma enforce_no_partial_rings_terminates bonds cycle_basis st k :
  terminated (enforce_no_partial_rings bonds cycle_basis (S (st_len st) + k) st).
Proof.
  unfold enforce_no_partial_rings.
  apply terminated_bind; [apply terminated_classify_circles|].
  intros s _. apply partial_rings_loop_enough_fuel. lia.
Qed.

(** C8: [enforce_no_partial_rings] removes no matched pair on account of a
    cycle of more than 7 atoms: the original and the induced cycles of more
    than [MAX_CIRCLE_SIZE] atoms, on either side, are left out of the filter,
    so a pair whose atoms lie in such macrocycles only (in no cycle of at
    most 7 atoms) is still matched when the filter returns; and the filter
    does end, within one round more than there are matched pairs. *)
Theorem enforce_no_partial_rings_spares_macrocycles bonds cycle_basis st lo ro p :
  get_original_circles bonds cycle_basis st = Ok (lo, ro) ->
  only_in_macrocycles (lo ++ ro ++ fst (get_circles bonds cycle_basis st)
                          ++ snd (get_circles bonds cycle_basis st)) p = true ->
  In p (matched_pairs st) ->
  (forall k, terminated (enforce_no_partial_rings bonds cycle_basis (S (st_len st) + k) st))
  /\ forall fuel st',
       enforce_no_partial_rings bonds cycle_basis fuel st = Ok st' ->
       In p (matched_pairs st').
Proof.
  intros Ho Hm Hin. split; [intros k; apply enforce_no_partial_rings_terminates|].
  intros fuel st' H. unfold enforce_no_partial_rings in H.
  apply bind_Ok in H. destruct H as (s & Hs & H).
  destruct (classify_circles_avoids _ _ _ _ _ _ _ Ho Hm Hs) as (_ & _ & Hl & Hr & Hc).
  eapply partial_rings_loop_keeps; [exact Hc | exact Hl | exact Hr | exact Hin | exact H].
Qed.

Lemma enforce_no_partial_rings_spares_macrocycles_witness :
  exists st',
    enforce_no_partial_rings Macrocycle.bonds Macrocycle.cycle_basis 5 Macrocycle.st = Ok st'
    /\ map (fun p => name (fst p)) (matched_pairs Macrocycle.st) = ["M1"; "M2"; "T1"; "T2"]
    /\ map (fun p => name (fst p)) (matched_pairs st') = ["M1"; "M2"]
    /\ In (Macrocycle.M2, Macrocycle.M12) (matched_pairs st').
Proof.
  eexists. split; [vm_compute; reflexivity|].
  split; [vm_compute; reflexivity|]. split; [vm_compute; reflexivity|].
  refine (proj2 (enforce_no_partial_rings_spares_macrocycles
                   Macrocycle.bonds Macrocycle.cycle_basis Macrocycle.st _ _
                   (Macrocycle.M2, Macrocycle.M12) _ _ _) 5%nat _ _).
  - vm_compute. reflexivity.
  - vm_compute. reflexivity.
  - apply (py_in_In pair_eqb pair_eqb_eq). vm_compute. reflexivity.
  - vm_compute. reflexivity.
Defined.

(** ** [__copy__]: what is duplicated and what is shared *)

Lemma in_all_fields f : In f all_fields.
Proof. destruct f; simpl; tauto. Qed.

Lemma read_as_Ok {A : Type} (h : heap) (l : loc) (as_ : cell -> res A) (v : A) :
  read h l ≫= as_ = Ok v -> exists c, cells h !! l = Some c /\ as_ c = Ok v.
Proof.
  unfold read. destruct (cells h !! l) as [c|]; simpl; [eauto | discriminate].
Qed.

(** What [load] yields is what the containers hold. *)
Lemma load_contents h o st :
  load h o = Ok st ->
  (forall f, contents h o f = Some (field_value st f))
  /\ top1 st = o_top1 o /\ top2 st = o_top2 o
  /\ ignore_bond_types st = o_ignore_bond_types o
  /\ left_coords_are_ref st = o_left_coords_are_ref o
  /\ _nonoverlapping_l_cycles st = o_nonoverlapping_l_cycles o
  /\ _nonoverlapping_r_cycles st = o_nonoverlapping_r_cycles o.
Proof.
  unfold load. intros H.
  repeat match type of H with
         | (_ ≫= _) ≫= _ = Ok _ =>
             apply bind_Ok in H;
             let v := fresh "v" in
             let Hv := fresh "Hv" in
             destruct H as (v & Hv & H);
             apply read_as_Ok in Hv;
             let c := fresh "c" in
             let Hc := fresh "Hc" in
             let Ha := fresh "Ha" in
             destruct Hv as (c & Hc & Ha);
             destruct c; try discriminate Ha; inversion Ha; subst; clear Ha
         end.
  inversion H; subst; clear H. simpl.
  split; [|tauto].
  intros f. unfold contents. destruct f; simpl; assumption.
Qed.

Lemma contents_load h o st :
  (forall f, contents h o f = Some (field_value st f)) ->
  top1 st = o_top1 o -> top2 st = o_top2 o ->
  ignore_bond_types st = o_ignore_bond_types o ->
  left_coords_are_ref st = o_left_coords_are_ref o ->
  _nonoverlapping_l_cycles st = o_nonoverlapping_l_cycles o ->
  _nonoverlapping_r_cycles st = o_nonoverlapping_r_cycles o ->
  load h o = Ok st.
Proof.
  intros Hc H1 H2 H3 H4 H5 H6. unfold load, read.
  pose proof (Hc F_matched_pairs) as E1. pose proof (Hc F_nodes) as E2.
  pose proof (Hc F_nodes_added_log) as E3. pose proof (Hc F_matched_pairs_bonds) as E4.
  pose proof (Hc F_mirrors) as E5. pose proof (Hc F_alternative_mappings) as E6.
  pose proof (Hc F_removed_pairs_with_charge_difference) as E7.
  pose proof (Hc F_removed_because_disjointed_cc) as E8.
  pose proof (Hc F_removed_due_to_net_charge) as E9.
  pose proof (Hc F_removed_because_unmatched_rings) as E10.
  pose proof (Hc F_removed_because_diff_bonds) as E11.
  unfold contents in *. simpl in *.
  rewrite E1, E2, E3, E4, E5, E6, E7, E8, E9, E10, E11. simpl.
  rewrite <- H1, <- H2, <- H3, <- H4, <- H5, <- H6. now destruct st.
Qed.

(** The containers after the updates of a method were written *)
Lemma write_back_lookup (h : heap) (o : st_object) st (l : loc) :
  cells (write_back h o st) !! l
  = match find (fun f => bool_decide (attr o f = l)) all_fields with
    | Some f => Some (field_value st f)
    | None => cells h !! l
    end.
Proof.
  unfold write_back. cbn [cells]. generalize all_fields.
  induction l0 as [|f fs IH]; [reflexivity|].
  cbn [foldr find]. case_bool_decide as E.
  - subst. apply lookup_insert_eq.
  - rewrite lookup_insert_ne by exact E. exact IH.
Qed.

Lemma write_back_contents h o st f :
  (forall f g, attr o f = attr o g -> f = g) ->
  contents (write_back h o st) o f = Some (field_value st f).
Proof.
  intros Hinj. unfold contents. rewrite write_back_lookup.
  destruct (find _ all_fields) as [g|] eqn:E.
  - apply find_some in E. destruct E as (_ & E). apply bool_decide_eq_true in E.
    now rewrite (Hinj _ _ E).
  - pose proof (find_none _ _ E f (in_all_fields f)) as Hf. simpl in Hf.
    apply bool_decide_eq_false in Hf. now destruct Hf.
Qed.

Lemma write_back_elsewhere (h : heap) (o : st_object) st (l : loc) :
  (forall f, attr o f <> l) -> cells (write_back h o st) !! l = cells h !! l.
Proof.
  intros Hne. rewrite write_back_lookup.
  destruct (find _ all_fields) as [g|] eqn:E; [|reflexivity].
  apply find_some in E. destruct E as (_ & E). apply bool_decide_eq_true in E.
  now destruct (Hne g).
Qed.

Lemma extends_refl h : extends h h.
Proof. split; [lia | reflexivity]. Qed.

Lemma extends_trans h1 h2 h3 : extends h1 h2 -> extends h2 h3 -> extends h1 h3.
Proof.
  intros (H1 & H2) (H3 & H4). split; [lia|].
  intros l Hl. rewrite H4 by lia. now apply H2.
Qed.

Lemma alloc_extends c h : extends h (snd (alloc c h)).
Proof.
  unfold alloc. split; simpl; [lia|].
  intros l Hl. apply lookup_insert_ne. lia.
Qed.

Lemma new_object_extends h : extends h (fst (new_object h)).
Proof.
  unfold new_object.
  set (step := fun '(o, h) f => let '(l, h') := alloc _ h in (set_attr o f l, h')).
  set (o0 := {| attr := _ |}).
  assert (H : forall fs o h0, extends h h0 -> extends h (snd (fold_left step fs (o, h0)))).
  { induction fs as [|f fs IH]; intros o h0 Hh0; [exact Hh0|].
    simpl. apply IH. eapply extends_trans; [exact Hh0 | apply alloc_extends]. }
  specialize (H all_fields o0 h (extends_refl h)).
  destruct (fold_left step all_fields (o0, h)) as [o' h']. exact H.
Qed.

(** One statement [new_one.f = copy.copy(self.f)] *)
Lemma copy_attr_step h o1 st done hk ok f :
  object_of h o1 st -> copying h o1 st done hk ok -> ~ In f done ->
  exists hk' ok',
    copy_attr o1 f (hk, ok) = Ok (hk', ok') /\ copying h o1 st (f :: done) hk' ok'.
Proof.
  intros [Halloc Hsep Hload] [Hext Hfresh Hshared Hsepk Himm] Hf.
  destruct (load_contents _ _ _ Hload) as (Hcont & _).
  assert (Hread : cells hk !! attr o1 f = Some (field_value st f)).
  { destruct Hext as (_ & Hext). rewrite Hext by apply Halloc. apply Hcont. }
  unfold copy_attr, read. rewrite Hread. cbn [mbind res_bind].
  eexists. eexists. split; [reflexivity|].
  destruct Hext as (Hle & Hsame).
  constructor.
  - eapply extends_trans; [split; [exact Hle | exact Hsame] | apply alloc_extends].
  - intros g [<-|Hg]; cbn [attr set_attr next_loc cells].
    + rewrite decide_True by reflexivity. split; [lia | apply lookup_insert_eq].
    + rewrite decide_False by (intros ->; contradiction).
      destruct (Hfresh g Hg) as (Hrange & Hcell).
      split; [lia|]. rewrite lookup_insert_ne by lia. exact Hcell.
  - intros g Hg. cbn [attr set_attr].
    rewrite decide_False by (intros ->; apply Hg; now left).
    apply Hshared. intros Hin. apply Hg. now right.
  - intros g1 g2 Hg1 Hg2. cbn [attr set_attr].
    destruct (decide (g1 = f)) as [->|Hn1], (decide (g2 = f)) as [->|Hn2]; intros E.
    + reflexivity.
    + destruct Hg2 as [<-|Hg2]; [contradiction|]. destruct (Hfresh g2 Hg2). lia.
    + destruct Hg1 as [<-|Hg1]; [contradiction|]. destruct (Hfresh g1 Hg1). lia.
    + destruct Hg1 as [<-|Hg1]; [contradiction|].
      destruct Hg2 as [<-|Hg2]; [contradiction|]. now apply Hsepk.
  - exact Himm.
Qed.

Lemma duplicated_or_log f : In f duplicated <-> is_removal_log f = false.
Proof. destruct f; vm_compute; intuition congruence. Qed.

Lemma copy_result h o1 st :
  object_of h o1 st ->
  exists h' o2, __copy__ h o1 = Ok (h', o2) /\ copying h o1 st duplicated h' o2.
Proof.
  intros Hobj. unfold __copy__.
  pose proof (new_object_extends h) as Hext.
  destruct (new_object h) as [h0 new_one]. simpl in Hext.
  assert (H0 : copying h o1 st [] h0 o1).
  { constructor; [exact Hext | intros f [] | reflexivity | intros f g [] | tauto]. }
  destruct (copy_attr_step _ _ _ _ _ _ F_matched_pairs Hobj H0) as (h1 & c1 & E1 & H1);
    [intros [] |].
  destruct (copy_attr_step _ _ _ _ _ _ F_nodes Hobj H1) as (h2 & c2 & E2 & H2);
    [simpl; intuition congruence |].
  destruct (copy_attr_step _ _ _ _ _ _ F_nodes_added_log Hobj H2) as (h3 & c3 & E3 & H3);
    [simpl; intuition congruence |].
  destruct (copy_attr_step _ _ _ _ _ _ F_matched_pairs_bonds Hobj H3) as (h4 & c4 & E4 & H4);
    [simpl; intuition congruence |].
  destruct (copy_attr_step _ _ _ _ _ _ F_mirrors Hobj H4) as (h5 & c5 & E5 & H5);
    [simpl; intuition congruence |].
  destruct (copy_attr_step _ _ _ _ _ _ F_alternative_mappings Hobj H5) as (h6 & c6 & E6 & H6);
    [simpl; intuition congruence |].
  exists h6, c6. split; [|exact H6].
  rewrite E1. cbn [mbind res_bind]. rewrite E2. cbn [mbind res_bind].
  rewrite E3. cbn [mbind res_bind]. rewrite E4. cbn [mbind res_bind].
  rewrite E5. cbn [mbind res_bind]. exact E6.
Qed.

Section CopyFacts.
Variables (h h' : heap) (o1 o2 : st_object) (st : SuperimposedTopology).
Hypothesis Hobj : object_of h o1 st.
Hypothesis Hcp : copying h o1 st duplicated h' o2.

Lemma copy_attr_cases f :
  (is_removal_log f = true /\ attr o2 f = attr o1 f)
  \/ (is_removal_log f = false /\ (next_loc h <= attr o2 f < next_loc h')%nat).
Proof using Hcp.
  destruct (is_removal_log f) eqn:E.
  - left. split; [reflexivity|]. apply (cp_shared _ _ _ _ _ _ Hcp).
    rewrite duplicated_or_log. congruence.
  - right. split; [reflexivity|]. apply (cp_fresh _ _ _ _ _ _ Hcp).
    now apply duplicated_or_log.
Qed.

Lemma copy_separate f g : attr o2 f = attr o2 g -> f = g.
Proof using Hobj Hcp.
  intros E. pose proof (obj_allocated _ _ _ Hobj) as Halloc.
  destruct (copy_attr_cases f) as [(Lf & Ef)|(Lf & Ef)],
           (copy_attr_cases g) as [(Lg & Eg)|(Lg & Eg)].
  - apply (obj_separate _ _ _ Hobj). congruence.
  - specialize (Halloc f). lia.
  - specialize (Halloc g). lia.
  - apply (cp_separate _ _ _ _ _ _ Hcp); [now apply duplicated_or_log .. | exact E].
Qed.

Lemma copy_contents_original f : contents h' o1 f = Some (field_value st f).
Proof using Hobj Hcp.
  unfold contents. destruct (cp_extends _ _ _ _ _ _ Hcp) as (_ & Hsame).
  rewrite Hsame by apply (obj_allocated _ _ _ Hobj).
  apply (load_contents _ _ _ (obj_load _ _ _ Hobj)).
Qed.

Lemma copy_contents_copy f : contents h' o2 f = Some (field_value st f).
Proof using Hobj Hcp.
  destruct (copy_attr_cases f) as [(Lf & Ef)|(Lf & Ef)].
  - unfold contents. rewrite Ef. apply copy_contents_original.
  - apply (cp_fresh _ _ _ _ _ _ Hcp). now apply duplicated_or_log.
Qed.

Lemma copy_object_original : object_of h' o1 st.
Proof using Hobj Hcp.
  destruct (load_contents _ _ _ (obj_load _ _ _ Hobj)) as (_ & I1 & I2 & I3 & I4 & I5 & I6).
  constructor.
  - intros f. pose proof (obj_allocated _ _ _ Hobj f).
    destruct (cp_extends _ _ _ _ _ _ Hcp). lia.
  - apply (obj_separate _ _ _ Hobj).
  - apply contents_load; [apply copy_contents_original | assumption ..].
Qed.

Lemma copy_object_copy : object_of h' o2 st.
Proof using Hobj Hcp.
  destruct (load_contents _ _ _ (obj_load _ _ _ Hobj)) as (_ & I1 & I2 & I3 & I4 & I5 & I6).
  destruct (cp_immediate _ _ _ _ _ _ Hcp) as (J1 & J2 & J3 & J4 & J5 & J6).
  constructor.
  - intros f. pose proof (obj_allocated _ _ _ Hobj f).
    destruct (cp_extends _ _ _ _ _ _ Hcp).
    destruct (copy_attr_cases f) as [(_ & Ef)|(_ & Ef)]; lia.
  - apply copy_separate.
  - apply contents_load; [apply copy_contents_copy | congruence ..].
Qed.

(** A method called on the copy *)
Lemma call_on_copy {A : Type} (method : SuperimposedTopology -> res (SuperimposedTopology * A))
    st' a :
  method st = Ok (st', a) ->
  exists h'', call method h' o2 = Ok (h'', a)
    /\ forall f, contents h'' o2 f = Some (field_value st' f)
                 /\ contents h'' o1 f
                    = Some (field_value (if is_removal_log f then st' else st) f).
Proof using Hobj Hcp.
  intros Hm. exists (write_back h' o2 st'). split.
  - unfold call. rewrite (obj_load _ _ _ copy_object_copy). cbn [mbind res_bind].
    rewrite Hm. reflexivity.
  - intros f. split; [apply write_back_contents, copy_separate|].
    destruct (copy_attr_cases f) as [(Lf & Ef)|(Lf & Ef)]; rewrite Lf.
    + unfold contents. rewrite <- Ef. apply write_back_contents, copy_separate.
    + unfold contents. rewrite write_back_elsewhere; [apply copy_contents_original|].
      intros g E. pose proof (obj_allocated _ _ _ Hobj f) as Hf.
      destruct (copy_attr_cases g) as [(Lg & Eg)|(Lg & Eg)]; [|lia].
      rewrite Eg in E. apply (obj_separate _ _ _ Hobj) in E. congruence.
Qed.

(** A method called on the original *)
Lemma call_on_original {A : Type}
    (method : SuperimposedTopology -> res (SuperimposedTopology * A)) st' a :
  method st = Ok (st', a) ->
  exists h'', call method h' o1 = Ok (h'', a)
    /\ forall f, contents h'' o1 f = Some (field_value st' f)
                 /\ contents h'' o2 f
                    = Some (field_value (if is_removal_log f then st' else st) f).
Proof using Hobj Hcp.
  intros Hm. exists (write_back h' o1 st'). split.
  - unfold call. rewrite (obj_load _ _ _ copy_object_original). cbn [mbind res_bind].
    rewrite Hm. reflexivity.
  - intros f. split; [apply write_back_contents, (obj_separate _ _ _ Hobj)|].
    destruct (copy_attr_cases f) as [(Lf & Ef)|(Lf & Ef)]; rewrite Lf.
    + unfold contents. rewrite Ef. apply write_back_contents, (obj_separate _ _ _ Hobj).
    + unfold contents. rewrite write_back_elsewhere; [apply copy_contents_copy|].
      intros g E. pose proof (obj_allocated _ _ _ Hobj g). lia.
Qed.
End CopyFacts.

Lemma object_ofb_sound h o st :
  object_ofb h o = true -> load h o = Ok st -> object_of h o st.
Proof.
  unfold object_ofb. intros Hb Hl.
  apply andb_prop in Hb as (Hb & _). apply andb_prop in Hb as (Ha & Hs).
  rewrite forallb_forall in Ha, Hs.
  constructor; [| | exact Hl].
  - intros f. apply Nat.ltb_lt, Ha, in_all_fields.
  - intros f g E. specialize (Hs f (in_all_fields f)).
    rewrite forallb_forall in Hs. specialize (Hs g (in_all_fields g)).
    rewrite E, Nat.eqb_refl in Hs. simpl in Hs. now apply bool_decide_eq_true in Hs.
Qed.

(** C10: the shallow copy of a topology gives the copy containers of its
    own for [matched_pairs], [nodes], [nodes_added_log], [mirrors],
    [alternative_mappings] and the bond adjacency, with the contents of the
    original's, and lets it refer to the same five removal-reason logs as
    the original.  After [st2 = copy(st1)], what a method called on either
    object leaves in the five logs is in the logs of both objects, and what
    it leaves in the six other containers is in the containers of that
    object only. *)
Theorem copy_shares_removal_logs h o1 st :
  object_of h o1 st ->
  exists h' o2,
    __copy__ h o1 = Ok (h', o2)
    /\ object_of h' o1 st /\ object_of h' o2 st
    /\ (forall f, is_removal_log f = true -> attr o2 f = attr o1 f)
    /\ (forall f, is_removal_log f = false ->
          (next_loc h <= attr o2 f)%nat /\ forall g, attr o2 f <> attr o1 g)
    /\ forall (A : Type) (method : SuperimposedTopology -> res (SuperimposedTopology * A))
              st' a,
         method st = Ok (st', a) ->
         (exists h'', call method h' o2 = Ok (h'', a)
            /\ forall f, contents h'' o2 f = Some (field_value st' f)
                         /\ contents h'' o1 f
                            = Some (field_value (if is_removal_log f then st' else st) f))
         /\ (exists h'', call method h' o1 = Ok (h'', a)
            /\ forall f, contents h'' o1 f = Some (field_value st' f)
                         /\ contents h'' o2 f
                            = Some (field_value (if is_removal_log f then st' else st) f)).
Proof.
  intros Hobj. destruct (copy_result h o1 st Hobj) as (h' & o2 & Hcopy & Hcp).
  exists h', o2. split; [exact Hcopy|].
  split; [eapply copy_object_original; eauto|].
  split; [eapply copy_object_copy; eauto|].
  split; [|split].
  - intros f Hf. destruct (copy_attr_cases _ _ _ _ _ Hcp f) as [(_ & E)|(E & _)]; congruence.
  - intros f Hf. destruct (copy_attr_cases _ _ _ _ _ Hcp f) as [(E & _)|(_ & E)]; [congruence|].
    split; [lia|]. intros g Hg. pose proof (obj_allocated _ _ _ Hobj g). lia.
  - intros A method st' a Hm. split.
    + eapply call_on_copy; eauto.
    + eapply call_on_original; eauto.
Qed.

Lemma copy_shares_removal_logs_witness :
  object_of Shared.h1 Shared.o1 Charges.st
  /\ exists h' o2,
       __copy__ Shared.h1 Shared.o1 = Ok (h', o2)
       /\ object_of h' Shared.o1 Charges.st /\ object_of h' o2 Charges.st
       /\ (forall f, is_removal_log f = true -> attr o2 f = attr Shared.o1 f)
       /\ (forall f, is_removal_log f = false ->
             (next_loc Shared.h1 <= attr o2 f)%nat
             /\ forall g, attr o2 f <> attr Shared.o1 g)
       /\ forall (A : Type) (method : SuperimposedTopology -> res (SuperimposedTopology * A))
                 st' a,
            method Charges.st = Ok (st', a) ->
            (exists h'', call method h' o2 = Ok (h'', a)
               /\ forall f, contents h'' o2 f = Some (field_value st' f)
                            /\ contents h'' Shared.o1 f
                               = Some (field_value
                                         (if is_removal_log f then st' else Charges.st) f))
            /\ (exists h'', call method h' Shared.o1 = Ok (h'', a)
               /\ forall f, contents h'' Shared.o1 f = Some (field_value st' f)
                            /\ contents h'' o2 f
                               = Some (field_value
                                         (if is_removal_log f then st' else Charges.st) f)).
Proof.
  assert (H : object_of Shared.h1 Shared.o1 Charges.st).
  { apply object_ofb_sound; vm_compute; reflexivity. }
  split; [exact H | exact (copy_shares_removal_logs Shared.h1 Shared.o1 Charges.st H)].
Defined.

(** ** The orchestrator *)

Lemma res_bind_ok {A B : Type} (a : A) (k : A -> res B) : (Ok a ≫= k) = k a.
Proof. reflexivity. Qed.

Lemma res_bind_raise {A B : Type} (e : exn) (k : A -> res B) : (Raise e ≫= k) = Raise e.
Proof. reflexivity. Qed.

Lemma lift_bind_outcome {A B : Type} (r : res A) (k : A -> run B) :
  outcome (lift r ≫= k) = match r with Ok a => outcome (k a) | Raise e => Raise e end.
Proof. destruct r; reflexivity. Qed.


Lemma run_bind_raise {A B : Type} (m : run A) (k : A -> run B) e :
  outcome m = Raise e -> outcome (m ≫= k) = Raise e /\ trace (m ≫= k) = trace m.
Proof. intros H. unfold mbind, run_bind. rewrite H. split; reflexivity. Qed.

Lemma run_bind_ok {A B : Type} (m : run A) (k : A -> run B) a :
  outcome m = Ok a ->
  outcome (m ≫= k) = outcome (k a) /\ trace (m ≫= k) = trace m ++ trace (k a).
Proof. intros H. unfold mbind, run_bind. rewrite H. split; reflexivity. Qed.

Section OrchestratorFacts.
Variable bonds : AtomNode -> list (AtomNode * bond).
Variable cycle_basis : Graph -> list (list AtomNode).
Variable resolve_combinations : list solutions -> res SuperimposedTopology.
Variable get_starting_configurations : list AtomNode -> list AtomNode -> list pair.
Variable accept_candidate :
  SuperimposedTopology -> list SuperimposedTopology -> res (list SuperimposedTopology).
Variable align_ligands_using_matched : SuperimposedTopology -> bool -> res Q.
Variable align_mirror : nat -> res Q.
Variable match_cccd_to_cdcc : list SuperimposedTopology -> res (list SuperimposedTopology).
Variable largest_cc_survives : SuperimposedTopology -> res SuperimposedTopology.
Variable redistribute_charges : SuperimposedTopology -> res SuperimposedTopology.
Variable assign_atoms_ids : SuperimposedTopology -> nat -> res (SuperimposedTopology * nat).
Variable rmsd : SuperimposedTopology -> res Q.
Variable fuel : nat.

Local Abbreviation search := (search_and_filter bonds cycle_basis resolve_combinations
  get_starting_configurations accept_candidate align_ligands_using_matched
  match_cccd_to_cdcc largest_cc_survives fuel).
Local Abbreviation orchestrator := (superimpose_topologies bonds cycle_basis resolve_combinations
  get_starting_configurations accept_candidate align_ligands_using_matched align_mirror
  match_cccd_to_cdcc largest_cc_survives redistribute_charges assign_atoms_ids rmsd fuel).

(** With no seed that matches, the search ends with no topology. *)
Lemma search_without_match cfg top1_nodes top2_nodes :
  no_seed_matches bonds cycle_basis resolve_combinations get_starting_configurations fuel
                  cfg top1_nodes top2_nodes = true ->
  _superimpose_topologies bonds cycle_basis resolve_combinations get_starting_configurations
    accept_candidate fuel top1_nodes top2_nodes (starting_node_pairs cfg)
    (cfg_left_coords_are_ref cfg) (use_general_type_ cfg) (starting_pairs_heuristics cfg)
  = Ok [].
Proof.
  unfold no_seed_matches, _superimpose_topologies. intros H.
  match goal with
  | |- (foldM ?f ?l [] ≫= _) = _ => assert (E : foldM f l [] = Ok [])
  end.
  { induction (seed_pairs get_starting_configurations top1_nodes top2_nodes
                 (starting_node_pairs cfg) (starting_pairs_heuristics cfg))
      as [|seed seeds IH]; [reflexivity|].
    simpl in H. apply andb_prop in H as (Hseed & Hseeds). simpl.
    destruct (seed_candidate bonds cycle_basis resolve_combinations fuel top1_nodes
                top2_nodes (cfg_left_coords_are_ref cfg) (use_general_type_ cfg) seed)
      as [[c|]|e]; [| |discriminate Hseed].
    - simpl. rewrite Hseed. simpl. exact (IH Hseeds).
    - simpl. exact (IH Hseeds). }
  rewrite E. reflexivity.
Qed.

(** C1, as amended: when no seed pair yields a non-empty topology,
    [superimpose_topologies] does not return an empty sequence: it fails
    with an exception.  When the checks of the total charges and of the atom
    names pass, the exception is the one of lines 2517-2519,
    [Exception('Error: Did not find a single superimposition state. ...')]. *)
Theorem superimpose_topologies_no_state cfg top1_nodes top2_nodes :
  no_seed_matches bonds cycle_basis resolve_combinations get_starting_configurations fuel
                  cfg top1_nodes top2_nodes = true ->
  (exists e, outcome (orchestrator cfg top1_nodes top2_nodes) = Raise e)
  /\ (inputs_accepted cfg top1_nodes top2_nodes = true ->
      outcome (orchestrator cfg top1_nodes top2_nodes) = Raise (Exception_ no_state_message)).
Proof.
  intros H. apply search_without_match in H.
  assert (Hs : (exists e, outcome (search cfg top1_nodes top2_nodes) = Raise e)
               /\ (inputs_accepted cfg top1_nodes top2_nodes = true ->
                   outcome (search cfg top1_nodes top2_nodes)
                   = Raise (Exception_ no_state_message))).
  { unfold search_and_filter, inputs_accepted.
    rewrite lift_bind_outcome.
    destruct (ignore_charges_completely cfg); cbn [negb orb andb].
    - rewrite lift_bind_outcome.
      destruct (check_atom_names_unique cfg); cbn [negb orb andb].
      + destruct (length _ =? 0)%nat; cbn [py_assert].
        * rewrite lift_bind_outcome, H. cbn [negb].
          rewrite lift_bind_outcome. eauto.
        * split; [eauto|discriminate].
      + rewrite lift_bind_outcome, H. cbn [negb].
        rewrite lift_bind_outcome. eauto.
    - destruct (validate_charges top1_nodes top2_nodes) as [z|e].
      + rewrite res_bind_ok.
        rewrite lift_bind_outcome.
        destruct (check_atom_names_unique cfg); cbn [negb orb andb].
        * destruct (length _ =? 0)%nat; cbn [py_assert].
          -- rewrite lift_bind_outcome, H. cbn [negb].
             rewrite lift_bind_outcome. eauto.
          -- split; [eauto|discriminate].
        * rewrite lift_bind_outcome, H. cbn [negb].
          rewrite lift_bind_outcome. eauto.
      + rewrite res_bind_raise. split; [eauto|discriminate]. }
  destruct Hs as ((e & He) & Hm).
  unfold superimpose_topologies.
  destruct (run_bind_raise _ (fun suptops =>
              suptops ← redistribute_step redistribute_charges cfg suptops;
              finish align_ligands_using_matched align_mirror assign_atoms_ids rmsd
                     cfg top1_nodes top2_nodes suptops) e He) as (Ho & _).
  split; [exists e; exact Ho|].
  intros Hin. specialize (Hm Hin). rewrite Hm in He. inversion He; subst. exact Ho.
Qed.
End OrchestratorFacts.

Lemma superimpose_topologies_no_state_witness :
  no_seed_matches Unrelated.bonds Unrelated.cycle_basis (fun _ => Unrelated.unreached)
                  (fun _ _ => []) 4 Unrelated.cfg Unrelated.L Unrelated.R = true
  /\ (exists e, outcome Unrelated.run_superimpose_topologies = Raise e)
  /\ (inputs_accepted Unrelated.cfg Unrelated.L Unrelated.R = true ->
      outcome Unrelated.run_superimpose_topologies = Raise (Exception_ no_state_message)).
Proof.
  split; [vm_compute; reflexivity|].
  apply (superimpose_topologies_no_state Unrelated.bonds Unrelated.cycle_basis
           (fun _ => Unrelated.unreached) (fun _ _ => [])).
  vm_compute. reflexivity.
Defined.

(** C1, as stated, fails: for a carbon on the left and a nitrogen on the
    right, with every pair of atoms as a seed, no seed yields a topology,
    both checks on the input pass, and the orchestrator ends with the
    exception of lines 2517-2519 instead of returning the empty list. *)
Lemma superimpose_topologies_counterexample :
  no_seed_matches Unrelated.bonds Unrelated.cycle_basis (fun _ => Unrelated.unreached)
                  (fun _ _ => []) 4 Unrelated.cfg Unrelated.L Unrelated.R = true
  /\ inputs_accepted Unrelated.cfg Unrelated.L Unrelated.R = true
  /\ outcome Unrelated.run_superimpose_topologies = Raise (Exception_ no_state_message)
  /\ outcome Unrelated.run_superimpose_topologies <> Ok [].
Proof.
  split; [vm_compute; reflexivity|]. split; [vm_compute; reflexivity|].
  split; [vm_compute; reflexivity|]. vm_compute. discriminate.
Qed.

(** *** Where [redistribute_charges] is called *)

Lemma redistribute_calls_app t1 t2 :
  redistribute_calls (t1 ++ t2) = redistribute_calls t1 ++ redistribute_calls t2.
Proof. unfold redistribute_calls. apply flat_map_app. Qed.

Lemma bind_quiet {A B : Type} (m : run A) (k : A -> run B) :
  redistribute_calls (trace m) = [] ->
  (forall a, outcome m = Ok a -> redistribute_calls (trace (k a)) = []) ->
  redistribute_calls (trace (m ≫= k)) = [].
Proof.
  intros Hm Hk. unfold mbind, run_bind.
  destruct (outcome m) as [a|e] eqn:E; cbn [trace]; [|exact Hm].
  rewrite redistribute_calls_app, Hm, (Hk a eq_refl). reflexivity.
Qed.

Lemma for_each_quiet {A B : Type} (f : B -> A -> run B) l acc :
  (forall acc x, redistribute_calls (trace (f acc x)) = []) ->
  redistribute_calls (trace (for_each f l acc)) = [].
Proof.
  intros Hf. revert acc. induction l as [|x l IH]; intros acc; [reflexivity|].
  cbn [for_each]. apply bind_quiet; [apply Hf | intros acc' _; apply IH].
Qed.

(** Walks through a run made of binds, loops and branches *)
Ltac quiet :=
  repeat first
    [ reflexivity
    | apply bind_quiet; [| intros ? _]
    | apply for_each_quiet; intros
    | progress cbv zeta
    | match goal with
      | |- context [if ?b then _ else _] => destruct b
      | |- context [match ?x with _ => _ end] => destruct x
      end ].

Section RedistributionFacts.
Variable bonds : AtomNode -> list (AtomNode * bond).
Variable cycle_basis : Graph -> list (list AtomNode).
Variable resolve_combinations : list solutions -> res SuperimposedTopology.
Variable get_starting_configurations : list AtomNode -> list AtomNode -> list pair.
Variable accept_candidate :
  SuperimposedTopology -> list SuperimposedTopology -> res (list SuperimposedTopology).
Variable align_ligands_using_matched : SuperimposedTopology -> bool -> res Q.
Variable align_mirror : nat -> res Q.
Variable match_cccd_to_cdcc : list SuperimposedTopology -> res (list SuperimposedTopology).
Variable largest_cc_survives : SuperimposedTopology -> res SuperimposedTopology.
Variable redistribute_charges : SuperimposedTopology -> res SuperimposedTopology.
Variable assign_atoms_ids : SuperimposedTopology -> nat -> res (SuperimposedTopology * nat).
Variable rmsd : SuperimposedTopology -> res Q.
Variable fuel : nat.

Local Abbreviation search := (search_and_filter bonds cycle_basis resolve_combinations
  get_starting_configurations accept_candidate align_ligands_using_matched
  match_cccd_to_cdcc largest_cc_survives fuel).
Local Abbreviation orchestrator := (superimpose_topologies bonds cycle_basis
  resolve_combinations get_starting_configurations accept_candidate
  align_ligands_using_matched align_mirror match_cccd_to_cdcc largest_cc_survives
  redistribute_charges assign_atoms_ids rmsd fuel).

Lemma search_and_filter_quiet cfg top1_nodes top2_nodes :
  redistribute_calls (trace (search cfg top1_nodes top2_nodes)) = [].
Proof. unfold search_and_filter. quiet. Qed.

Lemma finish_quiet cfg top1_nodes top2_nodes suptops :
  redistribute_calls
    (trace (finish align_ligands_using_matched align_mirror assign_atoms_ids rmsd
                   cfg top1_nodes top2_nodes suptops)) = [].
Proof. unfold finish. quiet. Qed.
(** C5, as amended: the orchestrator calls [redistribute_charges] exactly
    when [redistribute_charges_over_unmatched] is enabled,
    [ignore_charges_completely] is off, [disjoint_components] is true (the
    condition of line 2647) and the search and the filters end with exactly
    one topology; it then calls it once, on that topology.  With
    [disjoint_components] false it never calls it. *)
Theorem redistribute_charges_invoked cfg top1_nodes top2_nodes :
  redistribute_calls (trace (orchestrator cfg top1_nodes top2_nodes))
  = match outcome (search cfg top1_nodes top2_nodes) with
    | Ok [st] =>
        if redistribute_charges_over_unmatched cfg && negb (ignore_charges_completely cfg)
           && disjoint_components cfg
        then [st] else []
    | _ => []
    end.
Proof.
  unfold superimpose_topologies.
  pose proof (search_and_filter_quiet cfg top1_nodes top2_nodes) as Hq.
  destruct (outcome (search cfg top1_nodes top2_nodes)) as [suptops|e] eqn:E.
  - match goal with
    | |- redistribute_calls (trace (_ ≫= ?k)) = _ =>
        destruct (run_bind_ok _ k suptops E) as (_ & Ht)
    end.
    rewrite Ht, redistribute_calls_app, Hq. cbn [app].
    unfold redistribute_step.
    destruct (redistribute_charges_over_unmatched cfg && negb (ignore_charges_completely cfg)
              && disjoint_components cfg).
    + destruct suptops as [|st [|st2 rest]]; [reflexivity| |reflexivity].
      unfold mbind, run_bind, calling. cbn [outcome trace].
      destruct (redistribute_charges st) as [st'|e'];
        cbn [outcome trace mret run_ret]; [|reflexivity].
      rewrite !redistribute_calls_app, finish_quiet. reflexivity.
    + assert (Hf : forall l, redistribute_calls
                (trace (mret l ≫= finish align_ligands_using_matched align_mirror
                                   assign_atoms_ids rmsd cfg top1_nodes top2_nodes)) = []).
      { intros l. apply bind_quiet; [reflexivity|]. intros a _. apply finish_quiet. }
      rewrite Hf. destruct suptops as [|st [|st2 rest]]; reflexivity.
  - match goal with
    | |- redistribute_calls (trace (_ ≫= ?k)) = _ =>
        destruct (run_bind_raise _ k e E) as (_ & Ht)
    end.
    rewrite Ht. exact Hq.
Qed.
End RedistributionFacts.

(** C5, as stated, fails in both directions on the chains C1-N1 and
    C11-N11: with [redistribute_charges_over_unmatched] enabled and
    [disjoint_components] false the orchestrator returns its one topology
    without a call of [redistribute_charges]; with [disjoint_components]
    true it makes the call, on that topology. *)
Lemma redistribute_charges_counterexample :
  redistribute_charges_over_unmatched (Redistribution.cfg false) = true
  /\ disjoint_components (Redistribution.cfg false) = false
  /\ (exists st, outcome (Redistribution.run_superimpose_topologies false) = Ok [st]
                 /\ matched_pairs st = [(Chain.C1, Chain.C11); (Chain.N1, Chain.N11)])
  /\ redistribute_calls (trace (Redistribution.run_superimpose_topologies false)) = []
  /\ disjoint_components (Redistribution.cfg true) = true
  /\ (exists st, outcome (Redistribution.run_superimpose_topologies true) = Ok [st]
                 /\ redistribute_calls
                      (trace (Redistribution.run_superimpose_topologies true)) = [st]).
Proof.
  split; [reflexivity|]. split; [reflexivity|].
  split; [eexists; split; vm_compute; reflexivity|].
  split; [vm_compute; reflexivity|]. split; [reflexivity|].
  eexists; split; vm_compute; reflexivity.
Qed.

(** * Further properties of the bookkeeping *)

(** ** [add_node_pair] *)

Lemma dict_set_fresh {K V : Type} (eqb : K -> K -> bool)
    (eqb_eq : forall x y, eqb x y = true <-> x = y) k (v : V) (d : list (K * V)) :
  ~ In k (map fst d) -> dict_set eqb k v d = d ++ [(k, v)].
Proof.
  induction d as [|[k0 v0] d IH]; simpl; intros H; [reflexivity|].
  destruct (eqb k0 k) eqn:E.
  - apply eqb_eq in E. subst. exfalso. apply H. now left.
  - rewrite IH; [reflexivity|]. intros Hin. apply H. now right.
Qed.

Lemma set_add_fresh {A : Type} (eqb : A -> A -> bool)
    (eqb_eq : forall x y, eqb x y = true <-> x = y) x (s : list A) :
  ~ In x s -> set_add eqb x s = s ++ [x].
Proof.
  intros H. unfold set_add. now rewrite (proj2 (py_in_not_In eqb eqb_eq x s) H).
Qed.

Lemma set_add_present {A : Type} (eqb : A -> A -> bool)
    (eqb_eq : forall x y, eqb x y = true <-> x = y) x (s : list A) :
  In x s -> set_add eqb x s = s.
Proof.
  intros H. unfold set_add. now rewrite (proj2 (py_in_In eqb eqb_eq x s) H).
Qed.

(** The atoms of the pairs of a well-formed topology, left ones first, are
    the nodes, each once. *)
Lemma wf_atoms_NoDup st :
  st_wf st -> List.NoDup (map fst (matched_pairs st) ++ map snd (matched_pairs st)).
Proof.
  intros Hwf. apply List.NoDup_app; [apply (wf_left _ Hwf) | apply (wf_right _ Hwf) |].
  intros a Ha Hb. apply in_map_iff in Ha. destruct Ha as (p & <- & Hp).
  apply in_map_iff in Hb. destruct Hb as (q & E & Hq).
  apply (wf_sides _ Hwf p q Hp Hq). now symmetry.
Qed.

Lemma wf_nodes_length st :
  st_wf st -> (length (matched_pairs st) * 2 = length (nodes st))%nat.
Proof.
  intros Hwf.
  assert (P : Permutation (nodes st)
                (map fst (matched_pairs st) ++ map snd (matched_pairs st))).
  { apply NoDup_Permutation; [apply (wf_nodes_NoDup _ Hwf) | now apply wf_atoms_NoDup |].
    intros a. rewrite (wf_nodes _ Hwf), in_app_iff, !in_map_iff. split.
    - intros (p & Hp & [->| ->]); [left|right]; eauto.
    - intros [(p & <- & Hp)|(p & <- & Hp)]; eauto. }
  rewrite (Permutation_length P), length_app, !length_map. unfold pair. lia.
Qed.

(** X1: a call of [add_node_pair] that fails fails by an assertion; the
    exception [Exception('already exists')] of its second check is never
    raised, because the assertion before it covers the same case. *)
Theorem add_node_pair_fails_by_assertion st p e :
  add_node_pair st p = Raise e -> e = AssertionError.
Proof.
  unfold add_node_pair. destruct p as [n1 n2].
  destruct (py_in pair_eqb (n1, n2) (matched_pairs st)) eqn:E1; cbn [negb py_assert].
  { rewrite res_bind_raise. now inversion 1. }
  rewrite res_bind_ok.
  match goal with
  | |- context [existsb ?f (matched_pairs st)] =>
      destruct (existsb f (matched_pairs st)) eqn:E2
  end.
  { exfalso. apply existsb_exists in E2. destruct E2 as ([a1 a2] & Hin & E2).
    simpl in E2. apply andb_true_iff in E2. destruct E2 as (Ea & Eb).
    apply atom_eqb_eq in Ea, Eb. subst.
    apply (py_in_not_In pair_eqb pair_eqb_eq) in E1. contradiction. }
  rewrite res_bind_ok.
  destruct (negb _ && negb _); cbn [py_assert]; [|rewrite res_bind_raise; now inversion 1].
  rewrite res_bind_ok.
  destruct (_ =? _)%nat; cbn [py_assert]; [|rewrite res_bind_raise; now inversion 1].
  rewrite res_bind_ok. discriminate.
Qed.

Lemma add_node_pair_fails_by_assertion_witness :
  add_node_pair Chain.one (Chain.N1, Chain.N11) = Raise AssertionError.
Proof.
  destruct (add_node_pair Chain.one (Chain.N1, Chain.N11)) as [st|e] eqn:E.
  - vm_compute in E. discriminate E.
  - f_equal. exact (add_node_pair_fails_by_assertion Chain.one (Chain.N1, Chain.N11) e E).
Defined.

(** What [add_node_pair] returns when its checks pass *)
Lemma add_node_pair_Ok st n1 n2 :
  ~ In (n1, n2) (matched_pairs st) -> ~ In n1 (nodes st) -> ~ In n2 (nodes st) -> n1 <> n2 ->
  (length (matched_pairs st) * 2 = length (nodes st))%nat ->
  add_node_pair st (n1, n2)
  = Ok (set_matched_pairs_bonds
          (set_nodes_added_log
             (set_nodes (set_matched_pairs st
                           (py_sort left_name_le (matched_pairs st ++ [(n1, n2)])))
                        (nodes st ++ [n1; n2]))
             (nodes_added_log st ++ [Added (n1, n2)]))
          (dict_set pair_eqb (n1, n2) [] (matched_pairs_bonds st))).
Proof.
  intros Hp H1 H2 Hne Hlen. unfold add_node_pair.
  rewrite (proj2 (py_in_not_In pair_eqb pair_eqb_eq _ _) Hp). cbn [negb py_assert].
  rewrite res_bind_ok.
  match goal with
  | |- context [existsb ?f (matched_pairs st)] =>
      destruct (existsb f (matched_pairs st)) eqn:E2
  end.
  { exfalso. apply existsb_exists in E2. destruct E2 as ([a1 a2] & Hin & E2).
    simpl in E2. apply andb_true_iff in E2. destruct E2 as (Ea & Eb).
    apply atom_eqb_eq in Ea, Eb. subst. contradiction. }
  rewrite res_bind_ok.
  rewrite (proj2 (py_in_not_In atom_eqb atom_eqb_eq _ _) H1).
  rewrite (proj2 (py_in_not_In atom_eqb atom_eqb_eq _ _) H2). cbn [negb andb py_assert].
  rewrite res_bind_ok.
  rewrite (set_add_fresh atom_eqb atom_eqb_eq n1 _ H1).
  rewrite (set_add_fresh atom_eqb atom_eqb_eq n2).
  2:{ rewrite in_app_iff. simpl. intros [H|[H|[]]]; [contradiction | now apply Hne]. }
  rewrite <- app_assoc. cbn [app].
  match goal with
  | |- context [py_assert ?b] => assert (E : b = true)
  end.
  { apply Nat.eqb_eq.
    rewrite (Permutation_length (py_sort_perm left_name_le _)), !length_app. simpl.
    unfold pair in *. lia. }
  rewrite E. cbn [py_assert]. rewrite res_bind_ok. reflexivity.
Qed.

(** What [add_node_pair] does to a well-formed topology *)
Lemma add_node_pair_keeps_wf st n1 n2 :
  st_wf st -> n1 <> n2 -> ~ In n1 (nodes st) -> ~ In n2 (nodes st) ->
  exists st',
    add_node_pair st (n1, n2) = Ok st'
    /\ st_wf st'
    /\ Permutation (matched_pairs st') ((n1, n2) :: matched_pairs st)
    /\ nodes st' = nodes st ++ [n1; n2]
    /\ matched_pairs_bonds st' = matched_pairs_bonds st ++ [((n1, n2), [])].
Proof.
  intros Hwf Hne H1 H2.
  assert (Hp : ~ In (n1, n2) (matched_pairs st)).
  { intros Hin. apply H1. apply (wf_nodes _ Hwf). exists (n1, n2). auto. }
  assert (Hk : ~ In (n1, n2) (map fst (matched_pairs_bonds st))).
  { intros Hin. apply Hp. now apply (wf_keys _ Hwf). }
  assert (Hf : forall p, In p (matched_pairs st) -> fst p <> n1 /\ snd p <> n1
                                                   /\ fst p <> n2 /\ snd p <> n2).
  { intros p Hin. repeat split; intros E; [apply H1|apply H1|apply H2|apply H2];
      apply (wf_nodes _ Hwf); exists p; auto. }
  assert (P : Permutation (py_sort left_name_le (matched_pairs st ++ [(n1, n2)]))
                          ((n1, n2) :: matched_pairs st)).
  { etransitivity; [apply py_sort_perm|]. symmetry. apply Permutation_cons_append. }
  assert (Hin' : forall p, In p (py_sort left_name_le (matched_pairs st ++ [(n1, n2)]))
                           <-> p = (n1, n2) \/ In p (matched_pairs st)).
  { intros p. split.
    - intros H. apply (Permutation_in _ P) in H. destruct H as [<-|H]; auto.
    - intros H. apply (Permutation_in _ (Permutation_sym P)).
      destruct H as [->|H]; [now left | now right]. }
  eexists. split; [apply add_node_pair_Ok; auto; apply (wf_nodes_length _ Hwf)|].
  rewrite (dict_set_fresh pair_eqb pair_eqb_eq _ _ _ Hk).
  split; [|split; [exact P | split; reflexivity]].
  destruct Hwf as [Hl Hr Hsides Hnn Hnodes Hkn Hkeys Han Hadj].
  constructor; cbn.
  + apply (Permutation_NoDup (Permutation_sym (Permutation_map fst P))). cbn.
    constructor; [|exact Hl]. intros Hin. apply in_map_iff in Hin.
    destruct Hin as (p & E & Hin). destruct (Hf p Hin) as (? & ? & ? & ?). congruence.
  + apply (Permutation_NoDup (Permutation_sym (Permutation_map snd P))). cbn.
    constructor; [|exact Hr]. intros Hin. apply in_map_iff in Hin.
    destruct Hin as (p & E & Hin). destruct (Hf p Hin) as (? & ? & ? & ?). congruence.
  + intros p q Hp' Hq'. apply Hin' in Hp', Hq'.
    destruct Hp' as [->|Hp'], Hq' as [->|Hq']; cbn.
    * exact Hne.
    * intros E. destruct (Hf q Hq') as (? & ? & ? & ?). congruence.
    * intros E. destruct (Hf p Hp') as (? & ? & ? & ?). congruence.
    * now apply Hsides.
  + apply List.NoDup_app; [exact Hnn | |].
    * constructor; [|constructor; [intros []|constructor]].
      intros [E|[]]. now apply Hne.
    * intros a Ha [<-|[<-|[]]]; contradiction.
  + intros a. rewrite in_app_iff. cbn. rewrite Hnodes. split.
    * intros [(p & Hp' & E)|[<-|[<-|[]]]].
      -- exists p. split; [apply Hin'; now right | exact E].
      -- exists (n1, n2). split; [apply Hin'; now left | now left].
      -- exists (n1, n2). split; [apply Hin'; now left | now right].
    * intros (p & Hp' & E). apply Hin' in Hp'. destruct Hp' as [->|Hp'].
      -- cbn in E. destruct E as [->| ->]; auto.
      -- left. eauto.
  + rewrite map_app. cbn. apply List.NoDup_app; [exact Hkn | |].
    * constructor; [intros []|constructor].
    * intros p Hp' [<-|[]]. contradiction.
  + intros p. rewrite map_app, in_app_iff, Hin', Hkeys. cbn. intuition.
  + intros p s Hin. apply in_app_iff in Hin. destruct Hin as [Hin|[E|[]]].
    * eapply Han; eauto.
    * inversion E; subst. constructor.
  + intros p s q bt Hin Hq. apply in_app_iff in Hin. destruct Hin as [Hin|[E|[]]].
    * destruct (Hadj p s q bt Hin Hq) as (Hne' & s' & Hs' & Hps').
      split; [exact Hne'|]. exists s'. split; [apply in_app_iff; now left | exact Hps'].
    * inversion E; subst. destruct Hq.
Qed.

(** X2: on a well-formed topology [add_node_pair((n1, n2))] succeeds exactly
    when the two atoms differ and neither is a node of the topology; it
    then keeps the topology well-formed, puts the pair among the matched
    pairs, the atoms last in [nodes] and an empty bond set under the pair.
    In every other case it fails by an assertion. *)
Theorem add_node_pair_wf st n1 n2 :
  st_wf st ->
  (n1 <> n2 /\ ~ In n1 (nodes st) /\ ~ In n2 (nodes st) ->
   exists st',
     add_node_pair st (n1, n2) = Ok st'
     /\ st_wf st'
     /\ Permutation (matched_pairs st') ((n1, n2) :: matched_pairs st)
     /\ nodes st' = nodes st ++ [n1; n2]
     /\ matched_pairs_bonds st' = matched_pairs_bonds st ++ [((n1, n2), [])])
  /\ (~ (n1 <> n2 /\ ~ In n1 (nodes st) /\ ~ In n2 (nodes st)) ->
      add_node_pair st (n1, n2) = Raise AssertionError).
Proof.
  intros Hwf. split.
  - intros (Hne & H1 & H2). now apply add_node_pair_keeps_wf.
  - intros Hc. unfold add_node_pair.
    destruct (py_in pair_eqb (n1, n2) (matched_pairs st)) eqn:E1; cbn [negb py_assert];
      [reflexivity|].
    rewrite res_bind_ok.
    apply (py_in_not_In pair_eqb pair_eqb_eq) in E1.
    match goal with
    | |- context [existsb ?f (matched_pairs st)] =>
        destruct (existsb f (matched_pairs st)) eqn:E2
    end.
    { exfalso. apply existsb_exists in E2. destruct E2 as ([a1 a2] & Hin & E2).
      simpl in E2. apply andb_true_iff in E2. destruct E2 as (Ea & Eb).
      apply atom_eqb_eq in Ea, Eb. subst. contradiction. }
    rewrite res_bind_ok.
    destruct (py_in atom_eqb n1 (nodes st)) eqn:F1; cbn [negb andb py_assert]; [reflexivity|].
    destruct (py_in atom_eqb n2 (nodes st)) eqn:F2; cbn [negb andb py_assert]; [reflexivity|].
    rewrite res_bind_ok.
    apply (py_in_not_In atom_eqb atom_eqb_eq) in F1, F2.
    destruct (AtomNode_eq_dec n1 n2) as [->|Hne]; [|exfalso; apply Hc; auto].
    rewrite (set_add_fresh atom_eqb atom_eqb_eq n2 _ F2).
    rewrite (set_add_present atom_eqb atom_eqb_eq n2 (nodes st ++ [n2])).
    2:{ apply in_app_iff. right. now left. }
    match goal with
    | |- context [py_assert ?b] => assert (E : b = false)
    end.
    { apply Nat.eqb_neq.
      rewrite (Permutation_length (py_sort_perm left_name_le _)), !length_app. simpl.
      pose proof (wf_nodes_length _ Hwf). unfold pair in *. lia. }
    rewrite E. reflexivity.
Qed.

Lemma add_node_pair_wf_witness :
  st_wf Chain.one
  /\ exists st',
       add_node_pair Chain.one (Chain.C1, Chain.C11) = Ok st'
       /\ st_wf st'
       /\ Permutation (matched_pairs st') ((Chain.C1, Chain.C11) :: matched_pairs Chain.one)
       /\ nodes st' = nodes Chain.one ++ [Chain.C1; Chain.C11]
       /\ matched_pairs_bonds st'
          = matched_pairs_bonds Chain.one ++ [((Chain.C1, Chain.C11), [])].
Proof.
  assert (Hwf : st_wf Chain.one) by (apply st_wfb_sound; vm_compute; reflexivity).
  split; [exact Hwf|].
  apply (proj1 (add_node_pair_wf Chain.one Chain.C1 Chain.C11 Hwf)).
  split; [discriminate|].
  split; apply (py_in_not_In atom_eqb atom_eqb_eq); vm_compute; reflexivity.
Defined.

(** ** Adding a pair and removing it again *)

Section SortedInsert.
Context {A : Type} (le eqb : A -> A -> bool).
Hypothesis eqb_eq : forall x y, eqb x y = true <-> x = y.

Lemma sort_insert_filter p x l :
  x <> p -> (forall y, In y l -> y <> p -> le x y = true) ->
  List.filter (fun q => negb (eqb q p)) (sort_insert le x l)
  = x :: List.filter (fun q => negb (eqb q p)) l.
Proof using eqb_eq.
  intros Hx. induction l as [|y l IH]; intros Hle; simpl.
  - now rewrite (proj2 (eqb_neq eqb eqb_eq x p) Hx).
  - destruct (le x y) eqn:E; simpl.
    + now rewrite (proj2 (eqb_neq eqb eqb_eq x p) Hx).
    + destruct (eqb y p) eqn:Ey; simpl.
      * apply IH. intros z Hz. apply Hle. now right.
      * exfalso. apply (eqb_neq eqb eqb_eq) in Ey.
        rewrite (Hle y (or_introl eq_refl) Ey) in E. discriminate.
Qed.

(** Appending an element to a sorted list, sorting, and dropping the
    element gives the list back. *)
Lemma py_sort_append_remove p l :
  StronglySorted (fun a b => le a b = true) l -> ~ In p l ->
  List.filter (fun q => negb (eqb q p)) (py_sort le (l ++ [p])) = l.
Proof using eqb_eq.
  unfold py_sort. rewrite fold_right_app. cbn [fold_right sort_insert].
  induction 1 as [|x l Hs IH Hall]; intros Hp; simpl.
  - now rewrite (eqb_refl' eqb eqb_eq).
  - rewrite sort_insert_filter.
    + f_equal. apply IH. intros H. apply Hp. now right.
    + intros ->. apply Hp. now left.
    + intros y Hy Hne.
      assert (Hy' : In y (p :: l)).
      { clear - Hy. induction l as [|z l IHl]; simpl in *; [exact Hy|].
        apply (Permutation_in _ (sort_insert_perm le z _)) in Hy.
        destruct Hy as [->|Hy]; [auto|]. destruct (IHl Hy); auto. }
      destruct Hy' as [->|Hy']; [contradiction|].
      rewrite Forall_forall in Hall. now apply Hall.
Qed.
End SortedInsert.

Lemma remove_node_pair_nodes st p st' :
  remove_node_pair st p = Ok st' ->
  (exists nodes1, set_remove atom_eqb (fst p) (nodes st) = Ok nodes1
                  /\ set_remove atom_eqb (snd p) nodes1 = Ok (nodes st'))
  /\ nodes_added_log st' = nodes_added_log st ++ [Removed p].
Proof.
  unfold remove_node_pair. intros Hr.
  apply bind_Ok in Hr. destruct Hr as (mp & _ & Hr).
  apply bind_Ok in Hr. destruct Hr as (nodes1 & H1 & Hr).
  apply bind_Ok in Hr. destruct Hr as (nodes2 & H2 & Hr).
  apply bind_Ok in Hr. destruct Hr as (bp & _ & Hr).
  apply bind_Ok in Hr. destruct Hr as (d & _ & Hr).
  inversion Hr; subst. simpl. split; [eauto | reflexivity].
Qed.

(** X3: on a well-formed topology with sorted pairs, adding a pair of new,
    distinct atoms and removing it again gives back the matched pairs, the
    nodes and the bond sets as they were; only the log has grown, by the
    two entries. *)
Theorem add_then_remove_node_pair st n1 n2 :
  st_wf st -> sorted_by_left_name (matched_pairs st) ->
  n1 <> n2 -> ~ In n1 (nodes st) -> ~ In n2 (nodes st) ->
  exists st1 st2,
    add_node_pair st (n1, n2) = Ok st1
    /\ remove_node_pair st1 (n1, n2) = Ok st2
    /\ matched_pairs st2 = matched_pairs st
    /\ nodes st2 = nodes st
    /\ matched_pairs_bonds st2 = matched_pairs_bonds st
    /\ nodes_added_log st2 = nodes_added_log st ++ [Added (n1, n2); Removed (n1, n2)].
Proof.
  intros Hwf Hs Hne H1 H2.
  assert (Hp : ~ In (n1, n2) (matched_pairs st)).
  { intros Hin. apply H1. apply (wf_nodes _ Hwf). exists (n1, n2). auto. }
  assert (Hk : ~ In (n1, n2) (map fst (matched_pairs_bonds st))).
  { intros Hin. apply Hp. now apply (wf_keys _ Hwf). }
  pose proof (add_node_pair_Ok st n1 n2 Hp H1 H2 Hne (wf_nodes_length _ Hwf)) as Hadd.
  destruct (add_node_pair_keeps_wf st n1 n2 Hwf Hne H1 H2)
    as (st1 & Hadd1 & Hwf1 & P & Hn1 & Hb1).
  assert (Hin1 : In (n1, n2) (matched_pairs st1)).
  { apply (Permutation_in _ (Permutation_sym P)). now left. }
  destruct (remove_node_pair_wf st1 (n1, n2) Hwf1 Hin1) as (st2 & Hrem & _ & Hm2 & Hb2).
  exists st1, st2. split; [exact Hadd1|]. split; [exact Hrem|].
  destruct (remove_node_pair_nodes _ _ _ Hrem) as ((nodes1 & Hr1 & Hr2) & Hlog).
  rewrite Hadd in Hadd1. inversion Hadd1 as [E]. clear Hadd1.
  split; [|split; [|split]].
  - rewrite Hm2, <- E. cbn.
    apply (py_sort_append_remove left_name_le pair_eqb pair_eqb_eq); assumption.
  - rewrite Hn1 in Hr1. cbn [fst snd] in Hr1, Hr2.
    rewrite set_remove_In in Hr1 by (exact atom_eqb_eq || (apply in_app_iff; right; now left)).
    inversion Hr1; subst nodes1. clear Hr1.
    rewrite set_remove_In in Hr2 by
      (exact atom_eqb_eq
       || (apply (filter_neq_In atom_eqb atom_eqb_eq); split;
           [apply in_app_iff; right; right; now left | congruence])).
    inversion Hr2 as [E2]. rewrite !filter_app. cbn.
    rewrite (eqb_refl' atom_eqb atom_eqb_eq n1).
    rewrite (proj2 (eqb_neq atom_eqb atom_eqb_eq n2 n1)) by congruence. cbn.
    rewrite (eqb_refl' atom_eqb atom_eqb_eq n2). cbn.
    rewrite app_nil_r, (filter_neq_id atom_eqb atom_eqb_eq n1 (nodes st) H1).
    apply (filter_neq_id atom_eqb atom_eqb_eq n2 (nodes st) H2).
  - rewrite Hb2, Hb1. unfold removed_bonds, dict_del. rewrite filter_app. cbn.
    rewrite (eqb_refl' pair_eqb pair_eqb_eq). cbn. rewrite app_nil_r.
    assert (Hd : forall d : list (pair * list bonded),
               incl d (matched_pairs_bonds st) ->
               map (fun kv : pair * list bonded => (fst kv, strip (n1, n2) (snd kv)))
                   (List.filter (fun kv : pair * list bonded =>
                                   negb (pair_eqb (fst kv) (n1, n2))) d) = d).
    { induction d as [|[k s] d IH]; intros Hincl; [reflexivity|].
      cbn [List.filter fst snd].
      assert (Hks : In (k, s) (matched_pairs_bonds st)) by (apply Hincl; now left).
      rewrite (proj2 (eqb_neq pair_eqb pair_eqb_eq k (n1, n2))).
      2:{ intros ->. apply Hk. apply in_map_iff. exists ((n1, n2), s). auto. }
      cbn [negb map fst snd]. rewrite IH by (intros x Hx; apply Hincl; now right).
      rewrite strip_id; [reflexivity|].
      intros bt Hbt. destruct (wf_adj _ Hwf k s (n1, n2) bt Hks Hbt) as (_ & s' & Hs' & _).
      apply Hk. apply in_map_iff. exists ((n1, n2), s'). auto. }
    apply Hd. apply incl_refl.
  - rewrite Hlog, <- E. cbn. rewrite <- app_assoc. reflexivity.
Qed.

Lemma add_then_remove_node_pair_witness :
  exists st1 st2,
    add_node_pair Chain.one (Chain.C1, Chain.C11) = Ok st1
    /\ remove_node_pair st1 (Chain.C1, Chain.C11) = Ok st2
    /\ matched_pairs st2 = matched_pairs Chain.one
    /\ nodes st2 = nodes Chain.one
    /\ matched_pairs_bonds st2 = matched_pairs_bonds Chain.one
    /\ nodes_added_log st2
       = nodes_added_log Chain.one
         ++ [Added (Chain.C1, Chain.C11); Removed (Chain.C1, Chain.C11)].
Proof.
  apply (add_then_remove_node_pair Chain.one Chain.C1 Chain.C11).
  - apply st_wfb_sound. vm_compute. reflexivity.
  - vm_compute. repeat constructor.
  - discriminate.
  - apply (py_in_not_In atom_eqb atom_eqb_eq). vm_compute. reflexivity.
  - apply (py_in_not_In atom_eqb atom_eqb_eq). vm_compute. reflexivity.
Defined.

(** ** Loops that remove pairs *)

Lemma remove_node_pair_logs st p st' :
  remove_node_pair st p = Ok st' -> same_removal_logs st st'.
Proof.
  unfold remove_node_pair. intros Hr.
  apply bind_Ok in Hr. destruct Hr as (? & _ & Hr).
  apply bind_Ok in Hr. destruct Hr as (? & _ & Hr).
  apply bind_Ok in Hr. destruct Hr as (? & _ & Hr).
  apply bind_Ok in Hr. destruct Hr as (? & _ & Hr).
  apply bind_Ok in Hr. destruct Hr as (? & _ & Hr).
  inversion Hr. repeat split.
Qed.

Lemma same_removal_logs_refl st : same_removal_logs st st.
Proof. repeat split. Qed.

Lemma same_removal_logs_trans st1 st2 st3 :
  same_removal_logs st1 st2 -> same_removal_logs st2 st3 -> same_removal_logs st1 st3.
Proof.
  intros (A1 & A2 & A3 & A4 & A5) (B1 & B2 & B3 & B4 & B5).
  repeat split; congruence.
Qed.

(** A loop over pairs of the topology that removes the pairs [f] selects *)
Lemma removal_loop (f : pair -> bool)
    (body : SuperimposedTopology -> pair -> res SuperimposedTopology) todo st :
  (forall st p, body st p = if f p then remove_node_pair st p else Ok st) ->
  st_wf st -> List.NoDup todo -> incl todo (matched_pairs st) ->
  exists st',
    foldM body todo st = Ok st'
    /\ st_wf st'
    /\ matched_pairs st'
       = List.filter (fun q => negb (py_in pair_eqb q (List.filter f todo))) (matched_pairs st)
    /\ same_removal_logs st st'.
Proof.
  intros Hbody. revert st. induction todo as [|p todo IH]; intros st Hwf Hnd Hincl.
  - exists st. simpl. split; [reflexivity|]. split; [exact Hwf|]. split.
    + symmetry. apply forallb_filter_id. apply forallb_forall. reflexivity.
    + apply same_removal_logs_refl.
  - inversion Hnd as [|? ? Hp Hnd']; subst.
    assert (Hin : In p (matched_pairs st)) by (apply Hincl; now left).
    cbn [foldM List.filter]. rewrite Hbody.
    destruct (f p) eqn:E.
    + destruct (remove_node_pair_wf st p Hwf Hin) as (st2 & Hr & Hwf2 & Hp2 & Hb2).
      rewrite Hr. rewrite res_bind_ok.
      destruct (IH st2 Hwf2 Hnd') as (st' & H1 & H2 & H3 & H4).
      { intros q Hq. rewrite Hp2.
        apply (filter_neq_In pair_eqb pair_eqb_eq). split; [apply Hincl; now right|].
        intros ->. contradiction. }
      exists st'. split; [exact H1|]. split; [exact H2|]. split.
      * rewrite H3, Hp2, filter_filter.
        apply filter_ext. intros q. simpl. now rewrite negb_orb.
      * eapply same_removal_logs_trans; [eapply remove_node_pair_logs; exact Hr | exact H4].
    + rewrite res_bind_ok.
      destruct (IH st Hwf Hnd') as (st' & H1 & H2 & H3 & H4).
      { intros q Hq. apply Hincl. now right. }
      exists st'. split; [exact H1|]. split; [exact H2|]. split; [exact H3 | exact H4].
Qed.

Lemma filter_not_in_filter_rev (f : pair -> bool) (l : list pair) :
  List.filter (fun q => negb (py_in pair_eqb q (List.filter f (rev l)))) l
  = List.filter (fun q => negb (f q)) l.
Proof.
  apply filter_ext_in. intros q Hq. f_equal.
  destruct (f q) eqn:E.
  - apply (py_in_In pair_eqb pair_eqb_eq). apply filter_In. split; [|exact E].
    now apply -> in_rev.
  - apply (py_in_not_In pair_eqb pair_eqb_eq). intros Hin. apply filter_In in Hin.
    destruct Hin as (_ & Hin). congruence.
Qed.

(** X4: on a well-formed topology [matched_atom_types_are_the_same] returns
    and keeps exactly the pairs whose left type equals the upper-cased right
    type, in their order, and the topology well-formed.  The pairs it
    removes are written to none of the five removal logs. *)
Theorem matched_atom_types_are_the_same_spec st :
  st_wf st ->
  exists st',
    matched_atom_types_are_the_same st = Ok st'
    /\ st_wf st'
    /\ matched_pairs st'
       = List.filter (fun p => same_type (fst p) (snd p)) (matched_pairs st)
    /\ same_removal_logs st st'.
Proof.
  intros Hwf.
  assert (Hnd : List.NoDup (matched_pairs st)).
  { eapply NoDup_map_inv. apply (wf_left _ Hwf). }
  destruct (removal_loop (fun p => negb (same_type (fst p) (snd p)))
              (fun st '(a1, a2) =>
                 if negb (same_type a1 a2) then remove_node_pair st (a1, a2) else Ok st)
              (rev (matched_pairs st)) st) as (st' & H1 & H2 & H3 & H4).
  - now intros st0 [a1 a2].
  - exact Hwf.
  - now apply NoDup_rev.
  - intros q Hq. now apply in_rev.
  - exists st'. split; [exact H1|]. split; [exact H2|]. split; [|exact H4].
    rewrite H3, filter_not_in_filter_rev. apply filter_ext. intros q.
    apply negb_involutive.
Qed.

Lemma matched_atom_types_are_the_same_spec_witness :
  st_wf Charges.st
  /\ exists st',
       matched_atom_types_are_the_same Charges.st = Ok st'
       /\ map (fun p => name (fst p)) (matched_pairs st') = ["C2"; "C3"]
       /\ same_removal_logs Charges.st st'.
Proof.
  assert (H : st_wf Charges.st) by (apply st_wfb_sound; vm_compute; reflexivity).
  split; [exact H|].
  destruct (matched_atom_types_are_the_same_spec Charges.st H) as (st' & H1 & _ & H2 & H3).
  exists st'. split; [exact H1|]. split; [|exact H3]. rewrite H2. vm_compute. reflexivity.
Defined.

(** ** [remove_worst_charge_match] *)

Lemma py_max_spec (l : list Q) m :
  py_max l = Ok m -> In m l /\ forall x, In x l -> (x <= m)%Q.
Proof.
  destruct l as [|x0 l]; [discriminate|]. simpl. intros H. inversion H as [E]. clear H E.
  revert x0. induction l as [|y l IH]; intros x0; simpl.
  - split; [now left|]. intros x [<-|[]]. apply Qle_refl.
  - destruct (Qlt_le_dec x0 y) as [Hlt|Hle].
    + destruct (IH y) as (Hin & Hmax). split.
      * destruct Hin as [E|Hin]; [right; left; exact E | right; right; exact Hin].
      * intros x [<-|[<-|Hx]].
        -- eapply Qle_trans; [apply Qlt_le_weak; exact Hlt | apply Hmax; now left].
        -- apply Hmax. now left.
        -- apply Hmax. now right.
    + destruct (IH x0) as (Hin & Hmax). split.
      * destruct Hin as [E|Hin]; [left; exact E | right; right; exact Hin].
      * intros x [<-|[<-|Hx]].
        -- apply Hmax. now left.
        -- eapply Qle_trans; [exact Hle | apply Hmax; now left].
        -- apply Hmax. now right.
Qed.

(** X5: [remove_worst_charge_match] raises [ValueError] on a topology
    without pairs.  On a well-formed topology with pairs it returns the
    largest |dq| over the matched pairs: when that is 0 it changes nothing,
    and otherwise it removes the first pair with that |dq|, and no other,
    and appends the pair with the number to [_removed_due_to_net_charge]. *)
Theorem remove_worst_charge_match_spec st :
  (matched_pairs st = [] -> remove_worst_charge_match st = Raise ValueError)
  /\ (st_wf st -> matched_pairs st <> [] ->
      exists st' d,
        remove_worst_charge_match st = Ok (st', d)
        /\ (0 <= d)%Q
        /\ (forall p, In p (matched_pairs st) -> (abs_charge_diff p <= d)%Q)
        /\ if Qeq_bool d 0 then st' = st
           else exists before worst after d',
                  matched_pairs st = before ++ worst :: after
                  /\ (forall p, In p before -> ~ (abs_charge_diff p == d)%Q)
                  /\ (abs_charge_diff worst == d)%Q /\ (d' == d)%Q
                  /\ matched_pairs st' = before ++ after
                  /\ st_wf st'
                  /\ _removed_due_to_net_charge st'
                     = _removed_due_to_net_charge st ++ [(worst, d')]).
Proof.
  split.
  - intros E. unfold remove_worst_charge_match, get_worst_match_charge. now rewrite E.
  - intros Hwf Hne. unfold remove_worst_charge_match, get_worst_match_charge.
    destruct (py_max (map abs_charge_diff (matched_pairs st))) as [m|e] eqn:Hm.
    2:{ destruct (matched_pairs st); [contradiction | discriminate]. }
    rewrite res_bind_ok.
    destruct (py_max_spec _ _ Hm) as (Hin & Hmax).
    assert (Hall : forall p, In p (matched_pairs st) -> (abs_charge_diff p <= m)%Q).
    { intros p Hp. apply Hmax. now apply in_map. }
    assert (Hpos : (0 <= m)%Q).
    { apply in_map_iff in Hin. destruct Hin as (p & <- & _). apply Qabs_nonneg. }
    destruct (Qeq_bool m 0) eqn:Hz.
    + exists st, 0%Q. split; [reflexivity|]. split; [apply Qle_refl|]. split.
      * intros p Hp. apply Qeq_bool_iff in Hz. rewrite <- Hz. now apply Hall.
      * reflexivity.
    + destruct (List.filter (fun p => Qeq_bool (abs_charge_diff p) m) (matched_pairs st))
        as [|worst rest] eqn:Hf.
      { exfalso. apply in_map_iff in Hin. destruct Hin as (p & E & Hp).
        assert (Hpf : In p (List.filter (fun p => Qeq_bool (abs_charge_diff p) m)
                                        (matched_pairs st))).
        { apply filter_In. split; [exact Hp|]. rewrite E. apply Qeq_bool_refl. }
        rewrite Hf in Hpf. destruct Hpf. }
      assert (Hw : In worst (matched_pairs st)
                   /\ Qeq_bool (abs_charge_diff worst) m = true).
      { apply (proj1 (filter_In (fun p => Qeq_bool (abs_charge_diff p) m) worst
                                (matched_pairs st))).
        rewrite Hf. now left. }
      destruct Hw as (Hw & Hwm).
      destruct (remove_node_pair_wf st worst Hwf Hw) as (st2 & Hr & Hwf2 & Hp2 & _).
      rewrite Hr. rewrite res_bind_ok.
      eexists. exists (Qabs m). split; [reflexivity|].
      assert (Habs : (Qabs m == m)%Q) by (now apply Qabs_pos).
      split; [apply Qabs_nonneg|]. split.
      { intros p Hp. rewrite Habs. now apply Hall. }
      assert (Hz' : Qeq_bool (Qabs m) 0 = false).
      { destruct (Qeq_bool (Qabs m) 0) eqn:F; [|reflexivity].
        apply Qeq_bool_iff in F. rewrite Habs in F. apply Qeq_bool_iff in F. congruence. }
      rewrite Hz'.
      assert (Hsplit : exists before after,
                 matched_pairs st = before ++ worst :: after
                 /\ forall p, In p before -> Qeq_bool (abs_charge_diff p) m = false).
      { clear - Hf. revert Hf. generalize (matched_pairs st) as l.
        induction l as [|q l IH]; simpl; intros Hf; [discriminate|].
        destruct (Qeq_bool (abs_charge_diff q) m) eqn:E.
        - inversion Hf; subst. exists [], l. split; [reflexivity | intros p []].
        - destruct (IH Hf) as (before & after & -> & Hb).
          exists (q :: before), after. split; [reflexivity|].
          intros p [<-|Hp]; [exact E | now apply Hb]. }
      destruct Hsplit as (before & after & Hmp & Hb).
      exists before, worst, after, m.
      split; [exact Hmp|]. split.
      { intros p Hp F. rewrite Habs in F. apply Qeq_bool_iff in F.
        rewrite (Hb p Hp) in F. discriminate. }
      split; [rewrite Habs; now apply Qeq_bool_iff|].
      split; [symmetry; exact Habs|].
      split; [|split; [now apply st_wf_set_removed_net | ]].
      * cbn. rewrite Hp2, Hmp.
        assert (Hnd : List.NoDup (before ++ worst :: after)).
        { rewrite <- Hmp. eapply NoDup_map_inv. apply (wf_left _ Hwf). }
        rewrite filter_app. cbn.
        rewrite (eqb_refl' pair_eqb pair_eqb_eq). cbn.
        apply NoDup_remove_2 in Hnd.
        rewrite !(filter_neq_id pair_eqb pair_eqb_eq); [reflexivity | |];
          intros Hx; apply Hnd; apply in_app_iff; auto.
      * cbn. f_equal. apply remove_node_pair_logs in Hr.
        destruct Hr as (_ & _ & E & _). now rewrite E.
Qed.

Lemma remove_worst_charge_match_spec_witness :
  st_wf Charges.st /\ matched_pairs Charges.st <> []
  /\ exists st' d,
       remove_worst_charge_match Charges.st = Ok (st', d)
       /\ (d == 1 # 2)%Q
       /\ map (fun p => name (fst p)) (matched_pairs st') = ["C1"; "C2"]
       /\ forall p, In p (matched_pairs Charges.st) -> (abs_charge_diff p <= d)%Q.
Proof.
  assert (H : st_wf Charges.st) by (apply st_wfb_sound; vm_compute; reflexivity).
  assert (Hne : matched_pairs Charges.st <> []) by (vm_compute; discriminate).
  split; [exact H|]. split; [exact Hne|].
  destruct (proj2 (remove_worst_charge_match_spec Charges.st) H Hne)
    as (st' & d & H1 & _ & H2 & _).
  exists st', d. split; [exact H1|].
  split; [|split; [|exact H2]].
  - vm_compute in H1. injection H1 as _ <-. reflexivity.
  - vm_compute in H1. injection H1 as <- _. vm_compute. reflexivity.
Defined.

(** ** [validate_charges] *)


(** ** Comparing topologies *)

Lemma contains_In st p : contains st p = true <-> In p (matched_pairs st).
Proof.
  unfold contains. rewrite existsb_exists. split.
  - intros (q & Hq & E). apply pair_eqb_eq in E. now subst.
  - intros H. exists p. split; [exact H | now apply pair_eqb_eq].
Qed.

(** X7: for two topologies whose lists of matched pairs have no duplicates,
    [SuperimposedTopology.eq] holds exactly when the two have the same
    pairs, in whatever order; it is then symmetric. *)
Theorem SuperimposedTopology_eq_spec self sup_top :
  List.NoDup (matched_pairs self) -> List.NoDup (matched_pairs sup_top) ->
  (SuperimposedTopology_eq self sup_top = true
   <-> forall p, In p (matched_pairs self) <-> In p (matched_pairs sup_top))
  /\ SuperimposedTopology_eq self sup_top = SuperimposedTopology_eq sup_top self.
Proof.
  intros Ha Hb.
  assert (Hspec : forall a b, List.NoDup (matched_pairs a) -> List.NoDup (matched_pairs b) ->
            (SuperimposedTopology_eq a b = true
             <-> forall p, In p (matched_pairs a) <-> In p (matched_pairs b))).
  { clear. intros a b Ha Hb. unfold SuperimposedTopology_eq, st_len. split.
    - destruct (length (matched_pairs a) =? length (matched_pairs b))%nat eqn:E;
        cbn [negb]; [|discriminate].
      apply Nat.eqb_eq in E. rewrite forallb_forall. intros Hincl p.
      assert (Hab : incl (matched_pairs a) (matched_pairs b)).
      { intros q Hq. apply contains_In. now apply Hincl. }
      split; [apply Hab|].
      apply (NoDup_length_incl Ha); [unfold pair in *; lia | exact Hab].
    - intros H.
      assert (P : Permutation (matched_pairs a) (matched_pairs b))
        by (now apply NoDup_Permutation).
      rewrite (Permutation_length P), Nat.eqb_refl. cbn [negb].
      apply forallb_forall. intros q Hq. apply contains_In. now apply H. }
  split; [now apply Hspec|].
  destruct (SuperimposedTopology_eq self sup_top) eqn:E1,
           (SuperimposedTopology_eq sup_top self) eqn:E2; try reflexivity.
  - pose proof (proj1 (Hspec _ _ Ha Hb) E1) as G.
    assert (F : SuperimposedTopology_eq sup_top self = true).
    { apply (Hspec _ _ Hb Ha). intros p. symmetry. apply G. }
    congruence.
  - pose proof (proj1 (Hspec _ _ Hb Ha) E2) as G.
    assert (F : SuperimposedTopology_eq self sup_top = true).
    { apply (Hspec _ _ Ha Hb). intros p. symmetry. apply G. }
    congruence.
Qed.

Lemma SuperimposedTopology_eq_spec_witness :
  List.NoDup (matched_pairs Chain.one) /\ List.NoDup (matched_pairs Chain.both)
  /\ SuperimposedTopology_eq Chain.one Chain.both = false
  /\ SuperimposedTopology_eq Chain.both Chain.one = false.
Proof.
  assert (H1 : List.NoDup (matched_pairs Chain.one)).
  { apply (nodupb_NoDup pair_eqb pair_eqb_eq). vm_compute. reflexivity. }
  assert (H2 : List.NoDup (matched_pairs Chain.both)).
  { apply (nodupb_NoDup pair_eqb pair_eqb_eq). vm_compute. reflexivity. }
  split; [exact H1|]. split; [exact H2|].
  destruct (SuperimposedTopology_eq_spec Chain.one Chain.both H1 H2) as (_ & E).
  split; [vm_compute; reflexivity|]. rewrite <- E. vm_compute. reflexivity.
Defined.

(** ** [get_largest] *)

Lemma py_max_nat_spec (l : list nat) m :
  py_max_nat l = Ok m -> In m l /\ forall x, In x l -> (x <= m)%nat.
Proof.
  destruct l as [|x0 l]; [discriminate|]. simpl. intros H. inversion H as [E]. clear H E.
  revert x0. induction l as [|y l IH]; intros x0; simpl.
  - split; [now left|]. intros x [<-|[]]. lia.
  - destruct (x0 <? y)%nat eqn:Hlt.
    + apply Nat.ltb_lt in Hlt. destruct (IH y) as (Hin & Hmax). split.
      * destruct Hin as [E|Hin]; [right; left; exact E | right; right; exact Hin].
      * intros x [<-|[<-|Hx]].
        -- specialize (Hmax y (or_introl eq_refl)). lia.
        -- apply Hmax. now left.
        -- apply Hmax. now right.
    + apply Nat.ltb_ge in Hlt. destruct (IH x0) as (Hin & Hmax). split.
      * destruct Hin as [E|Hin]; [left; exact E | right; right; exact Hin].
      * intros x [<-|[<-|Hx]].
        -- apply Hmax. now left.
        -- specialize (Hmax x0 (or_introl eq_refl)). lia.
        -- apply Hmax. now right.
Qed.

(** X8: [get_largest] raises [ValueError] on an empty list; on any other it
    returns, in their order, the topologies that have as many pairs as the
    largest one, and so at least one. *)
Theorem get_largest_spec lists :
  (lists = [] -> get_largest lists = Raise ValueError)
  /\ (lists <> [] ->
      exists largest,
        get_largest lists = Ok (List.filter (fun st => (st_len st =? largest)%nat) lists)
        /\ List.filter (fun st => (st_len st =? largest)%nat) lists <> []
        /\ (forall st, In st lists -> (st_len st <= largest)%nat)
        /\ forall st, In st (List.filter (fun st => (st_len st =? largest)%nat) lists)
                      <-> In st lists
                          /\ forall st', In st' lists -> (st_len st' <= st_len st)%nat).
Proof.
  split; [intros ->; reflexivity|].
  intros Hne. unfold get_largest.
  destruct (py_max_nat (map st_len lists)) as [m|e] eqn:Hm.
  2:{ destruct lists; [contradiction | discriminate]. }
  destruct (py_max_nat_spec _ _ Hm) as (Hin & Hmax).
  exists m. rewrite res_bind_ok. split; [reflexivity|].
  assert (Hall : forall st, In st lists -> (st_len st <= m)%nat).
  { intros st Hst. apply Hmax. now apply in_map. }
  split; [|split; [exact Hall|]].
  - apply in_map_iff in Hin. destruct Hin as (st & E & Hst).
    intros F.
    assert (G : In st (List.filter (fun st => (st_len st =? m)%nat) lists)).
    { apply filter_In. split; [exact Hst | now apply Nat.eqb_eq]. }
    rewrite F in G. destruct G.
  - intros st. rewrite filter_In, Nat.eqb_eq. split.
    + intros (Hst & E). split; [exact Hst|]. intros st' Hst'. rewrite E. now apply Hall.
    + intros (Hst & Hbig). split; [exact Hst|].
      apply in_map_iff in Hin. destruct Hin as (st0 & E & Hst0).
      specialize (Hbig st0 Hst0). specialize (Hall st Hst). lia.
Qed.

Lemma get_largest_spec_witness :
  [Chain.one; Chain.both; Chain.fresh] <> []
  /\ exists largest,
       get_largest [Chain.one; Chain.both; Chain.fresh]
       = Ok (List.filter (fun st => (st_len st =? largest)%nat)
                         [Chain.one; Chain.both; Chain.fresh])
       /\ List.filter (fun st => (st_len st =? largest)%nat)
                      [Chain.one; Chain.both; Chain.fresh] <> []
       /\ (forall st, In st [Chain.one; Chain.both; Chain.fresh] ->
                      (st_len st <= largest)%nat)
       /\ forall st,
            In st (List.filter (fun st => (st_len st =? largest)%nat)
                               [Chain.one; Chain.both; Chain.fresh])
            <-> In st [Chain.one; Chain.both; Chain.fresh]
                /\ forall st', In st' [Chain.one; Chain.both; Chain.fresh] ->
                               (st_len st' <= st_len st)%nat.
Proof.
  assert (H : [Chain.one; Chain.both; Chain.fresh] <> []) by discriminate.
  split; [exact H|].
  exact (proj2 (get_largest_spec [Chain.one; Chain.both; Chain.fresh]) H).
Defined.

(** ** The orchestrator: the inputs it rejects and the results it returns *)

Lemma run_bind_outcome_Ok {A B : Type} (m : run A) (k : A -> run B) b :
  outcome (m ≫= k) = Ok b -> exists a, outcome m = Ok a /\ outcome (k a) = Ok b.
Proof.
  unfold mbind, run_bind. destruct (outcome m) as [a|e]; cbn; [eauto | discriminate].
Qed.


Lemma for_suptops_length body l l' :
  for_suptops body l = Ok l' -> length l' = length l.
Proof.
  revert l'. induction l as [|st l IH]; simpl; intros l' H; [now inversion H|].
  apply bind_Ok in H. destruct H as (st' & _ & H).
  apply bind_Ok in H. destruct H as (rest & Hr & H). inversion H; subst. simpl.
  now rewrite (IH _ Hr).
Qed.

Lemma for_each_length {A B C : Type} (f : list B * C -> A -> run (list B * C)) l :
  (forall done c x done' c',
     outcome (f (done, c) x) = Ok (done', c') -> length done' = S (length done)) ->
  forall done c done' c',
    outcome (for_each f l (done, c)) = Ok (done', c') ->
    length done' = (length done + length l)%nat.
Proof.
  intros Hf. induction l as [|x l IH]; intros done c done' c' H.
  - cbn in H. inversion H; subst. simpl. lia.
  - cbn [for_each] in H. apply run_bind_outcome_Ok in H.
    destruct H as ([done1 c1] & H1 & H). apply IH in H. apply Hf in H1. simpl. lia.
Qed.

Lemma foldM_append_length {A B : Type} (f : list B -> A -> res (list B)) l :
  (forall acc x acc', f acc x = Ok acc' -> length acc' = S (length acc)) ->
  forall acc r, foldM f l acc = Ok r -> length r = (length acc + length l)%nat.
Proof.
  intros Hf. induction l as [|x l IH]; intros acc r H; simpl in *.
  - inversion H; subst. lia.
  - apply bind_Ok in H. destruct H as (acc' & H1 & H). apply IH in H. apply Hf in H1. lia.
Qed.

Section OrchestratorResults.
Variable bonds : AtomNode -> list (AtomNode * bond).
Variable cycle_basis : Graph -> list (list AtomNode).
Variable resolve_combinations : list solutions -> res SuperimposedTopology.
Variable get_starting_configurations : list AtomNode -> list AtomNode -> list pair.
Variable accept_candidate :
  SuperimposedTopology -> list SuperimposedTopology -> res (list SuperimposedTopology).
Variable align_ligands_using_matched : SuperimposedTopology -> bool -> res Q.
Variable align_mirror : nat -> res Q.
Variable match_cccd_to_cdcc : list SuperimposedTopology -> res (list SuperimposedTopology).
Variable largest_cc_survives : SuperimposedTopology -> res SuperimposedTopology.
Variable redistribute_charges : SuperimposedTopology -> res SuperimposedTopology.
Variable assign_atoms_ids : SuperimposedTopology -> nat -> res (SuperimposedTopology * nat).
Variable rmsd : SuperimposedTopology -> res Q.
Variable fuel : nat.

Local Abbreviation search := (search_and_filter bonds cycle_basis resolve_combinations
  get_starting_configurations accept_candidate align_ligands_using_matched
  match_cccd_to_cdcc largest_cc_survives fuel).
Local Abbreviation orchestrator := (superimpose_topologies bonds cycle_basis
  resolve_combinations get_starting_configurations accept_candidate
  align_ligands_using_matched align_mirror match_cccd_to_cdcc largest_cc_survives
  redistribute_charges assign_atoms_ids rmsd fuel).


(** X10: with a non-empty [force_mismatch], [superimpose_topologies] never
    returns: once the search has found a topology, the loop over
    [force_mismatch] calls [suptop.contains_atomNamePair], which is not a
    method of the class.  ([match_cccd_to_cdcc] leaves the list of
    topologies as long as it was.) *)
Theorem superimpose_topologies_force_mismatch cfg top1_nodes top2_nodes an rest :
  force_mismatch cfg = Some (an :: rest) ->
  (forall suptops suptops',
     match_cccd_to_cdcc suptops = Ok suptops' -> length suptops' = length suptops) ->
  forall result, outcome (orchestrator cfg top1_nodes top2_nodes) <> Ok result.
Proof.
  intros Hfm Hcc result H. unfold superimpose_topologies in H.
  apply run_bind_outcome_Ok in H. destruct H as (suptops & H & _).
  unfold search_and_filter in H.
  apply run_bind_outcome_Ok in H. destruct H as (? & _ & H).
  apply run_bind_outcome_Ok in H. destruct H as (? & _ & H).
  apply run_bind_outcome_Ok in H. destruct H as (suptops0 & _ & H).
  apply run_bind_outcome_Ok in H. destruct H as (? & H0 & H).
  cbn [lift outcome] in H0.
  destruct suptops0 as [|st0 suptops0]; [discriminate|]. clear H0.
  cbv zeta in H.
  apply run_bind_outcome_Ok in H. destruct H as (? & _ & H).
  apply run_bind_outcome_Ok in H. destruct H as (suptops2 & H2 & H).
  cbn [calling outcome] in H2. apply Hcc in H2. cbn [map length] in H2.
  apply run_bind_outcome_Ok in H. destruct H as (suptops3 & H3 & H).
  cbn [lift outcome] in H3.
  assert (L3 : length suptops3 = length suptops2).
  { destruct (negb (use_only_element cfg));
      [now apply for_suptops_length in H3 | now inversion H3]. }
  apply run_bind_outcome_Ok in H. destruct H as (suptops4 & H4 & H).
  cbn [lift outcome] in H4.
  assert (L4 : length suptops4 = length suptops3).
  { destruct (use_charges cfg && negb (ignore_charges_completely cfg));
      [now apply for_suptops_length in H4 | now inversion H4]. }
  apply run_bind_outcome_Ok in H. destruct H as (? & H5 & _).
  cbn [lift outcome] in H5. rewrite Hfm in H5.
  destruct suptops4; [simpl in *; lia | discriminate].
Qed.

Lemma finish_length cfg top1_nodes top2_nodes suptops result :
  outcome (finish align_ligands_using_matched align_mirror assign_atoms_ids rmsd
                  cfg top1_nodes top2_nodes suptops) = Ok result ->
  length result = length suptops.
Proof.
  unfold finish. intros H.
  apply run_bind_outcome_Ok in H. destruct H as ([done next] & H1 & H).
  apply for_each_length in H1.
  2:{ clear. intros done c x done' c' H.
      apply run_bind_outcome_Ok in H. destruct H as ([s' n'] & _ & H).
      cbn in H. inversion H; subst. rewrite length_app. simpl. lia. }
  apply run_bind_outcome_Ok in H. destruct H as (keyed & Hk & H).
  cbn [lift outcome] in Hk. apply foldM_append_length in Hk.
  2:{ clear. intros acc x acc' H. apply bind_Ok in H. destruct H as (k & _ & H).
      inversion H; subst. rewrite length_app. simpl. lia. }
  cbv zeta in H.
  apply run_bind_outcome_Ok in H. destruct H as (? & _ & H).
  apply run_bind_outcome_Ok in H. destruct H as (? & _ & H).
  cbn in H. inversion H; subst.
  rewrite length_map, (Permutation_length (py_sort_perm _ _)), Hk, H1. simpl. lia.
Qed.

(** X11: when [superimpose_topologies] returns, and [disjoint_components]
    is false, or [redistribute_charges_over_unmatched] is enabled with
    charges not ignored (as by default), it returns exactly one topology. *)
Theorem superimpose_topologies_returns_one cfg top1_nodes top2_nodes result :
  outcome (orchestrator cfg top1_nodes top2_nodes) = Ok result ->
  disjoint_components cfg = false
  \/ (redistribute_charges_over_unmatched cfg = true
      /\ ignore_charges_completely cfg = false) ->
  length result = 1%nat.
Proof.
  intros H Hc. unfold superimpose_topologies in H.
  apply run_bind_outcome_Ok in H. destruct H as (suptops & Hs & H).
  apply run_bind_outcome_Ok in H. destruct H as (suptops' & Hr & H).
  apply finish_length in H. rewrite H. clear H result.
  destruct (disjoint_components cfg) eqn:Hd.
  - destruct Hc as [Hc|(Hc1 & Hc2)]; [discriminate|].
    unfold redistribute_step in Hr. rewrite Hc1, Hc2, Hd in Hr. cbn [negb andb] in Hr.
    destruct suptops as [|st [|st2 l]]; try discriminate Hr.
    apply run_bind_outcome_Ok in Hr. destruct Hr as (st' & _ & Hr).
    cbn in Hr. now inversion Hr.
  - unfold redistribute_step in Hr. rewrite Hd, andb_false_r in Hr.
    cbn in Hr. inversion Hr; subst suptops'. clear Hr Hc.
    unfold search_and_filter in Hs.
    repeat (apply run_bind_outcome_Ok in Hs; destruct Hs as (? & _ & Hs); cbv zeta in Hs).
    rewrite Hd in Hs. cbn [negb] in Hs.
    apply run_bind_outcome_Ok in Hs. destruct Hs as (? & _ & Hs). cbv zeta in Hs.
    apply run_bind_outcome_Ok in Hs. destruct Hs as (? & Ha & Hs).
    cbn [lift outcome] in Ha. cbn in Hs. inversion Hs; subst suptops.
    unfold py_assert in Ha.
    match type of Ha with
    | (if ?b then _ else _) = _ => destruct b eqn:E; [|discriminate]
    end.
    now apply Nat.eqb_eq in E.
Qed.
End OrchestratorResults.



Lemma superimpose_topologies_force_mismatch_witness :
  force_mismatch Mismatch.cfg = Some [("C1", "C11")]
  /\ outcome Mismatch.run_superimpose_topologies = Raise AttributeError
  /\ forall result, outcome Mismatch.run_superimpose_topologies <> Ok result.
Proof.
  split; [reflexivity|]. split; [vm_compute; reflexivity|].
  refine (superimpose_topologies_force_mismatch Chain.bonds (fun _ => [])
            (fun combinations => match combinations with
                                 | [[(_, [(_, s)])]] => Ok s
                                 | _ => Raise (Exception_ "no ranking in this scenario")
                                 end)
            (fun _ _ => [])
            (fun candidate suptops => Ok (suptops ++ [candidate]))
            (fun _ _ => Ok 0%Q) (fun _ => Ok 0%Q)
            (fun suptops => Ok suptops) (fun st => Ok st) (fun st => Ok st)
            (fun st id_start => Ok (st, (id_start + length (matched_pairs st))%nat))
            (fun _ => Ok 0%Q)
            4 Mismatch.cfg Chain.L Chain.R ("C1", "C11") [] eq_refl _).
  intros suptops suptops' H. inversion H. reflexivity.
Defined.

Lemma superimpose_topologies_returns_one_witness :
  exists result,
    outcome (Redistribution.run_superimpose_topologies true) = Ok result
    /\ length result = 1%nat.
Proof.
  eexists. split; [vm_compute; reflexivity|].
  refine (superimpose_topologies_returns_one Chain.bonds (fun _ => [])
            (fun combinations => match combinations with
                                 | [[(_, [(_, s)])]] => Ok s
                                 | _ => Raise (Exception_ "no ranking in this scenario")
                                 end)
            (fun _ _ => [])
            (fun candidate suptops => Ok (suptops ++ [candidate]))
            (fun _ _ => Ok 0%Q) (fun _ => Ok 0%Q)
            (fun suptops => Ok suptops) (fun st => Ok st) (fun st => Ok st)
            (fun st id_start => Ok (st, (id_start + length (matched_pairs st))%nat))
            (fun _ => Ok 0%Q)
            4 (Redistribution.cfg true) Chain.L Chain.R _ _ _).
  - vm_compute. reflexivity.
  - right. split; reflexivity.
Defined.

(** ** Linking a pair with its parent *)

Section DictUpdates.
Context {K V : Type} (eqb : K -> K -> bool).
Hypothesis eqb_eq : forall x y, eqb x y = true <-> x = y.

Lemma dict_get_set_same k (v : V) d : dict_get eqb k (dict_set eqb k v d) = Some v.
Proof using eqb_eq.
  induction d as [|[k0 v0] d IH]; simpl.
  - now rewrite (eqb_refl' eqb eqb_eq).
  - destruct (eqb k0 k) eqn:E; simpl; rewrite E; [reflexivity | exact IH].
Qed.

Lemma dict_get_set_other k k' (v : V) d :
  k' <> k -> dict_get eqb k' (dict_set eqb k v d) = dict_get eqb k' d.
Proof using eqb_eq.
  intros Hne. induction d as [|[k0 v0] d IH]; simpl.
  - destruct (eqb k k') eqn:E; [|reflexivity].
    apply eqb_eq in E. congruence.
  - destruct (eqb k0 k) eqn:E; simpl.
    + apply eqb_eq in E. subst k0. destruct (eqb k k') eqn:E'; [|reflexivity].
      apply eqb_eq in E'. congruence.
    + now rewrite IH.
Qed.

Lemma dict_set_keys k (v v0 : V) d :
  dict_get eqb k d = Some v0 -> map fst (dict_set eqb k v d) = map fst d.
Proof using Type.
  induction d as [|[k1 v1] d IH]; simpl; [discriminate|].
  destruct (eqb k1 k) eqn:E; simpl; [reflexivity|].
  intros H. now rewrite IH.
Qed.

Lemma dict_set_same_value k (v : V) d :
  dict_get eqb k d = Some v -> dict_set eqb k v d = d.
Proof using Type.
  induction d as [|[k1 v1] d IH]; simpl; [discriminate|].
  destruct (eqb k1 k) eqn:E.
  - intros H. now inversion H.
  - intros H. now rewrite IH.
Qed.
End DictUpdates.

Lemma set_matched_pairs_bonds_same st : set_matched_pairs_bonds st (matched_pairs_bonds st) = st.
Proof. now destruct st. Qed.

(** The bond set of a key after [link_with_parent], from the one before *)
Lemma link_with_parent_bonds st p parent bt s_p s_parent :
  dict_get pair_eqb p (matched_pairs_bonds st) = Some s_p ->
  dict_get pair_eqb parent (matched_pairs_bonds st) = Some s_parent ->
  exists d,
    link_with_parent st p parent bt = Ok (set_matched_pairs_bonds st d)
    /\ map fst d = map fst (matched_pairs_bonds st)
    /\ forall k s, dict_get pair_eqb k (matched_pairs_bonds st) = Some s ->
         dict_get pair_eqb k d
         = Some (let s1 := if pair_eqb k parent then set_add bonded_eqb (p, bt) s else s in
                 if pair_eqb k p then set_add bonded_eqb (parent, bt) s1 else s1).
Proof.
  intros Hp Hparent. unfold link_with_parent, dict_has. rewrite Hp, Hparent.
  cbn [py_assert]. rewrite !res_bind_ok.
  unfold bonds_add, dict_lookup. rewrite Hparent, !res_bind_ok. cbv beta.
  set (d1 := dict_set pair_eqb parent (set_add bonded_eqb (p, bt) s_parent)
               (matched_pairs_bonds st)).
  assert (K1 : map fst d1 = map fst (matched_pairs_bonds st))
    by (eapply dict_set_keys; eauto).
  assert (G1 : forall k s, dict_get pair_eqb k (matched_pairs_bonds st) = Some s ->
                 dict_get pair_eqb k d1
                 = Some (if pair_eqb k parent then set_add bonded_eqb (p, bt) s else s)).
  { intros k s Hk. unfold d1. destruct (pair_eqb k parent) eqn:E.
    - apply pair_eqb_eq in E. subst k. rewrite Hparent in Hk. inversion Hk; subst.
      apply (dict_get_set_same pair_eqb pair_eqb_eq).
    - apply (eqb_neq pair_eqb pair_eqb_eq) in E.
      rewrite (dict_get_set_other pair_eqb pair_eqb_eq) by exact E. exact Hk. }
  rewrite (G1 p s_p Hp), !res_bind_ok.
  eexists. split; [reflexivity|]. split.
  - erewrite dict_set_keys; [exact K1 | apply (G1 p s_p Hp)].
  - intros k s Hk. cbn zeta. destruct (pair_eqb k p) eqn:E.
    + apply pair_eqb_eq in E. subst k. rewrite Hp in Hk. inversion Hk; subst.
      apply (dict_get_set_same pair_eqb pair_eqb_eq).
    + apply (eqb_neq pair_eqb pair_eqb_eq) in E.
      rewrite (dict_get_set_other pair_eqb pair_eqb_eq) by exact E. now apply G1.
Qed.

(** Linking two pairs that are linked already changes nothing. *)
Lemma link_with_parent_again st p parent bt s_p s_parent :
  dict_get pair_eqb p (matched_pairs_bonds st) = Some s_p ->
  dict_get pair_eqb parent (matched_pairs_bonds st) = Some s_parent ->
  In (parent, bt) s_p -> In (p, bt) s_parent ->
  link_with_parent st p parent bt = Ok st.
Proof.
  intros Hp Hparent H1 H2. unfold link_with_parent, dict_has. rewrite Hp, Hparent.
  cbn [py_assert]. rewrite !res_bind_ok.
  unfold bonds_add, dict_lookup. rewrite Hparent, !res_bind_ok. cbv beta.
  rewrite (set_add_present bonded_eqb bonded_eqb_eq _ _ H2).
  rewrite (dict_set_same_value pair_eqb _ _ _ Hparent).
  rewrite Hp, !res_bind_ok.
  rewrite (set_add_present bonded_eqb bonded_eqb_eq _ _ H1).
  rewrite (dict_set_same_value pair_eqb _ _ _ Hp).
  now rewrite set_matched_pairs_bonds_same.
Qed.

Lemma linked_set_In (k p parent : pair) (bt : bond_types) (s : list bonded) (x : bonded) :
  In x (let s1 := if pair_eqb k parent then set_add bonded_eqb (p, bt) s else s in
        if pair_eqb k p then set_add bonded_eqb (parent, bt) s1 else s1)
  <-> In x s \/ (k = parent /\ x = (p, bt)) \/ (k = p /\ x = (parent, bt)).
Proof.
  cbn zeta. unfold pair_eqb. do 2 case_bool_decide;
    rewrite ?(set_add_In bonded_eqb bonded_eqb_eq); subst;
    intuition (subst; auto; try congruence).
Qed.

(** X12: [link_with_parent(pair, parent, bond_type)] raises AssertionError
    unless both pairs are keys of [matched_pairs_bonds]. Otherwise it
    changes [matched_pairs_bonds] only, keeps its keys, and adds to the bond
    sets exactly the entry for the pair under the parent and the entry for
    the parent under the pair; a second call with the same arguments
    changes nothing. *)
Theorem link_with_parent_spec st p parent bt :
  if dict_has pair_eqb p (matched_pairs_bonds st)
     && dict_has pair_eqb parent (matched_pairs_bonds st)
  then exists st',
      link_with_parent st p parent bt = Ok st'
      /\ st' = set_matched_pairs_bonds st (matched_pairs_bonds st')
      /\ map fst (matched_pairs_bonds st') = map fst (matched_pairs_bonds st)
      /\ (forall k s, dict_get pair_eqb k (matched_pairs_bonds st) = Some s ->
            exists s', dict_get pair_eqb k (matched_pairs_bonds st') = Some s'
                       /\ forall x, In x s' <-> In x s
                                               \/ (k = parent /\ x = (p, bt))
                                               \/ (k = p /\ x = (parent, bt)))
      /\ link_with_parent st' p parent bt = Ok st'
  else link_with_parent st p parent bt = Raise AssertionError.
Proof.
  unfold dict_has.
  destruct (dict_get pair_eqb p (matched_pairs_bonds st)) as [s_p|] eqn:Hp; cbn [andb].
  2:{ unfold link_with_parent, dict_has. now rewrite Hp. }
  destruct (dict_get pair_eqb parent (matched_pairs_bonds st)) as [s_parent|] eqn:Hparent.
  2:{ unfold link_with_parent, dict_has. now rewrite Hp, Hparent. }
  destruct (link_with_parent_bonds st p parent bt s_p s_parent Hp Hparent)
    as (d & E & Hk & Hd).
  exists (set_matched_pairs_bonds st d). split; [exact E|].
  split; [reflexivity|]. split; [exact Hk|]. split.
  - intros k s Hs. eexists. split; [apply (Hd k s Hs)|].
    intros x. apply linked_set_In.
  - eapply link_with_parent_again.
    + apply (Hd p s_p Hp).
    + apply (Hd parent s_parent Hparent).
    + apply linked_set_In. auto.
    + apply linked_set_In. auto.
Qed.

Lemma in_keys_dict_get {V : Type} (k : pair) (d : list (pair * V)) :
  In k (map fst d) -> exists v, dict_get pair_eqb k d = Some v.
Proof.
  induction d as [|[k0 v0] d IH]; simpl; [intros []|].
  intros H. destruct (pair_eqb k0 k) eqn:E; [eauto|].
  destruct H as [H|H]; [|auto].
  apply (eqb_neq pair_eqb pair_eqb_eq) in E. contradiction.
Qed.

Lemma dict_get_in_keys {V : Type} (k : pair) (v : V) (d : list (pair * V)) :
  dict_get pair_eqb k d = Some v -> In k (map fst d).
Proof.
  intros H. apply (dict_get_Some_In pair_eqb pair_eqb_eq) in H.
  apply (in_map fst) in H. exact H.
Qed.

Lemma set_add_keys_NoDup (x : bonded) (s : list bonded) :
  List.NoDup (map fst s) -> (forall bt, In (fst x, bt) s -> bt = snd x) ->
  List.NoDup (map fst (set_add bonded_eqb x s)).
Proof.
  intros Hnd Hx. unfold set_add. destruct (py_in bonded_eqb x s) eqn:E; [exact Hnd|].
  apply (py_in_not_In bonded_eqb bonded_eqb_eq) in E.
  rewrite map_app. simpl. apply List.NoDup_app; [exact Hnd | |].
  - constructor; [intros []|constructor].
  - intros k Hk [<-|[]]. apply in_map_iff in Hk. destruct Hk as ([k' bt'] & Ek & Hin).
    simpl in Ek. subst k'. apply E. rewrite (Hx bt' Hin) in Hin. now destruct x.
Qed.

(** What keeps the bond sets well-formed when two pairs are linked *)
Lemma link_with_parent_keeps_wf st p parent bt st' :
  st_wf st ->
  link_with_parent st p parent bt = Ok st' ->
  st_wf st'
  <-> p <> parent
      /\ forall s bt', dict_get pair_eqb p (matched_pairs_bonds st) = Some s ->
                       In (parent, bt') s -> bt' = bt.
Proof.
  intros Hwf H.
  assert (Hhas : dict_has pair_eqb p (matched_pairs_bonds st)
                 && dict_has pair_eqb parent (matched_pairs_bonds st) = true).
  { unfold link_with_parent in H.
    destruct (dict_has pair_eqb p (matched_pairs_bonds st)); [|discriminate].
    destruct (dict_has pair_eqb parent (matched_pairs_bonds st)); [reflexivity|discriminate]. }
  unfold dict_has in Hhas.
  destruct (dict_get pair_eqb p (matched_pairs_bonds st)) as [s_p|] eqn:Hp; [|discriminate].
  destruct (dict_get pair_eqb parent (matched_pairs_bonds st)) as [s_parent|] eqn:Hparent;
    [|discriminate].
  clear Hhas.
  destruct (link_with_parent_bonds st p parent bt s_p s_parent Hp Hparent)
    as (d & E & Hk & Hd).
  rewrite E in H. inversion H; subst st'. clear H E.
  assert (Hget : forall k s', In (k, s') d ->
            exists s, In (k, s) (matched_pairs_bonds st)
                      /\ dict_get pair_eqb k (matched_pairs_bonds st) = Some s
                      /\ forall x, In x s' <-> In x s \/ (k = parent /\ x = (p, bt))
                                                     \/ (k = p /\ x = (parent, bt))).
  { intros k s' Hin.
    assert (Hkd : List.NoDup (map fst d)) by (rewrite Hk; apply (wf_keys_NoDup _ Hwf)).
    destruct (in_keys_dict_get k (matched_pairs_bonds st)) as (s & Hs).
    { rewrite <- Hk. apply (in_map fst) in Hin. exact Hin. }
    exists s. split; [now apply (dict_get_Some_In pair_eqb pair_eqb_eq)|].
    split; [exact Hs|].
    pose proof (Hd k s Hs) as Hs'.
    rewrite (dict_get_In pair_eqb pair_eqb_eq k s' d Hkd Hin) in Hs'.
    inversion Hs' as [Es]. rewrite <- Es. intros x. rewrite Es at 1. apply linked_set_In. }
  split.
  - intros Hwf'. split.
    + intros ->.
      pose proof (Hd parent s_p Hp) as Hs'.
      apply (dict_get_Some_In pair_eqb pair_eqb_eq) in Hs'.
      destruct (wf_adj _ Hwf' parent _ parent bt Hs') as (Hne & _);
        [apply linked_set_In; auto | now apply Hne].
    + intros s bt' Hs Hin. inversion Hs; subst s.
      pose proof (Hd p s_p Hp) as Hs'.
      apply (dict_get_Some_In pair_eqb pair_eqb_eq) in Hs'.
      pose proof (wf_adj_NoDup _ Hwf' p _ Hs') as Hnd.
      eapply (NoDup_map_fst_inj _ parent bt' bt Hnd); apply linked_set_In; auto.
  - intros (Hne & Hbt).
    assert (Hsym : forall bt', In (p, bt') s_parent -> bt' = bt).
    { intros bt' Hin.
      destruct (wf_adj _ Hwf parent s_parent p bt'
                  (dict_get_Some_In pair_eqb pair_eqb_eq _ _ _ Hparent) Hin)
        as (_ & s' & Hs' & Hin').
      apply (dict_get_In pair_eqb pair_eqb_eq _ _ _ (wf_keys_NoDup _ Hwf)) in Hs'.
      rewrite Hp in Hs'. inversion Hs'; subst s'. now apply (Hbt s_p bt'). }
    destruct Hwf as [Hl Hr Hsides Hnn Hnodes Hkn Hkeys Han Hadj].
    constructor; cbn; auto.
    + now rewrite Hk.
    + intros k. now rewrite Hk.
    + intros k s' Hin.
      assert (Hkd : List.NoDup (map fst d)) by now rewrite Hk.
      destruct (in_keys_dict_get k (matched_pairs_bonds st)) as (s & Hs).
      { rewrite <- Hk. apply (in_map fst) in Hin. exact Hin. }
      pose proof (Hd k s Hs) as Hs'.
      rewrite (dict_get_In pair_eqb pair_eqb_eq k s' d Hkd Hin) in Hs'.
      inversion Hs' as [Es]. clear Hs'.
      pose proof (Han k s (dict_get_Some_In pair_eqb pair_eqb_eq _ _ _ Hs)) as Hnd.
      cbn zeta. unfold pair_eqb.
      do 2 case_bool_decide; subst; [congruence | | |].
      * rewrite Hp in Hs. inversion Hs; subst s.
        apply set_add_keys_NoDup; [exact Hnd|]. intros bt'. now apply Hbt.
      * rewrite Hparent in Hs. inversion Hs; subst s.
        apply set_add_keys_NoDup; [exact Hnd|]. exact Hsym.
      * exact Hnd.
    + intros k s' q bt0 Hin Hq.
      destruct (Hget k s' Hin) as (s & Hins & Hs & Hx).
      assert (Hkd : List.NoDup (map fst d)) by now rewrite Hk.
      assert (Hup : forall k0 s0 x, In (k0, s0) (matched_pairs_bonds st) -> In x s0 ->
                exists s0', In (k0, s0') d /\ In x s0').
      { intros k0 s0 x Hin0 Hx0.
        pose proof (dict_get_In pair_eqb pair_eqb_eq _ _ _ Hkn Hin0) as Hg.
        eexists. split.
        - apply (dict_get_Some_In pair_eqb pair_eqb_eq). apply (Hd k0 s0 Hg).
        - apply linked_set_In. now left. }
      apply Hx in Hq. destruct Hq as [Hq|[(-> & Eq)|(-> & Eq)]].
      * destruct (Hadj k s q bt0 Hins Hq) as (Hqk & s0 & Hs0 & Hk0).
        split; [exact Hqk|]. now apply (Hup q s0).
      * inversion Eq; subst q bt0. split; [exact Hne|].
        eexists. split.
        -- apply (dict_get_Some_In pair_eqb pair_eqb_eq). apply (Hd p s_p Hp).
        -- apply linked_set_In. auto.
      * inversion Eq; subst q bt0. split; [congruence|].
        eexists. split.
        -- apply (dict_get_Some_In pair_eqb pair_eqb_eq). apply (Hd parent s_parent Hparent).
        -- apply linked_set_In. auto.
Qed.

(** X13: on a well-formed topology a successful [link_with_parent] keeps the
    topology well-formed exactly when the pair is not its own parent and the
    two pairs are not linked already with another bond type. *)
Theorem link_with_parent_wf st p parent bt st' :
  st_wf st ->
  link_with_parent st p parent bt = Ok st' ->
  st_wf st'
  <-> p <> parent
      /\ forall s bt', dict_get pair_eqb p (matched_pairs_bonds st) = Some s ->
                       In (parent, bt') s -> bt' = bt.
Proof. apply link_with_parent_keeps_wf. Qed.

Lemma link_with_parent_wf_witness :
  st_wf Chain.both
  /\ exists st',
       link_with_parent Chain.both (Chain.C1, Chain.C11) (Chain.N1, Chain.N11)
         (Some "1", Some "1") = Ok st'
       /\ st_wf st'.
Proof.
  assert (Hwf : st_wf Chain.both) by (apply st_wfb_sound; vm_compute; reflexivity).
  split; [exact Hwf|].
  eexists. split; [vm_compute; reflexivity|].
  eapply (proj2 (link_with_parent_wf Chain.both (Chain.C1, Chain.C11) (Chain.N1, Chain.N11)
                   (Some "1", Some "1") _ Hwf ltac:(vm_compute; reflexivity))).
  split; [discriminate|].
  intros s bt' Hs Hin. vm_compute in Hs. inversion Hs; subst s. destruct Hin.
Defined.

(** ** The unmatched atoms *)

Lemma count_one_NoDup (a : AtomNode) (l : list AtomNode) :
  List.NoDup l ->
  length (List.filter (fun x => py_in atom_eqb x [a]) l) = if py_in atom_eqb a l then 1%nat else 0%nat.
Proof.
  induction 1 as [|x l Hx Hnd IH]; [reflexivity|].
  simpl in *. rewrite orb_false_r.
  destruct (atom_eqb x a) eqn:E.
  - apply atom_eqb_eq in E. subst x. simpl. rewrite IH.
    rewrite (proj2 (py_in_not_In atom_eqb atom_eqb_eq a l) Hx).
    unfold atom_eqb. now rewrite bool_decide_eq_true_2.
  - rewrite IH. replace (atom_eqb a x) with false; [reflexivity|].
    symmetry. apply (eqb_neq atom_eqb atom_eqb_eq).
    apply (eqb_neq atom_eqb atom_eqb_eq) in E. congruence.
Qed.

(** [contains_node] on a node set without duplicates *)
Lemma contains_node_In st a :
  List.NoDup (nodes st) -> contains_node st a = true <-> In a (nodes st).
Proof.
  intros Hnd. unfold contains_node, set_inter.
  change (set_of_list atom_eqb [a]) with [a].
  rewrite (count_one_NoDup a _ Hnd), <- (py_in_In atom_eqb atom_eqb_eq).
  destruct (py_in atom_eqb a (nodes st)); simpl; split; congruence.
Qed.

(** The members of [l] that are not in [m], when [m] is a part of [l] *)
Lemma filter_out_length {A : Type} (f : A -> bool) (l m : list A) :
  List.NoDup l -> List.NoDup m -> (forall x, In x m -> In x l) ->
  (forall x, In x l -> f x = true <-> In x m) ->
  (length (List.filter (fun x => negb (f x)) l) + length m = length l)%nat.
Proof.
  intros Hl Hm Hsub Hf.
  rewrite <- (filter_length f l).
  assert (P : Permutation (List.filter f l) m).
  { apply NoDup_Permutation; [now apply NoDup_filter' | exact Hm |].
    intros x. rewrite filter_In. split.
    - intros (Hx & E). now apply (Hf x Hx).
    - intros Hx. split; [now apply Hsub|]. apply (Hf x (Hsub x Hx)). exact Hx. }
  rewrite (Permutation_length P). lia.
Qed.

(** X14: when the left atoms of the pairs are atoms of [top1] and the right
    atoms are atoms of [top2], the two molecules share no atom and list no
    atom twice, a well-formed topology splits each molecule into matched
    and unmatched atoms: [get_disappearing_atoms] has [len(top1) - len(self)]
    atoms, [get_appearing_atoms] has [len(top2) - len(self)], and
    [get_unmatched_atoms] is the first list followed by the second. *)
Theorem unmatched_atoms_count st t1 t2 :
  st_wf st ->
  top1 st = Some t1 -> top2 st = Some t2 ->
  List.NoDup t1 -> List.NoDup t2 ->
  (forall a, In a t1 -> ~ In a t2) ->
  (forall p, In p (matched_pairs st) -> In (fst p) t1 /\ In (snd p) t2) ->
  exists dis app,
    get_disappearing_atoms st = Ok dis
    /\ get_appearing_atoms st = Ok app
    /\ get_unmatched_atoms st = Ok (dis ++ app)
    /\ (length dis + st_len st = length t1)%nat
    /\ (length app + st_len st = length t2)%nat
    /\ (forall a, In a dis <-> In a t1 /\ ~ In a (nodes st))
    /\ (forall a, In a app <-> In a t2 /\ ~ In a (nodes st)).
Proof.
  intros Hwf H1 H2 Hnd1 Hnd2 Hdisj Htops.
  unfold get_disappearing_atoms, get_appearing_atoms, get_unmatched_atoms.
  rewrite H1, H2.
  assert (Hl : forall a, In a t1 ->
             existsb (fun p : pair => atom_eqb a (fst p)) (matched_pairs st) = true
             <-> In a (nodes st)).
  { intros a Ha. rewrite existsb_exists, (wf_nodes _ Hwf). split.
    - intros (p & Hp & E). apply atom_eqb_eq in E. eauto.
    - intros (p & Hp & [E|E]).
      + exists p. split; [exact Hp | now apply atom_eqb_eq].
      + exfalso. apply (Hdisj a Ha). subst a. now apply Htops. }
  assert (Hr : forall a, In a t2 ->
             existsb (fun p : pair => atom_eqb a (snd p)) (matched_pairs st) = true
             <-> In a (nodes st)).
  { intros a Ha. rewrite existsb_exists, (wf_nodes _ Hwf). split.
    - intros (p & Hp & E). apply atom_eqb_eq in E. eauto.
    - intros (p & Hp & [E|E]).
      + exfalso. apply (Hdisj a); [|exact Ha]. subst a. now apply Htops.
      + exists p. split; [exact Hp | now apply atom_eqb_eq]. }
  assert (Hc : forall (f : AtomNode -> bool) t,
             (forall a, In a t -> f a = true <-> In a (nodes st)) ->
             List.filter (fun node => negb (contains_node st node)) t
             = List.filter (fun a => negb (f a)) t).
  { intros f t Hf. apply filter_ext_in. intros a Ha. f_equal.
    apply eq_true_iff_eq. rewrite (Hf a Ha).
    apply contains_node_In, (wf_nodes_NoDup _ Hwf). }
  do 2 eexists. split; [reflexivity|]. split; [reflexivity|].
  split; [now rewrite (Hc _ t1 Hl), (Hc _ t2 Hr)|].
  split; [|split; [|split]].
  - unfold st_len.
    refine (eq_trans (f_equal _ (eq_sym (length_map fst (matched_pairs st)))) _).
    apply (filter_out_length
             (fun a => existsb (fun p : pair => atom_eqb a (fst p)) (matched_pairs st)));
      [exact Hnd1 | apply (wf_left _ Hwf) | |].
    + intros a Ha. apply in_map_iff in Ha. destruct Ha as (p & <- & Hp). now apply Htops.
    + intros a Ha. rewrite existsb_exists, in_map_iff. split.
      * intros (p & Hp & E). apply atom_eqb_eq in E. eauto.
      * intros (p & E & Hp). exists p. split; [exact Hp | now apply atom_eqb_eq].
  - unfold st_len.
    refine (eq_trans (f_equal _ (eq_sym (length_map snd (matched_pairs st)))) _).
    apply (filter_out_length
             (fun a => existsb (fun p : pair => atom_eqb a (snd p)) (matched_pairs st)));
      [exact Hnd2 | apply (wf_right _ Hwf) | |].
    + intros a Ha. apply in_map_iff in Ha. destruct Ha as (p & <- & Hp). now apply Htops.
    + intros a Ha. rewrite existsb_exists, in_map_iff. split.
      * intros (p & Hp & E). apply atom_eqb_eq in E. eauto.
      * intros (p & E & Hp). exists p. split; [exact Hp | now apply atom_eqb_eq].
  - intros a. rewrite filter_In, negb_true_iff. split.
    + intros (Ha & E). split; [exact Ha|]. intros Hin.
      apply (proj2 (Hl a Ha)) in Hin. unfold pair in *. congruence.
    + intros (Ha & Hn). split; [exact Ha|].
      apply not_true_is_false. intros E. apply Hn. now apply (Hl a Ha).
  - intros a. rewrite filter_In, negb_true_iff. split.
    + intros (Ha & E). split; [exact Ha|]. intros Hin.
      apply (proj2 (Hr a Ha)) in Hin. unfold pair in *. congruence.
    + intros (Ha & Hn). split; [exact Ha|].
      apply not_true_is_false. intros E. apply Hn. now apply (Hr a Ha).
Qed.

Lemma unmatched_atoms_count_witness :
  exists dis app,
    get_disappearing_atoms Chain.one = Ok dis
    /\ get_appearing_atoms Chain.one = Ok app
    /\ get_unmatched_atoms Chain.one = Ok (dis ++ app)
    /\ (length dis + st_len Chain.one = length Chain.L)%nat
    /\ (length app + st_len Chain.one = length Chain.R)%nat
    /\ (forall a, In a dis <-> In a Chain.L /\ ~ In a (nodes Chain.one))
    /\ (forall a, In a app <-> In a Chain.R /\ ~ In a (nodes Chain.one)).
Proof.
  apply (unmatched_atoms_count Chain.one Chain.L Chain.R).
  - apply st_wfb_sound. vm_compute. reflexivity.
  - reflexivity.
  - reflexivity.
  - apply (nodupb_NoDup atom_eqb atom_eqb_eq). vm_compute. reflexivity.
  - apply (nodupb_NoDup atom_eqb atom_eqb_eq). vm_compute. reflexivity.
  - intros a H1 H2. apply (py_in_In atom_eqb atom_eqb_eq) in H2.
    revert H2. apply not_true_iff_false.
    simpl in H1. destruct H1 as [<-|[<-|[]]]; vm_compute; reflexivity.
  - intros p Hp. vm_compute in Hp. destruct Hp as [<-|[]].
    split; simpl; auto.
Defined.

(** ** Atom ids *)

Lemma id_key_eqb_eq (x y : id_key) : id_key_eqb x y = true <-> x = y.
Proof. unfold id_key_eqb. apply bool_decide_eq_true. Qed.

Lemma ids_get_set k k0 (v : nat) ids :
  dict_get id_key_eqb k (dict_set id_key_eqb k0 v ids)
  = if id_key_eqb k k0 then Some v else dict_get id_key_eqb k ids.
Proof.
  destruct (id_key_eqb k k0) eqn:E.
  - apply id_key_eqb_eq in E. subst. apply (dict_get_set_same id_key_eqb id_key_eqb_eq).
  - apply (eqb_neq id_key_eqb id_key_eqb_eq) in E.
    now apply (dict_get_set_other id_key_eqb id_key_eqb_eq).
Qed.

Lemma assign_pair_id_get k ids c l r :
  dict_get id_key_eqb k (fst (assign_pair_id (ids, c) (l, r)))
  = if id_key_eqb k (Key_pair (l, r)) || id_key_eqb k (Key_atom r) || id_key_eqb k (Key_atom l)
    then Some c else dict_get id_key_eqb k ids.
Proof.
  cbn [assign_pair_id fst]. rewrite !ids_get_set.
  destruct (id_key_eqb k (Key_pair (l, r))), (id_key_eqb k (Key_atom r)),
    (id_key_eqb k (Key_atom l)); reflexivity.
Qed.

Lemma assign_pair_id_counter acc p : snd (assign_pair_id acc p) = S (snd acc).
Proof. destruct acc, p. reflexivity. Qed.

Lemma assign_node_id_get st k ids c n :
  dict_get id_key_eqb k (fst (assign_node_id st (ids, c) n))
  = if negb (contains_node st n) && id_key_eqb k (Key_atom n)
    then Some c else dict_get id_key_eqb k ids.
Proof.
  cbn [assign_node_id]. destruct (contains_node st n); cbn [negb andb fst]; [reflexivity|].
  apply ids_get_set.
Qed.

Lemma assign_node_id_counter st acc n :
  snd (assign_node_id st acc n) = if contains_node st n then snd acc else S (snd acc).
Proof. destruct acc. cbn. now destruct (contains_node st n). Qed.

Lemma assign_pairs_counter l acc :
  snd (fold_left assign_pair_id l acc) = (snd acc + length l)%nat.
Proof.
  revert acc. induction l as [|p l IH]; intros acc; cbn [fold_left length]; [lia|].
  rewrite IH, assign_pair_id_counter. lia.
Qed.

Lemma assign_nodes_counter st l acc :
  snd (fold_left (assign_node_id st) l acc)
  = (snd acc + length (List.filter (fun node => negb (contains_node st node)) l))%nat.
Proof.
  revert acc. induction l as [|n l IH]; intros acc; cbn [fold_left List.filter]; [simpl; lia|].
  rewrite IH, assign_node_id_counter.
  destruct (contains_node st n); cbn [negb length]; lia.
Qed.

(** What the loops of [assign_atoms_ids] keep: the ids handed out lie
    between the first id and the counter, and two atoms with one id are the
    atoms of a pair. *)
Lemma assign_pairs_invariant (mp : list pair) (lo : nat) l acc :
  (forall p, In p l -> In p mp) ->
  (lo <= snd acc)%nat ->
  (forall k v, dict_get id_key_eqb k (fst acc) = Some v -> (lo <= v < snd acc)%nat) ->
  (forall a b v, a <> b -> dict_get id_key_eqb (Key_atom a) (fst acc) = Some v ->
                 dict_get id_key_eqb (Key_atom b) (fst acc) = Some v ->
                 In (a, b) mp \/ In (b, a) mp) ->
  let acc' := fold_left assign_pair_id l acc in
  (forall k v, dict_get id_key_eqb k (fst acc') = Some v -> (lo <= v < snd acc')%nat)
  /\ (forall a b v, a <> b -> dict_get id_key_eqb (Key_atom a) (fst acc') = Some v ->
                    dict_get id_key_eqb (Key_atom b) (fst acc') = Some v ->
                    In (a, b) mp \/ In (b, a) mp).
Proof.
  revert acc. induction l as [|[l0 r0] l IH]; intros [ids c] Hin Hlo Hb Hs; [now split|].
  cbn [fold_left]. apply IH.
  - intros p Hp. apply Hin. now right.
  - rewrite assign_pair_id_counter. cbn in *. lia.
  - intros k v. rewrite assign_pair_id_get, assign_pair_id_counter. cbn [snd fst] in *.
    destruct (_ || _ || _).
    + intros E. inversion E. lia.
    + intros E. apply Hb in E. lia.
  - intros a b v Hab. rewrite !assign_pair_id_get. cbn [snd fst] in *.
    assert (Hk : forall x, id_key_eqb (Key_atom x) (Key_pair (l0, r0)) = false).
    { intros x. now apply (eqb_neq id_key_eqb id_key_eqb_eq). }
    assert (Ha : forall x y, id_key_eqb (Key_atom x) (Key_atom y) = atom_eqb x y).
    { intros x y. apply eq_true_iff_eq.
      rewrite id_key_eqb_eq, atom_eqb_eq. split; congruence. }
    rewrite !Hk, !Ha. cbn [orb].
    assert (Hp : In (l0, r0) mp) by (apply Hin; now left).
    destruct (atom_eqb a r0) eqn:Ear, (atom_eqb a l0) eqn:Eal,
      (atom_eqb b r0) eqn:Ebr, (atom_eqb b l0) eqn:Ebl; cbn [orb];
      try apply atom_eqb_eq in Ear; try apply atom_eqb_eq in Eal;
      try apply atom_eqb_eq in Ebr; try apply atom_eqb_eq in Ebl; subst;
      intros E1 E2; try congruence; auto;
      try (inversion E1; subst v; apply Hb in E2; lia);
      try (inversion E2; subst v; apply Hb in E1; lia).
    all: eapply Hs; eauto.
Qed.

Lemma assign_nodes_invariant st (mp : list pair) (lo : nat) l acc :
  (lo <= snd acc)%nat ->
  (forall k v, dict_get id_key_eqb k (fst acc) = Some v -> (lo <= v < snd acc)%nat) ->
  (forall a b v, a <> b -> dict_get id_key_eqb (Key_atom a) (fst acc) = Some v ->
                 dict_get id_key_eqb (Key_atom b) (fst acc) = Some v ->
                 In (a, b) mp \/ In (b, a) mp) ->
  let acc' := fold_left (assign_node_id st) l acc in
  (forall k v, dict_get id_key_eqb k (fst acc') = Some v -> (lo <= v < snd acc')%nat)
  /\ (forall a b v, a <> b -> dict_get id_key_eqb (Key_atom a) (fst acc') = Some v ->
                    dict_get id_key_eqb (Key_atom b) (fst acc') = Some v ->
                    In (a, b) mp \/ In (b, a) mp).
Proof.
  revert acc. induction l as [|n l IH]; intros [ids c] Hlo Hb Hs; [now split|].
  cbn [fold_left]. apply IH.
  - rewrite assign_node_id_counter. cbn in *. destruct (contains_node st n); lia.
  - intros k v. rewrite assign_node_id_get, assign_node_id_counter. cbn [snd fst] in *.
    destruct (contains_node st n); cbn [negb andb]; [apply Hb|].
    destruct (id_key_eqb k (Key_atom n)).
    + intros E. inversion E. lia.
    + intros E. apply Hb in E. lia.
  - intros a b v Hab. rewrite !assign_node_id_get. cbn [snd fst] in *.
    destruct (contains_node st n); cbn [negb andb]; [now apply Hs|].
    destruct (id_key_eqb (Key_atom a) (Key_atom n)) eqn:Ea,
      (id_key_eqb (Key_atom b) (Key_atom n)) eqn:Eb;
      try apply id_key_eqb_eq in Ea; try apply id_key_eqb_eq in Eb; intros E1 E2.
    + congruence.
    + inversion E1; subst v. apply Hb in E2. lia.
    + inversion E2; subst v. apply Hb in E1. lia.
    + eapply Hs; eauto.
Qed.

(** X15: [assign_atoms_ids] raises TypeError when a molecule is missing.
    Otherwise it returns the first id plus the number of pairs plus the
    number of atoms of both molecules that are not nodes, and raises
    [unique_atom_count] by the number of ids it handed out; every id in
    [internal_ids] lies between the first id and the returned counter, and
    two different atoms have the same id only if they are the two atoms of
    a matched pair. *)
Theorem assign_atoms_ids_spec st unique_atom_count id_start :
  match top1 st, top2 st with
  | Some t1, Some t2 =>
      exists internal_ids id_counter,
        assign_atoms_ids st unique_atom_count id_start
        = Ok (internal_ids, id_counter, (unique_atom_count + (id_counter - id_start))%nat)
        /\ id_counter
           = (id_start + st_len st
              + length (List.filter (fun node => negb (contains_node st node)) t1)
              + length (List.filter (fun node => negb (contains_node st node)) t2))%nat
        /\ (forall k v, get_generated_atom_id internal_ids k = Ok v ->
                        (id_start <= v < id_counter)%nat)
        /\ (forall a b v, a <> b ->
                          get_generated_atom_id internal_ids (Key_atom a) = Ok v ->
                          get_generated_atom_id internal_ids (Key_atom b) = Ok v ->
                          In (a, b) (matched_pairs st) \/ In (b, a) (matched_pairs st))
  | _, _ => assign_atoms_ids st unique_atom_count id_start = Raise TypeError
  end.
Proof.
  unfold assign_atoms_ids.
  destruct (top1 st) as [t1|]; [|reflexivity].
  destruct (top2 st) as [t2|]; [|reflexivity].
  set (acc1 := fold_left assign_pair_id (matched_pairs st) ([], id_start)).
  set (acc2 := fold_left (assign_node_id st) t1 acc1).
  set (acc3 := fold_left (assign_node_id st) t2 acc2).
  assert (C1 : snd acc1 = (id_start + st_len st)%nat) by apply assign_pairs_counter.
  assert (C2 : snd acc2 = (snd acc1 + _)%nat) by apply assign_nodes_counter.
  assert (C3 : snd acc3 = (snd acc2 + _)%nat) by apply assign_nodes_counter.
  destruct (assign_pairs_invariant (matched_pairs st) id_start (matched_pairs st)
              ([], id_start)) as (B1 & S1); [auto | cbn; lia | discriminate | discriminate |].
  fold acc1 in B1, S1.
  destruct (assign_nodes_invariant st (matched_pairs st) id_start t1 acc1)
    as (B2 & S2); [lia | exact B1 | exact S1 |].
  fold acc2 in B2, S2.
  destruct (assign_nodes_invariant st (matched_pairs st) id_start t2 acc2)
    as (B3 & S3); [lia | exact B2 | exact S2 |].
  fold acc3 in B3, S3.
  destruct acc3 as [internal_ids id_counter] eqn:E3. cbn [fst snd] in *.
  exists internal_ids, id_counter. split; [reflexivity|].
  split; [lia|].
  unfold get_generated_atom_id, dict_lookup. split.
  - intros k v. specialize (B3 k v).
    destruct (dict_get id_key_eqb k internal_ids); [|discriminate].
    intros E. inversion E; subst. now apply B3.
  - intros a b v Hab. specialize (S3 a b v Hab).
    destruct (dict_get id_key_eqb (Key_atom a) internal_ids); [|discriminate].
    destruct (dict_get id_key_eqb (Key_atom b) internal_ids); [|discriminate].
    intros E1 E2. inversion E1; inversion E2; subst. now apply S3.
Qed.

(** The first loop leaves the keys of other pairs alone. *)
Lemma assign_pairs_untouched k l acc :
  (forall p, In p l -> k <> Key_pair p /\ k <> Key_atom (fst p) /\ k <> Key_atom (snd p)) ->
  dict_get id_key_eqb k (fst (fold_left assign_pair_id l acc))
  = dict_get id_key_eqb k (fst acc).
Proof.
  revert acc. induction l as [|[l0 r0] l IH]; intros [ids c] Hk; [reflexivity|].
  cbn [fold_left]. rewrite IH by (intros p Hp; apply Hk; now right).
  rewrite assign_pair_id_get.
  destruct (Hk (l0, r0) (or_introl eq_refl)) as (H1 & H2 & H3). cbn [fst snd] in *.
  rewrite (proj2 (eqb_neq id_key_eqb id_key_eqb_eq _ _) H1).
  rewrite (proj2 (eqb_neq id_key_eqb id_key_eqb_eq _ _) H2).
  rewrite (proj2 (eqb_neq id_key_eqb id_key_eqb_eq _ _) H3). reflexivity.
Qed.

(** The loops over the molecules leave the keys of the nodes alone. *)
Lemma assign_nodes_untouched st k l acc :
  (forall n, In n l -> k = Key_atom n -> contains_node st n = true) ->
  dict_get id_key_eqb k (fst (fold_left (assign_node_id st) l acc))
  = dict_get id_key_eqb k (fst acc).
Proof.
  revert acc. induction l as [|n l IH]; intros [ids c] Hk; [reflexivity|].
  cbn [fold_left]. rewrite IH by (intros n' Hn'; apply Hk; now right).
  rewrite assign_node_id_get. cbn [fst].
  destruct (contains_node st n) eqn:Ec; cbn [negb andb]; [reflexivity|].
  destruct (id_key_eqb k (Key_atom n)) eqn:Ek; [|reflexivity].
  apply id_key_eqb_eq in Ek. rewrite (Hk n (or_introl eq_refl) Ek) in Ec. discriminate.
Qed.

(** A key keeps having an id. *)
Lemma assign_nodes_keeps st k l acc :
  (exists v, dict_get id_key_eqb k (fst acc) = Some v) ->
  exists v, dict_get id_key_eqb k (fst (fold_left (assign_node_id st) l acc)) = Some v.
Proof.
  revert acc. induction l as [|n l IH]; intros [ids c] Hk; [exact Hk|].
  cbn [fold_left]. apply IH.
  rewrite assign_node_id_get.
  destruct (negb (contains_node st n) && id_key_eqb k (Key_atom n)); eauto.
Qed.

Lemma assign_nodes_covers st a l acc :
  In a l -> contains_node st a = false ->
  exists v, dict_get id_key_eqb (Key_atom a)
              (fst (fold_left (assign_node_id st) l acc)) = Some v.
Proof.
  revert acc. induction l as [|n l IH]; intros [ids c] Hin Hc; [destruct Hin|].
  cbn [fold_left]. destruct Hin as [->|Hin]; [|now apply IH].
  apply assign_nodes_keeps.
  rewrite assign_node_id_get.
  rewrite Hc. cbn [negb andb].
  rewrite (proj2 (id_key_eqb_eq _ _) eq_refl). eauto.
Qed.

(** The ids of the pairs after the first loop *)
Lemma assign_pairs_ids l acc :
  List.NoDup (map fst l) -> List.NoDup (map snd l) ->
  (forall p q, In p l -> In q l -> fst p <> snd q) ->
  forall i p, nth_error l i = Some p ->
    let ids := fst (fold_left assign_pair_id l acc) in
    dict_get id_key_eqb (Key_pair p) ids = Some (snd acc + i)%nat
    /\ dict_get id_key_eqb (Key_atom (fst p)) ids = Some (snd acc + i)%nat
    /\ dict_get id_key_eqb (Key_atom (snd p)) ids = Some (snd acc + i)%nat.
Proof.
  revert acc. induction l as [|[l0 r0] l IH]; intros [ids c] Hl Hr Hs i p Hi.
  { destruct i; discriminate. }
  inversion Hl as [|? ? Hl0 Hl']; subst. inversion Hr as [|? ? Hr0 Hr']; subst.
  cbn [fold_left]. destruct i as [|i].
  - inversion Hi; subst p. cbn [fst snd]. rewrite Nat.add_0_r.
    assert (Hn : forall q, In q l -> l0 <> fst q /\ r0 <> snd q /\ l0 <> snd q /\ r0 <> fst q).
    { intros q Hq. repeat split.
      - intros E. apply Hl0. rewrite E. now apply in_map.
      - intros E. apply Hr0. rewrite E. now apply in_map.
      - apply (Hs (l0, r0) q); [now left | now right].
      - intros E. apply (Hs q (l0, r0)); [now right | now left | now symmetry]. }
    rewrite !assign_pairs_untouched.
    + rewrite !assign_pair_id_get.
      rewrite !(proj2 (id_key_eqb_eq _ _) eq_refl), ?orb_true_r. now cbn.
    + intros q Hq. destruct (Hn q Hq) as (? & ? & ? & ?). repeat split; congruence.
    + intros q Hq. destruct (Hn q Hq) as (? & ? & ? & ?). repeat split; congruence.
    + intros q Hq. destruct (Hn q Hq) as (? & ? & ? & ?). repeat split; try congruence.
      intros E. inversion E. destruct q. cbn in *. congruence.
  - cbn [nth_error] in Hi.
    destruct (IH (assign_pair_id (ids, c) (l0, r0)) Hl' Hr'
                 (fun p q Hp Hq => Hs p q (or_intror Hp) (or_intror Hq)) i p Hi)
      as (H1 & H2 & H3).
    rewrite assign_pair_id_counter in H1, H2, H3. cbn [snd] in *.
    replace (c + S i)%nat with (S c + i)%nat by lia. auto.
Qed.

(** X16: on a well-formed topology with both molecules [assign_atoms_ids]
    gives the pair at position [i] of [matched_pairs] the id
    [id_start + i], and its two atoms the same id; every atom of the two
    molecules has an id afterwards. *)
Theorem assign_atoms_ids_pairs st t1 t2 unique_atom_count id_start :
  st_wf st -> top1 st = Some t1 -> top2 st = Some t2 ->
  exists internal_ids id_counter count,
    assign_atoms_ids st unique_atom_count id_start = Ok (internal_ids, id_counter, count)
    /\ (forall i left_atom right_atom,
          nth_error (matched_pairs st) i = Some (left_atom, right_atom) ->
          get_generated_atom_id internal_ids (Key_pair (left_atom, right_atom))
          = Ok (id_start + i)%nat
          /\ get_generated_atom_id internal_ids (Key_atom left_atom) = Ok (id_start + i)%nat
          /\ get_generated_atom_id internal_ids (Key_atom right_atom) = Ok (id_start + i)%nat)
    /\ (forall a, In a t1 \/ In a t2 ->
                  exists v, get_generated_atom_id internal_ids (Key_atom a) = Ok v).
Proof.
  intros Hwf H1 H2. unfold assign_atoms_ids. rewrite H1, H2.
  set (acc1 := fold_left assign_pair_id (matched_pairs st) ([], id_start)).
  set (acc2 := fold_left (assign_node_id st) t1 acc1).
  set (acc3 := fold_left (assign_node_id st) t2 acc2).
  assert (Hnode : forall k n, k = Key_atom n -> In n (nodes st) -> contains_node st n = true).
  { intros k n _ Hn. now apply contains_node_In; [apply (wf_nodes_NoDup _ Hwf)|]. }
  assert (Hkeep : forall k,
             (forall n, k = Key_atom n -> In n (nodes st)) ->
             dict_get id_key_eqb k (fst acc3) = dict_get id_key_eqb k (fst acc1)).
  { intros k Hk. unfold acc3, acc2.
    rewrite !assign_nodes_untouched; [reflexivity| |];
      intros n _ E; apply (Hnode k n E); now apply Hk. }
  assert (Hpairs : forall i p, nth_error (matched_pairs st) i = Some p ->
             dict_get id_key_eqb (Key_pair p) (fst acc3) = Some (id_start + i)%nat
             /\ dict_get id_key_eqb (Key_atom (fst p)) (fst acc3) = Some (id_start + i)%nat
             /\ dict_get id_key_eqb (Key_atom (snd p)) (fst acc3) = Some (id_start + i)%nat).
  { intros i p Hi.
    pose proof (nth_error_In _ _ Hi) as Hp.
    destruct (assign_pairs_ids (matched_pairs st) ([], id_start)
                (wf_left _ Hwf) (wf_right _ Hwf) (wf_sides _ Hwf) i p Hi) as (P1 & P2 & P3).
    fold acc1 in P1, P2, P3. cbn [snd] in P1, P2, P3.
    rewrite !Hkeep; [auto | | |].
    - intros n E. inversion E; subst n. apply (wf_nodes _ Hwf). eauto.
    - intros n E. inversion E; subst n. apply (wf_nodes _ Hwf). eauto.
    - intros n E. discriminate E. }
  destruct acc3 as [internal_ids id_counter] eqn:E3.
  do 3 eexists. split; [reflexivity|].
  unfold get_generated_atom_id, dict_lookup. cbn [fst] in *. split.
  - intros i l r Hi. destruct (Hpairs i (l, r) Hi) as (P1 & P2 & P3). cbn [fst snd] in *.
    now rewrite P1, P2, P3.
  - intros a Ha.
    assert (Hex : exists v, dict_get id_key_eqb (Key_atom a) internal_ids = Some v).
    { destruct (contains_node st a) eqn:Ec.
      - apply (contains_node_In st a (wf_nodes_NoDup _ Hwf)) in Ec.
        apply (wf_nodes _ Hwf) in Ec. destruct Ec as (p & Hp & E).
        apply In_nth_error in Hp. destruct Hp as (i & Hi).
        destruct (Hpairs i p Hi) as (_ & P2 & P3).
        destruct E as [->| ->]; eauto.
      - change internal_ids with (fst (internal_ids, id_counter)). rewrite <- E3.
        destruct Ha as [Ha|Ha].
        + unfold acc3. apply assign_nodes_keeps. unfold acc2.
          now apply assign_nodes_covers.
        + unfold acc3. now apply assign_nodes_covers. }
    destruct Hex as (v & ->). eauto.
Qed.

Lemma assign_atoms_ids_pairs_witness :
  exists internal_ids id_counter count,
    assign_atoms_ids Chain.both 0 1 = Ok (internal_ids, id_counter, count)
    /\ (forall i left_atom right_atom,
          nth_error (matched_pairs Chain.both) i = Some (left_atom, right_atom) ->
          get_generated_atom_id internal_ids (Key_pair (left_atom, right_atom))
          = Ok (1 + i)%nat
          /\ get_generated_atom_id internal_ids (Key_atom left_atom) = Ok (1 + i)%nat
          /\ get_generated_atom_id internal_ids (Key_atom right_atom) = Ok (1 + i)%nat)
    /\ (forall a, In a Chain.L \/ In a Chain.R ->
                  exists v, get_generated_atom_id internal_ids (Key_atom a) = Ok v).
Proof.
  apply (assign_atoms_ids_pairs Chain.both Chain.L Chain.R 0 1).
  - apply st_wfb_sound. vm_compute. reflexivity.
  - reflexivity.
  - reflexivity.
Defined.

(** ** The single-topology region *)

Lemma set_item_eqb_atom a y : set_item_eqb (Item_atom a) y = true <-> y = Item_atom a.
Proof.
  destruct y as [b| |]; simpl; [|split; discriminate|split; discriminate].
  rewrite atom_eqb_eq. split; congruence.
Qed.

Lemma py_in_item_atom a s : py_in set_item_eqb (Item_atom a) s = true <-> In (Item_atom a) s.
Proof.
  unfold py_in. rewrite existsb_exists. split.
  - intros (y & Hy & E). apply set_item_eqb_atom in E. now subst.
  - intros H. exists (Item_atom a). split; [exact H | now apply set_item_eqb_atom].
Qed.

Lemma set_add_item_atom a x s :
  In (Item_atom a) (set_add set_item_eqb x s) <-> x = Item_atom a \/ In (Item_atom a) s.
Proof.
  unfold set_add. destruct (py_in set_item_eqb x s) eqn:E.
  - split; [auto|]. intros [->|H]; [|exact H]. now apply py_in_item_atom.
  - rewrite in_app_iff. simpl. intuition congruence.
Qed.

(** The atoms in [single_top_set]: the atoms of the entries that are pairs *)
Lemma single_top_set_atoms a items acc :
  In (Item_atom a)
     (fold_left (fun single_top_set item =>
                   match item with
                   | Region_pair (left_, right_) =>
                       set_add set_item_eqb (Item_atom right_)
                         (set_add set_item_eqb (Item_atom left_) single_top_set)
                   | Region_entry left_ right_ =>
                       set_add set_item_eqb (Item_number right_)
                         (set_add set_item_eqb (Item_pair left_) single_top_set)
                   end) items acc)
  <-> In (Item_atom a) acc
      \/ exists p, In (Region_pair p) items /\ (a = fst p \/ a = snd p).
Proof.
  revert acc. induction items as [|item items IH]; intros acc; cbn [fold_left].
  { split; [auto|]. intros [H|(p & [] & _)]. exact H. }
  rewrite IH. destruct item as [[l r]|p q]; rewrite !set_add_item_atom; cbn [In]; split.
  - intros [[E|[E|H]]|(p & Hp & Ha)]; auto.
    + inversion E; subst a. right. exists (l, r). auto.
    + inversion E; subst a. right. exists (l, r). auto.
    + right. eauto.
  - intros [H|(p & [E|Hp] & Ha)]; auto.
    + inversion E; subst p. cbn in Ha. destruct Ha as [->| ->]; auto.
    + right. eauto.
  - intros [[E|[E|H]]|(p' & Hp & Ha)]; try discriminate; auto. right. eauto.
  - intros [H|(p' & [E|Hp] & Ha)]; try discriminate; auto. right. eauto.
Qed.

Lemma region_pairs st p :
  In (Region_pair p) (get_single_topology_region st)
  <-> In p (matched_pairs st ++ _removed_because_disjointed_cc st
            ++ map fst (_removed_pairs_with_charge_difference st)).
Proof.
  unfold get_single_topology_region. rewrite !in_app_iff, !in_map_iff. split.
  - intros [(q & E & Hq)|[[(q & E & Hq)|(e & E & _)]|(q & E & Hq)]];
      try discriminate; inversion E; subst; auto.
    right. right. apply in_map_iff in Hq. exact Hq.
  - intros [H|[H|H]]; eauto.
    + right. left. left. eauto.
    + right. right. exists p. split; [reflexivity|]. now apply in_map_iff.
Qed.

Section SetOfList.
Context {A : Type} (eqb : A -> A -> bool).
Hypothesis eqb_eq : forall x y, eqb x y = true <-> x = y.

Lemma set_of_list_fold (l acc : list A) :
  List.NoDup acc ->
  List.NoDup (fold_left (fun s x => set_add eqb x s) l acc)
  /\ forall x, In x (fold_left (fun s x => set_add eqb x s) l acc) <-> In x acc \/ In x l.
Proof using eqb_eq.
  revert acc. induction l as [|y l IH]; intros acc Hnd; cbn [fold_left].
  { split; [exact Hnd|]. intros x. simpl. tauto. }
  destruct (IH (set_add eqb y acc) (set_add_NoDup eqb eqb_eq y acc Hnd)) as (H1 & H2).
  split; [exact H1|]. intros x. rewrite H2, (set_add_In eqb eqb_eq). simpl.
  intuition congruence.
Qed.

Lemma set_of_list_NoDup (l : list A) : List.NoDup (set_of_list eqb l).
Proof using eqb_eq. apply set_of_list_fold. constructor. Qed.

Lemma set_of_list_In (l : list A) x : In x (set_of_list eqb l) <-> In x l.
Proof using eqb_eq.
  unfold set_of_list. rewrite (proj2 (set_of_list_fold l [] (List.NoDup_nil A))).
  simpl. tauto.
Qed.
End SetOfList.

(** X17: [get_single_topology_app] raises TypeError when a molecule is
    missing. Otherwise it returns, without duplicates, the atoms of the
    right molecule ([app]) and of the left molecule ([dis]) that are in no
    pair of [matched_pairs], [_removed_because_disjointed_cc] or
    [_removed_pairs_with_charge_difference]. The entries of
    [_removed_due_to_net_charge] do not count: whatever that list holds,
    the result is the same. *)
Theorem get_single_topology_app_spec st :
  match top1 st, top2 st with
  | Some t1, Some t2 =>
      exists app dis,
        get_single_topology_app st = Ok (app, dis)
        /\ List.NoDup app /\ List.NoDup dis
        /\ (forall a, In a app
              <-> In a t2
                  /\ ~ exists p,
                        In p (matched_pairs st ++ _removed_because_disjointed_cc st
                              ++ map fst (_removed_pairs_with_charge_difference st))
                        /\ (a = fst p \/ a = snd p))
        /\ (forall a, In a dis
              <-> In a t1
                  /\ ~ exists p,
                        In p (matched_pairs st ++ _removed_because_disjointed_cc st
                              ++ map fst (_removed_pairs_with_charge_difference st))
                        /\ (a = fst p \/ a = snd p))
        /\ forall removed, get_single_topology_app (set_removed_net st removed) = Ok (app, dis)
  | _, _ => get_single_topology_app st = Raise TypeError
  end.
Proof.
  destruct (top1 st) as [t1|] eqn:H1, (top2 st) as [t2|] eqn:H2;
    try (unfold get_single_topology_app, get_appearing_atoms, get_disappearing_atoms;
         rewrite ?H1, ?H2; reflexivity).
  assert (Hset : forall st0 a,
             py_in set_item_eqb (Item_atom a)
               (fold_left (fun single_top_set item =>
                   match item with
                   | Region_pair (left_, right_) =>
                       set_add set_item_eqb (Item_atom right_)
                         (set_add set_item_eqb (Item_atom left_) single_top_set)
                   | Region_entry left_ right_ =>
                       set_add set_item_eqb (Item_number right_)
                         (set_add set_item_eqb (Item_pair left_) single_top_set)
                   end) (get_single_topology_region st0) []) = true
             <-> exists p,
                   In p (matched_pairs st0 ++ _removed_because_disjointed_cc st0
                         ++ map fst (_removed_pairs_with_charge_difference st0))
                   /\ (a = fst p \/ a = snd p)).
  { intros st0 a. rewrite py_in_item_atom, single_top_set_atoms. split.
    - intros [[]|(p & Hp & Ha)]. exists p. split; [now apply region_pairs | exact Ha].
    - intros (p & Hp & Ha). right. exists p. split; [now apply region_pairs | exact Ha]. }
  unfold get_single_topology_app, get_appearing_atoms, get_disappearing_atoms.
  rewrite H1, H2, !res_bind_ok.
  do 2 eexists. split; [reflexivity|].
  split; [apply (set_of_list_NoDup atom_eqb atom_eqb_eq)|].
  split; [apply (set_of_list_NoDup atom_eqb atom_eqb_eq)|].
  split; [|split].
  - intros a. rewrite (set_of_list_In atom_eqb atom_eqb_eq), !filter_In, !negb_true_iff.
    rewrite <- !not_true_iff_false, Hset, existsb_exists. split.
    + intros ((Ha & _) & Hn). auto.
    + intros (Ha & Hn). split; [split; [exact Ha|]|exact Hn].
      intros (p & Hp & E). apply atom_eqb_eq in E. apply Hn. exists p. split; [|auto].
      apply in_app_iff. now left.
  - intros a. rewrite (set_of_list_In atom_eqb atom_eqb_eq), !filter_In, !negb_true_iff.
    rewrite <- !not_true_iff_false, Hset, existsb_exists. split.
    + intros ((Ha & _) & Hn). auto.
    + intros (Ha & Hn). split; [split; [exact Ha|]|exact Hn].
      intros (p & Hp & E). apply atom_eqb_eq in E. apply Hn. exists p. split; [|auto].
      apply in_app_iff. now left.
  - intros removed. cbn [top1 top2 set_removed_net matched_pairs]. rewrite H1, H2, !res_bind_ok.
    do 2 f_equal; f_equal; apply filter_ext; intros a; f_equal;
      apply eq_true_iff_eq; rewrite !Hset; reflexivity.
Qed.

(** ** What was matched *)

(** [is_or_was_matched] looks through the matched pairs and three of the
    removal logs. *)
Lemma is_or_was_matched_alt st n1 n2 :
  is_or_was_matched st n1 n2
  = existsb (fun '(atom1, atom2) => String.eqb (name atom1) n1 && String.eqb (name atom2) n2)
      (matched_pairs st ++ _removed_because_disjointed_cc st
       ++ map fst (_removed_due_to_net_charge st)
       ++ map fst (_removed_pairs_with_charge_difference st)).
Proof.
  unfold is_or_was_matched, contains_atom_name_pair. rewrite !existsb_app.
  cbn [existsb]. rewrite orb_false_r.
  match goal with
  | |- (if ?b then _ else _) = ?c || _ =>
      replace c with b by reflexivity; destruct b; reflexivity
  end.
Qed.

Lemma existsb_same_members {A : Type} (f : A -> bool) l l' :
  (forall x, In x l <-> In x l') -> existsb f l = existsb f l'.
Proof.
  intros H. apply eq_true_iff_eq. rewrite !existsb_exists.
  split; intros (x & Hx & E); exists x; split; auto; now apply H.
Qed.

Lemma remove_node_pair_members st p st1 :
  remove_node_pair st p = Ok st1 ->
  forall x, In x (matched_pairs st) <-> x = p \/ In x (matched_pairs st1).
Proof.
  intros Hr x.
  destruct (list_remove_In pair_eqb pair_eqb_eq _ _ _ (remove_node_pair_pairs _ _ _ Hr))
    as (Hw & _ & Hsub & Hkeep).
  destruct (decide (x = p)) as [->|Hne]; [tauto|].
  split; [intros H; right; now apply Hkeep | intros [H|H]; [contradiction | now apply Hsub]].
Qed.

Lemma remove_worst_charge_match_was_matched st st' d n1 n2 :
  remove_worst_charge_match st = Ok (st', d) ->
  is_or_was_matched st' n1 n2 = is_or_was_matched st n1 n2.
Proof.
  unfold remove_worst_charge_match. intros H.
  apply bind_Ok in H. destruct H as (m & _ & H).
  destruct (Qeq_bool m 0); [now inversion H|].
  destruct (List.filter _ (matched_pairs st)) as [|worst rest] eqn:Ef; [discriminate|].
  apply bind_Ok in H. destruct H as (st1 & Hr & H). inversion H; subst st' d. clear H.
  rewrite !is_or_was_matched_alt. apply existsb_same_members. intros x.
  destruct (remove_node_pair_logs _ _ _ Hr) as (L1 & L2 & L3 & _).
  cbn [matched_pairs _removed_because_disjointed_cc _removed_due_to_net_charge
         _removed_pairs_with_charge_difference set_removed_net].
  rewrite L1, L2, L3, map_app, !in_app_iff, (remove_node_pair_members _ _ _ Hr x).
  cbn [map fst In]. intuition.
Qed.

Lemma refine_step_was_matched atol st p st' n1 n2 :
  refine_step atol false st p = Ok st' ->
  is_or_was_matched st' n1 n2 = is_or_was_matched st n1 n2.
Proof.
  destruct p as [a b]. unfold refine_step.
  destruct (AtomNode_eq a b atol); [now inversion 1|].
  rewrite res_bind_ok. intros H.
  apply bind_Ok in H. destruct H as (st1 & Hr & H). inversion H; subst st'. clear H.
  rewrite !is_or_was_matched_alt. apply existsb_same_members. intros x.
  destruct (remove_node_pair_logs _ _ _ Hr) as (L1 & L2 & L3 & _).
  cbn [matched_pairs _removed_because_disjointed_cc _removed_due_to_net_charge
         _removed_pairs_with_charge_difference set_removed_q].
  rewrite L1, L2, L3, map_app, !in_app_iff, (remove_node_pair_members _ _ _ Hr x).
  cbn [map fst In]. intuition.
Qed.

(** X18: the two charge filters of [superimpose_topologies] keep the answer
    of [is_or_was_matched] for every pair of atom names: that of
    [remove_worst_charge_match], that of the net-charge loop built on it,
    and that of [refine_against_charges(atol)]. *)
Theorem is_or_was_matched_kept st n1 n2 :
  (forall st' d, remove_worst_charge_match st = Ok (st', d) ->
                 is_or_was_matched st' n1 n2 = is_or_was_matched st n1 n2)
  /\ (forall fuel thr st' kept, net_charge_while fuel thr st = Ok (st', kept) ->
                 is_or_was_matched st' n1 n2 = is_or_was_matched st n1 n2)
  /\ (forall atol st', refine_against_charges st atol false = Ok st' ->
                 is_or_was_matched st' n1 n2 = is_or_was_matched st n1 n2).
Proof.
  split; [|split].
  - intros st' d. apply remove_worst_charge_match_was_matched.
  - intros fuel thr. revert st. induction fuel as [|fuel IH]; intros st st' kept H;
      [discriminate|].
    cbn [net_charge_while] in H.
    destruct (Qle_bool (Qabs (get_net_charge st)) thr); cbn [negb] in H.
    { now inversion H. }
    apply bind_Ok in H. destruct H as ([st1 ld] & Hr & H).
    destruct (Qeq_bool ld 0); [discriminate|].
    rewrite <- (remove_worst_charge_match_was_matched _ _ _ n1 n2 Hr).
    destruct (st_len st1 =? 0)%nat; [now inversion H|].
    exact (IH _ _ _ H).
  - intros atol st' H. unfold refine_against_charges in H.
    apply bind_Ok in H. destruct H as (st1 & Hl & H). inversion H; subst st'. clear H.
    transitivity (is_or_was_matched st1 n1 n2).
    + rewrite !is_or_was_matched_alt. apply existsb_same_members. intros x.
      cbn [matched_pairs _removed_because_disjointed_cc _removed_due_to_net_charge
             _removed_pairs_with_charge_difference set_removed_q].
      rewrite !in_app_iff.
      assert (P : Permutation
                    (map fst (py_sort charge_diff_ge (_removed_pairs_with_charge_difference st1)))
                    (map fst (_removed_pairs_with_charge_difference st1)))
        by apply Permutation_map, py_sort_perm.
      split; (intros [H|[H|[H|H]]]; auto; right; right; right);
        [apply (Permutation_in _ P H) | apply (Permutation_in _ (Permutation_sym P) H)].
    + revert Hl.
      apply (foldM_invariant
               (fun s => is_or_was_matched s n1 n2 = is_or_was_matched st n1 n2));
        [|reflexivity].
      intros acc p acc' Hacc Hstep.
      now rewrite (refine_step_was_matched _ _ _ _ n1 n2 Hstep).
Qed.

Lemma is_or_was_matched_kept_witness :
  exists st', refine_against_charges Charges.st (1 # 10) false = Ok st'
              /\ contains_atom_name_pair st' "C3" "C13" = false
              /\ is_or_was_matched st' "C3" "C13" = true.
Proof.
  eexists. split; [vm_compute; reflexivity|]. split; [vm_compute; reflexivity|].
  rewrite (proj2 (proj2 (is_or_was_matched_kept Charges.st "C3" "C13")) (1 # 10)%Q _
             ltac:(vm_compute; reflexivity)).
  vm_compute. reflexivity.
Defined.

(** ** Atom names *)

Lemma py_str_inj z z' : py_str z = py_str z' -> z = z'.
Proof.
  unfold py_str. intros H.
  apply (f_equal NilEmpty.int_of_string) in H. rewrite !NilEmpty.isi in H.
  inversion H as [E]. apply (f_equal Z.of_int) in E. now rewrite !DecimalZ.of_to in E.
Qed.

Lemma substring_prefix p d : substring 0 (String.length p) (String.append p d) = p.
Proof.
  induction p as [|c p IH]; simpl; [now destruct d | now rewrite IH].
Qed.

Lemma substring_all d : substring 0 (String.length d) d = d.
Proof. induction d as [|c d IH]; simpl; [reflexivity | now rewrite IH]. Qed.

Lemma substring_suffix p d :
  substring (String.length p) (String.length (String.append p d) - String.length p)
            (String.append p d) = d.
Proof.
  induction p as [|c p IH]; simpl.
  - rewrite Nat.sub_0_r. apply substring_all.
  - exact IH.
Qed.

Lemma py_last_app_S (l1 l2 : list nat) :
  py_last (l1 ++ map S l2)
  = match py_last l2 with
    | Ok j => Ok (S j)
    | Raise _ => py_last l1
    end.
Proof.
  unfold py_last. rewrite rev_app_distr, <- map_rev.
  destruct (rev l2); reflexivity.
Qed.

Lemma unique_names (l : list string) :
  (length (set_of_list String.eqb l) =? length l)%nat = true <-> List.NoDup l.
Proof.
  rewrite Nat.eqb_eq. split.
  - intros E. apply NoDup_incl_NoDup with (l := set_of_list String.eqb l).
    + apply (set_of_list_NoDup String.eqb String.eqb_eq).
    + lia.
    + intros x. apply (set_of_list_In String.eqb String.eqb_eq).
  - intros H. apply Permutation_length, NoDup_Permutation;
      [apply (set_of_list_NoDup String.eqb String.eqb_eq) | exact H |].
    intros x. apply (set_of_list_In String.eqb String.eqb_eq).
Qed.

Lemma no_overlap (r l : list string) :
  (0 <? length (set_inter String.eqb (set_of_list String.eqb r)
                          (set_of_list String.eqb l)))%nat = false
  <-> forall x, In x r -> ~ In x l.
Proof.
  rewrite Nat.ltb_ge. unfold set_inter.
  assert (M : forall x, In x (List.filter
                                (fun x => py_in String.eqb x (set_of_list String.eqb l))
                                (set_of_list String.eqb r))
                        <-> In x r /\ In x l).
  { intros x. rewrite filter_In, (py_in_In String.eqb String.eqb_eq),
      !(set_of_list_In String.eqb String.eqb_eq). reflexivity. }
  destruct (List.filter _ _) as [|y rest].
  - split; [|simpl; lia]. intros _ x Hr Hl. now apply (M x).
  - split.
    + simpl. lia.
    + intros H. exfalso. destruct (proj1 (M y) (or_introl eq_refl)) as (Hr & Hl).
      now apply (H y).
Qed.

Lemma NoDup_app_disjoint {A : Type} (l l' : list A) :
  List.NoDup (l ++ l') -> forall x, In x l -> ~ In x l'.
Proof.
  induction l as [|a l IH]; simpl; intros H x Hx Hx'; [contradiction|].
  inversion H as [|? ? Ha Hnd]; subst. destruct Hx as [->|Hx]; [|now apply (IH Hnd x)].
  apply Ha. apply in_app_iff. now right.
Qed.

Lemma counter_get_set q p v (d : name_counter) :
  counter_get q (dict_set String.eqb p v d) = if String.eqb q p then v else counter_get q d.
Proof.
  unfold counter_get. destruct (String.eqb q p) eqn:E.
  - apply String.eqb_eq in E. subst.
    now rewrite (dict_get_set_same String.eqb String.eqb_eq).
  - apply String.eqb_neq in E.
    now rewrite (dict_get_set_other String.eqb String.eqb_eq) by exact E.
Qed.

Section NamesFacts.
Variable isalpha : ascii -> bool.
Variable py_int : string -> option Z.
(** The digits and the minus sign are no letters, and [int] reads what
    [str] prints. *)
Hypothesis digits_no_letters :
  forall c, In c (list_ascii_of_string "-0123456789") -> isalpha c = false.
Hypothesis int_of_str : forall z, py_int (py_str z) = Some z.


Lemma alpha_positions_shift i s :
  alpha_positions isalpha (S i) s = map S (alpha_positions isalpha i s).
Proof using Type.
  revert i. induction s as [|c s IH]; intros i; simpl; [reflexivity|].
  rewrite map_app, IH. now destruct (isalpha c).
Qed.

Lemma split_name_None s : (split_name isalpha) s = None <-> (has_letter isalpha) s = false.
Proof using Type.
  unfold has_letter. induction s as [|c s IH]; simpl; [tauto|].
  destruct ((split_name isalpha) s) as [[p d]|].
  - split; [discriminate|]. intros H. apply orb_false_iff in H.
    destruct H as (_ & H). apply IH in H. discriminate.
  - rewrite (proj1 IH eq_refl), orb_false_r. destruct (isalpha c); split; congruence.
Qed.

Lemma ends_alpha_cons c p : p <> EmptyString -> (ends_alpha isalpha) (String c p) = (ends_alpha isalpha) p.
Proof using Type. destruct p; [congruence | reflexivity]. Qed.

Lemma ends_alpha_nonempty p : (ends_alpha isalpha) p = true -> p <> EmptyString.
Proof using Type. now destruct p. Qed.

Lemma split_name_sound s p d :
  (split_name isalpha) s = Some (p, d) ->
  s = String.append p d /\ (ends_alpha isalpha) p = true /\ (no_alpha isalpha) d = true.
Proof using Type.
  revert p d. induction s as [|c s IH]; intros p d; simpl; [discriminate|].
  destruct ((split_name isalpha) s) as [[p' d']|] eqn:E.
  - intros H. inversion H; subst. destruct (IH _ _ eq_refl) as (-> & H2 & H3).
    split; [reflexivity|]. split; [|exact H3].
    rewrite ends_alpha_cons; [exact H2 | now apply ends_alpha_nonempty].
  - destruct (isalpha c) eqn:Ec; [|discriminate]. intros H. inversion H; subst.
    split; [reflexivity|]. split; [exact Ec|].
    unfold no_alpha. apply split_name_None in E.
    now rewrite E.
Qed.

Lemma split_name_complete p d :
  (ends_alpha isalpha) p = true -> (no_alpha isalpha) d = true -> (split_name isalpha) (String.append p d) = Some (p, d).
Proof using Type.
  intros Hp Hd. induction p as [|c p IH]; [discriminate|].
  destruct p as [|c' p'].
  - change (String.append (String c EmptyString) d) with (String c d).
    cbn [split_name ends_alpha] in *.
    unfold no_alpha in Hd. apply negb_true_iff in Hd.
    apply split_name_None in Hd. now rewrite Hd, Hp.
  - change (String.append (String c (String c' p')) d)
      with (String c (String.append (String c' p') d)).
    cbn [split_name]. now rewrite (IH Hp).
Qed.

Lemma split_name_unique p d p' d' :
  (ends_alpha isalpha) p = true -> (no_alpha isalpha) d = true -> (ends_alpha isalpha) p' = true -> (no_alpha isalpha) d' = true ->
  String.append p d = String.append p' d' -> p = p' /\ d = d'.
Proof using Type.
  intros H1 H2 H3 H4 E.
  pose proof (split_name_complete p d H1 H2) as S1.
  rewrite E, (split_name_complete p' d' H3 H4) in S1. now inversion S1.
Qed.

Lemma py_str_no_alpha z : (no_alpha isalpha) (py_str z) = true.
Proof using digits_no_letters.
  assert (U : forall d, (no_alpha isalpha) (NilEmpty.string_of_uint d) = true).
  { unfold no_alpha, has_letter.
    induction d; simpl; [reflexivity| | | | | | | | | |];
      apply negb_true_iff, orb_false_iff;
      (split; [apply digits_no_letters; simpl; tauto | now apply negb_true_iff]). }
  unfold py_str. destruct (Z.to_int z) as [d|d]; simpl; [apply U|].
  unfold no_alpha, has_letter. simpl.
  apply negb_true_iff, orb_false_iff.
  split; [apply digits_no_letters; simpl; tauto | apply negb_true_iff, U].
Qed.

Lemma after_letters_split s :
  (after_letters isalpha) s = match (split_name isalpha) s with
                    | Some (p, _) => Ok (String.length p)
                    | None => Raise IndexError
                    end.
Proof using Type.
  unfold after_letters. induction s as [|c s IH]; [reflexivity|].
  cbn [alpha_positions split_name].
  rewrite alpha_positions_shift, py_last_app_S.
  destruct ((split_name isalpha) s) as [[p d]|].
  - destruct (py_last (alpha_positions isalpha 0 s)) as [j|e]; [|discriminate].
    rewrite res_bind_ok in IH. inversion IH as [E]. rewrite res_bind_ok.
    simpl. now rewrite E.
  - destruct (py_last (alpha_positions isalpha 0 s)) as [j|e]; [discriminate|].
    destruct (isalpha c); reflexivity.
Qed.

Lemma rename_step_split ren (nc : name_counter) a :
  (rename_step isalpha) (ren, nc) a
  = match (split_name isalpha) (name a) with
    | Some (p, _) =>
        Ok (ren ++ [set_name a (String.append p (py_str (counter_get p nc + 1)))],
            dict_set String.eqb p (counter_get p nc + 1)%Z nc)
    | None => Raise IndexError
    end.
Proof using Type.
  unfold rename_step. rewrite after_letters_split.
  destruct ((split_name isalpha) (name a)) as [[p d]|] eqn:E; [|reflexivity].
  rewrite res_bind_ok. destruct (split_name_sound _ _ _ E) as (-> & _ & _).
  now rewrite substring_prefix.
Qed.

Lemma counter_step_split (nc : name_counter) a :
  (counter_step isalpha py_int) nc a
  = match (split_name isalpha) (name a) with
    | Some (p, d) =>
        match py_int d with
        | Some z => Ok (dict_set String.eqb p (Z.max (counter_get p nc) z) nc)
        | None => Raise ValueError
        end
    | None => Raise IndexError
    end.
Proof using Type.
  unfold counter_step. rewrite after_letters_split.
  destruct ((split_name isalpha) (name a)) as [[p d]|] eqn:E; [|reflexivity].
  rewrite res_bind_ok. destruct (split_name_sound _ _ _ E) as (-> & _ & _).
  now rewrite substring_prefix, substring_suffix.
Qed.

Lemma format_split a rest :
  _is_correct_atom_name_format isalpha py_int (a :: rest)
  = match (split_name isalpha) (name a) with
    | Some (p, d) =>
        match py_int d with
        | Some _ => _is_correct_atom_name_format isalpha py_int rest
        | None => Ok false
        end
    | None => Raise IndexError
    end.
Proof using Type.
  cbn [_is_correct_atom_name_format]. rewrite after_letters_split.
  destruct ((split_name isalpha) (name a)) as [[p d]|] eqn:E; [|reflexivity].
  rewrite res_bind_ok. destruct (split_name_sound _ _ _ E) as (-> & Hp & _).
  rewrite substring_prefix, substring_suffix.
  apply ends_alpha_nonempty in Hp. destruct p; [congruence|]. reflexivity.
Qed.
Lemma names_below_step (d : name_counter) names p v :
  (counter_get p d <= v)%Z -> names_below isalpha d names ->
  names_below isalpha (dict_set String.eqb p v d) names.
Proof using Type.
  intros Hv H x q k Hx E Hq. rewrite counter_get_set.
  specialize (H x q k Hx E Hq).
  destruct (String.eqb q p) eqn:Eq; [|exact H].
  apply String.eqb_eq in Eq. subst. lia.
Qed.

(** The loop of [_rename_ligand]: the new names differ from each other and
    from the names the counter knows. *)
Lemma rename_loop (known : list string) atoms ren (d : name_counter) :
  names_below isalpha d (known ++ map name ren) ->
  List.NoDup (map name ren) ->
  (forall x, In x (map name ren) -> ~ In x known) ->
  forallb (fun a => has_letter isalpha (name a)) atoms = true ->
  exists new d',
    foldM (rename_step isalpha) atoms (ren, d) = Ok (ren ++ new, d')
    /\ names_below isalpha d' (known ++ map name (ren ++ new))
    /\ List.NoDup (map name (ren ++ new))
    /\ (forall x, In x (map name (ren ++ new)) -> ~ In x known)
    /\ (forall q, (counter_get q d <= counter_get q d')%Z)
    /\ Forall2 (fun a a' =>
                  renamed a a'
                  /\ exists p number k,
                       name a = String.append p number
                       /\ ends_alpha isalpha p = true /\ no_alpha isalpha number = true
                       /\ name a' = String.append p (py_str k)
                       /\ (counter_get p d < k <= counter_get p d')%Z)
               atoms new.
Proof using digits_no_letters.
  revert ren d. induction atoms as [|a atoms IH]; intros ren d Hb Hnd Hk Hall.
  { exists [], d. rewrite app_nil_r. cbn [foldM].
    split; [reflexivity|]. split; [exact Hb|]. split; [exact Hnd|]. split; [exact Hk|].
    split; [intros q; lia | constructor]. }
  cbn [forallb] in Hall. apply andb_true_iff in Hall. destruct Hall as (Ha & Hall).
  cbn [foldM]. rewrite rename_step_split.
  destruct (split_name isalpha (name a)) as [[p number]|] eqn:Es.
  2:{ apply split_name_None in Es. congruence. }
  destruct (split_name_sound _ _ _ Es) as (En & Hp & Hnum).
  rewrite res_bind_ok.
  set (k := (counter_get p d + 1)%Z).
  set (a' := set_name a (String.append p (py_str k))).
  set (d1 := dict_set String.eqb p k d).
  assert (Hfresh : ~ In (name a') (known ++ map name ren)).
  { intros Hin. specialize (Hb (name a') p k Hin eq_refl Hp). unfold k in Hb. lia. }
  assert (Hmono : forall q, (counter_get q d <= counter_get q d1)%Z).
  { intros q. unfold d1. rewrite counter_get_set.
    destruct (String.eqb q p) eqn:Eq; [|lia].
    apply String.eqb_eq in Eq. subst. unfold k. lia. }
  destruct (IH (ren ++ [a']) d1) as (new & d' & Hf & Hb' & Hnd' & Hk' & Hm' & HF).
  - intros x q j Hx E Hq. rewrite map_app, app_assoc in Hx.
    apply in_app_iff in Hx. destruct Hx as [Hx|[Hx|[]]].
    + exact (names_below_step d _ p k ltac:(unfold k; lia) Hb x q j Hx E Hq).
    + subst x. cbn [name a' set_name] in E.
      destruct (split_name_unique p (py_str k) q (py_str j) Hp (py_str_no_alpha k) Hq
                  (py_str_no_alpha j) E) as (<- & Ej).
      apply py_str_inj in Ej. subst j. unfold d1. rewrite counter_get_set, String.eqb_refl. lia.
  - rewrite map_app. apply List.NoDup_app; [exact Hnd | |].
    + constructor; [intros []|constructor].
    + intros x Hx [<-|[]]. apply Hfresh. apply in_app_iff. now right.
  - intros x Hx Hkn. rewrite map_app in Hx. apply in_app_iff in Hx.
    destruct Hx as [Hx|[<-|[]]]; [now apply (Hk x)|].
    apply Hfresh. apply in_app_iff. now left.
  - exact Hall.
  - exists (a' :: new), d'. rewrite <- app_assoc in Hf, Hb', Hnd', Hk'. cbn [app] in *.
    split; [exact Hf|]. split; [exact Hb'|]. split; [exact Hnd'|]. split; [exact Hk'|].
    split; [intros q; specialize (Hmono q); specialize (Hm' q); lia|].
    constructor.
    + split; [reflexivity|]. exists p, number, k.
      split; [exact En|]. split; [exact Hp|]. split; [exact Hnum|]. split; [reflexivity|].
      specialize (Hm' p). unfold d1 in Hm'. rewrite counter_get_set, String.eqb_refl in Hm'.
      unfold k in *. lia.
    + eapply Forall2_impl; [|exact HF]. intros b b' (Hr & q & num & j & H1 & H2 & H3 & H4 & H5).
      split; [exact Hr|]. exists q, num, j. repeat split; auto; try lia.
      specialize (Hmono q). lia.
Qed.

Lemma rename_loop_fails atoms acc :
  forallb (fun a => has_letter isalpha (name a)) atoms = false ->
  foldM (rename_step isalpha) atoms acc = Raise IndexError.
Proof using Type.
  revert acc. induction atoms as [|a atoms IH]; intros [ren d] H; [discriminate|].
  cbn [foldM forallb] in *. rewrite rename_step_split.
  destruct (split_name isalpha (name a)) as [[p number]|] eqn:Es; [|reflexivity].
  rewrite res_bind_ok. apply IH.
  destruct (has_letter isalpha (name a)) eqn:E; [exact H|].
  apply split_name_None in E. congruence.
Qed.

(** What [_is_correct_atom_name_format] answers *)
Lemma format_cases atoms :
  if forallb (fun a => has_letter isalpha (name a)) atoms
  then exists b, _is_correct_atom_name_format isalpha py_int atoms = Ok b
                 /\ (b = true ->
                     Forall (fun a => exists p number z,
                                        split_name isalpha (name a) = Some (p, number)
                                        /\ py_int number = Some z) atoms)
  else _is_correct_atom_name_format isalpha py_int atoms = Raise IndexError
       \/ _is_correct_atom_name_format isalpha py_int atoms = Ok false.
Proof using Type.
  induction atoms as [|a atoms IH]; [exists true; split; [reflexivity | constructor]|].
  rewrite format_split. cbn [forallb].
  destruct (split_name isalpha (name a)) as [[p number]|] eqn:Es.
  - assert (E : has_letter isalpha (name a) = true).
    { apply not_false_iff_true. intros E. apply split_name_None in E. congruence. }
    rewrite E. cbn [andb].
    destruct (py_int number) as [z|] eqn:Ez.
    + destruct (forallb _ atoms); [|exact IH].
      destruct IH as (b & Hb & HF). exists b. split; [exact Hb|].
      intros ->. constructor; [eauto | auto].
    + destruct (forallb _ atoms); [|now right].
      exists false. split; [reflexivity | discriminate].
  - apply split_name_None in Es. rewrite Es. now left.
Qed.

(** The loop of [_get_atom_names_counter] on names of the right format *)
Lemma counter_loop atoms (d : name_counter) known :
  names_below isalpha d known ->
  Forall (fun a => exists p number z,
                     split_name isalpha (name a) = Some (p, number)
                     /\ py_int number = Some z) atoms ->
  exists d', foldM (counter_step isalpha py_int) atoms d = Ok d'
             /\ names_below isalpha d' (known ++ map name atoms).
Proof using digits_no_letters int_of_str.
  revert d known. induction atoms as [|a atoms IH]; intros d known Hb HF.
  { exists d. rewrite app_nil_r. now split. }
  inversion HF as [|? ? (p & number & z & Es & Ez) HF']; subst.
  cbn [foldM]. rewrite counter_step_split, Es, Ez, res_bind_ok.
  destruct (split_name_sound _ _ _ Es) as (En & Hp & Hnum).
  destruct (IH (dict_set String.eqb p (Z.max (counter_get p d) z) d) (known ++ [name a]))
    as (d' & Hf & Hb'); [|exact HF'|].
  - intros x q j Hx E Hq. apply in_app_iff in Hx. destruct Hx as [Hx|[Hx|[]]].
    + exact (names_below_step d _ p (Z.max (counter_get p d) z) ltac:(lia) Hb x q j Hx E Hq).
    + subst x. rewrite En in E.
      destruct (split_name_unique p number q (py_str j) Hp Hnum Hq (py_str_no_alpha j) E)
        as (<- & Ej).
      subst number. rewrite int_of_str in Ez. inversion Ez; subst.
      rewrite counter_get_set, String.eqb_refl. lia.
  - exists d'. split; [exact Hf|]. now rewrite <- app_assoc in Hb'.
Qed.

Lemma Forall2_renamed_refl l : Forall2 renamed l l.
Proof using Type.
  induction l as [|a l IH]; constructor; [|exact IH]. now destruct a.
Qed.

(** X19: [_rename_ligand] raises IndexError when the name of an atom has no
    letter. Otherwise every atom gets the name made of its letters part
    (its old name up to the last letter) and a number above the counter of
    that letters part, the new names differ from each other, and nothing but
    the names changes. *)
Theorem rename_ligand_spec atoms (name_counter_ : option name_counter) :
  List.NoDup atoms ->
  if forallb (fun a => has_letter isalpha (name a)) atoms
  then exists atoms' d',
      _rename_ligand isalpha atoms name_counter_ = Ok (atoms', d')
      /\ List.NoDup (map name atoms')
      /\ Forall2 (fun a a' =>
                    renamed a a'
                    /\ exists p number k,
                         name a = String.append p number
                         /\ ends_alpha isalpha p = true /\ no_alpha isalpha number = true
                         /\ name a' = String.append p (py_str k)
                         /\ (counter_get p (match name_counter_ with
                                            | Some d => d
                                            | None => []
                                            end) < k <= counter_get p d')%Z)
                 atoms atoms'
  else _rename_ligand isalpha atoms name_counter_ = Raise IndexError.
Proof using digits_no_letters.
  intros _. unfold _rename_ligand.
  destruct (forallb _ atoms) eqn:Hall; [|now apply rename_loop_fails].
  destruct (rename_loop [] atoms [] (match name_counter_ with Some d => d | None => [] end))
    as (new & d' & Hf & _ & Hnd & _ & _ & HF).
  - intros x p k [].
  - constructor.
  - intros x [].
  - exact Hall.
  - exists new, d'. cbn [app] in *. auto.
Qed.

(** X20: [rename_ligands] raises IndexError when the name of an atom of
    either molecule has no letter. Otherwise it returns, and afterwards
    the names of the atoms of the two molecules all differ; nothing but
    names changes, and no name changes when the names all differ already
    and have the format letters plus number. *)
Theorem rename_ligands_unique l_nodes r_nodes :
  List.NoDup (l_nodes ++ r_nodes) ->
  if forallb (fun a => has_letter isalpha (name a)) (l_nodes ++ r_nodes)
  then exists l_nodes' r_nodes',
      rename_ligands isalpha py_int l_nodes r_nodes = Ok (l_nodes', r_nodes')
      /\ List.NoDup (map name (l_nodes' ++ r_nodes'))
      /\ Forall2 renamed l_nodes l_nodes' /\ Forall2 renamed r_nodes r_nodes'
      /\ (List.NoDup (map name (l_nodes ++ r_nodes)) ->
          _is_correct_atom_name_format isalpha py_int l_nodes = Ok true ->
          _is_correct_atom_name_format isalpha py_int r_nodes = Ok true ->
          l_nodes' = l_nodes /\ r_nodes' = r_nodes)
  else rename_ligands isalpha py_int l_nodes r_nodes = Raise IndexError.
Proof using digits_no_letters int_of_str.
  intros _. rewrite forallb_app. unfold rename_ligands.
  pose proof (format_cases l_nodes) as Fl. pose proof (format_cases r_nodes) as Fr.
  destruct (forallb _ l_nodes) eqn:Hl; cbn [andb].
  2:{ destruct Fl as [->| ->]; [reflexivity|]. rewrite res_bind_ok, orb_true_r.
      unfold _rename_ligand. now rewrite (rename_loop_fails _ _ Hl). }
  destruct Fl as (bl & -> & Fl). rewrite res_bind_ok.
  (* the left molecule *)
  assert (L : exists l' dl,
             (if negb (length (set_of_list String.eqb (map name l_nodes))
                       =? length (map name l_nodes))%nat || negb bl
              then '(l_nodes0, name_counter_l_nodes) ← _rename_ligand isalpha l_nodes None;
                   Ok (l_nodes0, map name l_nodes0, name_counter_l_nodes)
              else name_counter_l_nodes ← _get_atom_names_counter isalpha py_int l_nodes;
                   Ok (l_nodes, map name l_nodes, name_counter_l_nodes))
             = Ok (l', map name l', dl)
             /\ names_below isalpha dl (map name l')
             /\ List.NoDup (map name l') /\ Forall2 renamed l_nodes l'
             /\ (List.NoDup (map name l_nodes) -> bl = true -> l' = l_nodes)).
  { destruct (length (set_of_list String.eqb (map name l_nodes))
              =? length (map name l_nodes))%nat eqn:Eu; cbn [negb orb].
    - destruct bl; cbn [negb].
      + destruct (counter_loop l_nodes [] [] ltac:(intros x p k []) (Fl eq_refl))
          as (dl & Hf & Hb).
        unfold _get_atom_names_counter. rewrite Hf, res_bind_ok.
        exists l_nodes, dl. split; [reflexivity|]. split; [exact Hb|].
        split; [now apply unique_names|]. split; [apply Forall2_renamed_refl | auto].
      + destruct (rename_loop [] l_nodes [] []) as (new & dl & Hf & Hb & Hnd & _ & _ & HF);
          [intros x p k [] | constructor | intros x [] | exact Hl |].
        unfold _rename_ligand. cbn [app] in *. rewrite Hf, res_bind_ok.
        exists new, dl. split; [reflexivity|]. split; [exact Hb|]. split; [exact Hnd|].
        split; [|discriminate].
        eapply Forall2_impl; [|exact HF]. now intros a a' (H & _).
    - destruct (rename_loop [] l_nodes [] []) as (new & dl & Hf & Hb & Hnd & _ & _ & HF);
        [intros x p k [] | constructor | intros x [] | exact Hl |].
      unfold _rename_ligand. cbn [app] in *. rewrite Hf, res_bind_ok.
      exists new, dl. split; [reflexivity|]. split; [exact Hb|]. split; [exact Hnd|].
      split; [eapply Forall2_impl; [|exact HF]; now intros a a' (H & _)|].
      intros Hu. apply unique_names in Hu. congruence. }
  destruct L as (l' & dl & -> & Hbl & Hndl & HFl & Hkeepl). rewrite res_bind_ok.
  (* the right molecule *)
  destruct (forallb _ r_nodes) eqn:Hr.
  2:{ destruct Fr as [->| ->]; [reflexivity|]. rewrite res_bind_ok.
      cbn [negb]. rewrite orb_true_r. cbn [orb].
      unfold _rename_ligand. now rewrite (rename_loop_fails _ _ Hr). }
  destruct Fr as (br & -> & Fr). rewrite res_bind_ok.
  match goal with
  | |- context [if ?c then _ else _] => destruct c eqn:Ec
  end.
  - destruct (rename_loop (map name l') r_nodes [] dl)
      as (new & dr & Hf & _ & Hnd & Hk & _ & HF);
      [now rewrite app_nil_r | constructor | intros x [] | exact Hr |].
    unfold _rename_ligand. cbn [app] in *. rewrite Hf, res_bind_ok.
    exists l', new. split; [reflexivity|]. split; [|split; [exact HFl|split]].
    + rewrite map_app. apply List.NoDup_app; [exact Hndl | exact Hnd |].
      intros x Hx Hx'. now apply (Hk x).
    + eapply Forall2_impl; [|exact HF]. now intros a a' (H & _).
    + intros Hu Hfl Hfr. exfalso.
      rewrite map_app in Hu. inversion Hfl; inversion Hfr; subst bl br.
      rewrite (Hkeepl (NoDup_app_remove_r _ _ Hu) eq_refl) in Ec.
      apply orb_true_iff in Ec. destruct Ec as [Ec|Ec].
      * apply orb_true_iff in Ec. destruct Ec as [Ec|Ec]; [|discriminate].
        apply negb_true_iff in Ec.
        rewrite (proj2 (unique_names _) (NoDup_app_remove_l _ _ Hu)) in Ec. discriminate.
      * apply not_false_iff_true in Ec. apply Ec. apply no_overlap.
        intros x Hxr Hxl. now apply (NoDup_app_disjoint _ _ Hu x).
  - apply orb_false_iff in Ec. destruct Ec as (Ec & Eo).
    apply orb_false_iff in Ec. destruct Ec as (Eu & _).
    apply negb_false_iff, unique_names in Eu.
    exists l', r_nodes. split; [reflexivity|]. split; [|split; [exact HFl|split]].
    + rewrite map_app. apply List.NoDup_app; [exact Hndl | exact Eu |].
      intros x Hx Hx'. apply (proj1 (no_overlap _ _) Eo x Hx' Hx).
    + apply Forall2_renamed_refl.
    + intros Hu Hfl _. split; [|reflexivity]. inversion Hfl; subst bl.
      rewrite map_app in Hu. now apply Hkeepl; [apply (NoDup_app_remove_r _ _ Hu)|].
Qed.
End NamesFacts.

Lemma ascii_digits_no_letters c :
  In c (list_ascii_of_string "-0123456789") -> Names.isalpha c = false.
Proof.
  simpl. intros H.
  repeat (destruct H as [<-|H]; [reflexivity|]). destruct H.
Qed.

(** What [int] reads and what it refuses *)
Example py_int_examples :
  map Names.py_int ["12"; "007"; " 5 "; "+5"; "-12"; "1_0"; "-0";
                    ""; "-"; "_1"; "1_"; "1__0"; "- 5"; "1a"; "+-5"; "5 5"]
  = [Some 12; Some 7; Some 5; Some 5; Some (-12); Some 10; Some 0;
     None; None; None; None; None; None; None; None; None]%Z.
Proof. vm_compute. reflexivity. Qed.

Lemma digits_of_uint d acc :
  Names.digits (NilEmpty.string_of_uint d) acc true = Some (Names.uint_value d acc).
Proof.
  revert acc. induction d; intros acc; cbn [NilEmpty.string_of_uint Names.digits Names.uint_value];
    [reflexivity | ..]; rewrite <- IHd; reflexivity.
Qed.

Lemma digits_of_uint_first d acc :
  d <> Decimal.Nil ->
  Names.digits (NilEmpty.string_of_uint d) acc false = Some (Names.uint_value d acc).
Proof.
  intros H. destruct d; [congruence | ..];
    cbn [NilEmpty.string_of_uint Names.uint_value]; rewrite <- digits_of_uint; reflexivity.
Qed.

Lemma uint_value_acc d acc : Names.uint_value d (Z.pos acc) = Z.pos (Pos.of_uint_acc d acc).
Proof.
  revert acc. induction d; intros acc; cbn [Names.uint_value Pos.of_uint_acc]; [reflexivity | ..];
    (etransitivity; [|apply IHd]); f_equal; lia.
Qed.

Lemma uint_value_0 d : Names.uint_value d 0 = Z.of_N (Pos.of_uint d).
Proof.
  induction d; cbn [Names.uint_value Pos.of_uint Z.mul Z.add Z.of_N];
    [reflexivity | exact IHd | ..]; apply uint_value_acc.
Qed.

Lemma to_uint_value p : Names.uint_value (Pos.to_uint p) 0 = Z.pos p.
Proof. now rewrite uint_value_0, DecimalPos.Unsigned.of_to. Qed.

Lemma to_uint_nonnil p : Pos.to_uint p <> Decimal.Nil.
Proof.
  intros E. pose proof (DecimalPos.Unsigned.of_to p) as H. rewrite E in H. discriminate H.
Qed.

Lemma strip_of_uint d :
  Names.lstrip (NilEmpty.string_of_uint d) = NilEmpty.string_of_uint d
  /\ Names.rstrip (NilEmpty.string_of_uint d) = NilEmpty.string_of_uint d.
Proof.
  split; [destruct d; reflexivity|].
  induction d; cbn [NilEmpty.string_of_uint Names.rstrip]; [reflexivity | ..];
    rewrite IHd; destruct (NilEmpty.string_of_uint d); reflexivity.
Qed.

Lemma decimal_int_of_str z : Names.py_int (py_str z) = Some z.
Proof.
  unfold Names.py_int, py_str. destruct z as [|p|p]; [reflexivity | |];
    cbn [Z.to_int NilEmpty.string_of_int].
  - destruct (strip_of_uint (Pos.to_uint p)) as (-> & ->).
    pose proof (to_uint_nonnil p) as Hn. pose proof (to_uint_value p) as Hv.
    rewrite <- Hv, <- (digits_of_uint_first _ 0%Z Hn).
    destruct (Pos.to_uint p); [congruence | ..]; reflexivity.
  - cbn [Names.lstrip]. change (Names.isspace "-") with false. cbn iota.
    cbn [Names.rstrip]. destruct (strip_of_uint (Pos.to_uint p)) as (_ & ->).
    pose proof (to_uint_nonnil p) as Hn.
    destruct (NilEmpty.string_of_uint (Pos.to_uint p)) eqn:E.
    { destruct (Pos.to_uint p); [congruence | ..]; discriminate E. }
    rewrite <- E. change (Names.isspace "-") with false.
    rewrite (digits_of_uint_first _ 0%Z Hn), to_uint_value. reflexivity.
Qed.

Lemma rename_ligand_spec_witness :
  exists atoms' d',
    _rename_ligand Names.isalpha Names.L (Some [("C", 7%Z)]) = Ok (atoms', d')
    /\ map name atoms' = ["C8"; "C9"; "N1"]
    /\ List.NoDup (map name atoms').
Proof.
  assert (Hnd : List.NoDup Names.L)
    by (apply (nodupb_NoDup atom_eqb atom_eqb_eq); vm_compute; reflexivity).
  destruct (rename_ligand_spec Names.isalpha ascii_digits_no_letters Names.L
              (Some [("C", 7%Z)]) Hnd) as (atoms' & d' & E & Hu & _).
  exists atoms', d'. split; [exact E|]. split; [|exact Hu].
  vm_compute in E. now inversion E.
Defined.

Lemma rename_ligands_unique_witness :
  exists l_nodes' r_nodes',
    rename_ligands Names.isalpha Names.py_int Names.L Names.R = Ok (l_nodes', r_nodes')
    /\ map name l_nodes' = ["C1"; "C2"; "N1"] /\ map name r_nodes' = ["C3"; "N2"]
    /\ List.NoDup (map name (l_nodes' ++ r_nodes')).
Proof.
  assert (Hnd : List.NoDup (Names.L ++ Names.R))
    by (apply (nodupb_NoDup atom_eqb atom_eqb_eq); vm_compute; reflexivity).
  destruct (rename_ligands_unique Names.isalpha Names.py_int ascii_digits_no_letters
              decimal_int_of_str Names.L Names.R Hnd) as (l' & r' & E & Hu & _).
  exists l', r'. split; [exact E|].
  vm_compute in E. inversion E; subst l' r'. repeat split. exact Hu.
Defined.

(** ** The starting configurations *)

(** [[l.remove(a) for a in carbons if a in l]] on a list of distinct atoms *)
Lemma remove_present_loop (carbons l : list AtomNode) :
  List.NoDup l ->
  foldM (fun atoms_starting a =>
           if py_in atom_eqb a atoms_starting
           then list_remove atom_eqb a atoms_starting
           else Ok atoms_starting) carbons l
  = Ok (List.filter (fun x => negb (py_in atom_eqb x carbons)) l).
Proof.
  revert l. induction carbons as [|a carbons IH]; intros l Hnd; cbn [foldM].
  { f_equal. symmetry. apply forallb_filter_id. now apply forallb_forall. }
  destruct (py_in atom_eqb a l) eqn:Ea.
  - apply (py_in_In atom_eqb atom_eqb_eq) in Ea.
    rewrite (list_remove_NoDup atom_eqb atom_eqb_eq a l Hnd Ea), res_bind_ok.
    rewrite IH by now apply NoDup_filter'.
    rewrite filter_filter. f_equal. apply filter_ext. intros x.
    cbn [py_in existsb]. rewrite negb_orb. reflexivity.
  - rewrite res_bind_ok, IH by exact Hnd. f_equal. apply filter_ext_in. intros x Hx.
    cbn [py_in existsb]. rewrite negb_orb.
    replace (atom_eqb x a) with false; [reflexivity|]. symmetry.
    apply (eqb_neq atom_eqb atom_eqb_eq). intros ->.
    apply (py_in_not_In atom_eqb atom_eqb_eq) in Ea. contradiction.
Qed.

Lemma take_pairs_incl desired groups init c p :
  In p (take_pairs desired groups init c) ->
  In p init \/ exists g, In g groups /\ In p (list_prod (fst g) (snd g)).
Proof.
  revert init c. induction groups as [|[gl gr] groups IH]; intros init c; cbn [take_pairs].
  { now left. }
  destruct (_ <? _)%Z.
  - intros H. apply in_app_iff in H. destruct H as [H|H]; [now left|].
    right. exists (gl, gr). split; [now left | exact H].
  - intros H. apply IH in H. destruct H as [H|(g & Hg & H)].
    + apply in_app_iff in H. destruct H as [H|H]; [now left|].
      right. exists (gl, gr). split; [now left | exact H].
    + right. exists g. split; [now right | exact H].
Qed.

Lemma take_pairs_keeps desired groups init c p :
  In p init -> In p (take_pairs desired groups init c).
Proof.
  revert init c. induction groups as [|[gl gr] groups IH]; intros init c H; cbn [take_pairs].
  { exact H. }
  destruct (_ <? _)%Z; [|apply IH]; apply in_app_iff; now left.
Qed.

Lemma take_pairs_first desired gl gr groups init c p :
  In p (list_prod gl gr) -> In p (take_pairs desired ((gl, gr) :: groups) init c).
Proof.
  intros H. cbn [take_pairs].
  destruct (_ <? _)%Z; [|apply take_pairs_keeps]; apply in_app_iff; now right.
Qed.

Lemma drop_cycle_carbons_spec (cycle_basis : Graph -> list (list AtomNode)) g l :
  List.NoDup l ->
  exists l', drop_cycle_carbons cycle_basis g l = Ok l'
             /\ forall a, In a l' <-> In a l /\ ~ ring_carbon cycle_basis g a.
Proof.
  unfold drop_cycle_carbons, ring_carbon.
  generalize (cycle_basis g). intros cycles. revert l.
  induction cycles as [|cycle cycles IH]; intros l Hnd; cbn [foldM].
  { exists l. split; [reflexivity|]. intros a. split; [|tauto].
    intros H. split; [exact H|]. intros (_ & c & [] & _). }
  rewrite remove_present_loop by exact Hnd. rewrite res_bind_ok.
  match goal with
  | |- context [foldM _ cycles (List.filter ?f l)] =>
      destruct (IH _ (NoDup_filter' f l Hnd)) as (l' & -> & Hl')
  end.
  exists l'. split; [reflexivity|]. intros a.
  rewrite Hl', filter_In, negb_true_iff, (py_in_not_In atom_eqb atom_eqb_eq), filter_In,
    String.eqb_eq.
  split.
  - intros ((Ha & Hc) & Hr). split; [exact Ha|]. intros (Ec & c & [<-|Hin] & Hac).
    + apply Hc. now split.
    + apply Hr. split; [exact Ec|]. eauto.
  - intros (Ha & Hr). split; [split; [exact Ha|]|].
    + intros (Hac & Ec). apply Hr. split; [exact Ec|]. exists cycle. split; [now left|exact Hac].
    + intros (Ec & c & Hin & Hac). apply Hr. split; [exact Ec|]. exists c. split; [now right|exact Hac].
Qed.

Section StartingFacts.
Variable bonds : AtomNode -> list (AtomNode * bond).
Variable cycle_basis : Graph -> list (list AtomNode).
Variable iteration_order : list string -> list string.
(** Iterating over a set visits its elements. *)
Hypothesis iteration_order_perm : forall s, Permutation (iteration_order s) s.


Lemma common_types_In (ls rs : list AtomNode) t :
  In t (common_types iteration_order ls rs)
  <-> (exists l, In l ls /\ type l = t) /\ (exists r, In r rs /\ type r = t).
Proof using iteration_order_perm.
  unfold common_types, set_inter.
  assert (P : forall x s, In x (iteration_order s) <-> In x s).
  { intros x s. split; apply Permutation_in;
      [apply iteration_order_perm | apply Permutation_sym, iteration_order_perm]. }
  rewrite P, filter_In, (py_in_In String.eqb String.eqb_eq),
    !(set_of_list_In String.eqb String.eqb_eq), !in_map_iff.
  split; intros ((l & H1 & H2) & (r & H3 & H4)); split; eauto.
Qed.

(** X21: on two lists of distinct atoms [get_starting_configurations]
    returns. Every pair it returns joins an atom of the left and an atom of
    the right molecule that are no hydrogens, have the same type and, with
    [filter_ring_c], are no carbons of a cycle of the cycle basis; it
    returns no pair exactly when no two such atoms exist. *)
Theorem get_starting_configurations_spec left_atoms right_atoms fraction filter_ring_c :
  List.NoDup left_atoms -> List.NoDup right_atoms ->
  let start_left a :=
    In a left_atoms /\ element a <> "H"
    /\ (filter_ring_c = true ->
        ~ ring_carbon cycle_basis (generate_nxg_from_list bonds left_atoms) a) in
  let start_right a :=
    In a right_atoms /\ element a <> "H"
    /\ (filter_ring_c = true ->
        ~ ring_carbon cycle_basis
            (generate_nxg_from_list bonds
               (List.filter (fun a => negb (String.eqb (element a) "H")) right_atoms)) a) in
  exists starting_configurations,
    get_starting_configurations bonds cycle_basis iteration_order
      left_atoms right_atoms fraction filter_ring_c = Ok starting_configurations
    /\ (forall l r, In (l, r) starting_configurations ->
                    start_left l /\ start_right r /\ type l = type r)
    /\ (starting_configurations = []
        <-> ~ exists l r, start_left l /\ start_right r /\ type l = type r).
Proof using iteration_order_perm.
  intros Hl Hr start_left start_right. unfold get_starting_configurations.
  set (noh := fun a : AtomNode => negb (String.eqb (element a) "H")).
  assert (Hnoh : forall a, noh a = true <-> element a <> "H").
  { intros a. unfold noh. now rewrite negb_true_iff, String.eqb_neq. }
  assert (S : exists ls rs,
             (if filter_ring_c
              then left_atoms_starting ←
                     drop_cycle_carbons cycle_basis (generate_nxg_from_list bonds left_atoms)
                       (List.filter noh left_atoms);
                   right_atoms_starting ←
                     drop_cycle_carbons cycle_basis
                       (generate_nxg_from_list bonds (List.filter noh right_atoms))
                       (List.filter noh right_atoms);
                   Ok (left_atoms_starting, right_atoms_starting)
              else Ok (List.filter noh left_atoms, List.filter noh right_atoms))
             = Ok (ls, rs)
             /\ (forall a, In a ls <-> start_left a) /\ (forall a, In a rs <-> start_right a)).
  { destruct filter_ring_c.
    - destruct (drop_cycle_carbons_spec cycle_basis (generate_nxg_from_list bonds left_atoms)
                  (List.filter noh left_atoms) (NoDup_filter' _ _ Hl)) as (ls & -> & Hls).
      destruct (drop_cycle_carbons_spec cycle_basis
                  (generate_nxg_from_list bonds (List.filter noh right_atoms))
                  (List.filter noh right_atoms) (NoDup_filter' _ _ Hr)) as (rs & -> & Hrs).
      exists ls, rs. split; [reflexivity|].
      split; intros a; [rewrite Hls | rewrite Hrs]; rewrite filter_In, Hnoh;
        unfold start_left, start_right; tauto.
    - exists (List.filter noh left_atoms), (List.filter noh right_atoms).
      split; [reflexivity|].
      split; intros a; rewrite filter_In, Hnoh; unfold start_left, start_right;
        intuition discriminate. }
  destruct S as (ls & rs & -> & Hls & Hrs). rewrite res_bind_ok.
  set (groups := py_sort rarity_le _).
  assert (Hg : forall g, In g groups <->
                 exists t, In t (common_types iteration_order ls rs)
                           /\ g = (List.filter (fun a => String.eqb (type a) t) ls,
                                   List.filter (fun a => String.eqb (type a) t) rs)).
  { intros g. unfold groups. split.
    - intros H. apply (Permutation_in _ (py_sort_perm rarity_le _)) in H.
      apply in_map_iff in H. destruct H as (t & <- & Ht). eauto.
    - intros (t & Ht & ->). apply (Permutation_in _ (Permutation_sym (py_sort_perm rarity_le _))).
      apply in_map_iff. eauto. }
  eexists. split; [reflexivity|]. split.
  - intros l r H. apply take_pairs_incl in H. destruct H as [[]|(g & Hin & H)].
    apply Hg in Hin. destruct Hin as (t & _ & ->). cbn [fst snd] in H.
    apply in_prod_iff in H. rewrite !filter_In, !String.eqb_eq in H.
    destruct H as ((H1 & E1) & (H2 & E2)).
    split; [now apply Hls|]. split; [now apply Hrs | congruence].
  - split.
    + intros E (l & r & H1 & H2 & Et).
      assert (Ht : In (type l) (common_types iteration_order ls rs)).
      { apply common_types_In. split; [exists l | exists r]; split; auto; now apply Hls || apply Hrs. }
      assert (Hin0 : In (List.filter (fun a => String.eqb (type a) (type l)) ls,
                         List.filter (fun a => String.eqb (type a) (type l)) rs) groups)
        by (apply Hg; eauto).
      destruct groups as [|[gl gr] rest] eqn:Eg; [destruct Hin0|].
      destruct (proj1 (Hg (gl, gr)) (or_introl eq_refl)) as (t & Ht' & Egl).
      apply common_types_In in Ht'. destruct Ht' as ((l' & Hl' & El') & (r' & Hr' & Er')).
      assert (Hp : In (l', r') (list_prod gl gr)).
      { inversion Egl; subst gl gr. apply in_prod_iff.
        rewrite !filter_In, !String.eqb_eq. auto. }
      match type of E with
      | take_pairs ?d _ _ _ = _ =>
          pose proof (take_pairs_first d gl gr rest [] 0%nat _ Hp) as Hp'
      end.
      rewrite E in Hp'. destruct Hp'.
    + intros Hno.
      match goal with
      | |- take_pairs ?d _ _ _ = [] =>
          destruct (take_pairs d groups [] 0%nat) as [|[l r] rest] eqn:E; [reflexivity|];
          assert (H : In (l, r) (take_pairs d groups [] 0%nat)) by (rewrite E; now left)
      end.
      exfalso. apply Hno.
      apply take_pairs_incl in H. destruct H as [[]|(g & Hin & H)].
      apply Hg in Hin. destruct Hin as (t & _ & ->). cbn [fst snd] in H.
      apply in_prod_iff in H. rewrite !filter_In, !String.eqb_eq in H.
      destruct H as ((H1 & E1) & (H2 & E2)).
      exists l, r. split; [now apply Hls|]. split; [now apply Hrs | congruence].
Qed.
End StartingFacts.

Lemma get_starting_configurations_spec_witness :
  exists starting_configurations,
    get_starting_configurations Chain.bonds (fun _ => []) (fun s => s)
      Chain.L Chain.R (1 # 5) true = Ok starting_configurations
    /\ starting_configurations = [(Chain.C1, Chain.C11)]
    /\ forall l r, In (l, r) starting_configurations ->
                   In l Chain.L /\ In r Chain.R /\ type l = type r.
Proof.
  assert (Hl : List.NoDup Chain.L)
    by (apply (nodupb_NoDup atom_eqb atom_eqb_eq); vm_compute; reflexivity).
  assert (Hr : List.NoDup Chain.R)
    by (apply (nodupb_NoDup atom_eqb atom_eqb_eq); vm_compute; reflexivity).
  destruct (get_starting_configurations_spec Chain.bonds (fun _ => []) (fun s => s)
              (fun s => Permutation_refl s) Chain.L Chain.R (1 # 5) true Hl Hr)
    as (seeds & E & Hs & _).
  exists seeds. split; [exact E|]. split.
  - vm_compute in E. now inversion E.
  - intros l r H. destruct (Hs l r H) as ((H1 & _) & (H2 & _) & H3). auto.
Defined.
